(** * Collection-service workflow of project-economic

    A shallow embedding of [src/services/servicioRecogidaService.ts]
    (crearServicioRecogida, actualizarServicioRecogida,
    eliminarServicioRecogida), of [src/lib/utils.ts] (serializeBigInt) and of
    the POST and PUT branches of [pages/api/servicios-recogida.ts].

    The TypeScript code computes with three kinds of numbers, all kept apart
    here as the code keeps them apart:
    - [number]: an IEEE-754 binary64 value (with NaN, the infinities and the
      signed zeros), taken from the Standard Library's [spec_float];
    - [Decimal]: a [Prisma.Decimal], i.e. a decimal.js value: NaN, an
      infinity, or an integer coefficient times a power of ten;
    - [bigint] identifiers, which are [Z].

    The Prisma client is modelled as an explicit store that is threaded
    through every call together with a log of the calls made. *)

From Stdlib Require Import ZArith QArith Qpower Qround Qfield Bool List Lia Ascii String.
From Stdlib Require Import Floats.SpecFloat.
From Stdlib Require Import DecimalString DecimalZ.
From stdpp Require Import gmap.
From Stdlib Require Import Lqa.
Import ListNotations.
Open Scope Z_scope.
Set Warnings "-register-all".

(** ** JavaScript numbers *)

Module Number.

(** A JavaScript [number]. *)
Definition number : Type := spec_float.

Definition prec : Z := 53.
Definition emax : Z := 1024.

Definition NaN : number := S754_nan.
Definition zero : number := S754_zero false.

(** [x <= y] and [x < y] on numbers; both are [false] when an operand is
    NaN. *)
Definition leb (x y : number) : bool := SFleb x y.
Definition ltb (x y : number) : bool := SFltb x y.

(** The same number of the model (NaN included, the zeros told apart). *)
Definition eqb (x y : number) : bool :=
  match x, y with
  | S754_zero s, S754_zero t => Bool.eqb s t
  | S754_infinity s, S754_infinity t => Bool.eqb s t
  | S754_nan, S754_nan => true
  | S754_finite s m e, S754_finite t n f =>
      Bool.eqb s t && Pos.eqb m n && Z.eqb e f
  | _, _ => false
  end.

(** The number nearest to [c * 10 ^ q] for [0 < c], with sign [s]: the
    value of a decimal literal (round to nearest, ties to even). *)
Definition of_decimal (s : bool) (c q : Z) : number :=
  if 0 <=? q then
    binary_normalize prec emax (if s then - (c * 10 ^ q) else c * 10 ^ q) 0 s
  else
    let '(mz, ez, lz) := SFdiv_core_binary prec emax c 0 (10 ^ (- q)) 0 in
    binary_round_aux prec emax s mz ez lz.

(** [num / den] as a fraction for the magnitude of a finite number. *)
Definition fraction (m : positive) (e : Z) : Z * Z :=
  if 0 <=? e then (Z.pos m * 2 ^ e, 1) else (Z.pos m, 2 ^ (- e)).

(** [10 ^ t <= num / den]. *)
Definition pow10_le (t num den : Z) : bool :=
  if 0 <=? t then 10 ^ t * den <=? num else den <=? num * 10 ^ (- t).

(** The [n] with [10 ^ (n - 1) <= num / den < 10 ^ n]. *)
Definition magnitude (num den : Z) : Z :=
  let est := (Z.log2 num - Z.log2 den) * 1233 / 4096 in
  let t :=
    if pow10_le (est + 2) num den then est + 2
    else if pow10_le (est + 1) num den then est + 1
    else if pow10_le est num den then est
    else if pow10_le (est - 1) num den then est - 1
    else est - 2 in
  t + 1.

(** The [k]-digit candidates of Number::toString for the magnitude
    [num / den] of the finite number [x]: the two [k]-digit decimals
    around it, those that read back as [x], the nearer one first. *)
Definition candidates (x : number) (num den n k : Z) : list (Z * Z) :=
  let p := n - k in
  let N := if 0 <=? p then num else num * 10 ^ (- p) in
  let D := if 0 <=? p then den * 10 ^ p else den in
  let lo := N / D in
  let r := N mod D in
  let hi := lo + 1 in
  let ordered :=
    if 2 * r <? D then [lo; hi]
    else if D <? 2 * r then [hi; lo]
    else if Z.even lo then [lo; hi] else [hi; lo] in
  map (fun s => (s, p))
      (List.filter (fun s => (0 <? s) && eqb (of_decimal false s p) x) ordered).

Fixpoint shortest (x : number) (num den n : Z) (ks : list Z) : option (Z * Z) :=
  match ks with
  | [] => None
  | k :: ks' =>
      match candidates x num den n k with
      | c :: _ => Some c
      | [] => shortest x num den n ks'
      end
  end.

(** Number::toString of a positive finite number, as the decimal it
    denotes: the fewest digits [s] (at most 17) and the exponent [p] such
    that [s * 10 ^ p] reads back as the number. *)
Definition to_decimal (m : positive) (e : Z) : Z * Z :=
  let '(num, den) := fraction m e in
  let n := magnitude num den in
  match shortest (S754_finite false m e) num den n
          [1;2;3;4;5;6;7;8;9;10;11;12;13;14;15;16;17] with
  | Some c => c
  | None =>
      let p := n - 17 in
      ((if 0 <=? p then num else num * 10 ^ (- p))
         / (if 0 <=? p then den * 10 ^ p else den), p)
  end.

(** The integer a number denotes, when it denotes one. *)
Definition to_integer (x : number) : option Z :=
  match x with
  | S754_zero _ => Some 0
  | S754_finite s m e =>
      let '(num, den) := fraction m e in
      if num mod den =? 0
      then Some (if s then - (num / den) else num / den)
      else None
  | _ => None
  end.

End Number.

Export Number(number).

(** ** Prisma.Decimal (decimal.js) *)

Module Prisma.

(** A decimal.js value: NaN, an infinity with its sign, or the finite
    value [c * 10 ^ e]. *)
Inductive Decimal : Type :=
| DNaN
| DInf (neg : bool)
| DFin (c : Z) (e : Z).

(** decimal.js rounds the result of an arithmetic operation to
    [Decimal.precision] significant digits with rounding mode
    [Decimal.rounding]; the defaults are 20 and ROUND_HALF_UP, and the
    repository never reconfigures them. *)
Definition precision : Z := 20.

(** decimal.js keeps no trailing zeros in the coefficient. *)
Fixpoint strip (fuel : nat) (c e : Z) : Z * Z :=
  match fuel with
  | O => (c, e)
  | S f => if c mod 10 =? 0 then strip f (c / 10) (e + 1) else (c, e)
  end.

Definition normalize (c e : Z) : Decimal :=
  if c =? 0 then DFin 0 0
  else let '(c', e') := strip (Z.to_nat (Z.log2 (Z.abs c))) c e in DFin c' e'.

(** Number of decimal digits of [0 <= c]. *)
Fixpoint digits_fuel (fuel : nat) (c : Z) : Z :=
  match fuel with
  | O => 1
  | S f => if c <? 10 then 1 else 1 + digits_fuel f (c / 10)
  end.

Definition digits10 (c : Z) : Z := digits_fuel (Z.to_nat (Z.log2 c)) c.

(** [c / 10 ^ k] rounded to the nearest integer, a tie going away from
    zero: ROUND_HALF_UP. *)
Definition round_half_up_div (c k : Z) : Z :=
  Z.sgn c * ((2 * Z.abs c + 10 ^ k) / (2 * 10 ^ k)).

(** [finalise(x, sd, ROUND_HALF_UP)]: at most [sd] significant digits. *)
Definition finalise (sd c e : Z) : Decimal :=
  let d := digits10 (Z.abs c) in
  if d <=? sd then normalize c e
  else normalize (round_half_up_div c (d - sd)) (e + (d - sd)).

(** [new Prisma.Decimal(v)] for a number [v]: decimal.js reads the digits
    of [v.toString()]. *)
Definition of_number (v : number) : Decimal :=
  match v with
  | S754_nan => DNaN
  | S754_infinity s => DInf s
  | S754_zero _ => DFin 0 0
  | S754_finite s m e =>
      let '(c, q) := Number.to_decimal m e in
      normalize (if s then - c else c) q
  end.

(** [x.toNumber()]: the number nearest to [x]. *)
Definition toNumber (x : Decimal) : number :=
  match x with
  | DNaN => S754_nan
  | DInf s => S754_infinity s
  | DFin c e =>
      if c =? 0 then S754_zero false
      else Number.of_decimal (c <? 0) (Z.abs c) e
  end.

(** [x.cmp(y)]; [None] stands for the NaN decimal.js returns when an
    operand is NaN. *)
Definition cmp (x y : Decimal) : option comparison :=
  match x, y with
  | DNaN, _ | _, DNaN => None
  | DInf s, DInf t =>
      Some (match s, t with
            | true, false => Lt
            | false, true => Gt
            | _, _ => Eq
            end)
  | DInf s, DFin _ _ => Some (if s then Lt else Gt)
  | DFin _ _, DInf s => Some (if s then Gt else Lt)
  | DFin c1 e1, DFin c2 e2 =>
      let m := Z.min e1 e2 in
      Some (c1 * 10 ^ (e1 - m) ?= c2 * 10 ^ (e2 - m))
  end.

(** [x.greaterThan(y)] is [x.cmp(y) > 0]. *)
Definition greaterThan (x y : Decimal) : bool :=
  match cmp x y with
  | Some Gt => true
  | _ => false
  end.

(** [x.times(y)]. *)
Definition times (x y : Decimal) : Decimal :=
  match x, y with
  | DNaN, _ | _, DNaN => DNaN
  | DInf s, DInf t => DInf (xorb s t)
  | DInf s, DFin c _ | DFin c _, DInf s =>
      if c =? 0 then DNaN else DInf (xorb s (c <? 0))
  | DFin c1 e1, DFin c2 e2 => finalise precision (c1 * c2) (e1 + e2)
  end.

(** [x.toDecimalPlaces(dp, Prisma.Decimal.ROUND_HALF_UP)]. *)
Definition toDecimalPlaces (dp : Z) (x : Decimal) : Decimal :=
  match x with
  | DFin c e =>
      if - dp <=? e then normalize c e
      else normalize (round_half_up_div c (- dp - e)) (- dp)
  | _ => x
  end.

(** The rational a finite decimal denotes. *)
Definition to_Q (c e : Z) : Q := (inject_Z c * (10 # 1) ^ e)%Q.

Definition value (x : Decimal) : option Q :=
  match x with
  | DFin c e => Some (to_Q c e)
  | _ => None
  end.

End Prisma.

Export Prisma(Decimal, DNaN, DInf, DFin).

(** ** Values of a request body *)

(** A field of [req.body]. An array or a plain object is given by the string
    its ToString yields: it is truthy, and [BigInt], [parseFloat] and
    [new Date] all read it through that string. *)
Inductive BodyValue : Type :=
| BUndefined
| BNull
| BBool (b : bool)
| BNumber (n : number)
| BString (s : string)
| BObject (toStr : string).

(** A [Date] is kept as the value it was constructed from: the workflow
    only passes dates on to the store. *)
Inductive Date : Type :=
| NewDate (v : BodyValue).

(** ** Entities *)

Inductive ClienteTipo : Type := HOTEL | SALUD | CASA.

Record Cliente : Type := {
  cliente_nombre : string;
  cliente_tipo : ClienteTipo;
  cliente_direccion : string;
  tarifa_por_m3 : Decimal
}.

Record Vehiculo : Type := {
  matricula : string;
  capacidad_max_m3 : Decimal;
  consumo_combustible_litros : Decimal
}.

Record Trabajador : Type := {
  trabajador_nombre : string;
  rol : string;
  salario_base : Decimal
}.

Record ServicioRecogida : Type := {
  sr_id : Z;
  sr_clienteId : Z;
  sr_vehiculoId : Z;
  sr_trabajadorId : Z;
  sr_fecha : Date;
  sr_volumen_recogido_m3 : Decimal;
  sr_costo_servicio : Decimal
}.

(** The tables behind the Prisma client, keyed by the [bigint] identifier,
    and the sequence the store draws new ServicioRecogida identifiers from. *)
Record DB : Type := {
  clientes : gmap Z Cliente;
  vehiculos : gmap Z Vehiculo;
  trabajadores : gmap Z Trabajador;
  servicios : gmap Z ServicioRecogida;
  secuencia : Z
}.

(** ** Errors *)

(** What the Prisma client itself throws. *)
Inductive PrismaError : Type :=
| StoreUnavailable      (* the call did not reach the store or the store refused it *)
| P2002                 (* unique constraint failed *)
| P2025.                (* the record to update or delete does not exist *)

(** One constructor per [throw new Error(...)] of the service, carrying the
    values interpolated into the message; [ErrPrisma] is an error of the
    client that no [catch] of the service intercepted. *)
Inductive Error : Type :=
| ErrVolumenNoPositivo
| ErrVehiculoNoEncontrado (id : Z)
| ErrExcedeCapacidad (volumen : number) (capacidad : Decimal)
| ErrClienteNoEncontrado (id : Z)
| ErrTrabajadorNoEncontrado (id : Z)
| ErrServicioNoEncontrado (id : Z)
| ErrNoSePudoCrear
| ErrNoSePudoActualizar
| ErrNoSePudoEliminar
| ErrPrisma (e : PrismaError).

Inductive Entidad : Type := EVehiculo | ECliente | ETrabajador | EServicio.

(** The error taxonomy of the specification. *)
Inductive ErrorKind : Type :=
| ValidationError
| NotFoundError (entidad : Entidad) (id : Z)
| CapacityExceededError (attempted : number) (limit : Decimal)
| PersistenceError
| UnwrappedStoreError.

Definition kind (e : Error) : ErrorKind :=
  match e with
  | ErrVolumenNoPositivo => ValidationError
  | ErrVehiculoNoEncontrado id => NotFoundError EVehiculo id
  | ErrExcedeCapacidad v c => CapacityExceededError v c
  | ErrClienteNoEncontrado id => NotFoundError ECliente id
  | ErrTrabajadorNoEncontrado id => NotFoundError ETrabajador id
  | ErrServicioNoEncontrado id => NotFoundError EServicio id
  | ErrNoSePudoCrear | ErrNoSePudoActualizar | ErrNoSePudoEliminar => PersistenceError
  | ErrPrisma _ => UnwrappedStoreError
  end.

(** The failures the service raises from its own checks. *)
Definition is_validation_failure (e : Error) : bool :=
  match kind e with
  | ValidationError | NotFoundError _ _ | CapacityExceededError _ _ => true
  | _ => false
  end.

(** ** The Prisma client *)

(** The calls the service makes on the client. *)
Inductive Llamada : Type :=
| VehiculoFindUnique (id : Z)
| ClienteFindUnique (id : Z)
| TrabajadorFindUnique (id : Z)
| ServicioFindUnique (id : Z)
| ServicioCreate (clienteId vehiculoId trabajadorId : Z) (fecha : Date)
                 (volumen costo : Decimal)
| ServicioUpdate (id clienteId vehiculoId trabajadorId : Z) (fecha : option Date)
                 (volumen costo : Decimal)
| ServicioDelete (id : Z).

Definition is_write (l : Llamada) : bool :=
  match l with
  | ServicioCreate _ _ _ _ _ _ | ServicioUpdate _ _ _ _ _ _ _ | ServicioDelete _ => true
  | _ => false
  end.

(** The state every call runs in: the tables, the calls made so far (oldest
    first), and for each coming call whether the store fails it for reasons
    of its own ([true]; a call beyond the list succeeds). *)
Record Estado : Type := {
  db : DB;
  averias : list bool;
  llamadas : list Llamada
}.

Inductive Resultado (A : Type) : Type :=
| Ok (a : A)
| Throw (e : Error).
Arguments Ok {A} a.
Arguments Throw {A} e.

(** An [async] function of the service. *)
Definition M (A : Type) : Type := Estado -> Resultado A * Estado.

#[global] Instance M_ret : MRet M := fun A a st => (Ok a, st).
#[global] Instance M_bind : MBind M := fun A B k m st =>
  match m st with
  | (Ok a, st') => k a st'
  | (Throw e, st') => (Throw e, st')
  end.

Definition throw {A : Type} (e : Error) : M A := fun st => (Throw e, st).

(** [try { m } catch (error) { h }]. *)
Definition try_catch {A : Type} (m : M A) (h : Error -> M A) : M A := fun st =>
  match m st with
  | (Ok a, st') => (Ok a, st')
  | (Throw e, st') => h e st'
  end.

(** One call on the client: it is logged, it fails if the store is due to
    fail it, and otherwise it runs [op] on the tables. *)
Definition prisma {A : Type} (l : Llamada) (op : DB -> Resultado A * DB) : M A :=
  fun st =>
    match averias st with
    | true :: rest =>
        (Throw (ErrPrisma StoreUnavailable),
         {| db := db st; averias := rest; llamadas := llamadas st ++ [l] |})
    | _ =>
        let '(r, d) := op (db st) in
        (r, {| db := d; averias := tail (averias st); llamadas := llamadas st ++ [l] |})
    end.

Module prisma_vehiculo.
Definition findUnique (id : Z) : M (option Vehiculo) :=
  prisma (VehiculoFindUnique id) (fun d => (Ok (vehiculos d !! id), d)).
End prisma_vehiculo.

Module prisma_cliente.
Definition findUnique (id : Z) : M (option Cliente) :=
  prisma (ClienteFindUnique id) (fun d => (Ok (clientes d !! id), d)).
End prisma_cliente.

Module prisma_trabajador.
Definition findUnique (id : Z) : M (option Trabajador) :=
  prisma (TrabajadorFindUnique id) (fun d => (Ok (trabajadores d !! id), d)).
End prisma_trabajador.

Module prisma_servicioRecogida.

Definition findUnique (id : Z) : M (option ServicioRecogida) :=
  prisma (ServicioFindUnique id) (fun d => (Ok (servicios d !! id), d)).

Definition with_servicios (d : DB) (s : gmap Z ServicioRecogida) (next : Z) : DB :=
  {| clientes := clientes d; vehiculos := vehiculos d;
     trabajadores := trabajadores d; servicios := s; secuencia := next |}.

(** [create]: the record gets the next identifier of the sequence. *)
Definition create (clienteId vehiculoId trabajadorId : Z) (fecha : Date)
    (volumen costo : Decimal) : M ServicioRecogida :=
  prisma (ServicioCreate clienteId vehiculoId trabajadorId fecha volumen costo)
    (fun d =>
       match servicios d !! secuencia d with
       | Some _ => (Throw (ErrPrisma P2002), d)
       | None =>
           let r := {| sr_id := secuencia d; sr_clienteId := clienteId;
                       sr_vehiculoId := vehiculoId; sr_trabajadorId := trabajadorId;
                       sr_fecha := fecha; sr_volumen_recogido_m3 := volumen;
                       sr_costo_servicio := costo |} in
           (Ok r, with_servicios d (<[secuencia d := r]> (servicios d)) (secuencia d + 1))
       end).

(** [update]: a field given as [undefined] ([None]) is left as it is. *)
Definition update (id clienteId vehiculoId trabajadorId : Z) (fecha : option Date)
    (volumen costo : Decimal) : M ServicioRecogida :=
  prisma (ServicioUpdate id clienteId vehiculoId trabajadorId fecha volumen costo)
    (fun d =>
       match servicios d !! id with
       | None => (Throw (ErrPrisma P2025), d)
       | Some old =>
           let r := {| sr_id := sr_id old; sr_clienteId := clienteId;
                       sr_vehiculoId := vehiculoId; sr_trabajadorId := trabajadorId;
                       sr_fecha := default (sr_fecha old) fecha;
                       sr_volumen_recogido_m3 := volumen;
                       sr_costo_servicio := costo |} in
           (Ok r, with_servicios d (<[id := r]> (servicios d)) (secuencia d))
       end).

(** [delete]: the client throws P2025 when there is no such record. *)
Definition delete (id : Z) : M ServicioRecogida :=
  prisma (ServicioDelete id)
    (fun d =>
       match servicios d !! id with
       | None => (Throw (ErrPrisma P2025), d)
       | Some r => (Ok r, with_servicios d (base.delete id (servicios d)) (secuencia d))
       end).

End prisma_servicioRecogida.

(** ** src/services/servicioRecogidaService.ts *)

Record CreateServicioRecogidaData : Type := {
  clienteId : Z;
  vehiculoId : Z;
  trabajadorId : Z;
  fecha : Date;
  volumen_recogido_m3 : number
}.

(** The [data] of an update; [None] is a field that is [undefined]. *)
Record UpdateServicioRecogidaData : Type := {
  upd_clienteId : option Z;
  upd_vehiculoId : option Z;
  upd_trabajadorId : option Z;
  upd_fecha : option Date;
  upd_volumen_recogido_m3 : option number
}.

(** [volumen.times(tarifa).toDecimalPlaces(2, Prisma.Decimal.ROUND_HALF_UP)]. *)
Definition costo (volumen tarifa : Decimal) : Decimal :=
  Prisma.toDecimalPlaces 2 (Prisma.times volumen tarifa).

Definition crearServicioRecogida (data : CreateServicioRecogidaData)
  : M ServicioRecogida :=
  let clienteId := clienteId data in
  let vehiculoId := vehiculoId data in
  let trabajadorId := trabajadorId data in
  let fecha := fecha data in
  let volumen_recogido_m3 := volumen_recogido_m3 data in
  if Number.leb volumen_recogido_m3 Number.zero then throw ErrVolumenNoPositivo
  else
    vehiculo ← prisma_vehiculo.findUnique vehiculoId;
    match vehiculo with
    | None => throw (ErrVehiculoNoEncontrado vehiculoId)
    | Some vehiculo =>
        let volumenRecogidoDecimal := Prisma.of_number volumen_recogido_m3 in
        if Prisma.greaterThan volumenRecogidoDecimal (capacidad_max_m3 vehiculo)
        then throw (ErrExcedeCapacidad volumen_recogido_m3 (capacidad_max_m3 vehiculo))
        else
          cliente ← prisma_cliente.findUnique clienteId;
          match cliente with
          | None => throw (ErrClienteNoEncontrado clienteId)
          | Some cliente =>
              trabajador ← prisma_trabajador.findUnique trabajadorId;
              match trabajador with
              | None => throw (ErrTrabajadorNoEncontrado trabajadorId)
              | Some _ =>
                  let costoServicio :=
                    costo volumenRecogidoDecimal (tarifa_por_m3 cliente) in
                  try_catch
                    (prisma_servicioRecogida.create clienteId vehiculoId trabajadorId
                       fecha volumenRecogidoDecimal costoServicio)
                    (fun _ => throw ErrNoSePudoCrear)
              end
          end
    end.

Definition actualizarServicioRecogida (id : Z) (data : UpdateServicioRecogidaData)
  : M ServicioRecogida :=
  let clienteId := upd_clienteId data in
  let vehiculoId := upd_vehiculoId data in
  let trabajadorId := upd_trabajadorId data in
  let fecha := upd_fecha data in
  let volumen_recogido_m3 := upd_volumen_recogido_m3 data in
  servicioExistente ← prisma_servicioRecogida.findUnique id;
  match servicioExistente with
  | None => throw (ErrServicioNoEncontrado id)
  | Some servicioExistente =>
      let finalClienteId := default (sr_clienteId servicioExistente) clienteId in
      let finalVehiculoId := default (sr_vehiculoId servicioExistente) vehiculoId in
      let finalTrabajadorId := default (sr_trabajadorId servicioExistente) trabajadorId in
      let finalVolumenRecogido :=
        default (Prisma.toNumber (sr_volumen_recogido_m3 servicioExistente))
                volumen_recogido_m3 in
      if Number.leb finalVolumenRecogido Number.zero then throw ErrVolumenNoPositivo
      else
        vehiculo ← prisma_vehiculo.findUnique finalVehiculoId;
        match vehiculo with
        | None => throw (ErrVehiculoNoEncontrado finalVehiculoId)
        | Some vehiculo =>
            let volumenRecogidoDecimal := Prisma.of_number finalVolumenRecogido in
            if Prisma.greaterThan volumenRecogidoDecimal (capacidad_max_m3 vehiculo)
            then throw (ErrExcedeCapacidad finalVolumenRecogido (capacidad_max_m3 vehiculo))
            else
              cliente ← prisma_cliente.findUnique finalClienteId;
              match cliente with
              | None => throw (ErrClienteNoEncontrado finalClienteId)
              | Some cliente =>
                  trabajador ← prisma_trabajador.findUnique finalTrabajadorId;
                  match trabajador with
                  | None => throw (ErrTrabajadorNoEncontrado finalTrabajadorId)
                  | Some _ =>
                      let costoServicio :=
                        costo volumenRecogidoDecimal (tarifa_por_m3 cliente) in
                      try_catch
                        (prisma_servicioRecogida.update id finalClienteId
                           finalVehiculoId finalTrabajadorId fecha
                           volumenRecogidoDecimal costoServicio)
                        (fun _ => throw ErrNoSePudoActualizar)
                  end
              end
        end
  end.

Definition eliminarServicioRecogida (id : Z) : M ServicioRecogida :=
  try_catch (prisma_servicioRecogida.delete id) (fun _ => throw ErrNoSePudoEliminar).

(** ** src/lib/utils.ts *)

(** The values [serializeBigInt] is applied to. A plain object is the list
    of its own enumerable properties in enumeration order; an object with a
    [toJSON] method, as a [Date] and a [Prisma.Decimal] are, is given by what
    the method returns: a string, or [null] ([None], an invalid date). *)
Inductive JsValue : Type :=
| VUndefined
| VNull
| VBool (b : bool)
| VNumber (n : number)
| VBigInt (z : Z)
| VString (s : string)
| VArray (items : list JsValue)
| VObject (props : list (string * JsValue))
| VToJSON (json : option string).

(** A JSON text, as its syntax tree; a number token is kept as the number it
    reads back as. *)
Inductive Json : Type :=
| JNull
| JBool (b : bool)
| JNumber (n : number)
| JString (s : string)
| JArray (items : list Json)
| JObject (members : list (string * Json)).

Inductive JsResult (A : Type) : Type :=
| Value (a : A)
| TypeError          (* "Do not know how to serialize a BigInt" *)
| SyntaxError        (* JSON.parse of something that is no JSON text *)
| OutOfFuel.
Arguments Value {A} a.
Arguments TypeError {A}.
Arguments SyntaxError {A}.
Arguments OutOfFuel {A}.

(** [z.toString()] of a bigint: base 10, with a minus sign when negative. *)
Definition BigInt_toString (z : Z) : string := NilEmpty.string_of_int (Z.to_int z).

(** The replacer of [serializeBigInt]:
    [(key, value) => typeof value === 'bigint' ? value.toString() : value]. *)
Definition replacer (key : string) (value : JsValue) : JsValue :=
  match value with
  | VBigInt z => VString (BigInt_toString z)
  | _ => value
  end.

Module JSON.

Section Stringify.
Variable SerializeJSONProperty : string -> JsValue -> JsResult (option Json).

(** An element that serializes to [undefined] is written as [null]. *)
Fixpoint SerializeJSONArray (index : Z) (items : list JsValue)
  : JsResult (list Json) :=
  match items with
  | [] => Value []
  | x :: rest =>
      match SerializeJSONProperty (BigInt_toString index) x with
      | Value j =>
          match SerializeJSONArray (index + 1) rest with
          | Value js => Value (default JNull j :: js)
          | TypeError => TypeError
          | SyntaxError => SyntaxError
          | OutOfFuel => OutOfFuel
          end
      | TypeError => TypeError
      | SyntaxError => SyntaxError
      | OutOfFuel => OutOfFuel
      end
  end.

(** A property that serializes to [undefined] is left out. *)
Fixpoint SerializeJSONObject (props : list (string * JsValue))
  : JsResult (list (string * Json)) :=
  match props with
  | [] => Value []
  | (k, x) :: rest =>
      match SerializeJSONProperty k x with
      | Value j =>
          match SerializeJSONObject rest with
          | Value js =>
              Value (match j with Some j' => (k, j') :: js | None => js end)
          | TypeError => TypeError
          | SyntaxError => SyntaxError
          | OutOfFuel => OutOfFuel
          end
      | TypeError => TypeError
      | SyntaxError => SyntaxError
      | OutOfFuel => OutOfFuel
      end
  end.
End Stringify.

(** The value [toJSON] gives, for an object that has the method. *)
Definition apply_toJSON (value : JsValue) : JsValue :=
  match value with
  | VToJSON (Some s) => VString s
  | VToJSON None => VNull
  | _ => value
  end.

(** SerializeJSONProperty: [toJSON] is called where there is one, the
    replacer is applied to the value, and what it returns is serialized;
    [None] is the result [undefined]. An object with [toJSON] that the
    replacer itself returns has no property of its own to write. *)
Fixpoint SerializeJSONProperty (fuel : nat)
    (replacer : string -> JsValue -> JsValue) (key : string) (value : JsValue)
  : JsResult (option Json) :=
  match fuel with
  | O => OutOfFuel
  | S fuel' =>
      match replacer key (apply_toJSON value) with
      | VUndefined => Value None
      | VNull => Value (Some JNull)
      | VBool b => Value (Some (JBool b))
      | VNumber n =>
          Value (Some (match n with
                       | S754_zero _ => JNumber (S754_zero false)
                       | S754_finite _ _ _ => JNumber n
                       | _ => JNull
                       end))
      | VBigInt _ => TypeError
      | VString s => Value (Some (JString s))
      | VArray items =>
          match SerializeJSONArray (SerializeJSONProperty fuel' replacer) 0 items with
          | Value js => Value (Some (JArray js))
          | TypeError => TypeError
          | SyntaxError => SyntaxError
          | OutOfFuel => OutOfFuel
          end
      | VObject props =>
          match SerializeJSONObject (SerializeJSONProperty fuel' replacer) props with
          | Value js => Value (Some (JObject js))
          | TypeError => TypeError
          | SyntaxError => SyntaxError
          | OutOfFuel => OutOfFuel
          end
      | VToJSON _ => Value (Some (JObject []))
      end
  end.

(** Nesting depth of a value. *)
Fixpoint depth (v : JsValue) : nat :=
  match v with
  | VArray items => S (fold_right (fun x d => Nat.max (depth x) d) O items)
  | VObject props => S (fold_right (fun p d => Nat.max (depth (snd p)) d) O props)
  | _ => O
  end.

(** [JSON.stringify(value, replacer)]; the fuel covers the nesting of the
    value when the replacer returns nothing deeper than what it is given,
    as the replacer of this repository does. *)
Definition stringify (value : JsValue) (replacer : string -> JsValue -> JsValue)
  : JsResult (option Json) :=
  SerializeJSONProperty (S (depth value)) replacer EmptyString value.

(** CreateDataProperty on the list of properties: a key that is already
    there keeps its place and takes the new value. *)
Fixpoint put (k : string) (v : JsValue) (props : list (string * JsValue))
  : list (string * JsValue) :=
  match props with
  | [] => [(k, v)]
  | (k', v') :: rest =>
      if String.eqb k k' then (k, v) :: rest else (k', v') :: put k v rest
  end.

Fixpoint revive (j : Json) : JsValue :=
  match j with
  | JNull => VNull
  | JBool b => VBool b
  | JNumber n => VNumber n
  | JString s => VString s
  | JArray items => VArray (map revive items)
  | JObject members =>
      VObject (fold_left (fun props m => put (fst m) (revive (snd m)) props)
                         members [])
  end.

(** [JSON.parse(text)]; [JSON.stringify] hands it [undefined] when the
    value itself serializes to [undefined], which is no JSON text. *)
Definition parse (text : option Json) : JsResult JsValue :=
  match text with
  | Some j => Value (revive j)
  | None => SyntaxError
  end.

End JSON.

Definition serializeBigInt (obj : JsValue) : JsResult JsValue :=
  match JSON.stringify obj replacer with
  | Value text => JSON.parse text
  | TypeError => TypeError
  | SyntaxError => SyntaxError
  | OutOfFuel => OutOfFuel
  end.

(** ** pages/api/servicios-recogida.ts, the POST and PUT branches *)

Module Js.

(** ToBoolean. *)
Definition truthy (v : BodyValue) : bool :=
  match v with
  | BUndefined | BNull => false
  | BBool b => b
  | BNumber (S754_zero _) | BNumber S754_nan => false
  | BNumber _ => true
  | BString s => negb (String.eqb s EmptyString)
  | BObject _ => true
  end.

(** White space of an ASCII string: TAB, LF, VT, FF, CR and SP. *)
Definition is_space (c : ascii) : bool :=
  let n := Z.of_nat (nat_of_ascii c) in
  ((9 <=? n) && (n <=? 13)) || (n =? 32).

Definition digit (c : ascii) : option Z :=
  let n := Z.of_nat (nat_of_ascii c) in
  if (48 <=? n) && (n <=? 57) then Some (n - 48) else None.

Definition hex_digit (c : ascii) : option Z :=
  let n := Z.of_nat (nat_of_ascii c) in
  if (48 <=? n) && (n <=? 57) then Some (n - 48)
  else if (97 <=? n) && (n <=? 102) then Some (n - 87)
  else if (65 <=? n) && (n <=? 70) then Some (n - 55)
  else None.

Fixpoint skip_spaces (cs : list ascii) : list ascii :=
  match cs with
  | c :: rest => if is_space c then skip_spaces rest else cs
  | [] => []
  end.

Definition trim (cs : list ascii) : list ascii :=
  rev (skip_spaces (rev (skip_spaces cs))).

(** The digits at the head of [cs] in base [base]: their value on top of
    [acc], how many there are, and what follows them. *)
Fixpoint digits (base : Z) (of_char : ascii -> option Z) (acc : Z) (count : Z)
    (cs : list ascii) : Z * Z * list ascii :=
  match cs with
  | c :: rest =>
      match of_char c with
      | Some d => if d <? base then digits base of_char (acc * base + d) (count + 1) rest
                  else (acc, count, cs)
      | None => (acc, count, cs)
      end
  | [] => (acc, count, [])
  end.

(** All of [cs] as digits in base [base], at least one. *)
Definition all_digits (base : Z) (cs : list ascii) : option Z :=
  match digits base hex_digit 0 0 cs with
  | (v, count, []) => if 0 <? count then Some v else None
  | _ => None
  end.

(** StringToBigInt. *)
Definition StringToBigInt (s : string) : option Z :=
  match trim (list_ascii_of_string s) with
  | [] => Some 0
  | "0"%char :: ("x" | "X")%char :: rest => all_digits 16 rest
  | "0"%char :: ("o" | "O")%char :: rest => all_digits 8 rest
  | "0"%char :: ("b" | "B")%char :: rest => all_digits 2 rest
  | "-"%char :: rest => option_map Z.opp (all_digits 10 rest)
  | "+"%char :: rest => all_digits 10 rest
  | cs => all_digits 10 cs
  end.

(** [BigInt(v)]; [None] when it throws (a TypeError for [undefined] and
    [null], a RangeError for a number that is no integer, a SyntaxError
    for a string that is no integer literal). *)
Definition BigInt (v : BodyValue) : option Z :=
  match v with
  | BUndefined | BNull => None
  | BBool b => Some (if b then 1 else 0)
  | BNumber n => Number.to_integer n
  | BString s | BObject s => StringToBigInt s
  end.

Fixpoint starts_with (p cs : list ascii) : bool :=
  match p, cs with
  | [], _ => true
  | a :: p', c :: cs' => Ascii.eqb a c && starts_with p' cs'
  | _ :: _, [] => false
  end.

(** The exponent part [e[+-]digits] at the head of [cs], if there is one. *)
Definition exponent_part (cs : list ascii) : Z :=
  match cs with
  | ("e" | "E")%char :: rest =>
      let '(neg, rest') :=
        match rest with
        | "-"%char :: r => (true, r)
        | "+"%char :: r => (false, r)
        | _ => (false, rest)
        end in
      match digits 10 digit 0 0 rest' with
      | (v, count, _) => if 0 <? count then (if neg then - v else v) else 0
      end
  | _ => 0
  end.

(** The number a string denotes for [parseFloat]: leading white space is
    skipped and the longest prefix that is a decimal literal is read; NaN
    when there is none. *)
Definition parse_float (s : string) : number :=
  let cs := skip_spaces (list_ascii_of_string s) in
  let '(neg, cs) :=
    match cs with
    | "-"%char :: r => (true, r)
    | "+"%char :: r => (false, r)
    | _ => (false, cs)
    end in
  if starts_with (list_ascii_of_string "Infinity") cs then S754_infinity neg
  else
    let '(int, n_int, after_int) := digits 10 digit 0 0 cs in
    let '(coef, n_frac, after_frac) :=
      match after_int with
      | "."%char :: r => digits 10 digit int 0 r
      | _ => (int, 0, after_int)
      end in
    if (n_int =? 0) && (n_frac =? 0) then S754_nan
    else if coef =? 0 then S754_zero neg
    else Number.of_decimal neg coef (exponent_part after_frac - n_frac).

(** [parseFloat(v)] is [parseFloat(ToString(v))]; the string of a number
    is the decimal [Prisma.of_number] reads, and no literal starts the
    strings of [undefined], [null], [true] and [false]. *)
Definition parseFloat (v : BodyValue) : number :=
  match v with
  | BNumber n => Prisma.toNumber (Prisma.of_number n)
  | BString s | BObject s => parse_float s
  | _ => S754_nan
  end.

End Js.

(** The fields the POST branch reads from [req.body]; a field that is absent
    reads as [undefined]. *)
Record PostBody : Type := {
  post_clienteId : BodyValue;
  post_vehiculoId : BodyValue;
  post_trabajadorId : BodyValue;
  post_fecha : BodyValue;
  post_volumen_recogido_m3 : BodyValue
}.

(** The fields the PUT branch reads from [req.body]. *)
Record PutBody : Type := {
  body_id : BodyValue;
  body_clienteId : BodyValue;
  body_vehiculoId : BodyValue;
  body_trabajadorId : BodyValue;
  body_fecha : BodyValue;
  body_volumen_recogido_m3 : BodyValue
}.

(** What the [catch] of a branch reports with status 500: an error of the
    service, or the error [BigInt] threw while the arguments were built. *)
Inductive Caught : Type :=
| ServiceError (e : Error)
| BigIntError (v : BodyValue).

Inductive Response : Type :=
| Status400_FaltanCampos
| Status400_IdObligatorio
| Status201 (nuevoServicio : ServicioRecogida)
| Status200 (updatedServicio : ServicioRecogida)
| Status500 (error : Caught).

(** The arguments of the call of [crearServicioRecogida], evaluated in the
    order of the object literal. *)
Definition post_arguments (body : PostBody) : Caught + CreateServicioRecogidaData :=
  match Js.BigInt (post_clienteId body) with
  | None => inl (BigIntError (post_clienteId body))
  | Some clienteId =>
      match Js.BigInt (post_vehiculoId body) with
      | None => inl (BigIntError (post_vehiculoId body))
      | Some vehiculoId =>
          match Js.BigInt (post_trabajadorId body) with
          | None => inl (BigIntError (post_trabajadorId body))
          | Some trabajadorId =>
              inr {| clienteId := clienteId;
                     vehiculoId := vehiculoId;
                     trabajadorId := trabajadorId;
                     fecha := NewDate (post_fecha body);
                     volumen_recogido_m3 :=
                       Js.parseFloat (post_volumen_recogido_m3 body) |}
          end
      end
  end.

(** The POST branch of the handler; the body of the 201 response is
    [serializeBigInt(nuevoServicio)]. *)
Definition handler_POST (body : PostBody) (st : Estado) : Response * Estado :=
  if negb (Js.truthy (post_clienteId body))
     || negb (Js.truthy (post_vehiculoId body))
     || negb (Js.truthy (post_trabajadorId body))
     || negb (Js.truthy (post_fecha body))
     || match post_volumen_recogido_m3 body with BUndefined => true | _ => false end
  then (Status400_FaltanCampos, st)
  else
    match post_arguments body with
    | inl e => (Status500 e, st)
    | inr data =>
        match crearServicioRecogida data st with
        | (Ok nuevoServicio, st') => (Status201 nuevoServicio, st')
        | (Throw e, st') => (Status500 (ServiceError e), st')
        end
    end.

(** [x ? BigInt(x) : undefined]. *)
Definition optional_BigInt (v : BodyValue) : Caught + option Z :=
  if Js.truthy v then
    match Js.BigInt v with
    | Some z => inr (Some z)
    | None => inl (BigIntError v)
    end
  else inr None.

(** The arguments of the call of [actualizarServicioRecogida], evaluated
    from left to right. *)
Definition put_arguments (body : PutBody) : Caught + Z * UpdateServicioRecogidaData :=
  match Js.BigInt (body_id body) with
  | None => inl (BigIntError (body_id body))
  | Some id =>
      match optional_BigInt (body_clienteId body) with
      | inl e => inl e
      | inr clienteId =>
          match optional_BigInt (body_vehiculoId body) with
          | inl e => inl e
          | inr vehiculoId =>
              match optional_BigInt (body_trabajadorId body) with
              | inl e => inl e
              | inr trabajadorId =>
                  inr (id,
                       {| upd_clienteId := clienteId;
                          upd_vehiculoId := vehiculoId;
                          upd_trabajadorId := trabajadorId;
                          upd_fecha :=
                            if Js.truthy (body_fecha body)
                            then Some (NewDate (body_fecha body)) else None;
                          upd_volumen_recogido_m3 :=
                            match body_volumen_recogido_m3 body with
                            | BUndefined => None
                            | v => Some (Js.parseFloat v)
                            end |})
              end
          end
      end
  end.

(** The PUT branch of the handler; the body of the 200 response is
    [serializeBigInt(updatedServicio)]. *)
Definition handler_PUT (body : PutBody) (st : Estado) : Response * Estado :=
  if negb (Js.truthy (body_id body)) then (Status400_IdObligatorio, st)
  else
    match put_arguments body with
    | inl e => (Status500 e, st)
    | inr (id, data) =>
        match actualizarServicioRecogida id data st with
        | (Ok updatedServicio, st') => (Status200 updatedServicio, st')
        | (Throw e, st') => (Status500 (ServiceError e), st')
        end
    end.

(** * The rest of the application

    The functions around the workflow: the two reads of
    [src/services/servicioRecogidaService.ts], the handler of
    [pages/api/servicios-recogida.ts] with its GET and DELETE branches, and
    the services of the catalogues, [src/services/trabajadorService.ts],
    [src/services/clienteService.ts] and [src/services/vehiculoService.ts]. *)

(** ** The client, beyond the calls of the workflow *)

(** What a call throws, as the services read it: the [code] and the
    [meta.target] of a PrismaClientKnownRequestError; an error of another
    class has no [code]. *)
Inductive ClientError : Type :=
| KnownRequestError (code : string) (target : list string)
| ClientUnavailable.

(** The schema is not among the sources: what the store does with the
    ServicioRecogida records of a client, vehicle or worker that is deleted
    is a parameter of the store. *)
Inductive ReferentialAction : Type := Restrict | Cascade.

Record ActualizarTrabajadorData : Type := {
  trab_nombre : option string;
  trab_rol : option string;
  trab_salario_base : option number
}.

Record ActualizarClienteData : Type := {
  cli_nombre : option string;
  cli_tipo : option ClienteTipo;
  cli_direccion : option string;
  cli_tarifa_por_m3 : option number
}.

Record ActualizarVehiculoData : Type := {
  veh_matricula : option string;
  veh_capacidad_max_m3 : option number;
  veh_consumo_combustible_litros : option number
}.

(** The calls of the functions below. *)
Inductive Consulta : Type :=
| servicioRecogida_findMany
| servicioRecogida_findUnique (id : Z)
| trabajador_create (nombre rol : string) (salario_base : number)
| trabajador_findMany
| trabajador_findUnique (id : Z)
| trabajador_update (id : Z) (data : ActualizarTrabajadorData)
| trabajador_delete (id : Z)
| cliente_create (nombre : string) (tipo : ClienteTipo) (direccion : string)
                 (tarifa_por_m3 : number)
| cliente_findMany
| cliente_findUnique (id : Z)
| cliente_update (id : Z) (data : ActualizarClienteData)
| cliente_delete (id : Z)
| vehiculo_create (matricula : string)
                  (capacidad_max_m3 consumo_combustible_litros : number)
| vehiculo_findMany
| vehiculo_findUnique (id : Z)
| vehiculo_update (id : Z) (data : ActualizarVehiculoData)
| vehiculo_delete (id : Z).

(** The state of the whole application: the state of the workflow, the
    identifiers the store gives next to a new client, vehicle and worker,
    and the calls of the functions below (oldest first). *)
Record Sistema : Type := {
  estado : Estado;
  onDelete : ReferentialAction;
  cliente_autoincrement : Z;
  vehiculo_autoincrement : Z;
  trabajador_autoincrement : Z;
  consultas : list Consulta
}.

Definition con_estado (w : Sistema) (st : Estado) : Sistema :=
  {| estado := st; onDelete := onDelete w;
     cliente_autoincrement := cliente_autoincrement w;
     vehiculo_autoincrement := vehiculo_autoincrement w;
     trabajador_autoincrement := trabajador_autoincrement w;
     consultas := consultas w |}.

Definition con_db (w : Sistema) (d : DB) : Sistema :=
  con_estado w {| db := d; averias := averias (estado w);
                  llamadas := llamadas (estado w) |}.

Definition tablas (w : Sistema) : DB := db (estado w).

Module PrismaClient.

Definition Client (A : Type) : Type := Sistema -> (ClientError + A) * Sistema.

(** The state after the call [q]: the call is logged and the schedule of
    failures is one shorter. *)
Definition anotada (q : Consulta) (w : Sistema) : Sistema :=
  {| estado := {| db := tablas w; averias := tail (averias (estado w));
                  llamadas := llamadas (estado w) |};
     onDelete := onDelete w;
     cliente_autoincrement := cliente_autoincrement w;
     vehiculo_autoincrement := vehiculo_autoincrement w;
     trabajador_autoincrement := trabajador_autoincrement w;
     consultas := consultas w ++ [q] |}.

(** One call on the client: it fails if the store is due to fail it, and
    otherwise it runs [op] on the tables. *)
Definition consulta {A : Type} (q : Consulta)
    (op : Sistema -> (ClientError + A) * Sistema) : Client A :=
  fun w =>
    match averias (estado w) with
    | true :: _ => (inl ClientUnavailable, anotada q w)
    | _ => let '(r, w') := op w in (r, anotada q w')
    end.

Definition not_found : ClientError := KnownRequestError "P2025" [].
Definition foreign_key : ClientError := KnownRequestError "P2003" [].
Definition unique (field : string) : ClientError := KnownRequestError "P2002" [field].

Definition con_servicios (d : DB) (s : gmap Z ServicioRecogida) : DB :=
  {| clientes := clientes d; vehiculos := vehiculos d;
     trabajadores := trabajadores d; servicios := s; secuencia := secuencia d |}.

(** Whether a stored ServicioRecogida refers to [id] through [campo]. *)
Definition referido (campo : ServicioRecogida -> Z) (id : Z) (d : DB) : bool :=
  existsb (fun p => campo (snd p) =? id) (map_to_list (servicios d)).

(** The records that do not refer to [id] through [campo]. *)
Definition sin_referencias (campo : ServicioRecogida -> Z) (id : Z) (d : DB)
  : gmap Z ServicioRecogida :=
  filter (fun p => campo (snd p) <> id) (servicios d).

(** [delete] of the record [id] of a catalogue, given what to do with the
    table once the record may go. *)
Definition delete_referido {A : Type} (campo : ServicioRecogida -> Z) (id : Z)
    (registro : option A) (borrar : DB -> DB) (w : Sistema)
  : (ClientError + A) * Sistema :=
  match registro with
  | None => (inl not_found, w)
  | Some r =>
      if referido campo id (tablas w) then
        match onDelete w with
        | Restrict => (inl foreign_key, w)
        | Cascade =>
            (inr r, con_db w (borrar (con_servicios (tablas w)
                                        (sin_referencias campo id (tablas w)))))
        end
      else (inr r, con_db w (borrar (tablas w)))
  end.

Module servicioRecogida.

(** [include: { cliente: true, vehiculo: true, trabajador: true }]. *)
Record Incluido : Type := {
  servicio : ServicioRecogida;
  cliente : option Cliente;
  vehiculo : option Vehiculo;
  trabajador : option Trabajador
}.

Definition incluir (d : DB) (r : ServicioRecogida) : Incluido :=
  {| servicio := r;
     cliente := clientes d !! sr_clienteId r;
     vehiculo := vehiculos d !! sr_vehiculoId r;
     trabajador := trabajadores d !! sr_trabajadorId r |}.

(** [findMany({ include })]; the order is the one of the store. *)
Definition findMany : Client (list Incluido) :=
  consulta servicioRecogida_findMany
    (fun w => (inr (map (fun p => incluir (tablas w) (snd p))
                        (map_to_list (servicios (tablas w)))), w)).

(** [findUnique({ where: { id }, include })]. *)
Definition findUnique (id : Z) : Client (option Incluido) :=
  consulta (servicioRecogida_findUnique id)
    (fun w => (inr (incluir (tablas w) <$> servicios (tablas w) !! id), w)).

End servicioRecogida.

Module trabajador.

Definition con_trabajadores (t : gmap Z Trabajador) (d : DB) : DB :=
  {| clientes := clientes d; vehiculos := vehiculos d; trabajadores := t;
     servicios := servicios d; secuencia := secuencia d |}.

Definition siguiente (w : Sistema) : Sistema :=
  {| estado := estado w; onDelete := onDelete w;
     cliente_autoincrement := cliente_autoincrement w;
     vehiculo_autoincrement := vehiculo_autoincrement w;
     trabajador_autoincrement := trabajador_autoincrement w + 1;
     consultas := consultas w |}.

(** [create({ data: { nombre, rol, salario_base } })]: the record gets the
    next identifier, and the number is stored as the decimal of its
    digits. *)
Definition create (nombre rol : string) (salario_base : number)
  : Client (Z * Trabajador) :=
  consulta (trabajador_create nombre rol salario_base)
    (fun w =>
       let id := trabajador_autoincrement w in
       match trabajadores (tablas w) !! id with
       | Some _ => (inl (unique "id"), w)
       | None =>
           let t := {| trabajador_nombre := nombre; rol := rol;
                       salario_base := Prisma.of_number salario_base |} in
           (inr (id, t),
            siguiente (con_db w (con_trabajadores
                                   (<[id := t]> (trabajadores (tablas w))) (tablas w))))
       end).

Definition findMany : Client (list (Z * Trabajador)) :=
  consulta trabajador_findMany
    (fun w => (inr (map_to_list (trabajadores (tablas w))), w)).

Definition findUnique (id : Z) : Client (option Trabajador) :=
  consulta (trabajador_findUnique id)
    (fun w => (inr (trabajadores (tablas w) !! id), w)).

(** [update({ where: { id }, data })]: a field that is [undefined] is left
    as it is. *)
Definition update (id : Z) (data : ActualizarTrabajadorData) : Client Trabajador :=
  consulta (trabajador_update id data)
    (fun w =>
       match trabajadores (tablas w) !! id with
       | None => (inl not_found, w)
       | Some old =>
           let t := {| trabajador_nombre :=
                         default (trabajador_nombre old) (trab_nombre data);
                       rol := default (rol old) (trab_rol data);
                       salario_base :=
                         default (salario_base old)
                                 (Prisma.of_number <$> trab_salario_base data) |} in
           (inr t, con_db w (con_trabajadores
                               (<[id := t]> (trabajadores (tablas w))) (tablas w)))
       end).

Definition delete (id : Z) : Client Trabajador :=
  consulta (trabajador_delete id)
    (fun w =>
       delete_referido sr_trabajadorId id (trabajadores (tablas w) !! id)
         (fun d => con_trabajadores (base.delete id (trabajadores d)) d) w).

End trabajador.

Module cliente.

Definition con_clientes (c : gmap Z Cliente) (d : DB) : DB :=
  {| clientes := c; vehiculos := vehiculos d; trabajadores := trabajadores d;
     servicios := servicios d; secuencia := secuencia d |}.

Definition siguiente (w : Sistema) : Sistema :=
  {| estado := estado w; onDelete := onDelete w;
     cliente_autoincrement := cliente_autoincrement w + 1;
     vehiculo_autoincrement := vehiculo_autoincrement w;
     trabajador_autoincrement := trabajador_autoincrement w;
     consultas := consultas w |}.

Definition create (nombre : string) (tipo : ClienteTipo) (direccion : string)
    (tarifa_por_m3 : number) : Client (Z * Cliente) :=
  consulta (cliente_create nombre tipo direccion tarifa_por_m3)
    (fun w =>
       let id := cliente_autoincrement w in
       match clientes (tablas w) !! id with
       | Some _ => (inl (unique "id"), w)
       | None =>
           let c := {| cliente_nombre := nombre; cliente_tipo := tipo;
                       cliente_direccion := direccion;
                       tarifa_por_m3 := Prisma.of_number tarifa_por_m3 |} in
           (inr (id, c),
            siguiente (con_db w (con_clientes
                                   (<[id := c]> (clientes (tablas w))) (tablas w))))
       end).

Definition findMany : Client (list (Z * Cliente)) :=
  consulta cliente_findMany
    (fun w => (inr (map_to_list (clientes (tablas w))), w)).

Definition findUnique (id : Z) : Client (option Cliente) :=
  consulta (cliente_findUnique id)
    (fun w => (inr (clientes (tablas w) !! id), w)).

Definition update (id : Z) (data : ActualizarClienteData) : Client Cliente :=
  consulta (cliente_update id data)
    (fun w =>
       match clientes (tablas w) !! id with
       | None => (inl not_found, w)
       | Some old =>
           let c := {| cliente_nombre := default (cliente_nombre old) (cli_nombre data);
                       cliente_tipo := default (cliente_tipo old) (cli_tipo data);
                       cliente_direccion :=
                         default (cliente_direccion old) (cli_direccion data);
                       tarifa_por_m3 :=
                         default (tarifa_por_m3 old)
                                 (Prisma.of_number <$> cli_tarifa_por_m3 data) |} in
           (inr c, con_db w (con_clientes (<[id := c]> (clientes (tablas w))) (tablas w)))
       end).

Definition delete (id : Z) : Client Cliente :=
  consulta (cliente_delete id)
    (fun w =>
       delete_referido sr_clienteId id (clientes (tablas w) !! id)
         (fun d => con_clientes (base.delete id (clientes d)) d) w).

End cliente.

Module vehiculo.

Definition con_vehiculos (v : gmap Z Vehiculo) (d : DB) : DB :=
  {| clientes := clientes d; vehiculos := v; trabajadores := trabajadores d;
     servicios := servicios d; secuencia := secuencia d |}.

Definition siguiente (w : Sistema) : Sistema :=
  {| estado := estado w; onDelete := onDelete w;
     cliente_autoincrement := cliente_autoincrement w;
     vehiculo_autoincrement := vehiculo_autoincrement w + 1;
     trabajador_autoincrement := trabajador_autoincrement w;
     consultas := consultas w |}.

(** Whether a vehicle other than [salvo] has the plate [m]: the plate is
    unique. *)
Definition matricula_en_uso (m : string) (salvo : option Z) (d : DB) : bool :=
  existsb (fun p => String.eqb (matricula (snd p)) m
                    && negb (bool_decide (salvo = Some (fst p))))
          (map_to_list (vehiculos d)).

Definition create (matricula : string)
    (capacidad_max_m3 consumo_combustible_litros : number) : Client (Z * Vehiculo) :=
  consulta (vehiculo_create matricula capacidad_max_m3 consumo_combustible_litros)
    (fun w =>
       let id := vehiculo_autoincrement w in
       if matricula_en_uso matricula None (tablas w) then (inl (unique "matricula"), w)
       else
         match vehiculos (tablas w) !! id with
         | Some _ => (inl (unique "id"), w)
         | None =>
             let v := {| matricula := matricula;
                         capacidad_max_m3 := Prisma.of_number capacidad_max_m3;
                         consumo_combustible_litros :=
                           Prisma.of_number consumo_combustible_litros |} in
             (inr (id, v),
              siguiente (con_db w (con_vehiculos
                                     (<[id := v]> (vehiculos (tablas w))) (tablas w))))
         end).

Definition findMany : Client (list (Z * Vehiculo)) :=
  consulta vehiculo_findMany
    (fun w => (inr (map_to_list (vehiculos (tablas w))), w)).

Definition findUnique (id : Z) : Client (option Vehiculo) :=
  consulta (vehiculo_findUnique id)
    (fun w => (inr (vehiculos (tablas w) !! id), w)).

Definition update (id : Z) (data : ActualizarVehiculoData) : Client Vehiculo :=
  consulta (vehiculo_update id data)
    (fun w =>
       match vehiculos (tablas w) !! id with
       | None => (inl not_found, w)
       | Some old =>
           if match veh_matricula data with
              | Some m => matricula_en_uso m (Some id) (tablas w)
              | None => false
              end
           then (inl (unique "matricula"), w)
           else
             let v := {| matricula := default (matricula old) (veh_matricula data);
                         capacidad_max_m3 :=
                           default (capacidad_max_m3 old)
                                   (Prisma.of_number <$> veh_capacidad_max_m3 data);
                         consumo_combustible_litros :=
                           default (consumo_combustible_litros old)
                                   (Prisma.of_number
                                      <$> veh_consumo_combustible_litros data) |} in
             (inr v, con_db w (con_vehiculos
                                 (<[id := v]> (vehiculos (tablas w))) (tablas w)))
       end).

Definition delete (id : Z) : Client Vehiculo :=
  consulta (vehiculo_delete id)
    (fun w =>
       delete_referido sr_vehiculoId id (vehiculos (tablas w) !! id)
         (fun d => con_vehiculos (base.delete id (vehiculos d)) d) w).

End vehiculo.

End PrismaClient.

(** ** The services *)

(** What an [async] function of these services ends with: the value it
    returns, or the [Error] it throws, given by its message. *)
Inductive Outcome (A : Type) : Type :=
| Returns (a : A)
| Throws (message : string).
Arguments Returns {A} a.
Arguments Throws {A} message.

Definition Async (A : Type) : Type := Sistema -> Outcome A * Sistema.

(** [throw new Error(message)]. *)
Definition throw_new_Error {A : Type} (message : string) : Async A :=
  fun w => (Throws message, w).

(** [try { return await call } catch (error) { throw new Error(handler error) }];
    what [console.error] prints is not part of the state. *)
Definition try_await {A : Type} (call : PrismaClient.Client A)
    (handler : ClientError -> string) : Async A :=
  fun w =>
    match call w with
    | (inr a, w') => (Returns a, w')
    | (inl error, w') => (Throws (handler error), w')
    end.

(** *** src/services/servicioRecogidaService.ts, the reads *)

Definition obtenerServiciosRecogida : Async (list PrismaClient.servicioRecogida.Incluido) :=
  try_await PrismaClient.servicioRecogida.findMany
    (fun _ => "No se pudieron obtener los servicios de recogida."%string).

Definition obtenerServicioRecogidaPorId (id : Z)
  : Async (option PrismaClient.servicioRecogida.Incluido) :=
  try_await (PrismaClient.servicioRecogida.findUnique id)
    (fun _ => "No se pudo obtener el servicio de recogida."%string).

(** *** src/services/trabajadorService.ts *)

Definition crearTrabajador (nombre rol : string) (salario_base : number)
  : Async (Z * Trabajador) :=
  if Number.leb salario_base Number.zero
  then throw_new_Error "El salario base debe ser un valor positivo."
  else try_await (PrismaClient.trabajador.create nombre rol salario_base)
                 (fun _ => "No se pudo crear el trabajador."%string).

Definition obtenerTrabajadores : Async (list (Z * Trabajador)) :=
  try_await PrismaClient.trabajador.findMany
    (fun _ => "No se pudieron obtener los trabajadores."%string).

Definition obtenerTrabajadorPorId (id : Z) : Async (option Trabajador) :=
  try_await (PrismaClient.trabajador.findUnique id)
    (fun _ => "No se pudo obtener el trabajador."%string).

(** [data.salario_base !== undefined && data.salario_base <= 0]. *)
Definition defined_and_not_positive (v : option number) : bool :=
  match v with
  | Some n => Number.leb n Number.zero
  | None => false
  end.

Definition actualizarTrabajador (id : Z) (data : ActualizarTrabajadorData)
  : Async Trabajador :=
  if defined_and_not_positive (trab_salario_base data)
  then throw_new_Error "El salario base debe ser un valor positivo."
  else try_await (PrismaClient.trabajador.update id data)
                 (fun _ => "No se pudo actualizar el trabajador."%string).

Definition eliminarTrabajador (id : Z) : Async Trabajador :=
  try_await (PrismaClient.trabajador.delete id)
    (fun _ => "No se pudo eliminar el trabajador."%string).

(** *** src/services/clienteService.ts *)

Definition crearCliente (nombre : string) (tipo : ClienteTipo) (direccion : string)
    (tarifa_por_m3 : number) : Async (Z * Cliente) :=
  if Number.leb tarifa_por_m3 Number.zero
  then throw_new_Error "La tarifa por m3 debe ser un valor positivo."
  else try_await (PrismaClient.cliente.create nombre tipo direccion tarifa_por_m3)
                 (fun _ => "No se pudo crear el cliente."%string).

Definition obtenerClientes : Async (list (Z * Cliente)) :=
  try_await PrismaClient.cliente.findMany
    (fun _ => "No se pudieron obtener los clientes."%string).

Definition obtenerClientePorId (id : Z) : Async (option Cliente) :=
  try_await (PrismaClient.cliente.findUnique id)
    (fun _ => "No se pudo obtener el cliente."%string).

Definition actualizarCliente (id : Z) (data : ActualizarClienteData) : Async Cliente :=
  if defined_and_not_positive (cli_tarifa_por_m3 data)
  then throw_new_Error "La tarifa por m3 debe ser un valor positivo."
  else try_await (PrismaClient.cliente.update id data)
                 (fun _ => "No se pudo actualizar el cliente."%string).

Definition eliminarCliente (id : Z) : Async Cliente :=
  try_await (PrismaClient.cliente.delete id)
    (fun _ => "No se pudo eliminar el cliente."%string).

(** *** src/services/vehiculoService.ts *)

(** The [catch] of crearVehiculo and actualizarVehiculo:
    [error.code === 'P2002' && error.meta?.target?.includes('matricula')]
    is reported as a duplicate plate, anything else with [otherwise]. *)
Definition matricula_duplicada (otherwise : string) (error : ClientError) : string :=
  match error with
  | KnownRequestError code target =>
      if String.eqb code "P2002" && existsb (String.eqb "matricula") target
      then "Ya existe un vehículo con esta matrícula."%string
      else otherwise
  | ClientUnavailable => otherwise
  end.

Definition crearVehiculo (matricula : string)
    (capacidad_max_m3 consumo_combustible_litros : number) : Async (Z * Vehiculo) :=
  if Number.leb capacidad_max_m3 Number.zero
  then throw_new_Error "La capacidad máxima del vehículo debe ser un valor positivo."
  else if Number.leb consumo_combustible_litros Number.zero
  then throw_new_Error "El consumo de combustible debe ser un valor positivo."
  else try_await
         (PrismaClient.vehiculo.create matricula capacidad_max_m3
            consumo_combustible_litros)
         (matricula_duplicada "No se pudo crear el vehículo.").

Definition obtenerVehiculos : Async (list (Z * Vehiculo)) :=
  try_await PrismaClient.vehiculo.findMany
    (fun _ => "No se pudieron obtener los vehículos."%string).

Definition obtenerVehiculoPorId (id : Z) : Async (option Vehiculo) :=
  try_await (PrismaClient.vehiculo.findUnique id)
    (fun _ => "No se pudo obtener el vehículo."%string).

Definition actualizarVehiculo (id : Z) (data : ActualizarVehiculoData) : Async Vehiculo :=
  if defined_and_not_positive (veh_capacidad_max_m3 data)
  then throw_new_Error "La capacidad máxima del vehículo debe ser un valor positivo."
  else if defined_and_not_positive (veh_consumo_combustible_litros data)
  then throw_new_Error "El consumo de combustible debe ser un valor positivo."
  else try_await (PrismaClient.vehiculo.update id data)
                 (matricula_duplicada "No se pudo actualizar el vehículo.").

Definition eliminarVehiculo (id : Z) : Async Vehiculo :=
  try_await (PrismaClient.vehiculo.delete id)
    (fun _ => "No se pudo eliminar el vehículo."%string).

(** ** pages/api/servicios-recogida.ts, the handler *)

(** A request: its method, the [id] of [req.query] ([undefined] when it is
    absent, an array when it is given more than once) and the fields of
    [req.body]. *)
Record Request : Type := {
  method : string;
  query_id : BodyValue;
  body : PutBody
}.

(** The fields of the body that the POST branch reads. *)
Definition post_body (b : PutBody) : PostBody :=
  {| post_clienteId := body_clienteId b;
     post_vehiculoId := body_vehiculoId b;
     post_trabajadorId := body_trabajadorId b;
     post_fecha := body_fecha b;
     post_volumen_recogido_m3 := body_volumen_recogido_m3 b |}.

(** What is sent: [res.status(status).json(...)] with the value that is
    handed to serializeBigInt, with a literal message or with the message
    of the error that was caught, or the 405 with its [Allow] header. *)
Inductive Sent : Type :=
| Json_servicio (status : Z) (servicio : PrismaClient.servicioRecogida.Incluido)
| Json_servicios (status : Z) (servicios : list PrismaClient.servicioRecogida.Incluido)
| Json_registro (status : Z) (registro : ServicioRecogida)
| Json_message (status : Z) (message : string)
| Json_error (status : Z) (error : Caught)
| End_not_allowed (status : Z) (allow : list string) (text : string).

Definition status (r : Sent) : Z :=
  match r with
  | Json_servicio s _ | Json_servicios s _ | Json_registro s _ | Json_message s _
  | Json_error s _ | End_not_allowed s _ _ => s
  end.

(** What the POST and PUT branches send. *)
Definition sent (r : Response) : Sent :=
  match r with
  | Status400_FaltanCampos => Json_message 400 "Faltan campos obligatorios."
  | Status400_IdObligatorio =>
      Json_message 400 "ID del servicio de recogida es obligatorio para actualizar."
  | Status201 nuevoServicio => Json_registro 201 nuevoServicio
  | Status200 updatedServicio => Json_registro 200 updatedServicio
  | Status500 error => Json_error 500 error
  end.

Definition handler_GET (req : Request) (w : Sistema) : Sent * Sistema :=
  let id := query_id req in
  if Js.truthy id then
    match Js.BigInt id with
    | None => (Json_error 500 (BigIntError id), w)
    | Some n =>
        match obtenerServicioRecogidaPorId n w with
        | (Returns (Some servicio), w') => (Json_servicio 200 servicio, w')
        | (Returns None, w') =>
            (Json_message 404 "Servicio de recogida no encontrado.", w')
        | (Throws message, w') => (Json_message 500 message, w')
        end
    end
  else
    match obtenerServiciosRecogida w with
    | (Returns servicios, w') => (Json_servicios 200 servicios, w')
    | (Throws message, w') => (Json_message 500 message, w')
    end.

Definition handler_DELETE (req : Request) (w : Sistema) : Sent * Sistema :=
  let id := query_id req in
  if negb (Js.truthy id)
  then (Json_message 400 "ID del servicio de recogida es obligatorio para eliminar.", w)
  else
    match Js.BigInt id with
    | None => (Json_error 500 (BigIntError id), w)
    | Some n =>
        match eliminarServicioRecogida n (estado w) with
        | (Ok deletedServicio, st') =>
            (Json_registro 200 deletedServicio, con_estado w st')
        | (Throw e, st') => (Json_error 500 (ServiceError e), con_estado w st')
        end
    end.

Definition handler (req : Request) (w : Sistema) : Sent * Sistema :=
  if String.eqb (method req) "GET" then handler_GET req w
  else if String.eqb (method req) "POST" then
    let '(r, st') := handler_POST (post_body (body req)) (estado w) in
    (sent r, con_estado w st')
  else if String.eqb (method req) "PUT" then
    let '(r, st') := handler_PUT (body req) (estado w) in
    (sent r, con_estado w st')
  else if String.eqb (method req) "DELETE" then handler_DELETE req w
  else
    (End_not_allowed 405 ["GET"; "POST"; "PUT"; "DELETE"]%string
       ("Method " ++ method req ++ " Not Allowed")%string, w).

(** * Specification

    The notions the properties below are stated with: what a run left
    behind, the rounding and the serialization the specification speaks of,
    and the example data. *)

(** The store fails none of the coming calls for reasons of its own. *)
Definition store_up (st : Estado) : Prop := Forall (fun b => b = false) (averias st).

(** The next call reaches the store. *)
Definition next_call_up (st : Estado) : Prop := head (averias st) <> Some true.

(** The sequence of identifiers is ahead of every stored ServicioRecogida,
    as the sequence of an autoincrement column is. *)
Definition sequence_ahead (d : DB) : Prop :=
  forall k, secuencia d <= k -> servicios d !! k = None.

(** The state after one more call that left the tables as [d]. *)
Definition after_call (st : Estado) (l : Llamada) (d : DB) : Estado :=
  {| db := d; averias := tail (averias st); llamadas := llamadas st ++ [l] |}.

(** The calls a run made on top of [st], given as the log it left. *)
Definition calls_since (st st' : Estado) (ls : list Llamada) : Prop :=
  llamadas st' = llamadas st ++ ls.

(** The state after [n] calls of eliminarServicioRecogida on [id]. *)
Fixpoint eliminar_veces (n : nat) (id : Z) (st : Estado) : Estado :=
  match n with
  | O => st
  | S k => snd (eliminarServicioRecogida id (eliminar_veces k id st))
  end.

(** [round_half_up(x, dp)] of the specification: the multiple of
    [10 ^ (- dp)] nearest to [x], a tie going away from zero. *)
Definition round_half_up (x : Q) (dp : Z) : Q :=
  let s := ((10 # 1) ^ dp)%Q in
  if Qle_bool 0 x then (inject_Z (Qfloor (x * s + (1 # 2))) / s)%Q
  else (- (inject_Z (Qfloor (- x * s + (1 # 2))) / s))%Q.

(** A decimal that is greater than zero. *)
Definition positive_decimal (x : Decimal) : Prop :=
  Prisma.greaterThan x (DFin 0 0) = true.

(** The cost is the exact [round_half_up] of volume times rate. *)
Definition exact_cost (volumen tarifa costo : Decimal) : Prop :=
  exists qv qt qc,
    Prisma.value volumen = Some qv /\ Prisma.value tarifa = Some qt
    /\ Prisma.value costo = Some qc /\ (qc == round_half_up (qv * qt) 2)%Q.

(** The decimal is the decimal form of a number: it survives [toNumber] and
    the way back. *)
Definition decimal_of_a_number (x : Decimal) : Prop :=
  Prisma.of_number (Prisma.toNumber x) = x.

(** The data of a creation with the effective values of an update, as the
    code merges them: a number for the volume, which for a volume that is
    not supplied is the number [toNumber] gives for the stored decimal (the
    stored decimal itself is [volumen_efectivo] below). *)
Definition merged (old : ServicioRecogida) (data : UpdateServicioRecogidaData)
  : CreateServicioRecogidaData :=
  {| clienteId := default (sr_clienteId old) (upd_clienteId data);
     vehiculoId := default (sr_vehiculoId old) (upd_vehiculoId data);
     trabajadorId := default (sr_trabajadorId old) (upd_trabajadorId data);
     fecha := default (sr_fecha old) (upd_fecha data);
     volumen_recogido_m3 :=
       default (Prisma.toNumber (sr_volumen_recogido_m3 old))
               (upd_volumen_recogido_m3 data) |}.

(** The value with every bigint, at any depth, replaced by its base-10
    string, and nothing else changed. *)
Fixpoint bigints_as_strings (v : JsValue) : JsValue :=
  match v with
  | VBigInt z => VString (BigInt_toString z)
  | VArray items => VArray (map bigints_as_strings items)
  | VObject props => VObject (map (fun p => (fst p, bigints_as_strings (snd p))) props)
  | _ => v
  end.

(** No key occurs twice. *)
Fixpoint distinct (keys : list string) : bool :=
  match keys with
  | [] => true
  | k :: rest => negb (existsb (String.eqb k) rest) && distinct rest
  end.

(** A value of the JSON data model, bigints allowed: no [undefined], no
    object with a [toJSON] method, every number finite and not the negative
    zero, the keys of an object distinct (as the properties of an object
    are). *)
Fixpoint json_serializable (v : JsValue) : bool :=
  match v with
  | VUndefined | VToJSON _ => false
  | VNumber (S754_zero false) | VNumber (S754_finite _ _ _) => true
  | VNumber _ => false
  | VArray items => forallb json_serializable items
  | VObject props =>
      distinct (map fst props) && forallb (fun p => json_serializable (snd p)) props
  | _ => true
  end.

(** The JSON text [JSON.stringify] writes for such a value. *)
Fixpoint json_of (v : JsValue) : Json :=
  match v with
  | VUndefined | VNull | VToJSON None => JNull
  | VToJSON (Some s) => JString s
  | VBool b => JBool b
  | VNumber n => JNumber n
  | VBigInt z => JString (BigInt_toString z)
  | VString s => JString s
  | VArray items => JArray (map json_of items)
  | VObject props => JObject (map (fun p => (fst p, json_of (snd p))) props)
  end.

(** The number a decimal literal [c * 10 ^ q] denotes, for [0 < c]. *)
Definition literal (c q : Z) : number := Number.of_decimal false c q.

(** ** Example data *)

Definition fecha_ejemplo : Date := NewDate (BString "2024-05-01").

(** The scenario of the specification: a vehicle of capacity 20, a client
    with rate 5.50 and a worker; a second client has rate 1234.57. *)
Definition db_ejemplo : DB :=
  {| clientes :=
       {[ 1 := {| cliente_nombre := "Hotel Sol"; cliente_tipo := HOTEL;
                  cliente_direccion := "Calle 1"; tarifa_por_m3 := DFin 55 (-1) |};
          2 := {| cliente_nombre := "Clinica Mar"; cliente_tipo := SALUD;
                  cliente_direccion := "Calle 2"; tarifa_por_m3 := DFin 123457 (-2) |} ]};
     vehiculos :=
       {[ 1 := {| matricula := "ABC123"; capacidad_max_m3 := DFin 2 1;
                  consumo_combustible_litros := DFin 8 0 |} ]};
     trabajadores :=
       {[ 1 := {| trabajador_nombre := "Ana"; rol := "conductor";
                  salario_base := DFin 1 3 |} ]};
     servicios := ∅;
     secuencia := 1 |}.

(** The scenario with a store that fails no call and an empty log. *)
Definition estado_ejemplo : Estado :=
  {| db := db_ejemplo; averias := []; llamadas := [] |}.

(** A store with no record at all. *)
Definition estado_vacio : Estado :=
  {| db := {| clientes := ∅; vehiculos := ∅; trabajadores := ∅;
              servicios := ∅; secuencia := 1 |};
     averias := []; llamadas := [] |}.

(** The creation of a record for client [cliente], vehicle 1 and worker 1. *)
Definition crear_con (cliente : Z) (volumen : number) : CreateServicioRecogidaData :=
  {| clienteId := cliente; vehiculoId := 1; trabajadorId := 1;
     fecha := fecha_ejemplo; volumen_recogido_m3 := volumen |}.

(** The record the scenario persists for a volume of 15. *)
Definition servicio_15 : ServicioRecogida :=
  {| sr_id := 1; sr_clienteId := 1; sr_vehiculoId := 1; sr_trabajadorId := 1;
     sr_fecha := fecha_ejemplo;
     sr_volumen_recogido_m3 := DFin 15 0; sr_costo_servicio := DFin 825 (-1) |}.

(** A state with one stored record of volume [volumen], for client 1,
    vehicle 1 and worker 1. *)
Definition estado_con_servicio (volumen : Decimal) : Estado :=
  {| db := prisma_servicioRecogida.with_servicios db_ejemplo
             {[ 1 := {| sr_id := 1; sr_clienteId := 1; sr_vehiculoId := 1;
                        sr_trabajadorId := 1; sr_fecha := fecha_ejemplo;
                        sr_volumen_recogido_m3 := volumen;
                        sr_costo_servicio := costo volumen (DFin 55 (-1)) |} ]} 2;
     averias := []; llamadas := [] |}.

(** The update that supplies nothing. *)
Definition sin_cambios : UpdateServicioRecogidaData :=
  {| upd_clienteId := None; upd_vehiculoId := None; upd_trabajadorId := None;
     upd_fecha := None; upd_volumen_recogido_m3 := None |}.

(** A plain record with an identifier beyond the safe integer range of a
    number. *)
Definition registro_ejemplo : JsValue :=
  VObject [("id"%string, VBigInt 9007199254740993);
           ("clienteId"%string, VBigInt 1);
           ("etiquetas"%string, VArray [VString "a"; VBigInt (-5); VNull]);
           ("activo"%string, VBool true)].

(** A record as the handlers pass it, with its date and its decimals. *)
Definition servicio_devuelto : JsValue :=
  VObject [("id"%string, VBigInt 1);
           ("fecha"%string, VToJSON (Some "2024-05-01T00:00:00.000Z"%string));
           ("volumen_recogido_m3"%string, VToJSON (Some "15"%string));
           ("costo_servicio"%string, VToJSON (Some "82.5"%string))].

(** A creation whose volume is no number at all. *)
Definition post_volumen_abc : PostBody :=
  {| post_clienteId := BNumber (literal 1 0);
     post_vehiculoId := BString "1";
     post_trabajadorId := BString "1";
     post_fecha := BString "2024-05-01";
     post_volumen_recogido_m3 := BString "abc" |}.

(** A body that changes nothing but sets the volume to 0 and names the
    client 0. *)
Definition body_volumen_cero : PutBody :=
  {| body_id := BString "1";
     body_clienteId := BNumber Number.zero;
     body_vehiculoId := BUndefined;
     body_trabajadorId := BString EmptyString;
     body_fecha := BUndefined;
     body_volumen_recogido_m3 := BNumber Number.zero |}.

(** A body that names the client 0 and supplies nothing else. *)
Definition body_cliente_cero : PutBody :=
  {| body_id := BNumber (literal 1 0);
     body_clienteId := BNumber Number.zero;
     body_vehiculoId := BUndefined;
     body_trabajadorId := BUndefined;
     body_fecha := BString EmptyString;
     body_volumen_recogido_m3 := BUndefined |}.

(** ** Induction on values

    The induction principle of [JsValue] that reaches the values nested in
    arrays and objects. *)

Section JsValueInduction.
Variable P : JsValue -> Prop.
Hypothesis Hundefined : P VUndefined.
Hypothesis Hnull : P VNull.
Hypothesis Hbool : forall b, P (VBool b).
Hypothesis Hnumber : forall n, P (VNumber n).
Hypothesis Hbigint : forall z, P (VBigInt z).
Hypothesis Hstring : forall s, P (VString s).
Hypothesis Harray : forall items, List.Forall P items -> P (VArray items).
Hypothesis Hobject :
  forall props, List.Forall (fun p => P (snd p)) props -> P (VObject props).
Hypothesis HtoJSON : forall json, P (VToJSON json).

Fixpoint JsValue_nested_ind (v : JsValue) : P v :=
  match v with
  | VUndefined => Hundefined
  | VNull => Hnull
  | VBool b => Hbool b
  | VNumber n => Hnumber n
  | VBigInt z => Hbigint z
  | VString s => Hstring s
  | VArray items =>
      Harray items
        ((fix go (l : list JsValue) : List.Forall P l :=
            match l with
            | [] => @List.Forall_nil _ P
            | x :: r => @List.Forall_cons _ P x r (JsValue_nested_ind x) (go r)
            end) items)
  | VObject props =>
      Hobject props
        ((fix go (l : list (string * JsValue)) : List.Forall (fun p => P (snd p)) l :=
            match l with
            | [] => @List.Forall_nil _ (fun p => P (snd p))
            | p :: r =>
                @List.Forall_cons _ (fun p => P (snd p)) p r
                  (JsValue_nested_ind (snd p)) (go r)
            end) props)
  | VToJSON json => HtoJSON json
  end.
End JsValueInduction.

(** ** Further notions

    What the properties of the rest of the application are stated with. *)

(** The value of the decimal digits [d] read from left to right on top of
    [acc]. *)
Fixpoint uint_value (acc : Z) (d : Decimal.uint) : Z :=
  match d with
  | Decimal.Nil => acc
  | Decimal.D0 l => uint_value (acc * 10 + 0) l
  | Decimal.D1 l => uint_value (acc * 10 + 1) l
  | Decimal.D2 l => uint_value (acc * 10 + 2) l
  | Decimal.D3 l => uint_value (acc * 10 + 3) l
  | Decimal.D4 l => uint_value (acc * 10 + 4) l
  | Decimal.D5 l => uint_value (acc * 10 + 5) l
  | Decimal.D6 l => uint_value (acc * 10 + 6) l
  | Decimal.D7 l => uint_value (acc * 10 + 7) l
  | Decimal.D8 l => uint_value (acc * 10 + 8) l
  | Decimal.D9 l => uint_value (acc * 10 + 9) l
  end.

(** The characters of the decimal digits [d]. *)
Definition uint_chars (d : Decimal.uint) : list ascii :=
  list_ascii_of_string (NilEmpty.string_of_uint d).

(** A plain value of JSON: no [undefined], no bigint, no object with a
    [toJSON] method, every number finite and not the negative zero, the keys
    of an object distinct. *)
Fixpoint plain_json (v : JsValue) : bool :=
  match v with
  | VUndefined | VBigInt _ | VToJSON _ => false
  | VNumber (S754_zero false) | VNumber (S754_finite _ _ _) => true
  | VNumber _ => false
  | VArray items => forallb plain_json items
  | VObject props =>
      distinct (map fst props) && forallb (fun p => plain_json (snd p)) props
  | _ => true
  end.

(** A JSON text as [JSON.stringify] writes it: every number token is that
    of a finite number, and none is the negative zero. *)
Fixpoint written (j : Json) : bool :=
  match j with
  | JNumber (S754_zero false) | JNumber (S754_finite _ _ _) => true
  | JNumber _ => false
  | JArray items => forallb written items
  | JObject members => forallb (fun m => written (snd m)) members
  | _ => true
  end.

(** The induction principle of [Json] that reaches the texts nested in
    arrays and objects. *)
Section JsonInduction.
Variable P : Json -> Prop.
Hypothesis Hnull : P JNull.
Hypothesis Hbool : forall b, P (JBool b).
Hypothesis Hnumber : forall n, P (JNumber n).
Hypothesis Hstring : forall s, P (JString s).
Hypothesis Harray : forall items, List.Forall P items -> P (JArray items).
Hypothesis Hobject :
  forall members, List.Forall (fun m => P (snd m)) members -> P (JObject members).

Fixpoint Json_nested_ind (j : Json) : P j :=
  match j with
  | JNull => Hnull
  | JBool b => Hbool b
  | JNumber n => Hnumber n
  | JString s => Hstring s
  | JArray items =>
      Harray items
        ((fix go (l : list Json) : List.Forall P l :=
            match l with
            | [] => @List.Forall_nil _ P
            | x :: r => @List.Forall_cons _ P x r (Json_nested_ind x) (go r)
            end) items)
  | JObject members =>
      Hobject members
        ((fix go (l : list (string * Json)) : List.Forall (fun m => P (snd m)) l :=
            match l with
            | [] => @List.Forall_nil _ (fun m => P (snd m))
            | m :: r =>
                @List.Forall_cons _ (fun m => P (snd m)) m r
                  (Json_nested_ind (snd m)) (go r)
            end) members)
  end.
End JsonInduction.

(** The decimal has at most [dp] digits after the decimal point. *)
Definition decimal_places_le (dp : Z) (x : Decimal) : Prop :=
  match x with
  | DFin c e => - dp <= e
  | _ => False
  end.

(** The record [r] stored under [id] is one the workflow accepts in the
    tables [d]: it carries its identifier, its client, vehicle and worker
    exist, its volume does not exceed the capacity of its vehicle, and its
    cost is the one derived from its volume and the rate of its client. *)
Definition registro_valido (d : DB) (id : Z) (r : ServicioRecogida) : Prop :=
  sr_id r = id
  /\ exists cliente vehiculo trabajador,
       clientes d !! sr_clienteId r = Some cliente
       /\ vehiculos d !! sr_vehiculoId r = Some vehiculo
       /\ trabajadores d !! sr_trabajadorId r = Some trabajador
       /\ Prisma.greaterThan (sr_volumen_recogido_m3 r) (capacidad_max_m3 vehiculo) = false
       /\ sr_costo_servicio r = costo (sr_volumen_recogido_m3 r) (tarifa_por_m3 cliente).

(** Every stored record is one the workflow accepts. *)
Definition consistente (d : DB) : Prop :=
  forall id r, servicios d !! id = Some r -> registro_valido d id r.

(** The two tables hold the same clients, vehicles and workers. *)
Definition mismo_catalogo (d d' : DB) : Prop :=
  clientes d' = clientes d /\ vehiculos d' = vehiculos d
  /\ trabajadores d' = trabajadores d.

(** The number is a binary64 value: its mantissa has at most 53 bits and
    its exponent is in range. *)
Definition binary64 (x : number) : bool := valid_binary Number.prec Number.emax x.

(** [2 ^ l] as a fraction. *)
Definition pow2_fraction (l : Z) : Z * Z :=
  if 0 <=? l then (2 ^ l, 1) else (1, 2 ^ (- l)).

(** The estimate of [Number.magnitude] is within reach of the digits:
    [10 ^ (est - 18) <= 2 ^ l] for the estimate [est] of a fraction whose
    binary logarithm is [l]. *)
Definition estimate_in_reach (l : Z) : bool :=
  let '(num, den) := pow2_fraction l in
  Number.pow10_le (l * 1233 / 4096 - 18) num den.

(** The decimal is not greater than zero. *)
Definition no_positivo (x : Decimal) : bool :=
  match Prisma.cmp x (DFin 0 0) with
  | Some Lt | Some Eq => true
  | _ => false
  end.

(** The two states hold the same tables and give the same identifiers
    next. *)
Definition mismo_almacen (w w' : Sistema) : Prop :=
  tablas w' = tablas w
  /\ cliente_autoincrement w' = cliente_autoincrement w
  /\ vehiculo_autoincrement w' = vehiculo_autoincrement w
  /\ trabajador_autoincrement w' = trabajador_autoincrement w.

(** Every record is stored under its own identifier. *)
Definition bajo_su_id (d : DB) : Prop :=
  forall id r, servicios d !! id = Some r -> sr_id r = id.

(** A request with no body field. *)
Definition sin_body : PutBody :=
  {| body_id := BUndefined; body_clienteId := BUndefined;
     body_vehiculoId := BUndefined; body_trabajadorId := BUndefined;
     body_fecha := BUndefined; body_volumen_recogido_m3 := BUndefined |}.

(** The GET and the DELETE of the record whose identifier is written [id]. *)
Definition request_GET (id : BodyValue) : Request :=
  {| method := "GET"; query_id := id; body := sin_body |}.

Definition request_DELETE (id : BodyValue) : Request :=
  {| method := "DELETE"; query_id := id; body := sin_body |}.

(** The POST of a body. *)
Definition request_POST (b : PostBody) : Request :=
  {| method := "POST"; query_id := BUndefined;
     body := {| body_id := BUndefined;
                body_clienteId := post_clienteId b;
                body_vehiculoId := post_vehiculoId b;
                body_trabajadorId := post_trabajadorId b;
                body_fecha := post_fecha b;
                body_volumen_recogido_m3 := post_volumen_recogido_m3 b |} |}.

(** The scenario of the specification as a state of the application. *)
Definition sistema_ejemplo : Sistema :=
  {| estado := estado_ejemplo; onDelete := Restrict;
     cliente_autoincrement := 3; vehiculo_autoincrement := 2;
     trabajador_autoincrement := 2; consultas := [] |}.

(** No stored vehicle has a capacity or a consumption that is [<= 0]. *)
Definition vehiculos_positivos (d : DB) : Prop :=
  forall id v, vehiculos d !! id = Some v ->
    no_positivo (capacidad_max_m3 v) = false
    /\ no_positivo (consumo_combustible_litros v) = false.

(** No stored client has a rate that is [<= 0]. *)
Definition tarifas_positivas (d : DB) : Prop :=
  forall id c, clientes d !! id = Some c -> no_positivo (tarifa_por_m3 c) = false.

(** No stored worker has a salary that is [<= 0]. *)
Definition salarios_positivos (d : DB) : Prop :=
  forall id t, trabajadores d !! id = Some t -> no_positivo (salario_base t) = false.

(** The field, when it is supplied, is a binary64 number. *)
Definition binary64_if_defined (v : option number) : bool :=
  match v with
  | Some n => binary64 n
  | None => true
  end.

(** A store with no record at all, as a state of the application. *)
Definition sistema_vacio : Sistema :=
  {| estado := estado_vacio; onDelete := Restrict;
     cliente_autoincrement := 1; vehiculo_autoincrement := 1;
     trabajador_autoincrement := 1; consultas := [] |}.

(** The state of the application with one stored record of volume 15. *)
Definition sistema_con_servicio : Sistema :=
  {| estado := estado_con_servicio (DFin 15 0); onDelete := Restrict;
     cliente_autoincrement := 3; vehiculo_autoincrement := 2;
     trabajador_autoincrement := 2; consultas := [] |}.

(** The creation of the scenario, as the body of a POST. *)
Definition post_15 : PostBody :=
  {| post_clienteId := BString "1";
     post_vehiculoId := BNumber (literal 1 0);
     post_trabajadorId := BString "1";
     post_fecha := BString "2024-05-01";
     post_volumen_recogido_m3 := BString "15" |}.

(** An update that supplies the capacity alone. *)
Definition solo_capacidad (n : number) : ActualizarVehiculoData :=
  {| veh_matricula := None; veh_capacidad_max_m3 := Some n;
     veh_consumo_combustible_litros := None |}.

(** An update that supplies the rate alone. *)
Definition solo_tarifa (n : number) : ActualizarClienteData :=
  {| cli_nombre := None; cli_tipo := None; cli_direccion := None;
     cli_tarifa_por_m3 := Some n |}.

(** An update that supplies the role alone. *)
Definition solo_rol (r : string) : ActualizarTrabajadorData :=
  {| trab_nombre := None; trab_rol := Some r; trab_salario_base := None |}.

(** [x.lessThanOrEqualTo(y)] of decimal.js: [x.cmp(y) < 1]. *)
Definition lessThanOrEqualTo (x y : Decimal) : bool :=
  match Prisma.cmp x y with
  | Some Lt | Some Eq => true
  | _ => false
  end.

(** [x] rounded to the nearest multiple of [10 ^ g], a tie going up. *)
Definition nearest (x : Q) (g : Z) : Q :=
  (inject_Z (Qfloor (x * (10 # 1) ^ (- g) + (1 # 2))) / (10 # 1) ^ (- g))%Q.

(** ** Numbers in units of a power of two, and the volumes in the store *)

(** The place of a rest [f], [0 <= f < 1], of a unit: none, or below, at or
    above the half. *)
Definition loc_frac (f : Q) : location :=
  if Qeq_bool f 0 then loc_Exact else loc_Inexact (f ?= 1 # 2)%Q.

(** [r] in units of [2 ^ e]: the integer part, and the place of the rest. *)
Definition bracket (r : Q) (e : Z) : Z * location :=
  let u := (r * (2 # 1) ^ (- e))%Q in
  (Qfloor u, loc_frac (u - inject_Z (Qfloor u))).

(** [e] is the exponent of the binary64 format for [r]: the integer part
    of [r] in units of [2 ^ e] has 53 bits, or fewer at the least
    exponent. *)
Definition canonical_at (r : Q) (e : Z) : Prop :=
  -1074 <= e
  /\ Qfloor (r * (2 # 1) ^ (- e)) < 2 ^ 53
  /\ (2 ^ 52 <= Qfloor (r * (2 # 1) ^ (- e)) \/ e = -1074).

(** The estimate of [Number.magnitude] is not too high by more than two:
    [10 ^ (est - 2) <= 2 ^ l] for the estimate [est] of a fraction whose
    binary logarithm is [l]. *)
Definition estimate_below (l : Z) : bool :=
  let '(num, den) := pow2_fraction l in
  Number.pow10_le (l * 1233 / 4096 - 2) num den.

(** A volume as the service writes it: [new Prisma.Decimal(n)] of a number
    [n], a binary64 value as every number of JavaScript is, that passed the
    check of the sign. *)
Definition volumen_escrito (x : Decimal) : Prop :=
  exists n,
    binary64 n = true /\ Number.leb n Number.zero = false /\ x = Prisma.of_number n.

(** Every stored volume is one the service wrote. *)
Definition volumenes_escritos (d : DB) : Prop :=
  forall id r, servicios d !! id = Some r -> volumen_escrito (sr_volumen_recogido_m3 r).

(** The effective volume of an update, as a decimal: what
    [new Prisma.Decimal] makes of the supplied number, else the stored
    decimal itself. *)
Definition volumen_efectivo (old : ServicioRecogida)
    (data : UpdateServicioRecogidaData) : Decimal :=
  match upd_volumen_recogido_m3 data with
  | Some n => Prisma.of_number n
  | None => sr_volumen_recogido_m3 old
  end.

(** The store lets the next [n] calls through and fails the one after
    them. *)
Definition fails_after (n : nat) (st : Estado) : Prop :=
  exists rest, averias st = replicate n false ++ true :: rest.

(** * Properties *)

(** ** The store *)

Lemma store_up_nil d ls : store_up {| db := d; averias := []; llamadas := ls |}.
Proof. constructor. Qed.

Lemma store_up_next st : store_up st -> next_call_up st.
Proof.
  unfold store_up, next_call_up. destruct (averias st) as [|b bs]; simpl.
  - discriminate.
  - intros H. inversion H; subst. discriminate.
Qed.

Lemma store_up_after st l d : store_up st -> store_up (after_call st l d).
Proof.
  unfold store_up. simpl. destruct (averias st) as [|b bs]; simpl; auto.
  intros H. inversion H; auto.
Qed.

Lemma prisma_up {A : Type} (l : Llamada) (op : DB -> Resultado A * DB) st :
  next_call_up st ->
  prisma l op st = (fst (op (db st)), after_call st l (snd (op (db st)))).
Proof.
  unfold next_call_up, prisma, after_call.
  destruct (averias st) as [|[] bs]; simpl; intros H;
    try congruence; destruct (op (db st)); reflexivity.
Qed.

Lemma prisma_down {A : Type} (l : Llamada) (op : DB -> Resultado A * DB) st :
  head (averias st) = Some true ->
  prisma l op st = (Throw (ErrPrisma StoreUnavailable), after_call st l (db st)).
Proof.
  unfold prisma, after_call.
  destruct (averias st) as [|[] bs]; simpl; intros H; try congruence.
Qed.

(** Whatever the store does, a call is logged and leaves the schedule of
    failures one shorter. *)
Lemma prisma_cases {A : Type} (l : Llamada) (op : DB -> Resultado A * DB) st :
  prisma l op st = (Throw (ErrPrisma StoreUnavailable), after_call st l (db st))
  \/ prisma l op st = (fst (op (db st)), after_call st l (snd (op (db st)))).
Proof.
  destruct (head (averias st)) as [[]|] eqn:E.
  - left. apply prisma_down. exact E.
  - right. apply prisma_up. unfold next_call_up. congruence.
  - right. apply prisma_up. unfold next_call_up. congruence.
Qed.

(** ** Runs of the service *)

Ltac unfold_service :=
  unfold crearServicioRecogida, actualizarServicioRecogida, eliminarServicioRecogida,
    mbind, M_bind, try_catch, throw,
    prisma_vehiculo.findUnique, prisma_cliente.findUnique,
    prisma_trabajador.findUnique, prisma_servicioRecogida.findUnique,
    prisma_servicioRecogida.create, prisma_servicioRecogida.update,
    prisma_servicioRecogida.delete in *.

(** Split on whether the store fails the call at the head of the goal. *)
Ltac step_call :=
  match goal with
  | H : context [prisma ?l ?op ?st] |- _ =>
      let E := fresh "E" in
      destruct (prisma_cases l op st) as [E|E]; rewrite E in H; clear E; simpl in H
  end.

Ltac step_branch :=
  match goal with
  | H : context [match ?x with _ => _ end] |- _ =>
      match type of x with
      | option _ => let E := fresh "E" in destruct x eqn:E
      | bool => let E := fresh "E" in destruct x eqn:E
      end; simpl in H
  | H : (_, _) = (_, _) |- _ => inversion H; clear H; subst
  | H : Some _ = Some _ |- _ => inversion H; clear H; subst
  | H : Some _ = None |- _ => discriminate H
  | H : None = Some _ |- _ => discriminate H
  end.

Lemma calls_since_nil st : calls_since st st [].
Proof. unfold calls_since. rewrite app_nil_r. reflexivity. Qed.

Lemma calls_since_after st l d : calls_since st (after_call st l d) [l].
Proof. reflexivity. Qed.

Lemma calls_since_after_trans st st1 ls l d :
  calls_since st st1 ls -> calls_since st (after_call st1 l d) (ls ++ [l]).
Proof. unfold calls_since. simpl. intros ->. rewrite app_assoc. reflexivity. Qed.

Lemma crear_throw (data : CreateServicioRecogidaData) st e st' :
  crearServicioRecogida data st = (Throw e, st') ->
  db st' = db st /\
  exists ls, calls_since st st' ls /\
    (is_validation_failure e = true -> Forall (fun l => is_write l = false) ls) /\
    (Exists (fun l => is_write l = true) ls -> e = ErrNoSePudoCrear).
Proof.
  intros H. unfold_service.
  repeat (first [step_call | step_branch]); simpl; try discriminate.
  all: split; [reflexivity|].
  all: eexists; split;
    [ first [ apply calls_since_nil
            | repeat (first [ apply calls_since_after
                            | apply calls_since_after_trans ]) ] | ].
  all: split; [ intros; repeat constructor; try discriminate
              | intros Hex; repeat (inversion Hex as [? ? Hw|? ? Hex']; subst; simpl in *; try discriminate; try reflexivity; clear Hex; try rename Hex' into Hex) ].
Qed.

Lemma actualizar_throw (id : Z) (data : UpdateServicioRecogidaData) st e st' :
  actualizarServicioRecogida id data st = (Throw e, st') ->
  db st' = db st /\
  exists ls, calls_since st st' ls /\
    (is_validation_failure e = true -> Forall (fun l => is_write l = false) ls) /\
    (Exists (fun l => is_write l = true) ls -> e = ErrNoSePudoActualizar).
Proof.
  intros H. unfold_service.
  repeat (first [step_call | step_branch]); simpl; try discriminate.
  all: split; [reflexivity|].
  all: eexists; split;
    [ first [ apply calls_since_nil
            | repeat (first [ apply calls_since_after
                            | apply calls_since_after_trans ]) ] | ].
  all: split; [ intros; repeat constructor; try discriminate
              | intros Hex; repeat (inversion Hex as [? ? Hw|? ? Hex']; subst; simpl in *; try discriminate; try reflexivity; clear Hex; try rename Hex' into Hex) ].
Qed.

(** ** Successful runs *)

Lemma crear_ok (data : CreateServicioRecogidaData) st r st' :
  crearServicioRecogida data st = (Ok r, st') ->
  exists vehiculo cliente trabajador,
    Number.leb (volumen_recogido_m3 data) Number.zero = false
    /\ vehiculos (db st) !! vehiculoId data = Some vehiculo
    /\ Prisma.greaterThan (Prisma.of_number (volumen_recogido_m3 data))
         (capacidad_max_m3 vehiculo) = false
    /\ clientes (db st) !! clienteId data = Some cliente
    /\ trabajadores (db st) !! trabajadorId data = Some trabajador
    /\ r = {| sr_id := secuencia (db st);
              sr_clienteId := clienteId data;
              sr_vehiculoId := vehiculoId data;
              sr_trabajadorId := trabajadorId data;
              sr_fecha := fecha data;
              sr_volumen_recogido_m3 := Prisma.of_number (volumen_recogido_m3 data);
              sr_costo_servicio :=
                costo (Prisma.of_number (volumen_recogido_m3 data))
                      (tarifa_por_m3 cliente) |}
    /\ servicios (db st) !! secuencia (db st) = None
    /\ db st' = prisma_servicioRecogida.with_servicios (db st)
                  (<[secuencia (db st) := r]> (servicios (db st)))
                  (secuencia (db st) + 1)
    /\ calls_since st st'
         [VehiculoFindUnique (vehiculoId data); ClienteFindUnique (clienteId data);
          TrabajadorFindUnique (trabajadorId data);
          ServicioCreate (clienteId data) (vehiculoId data) (trabajadorId data)
            (fecha data) (sr_volumen_recogido_m3 r) (sr_costo_servicio r)].
Proof.
  intros H. unfold_service.
  repeat (first [step_call | step_branch]); simpl; try discriminate.
  do 3 eexists. repeat apply conj; try reflexivity; try eassumption.
  unfold calls_since, after_call. simpl. repeat rewrite <- List.app_assoc. reflexivity.
Qed.

Lemma actualizar_ok (id : Z) (data : UpdateServicioRecogidaData) st r st' :
  actualizarServicioRecogida id data st = (Ok r, st') ->
  exists old vehiculo cliente trabajador,
    let finalClienteId := default (sr_clienteId old) (upd_clienteId data) in
    let finalVehiculoId := default (sr_vehiculoId old) (upd_vehiculoId data) in
    let finalTrabajadorId := default (sr_trabajadorId old) (upd_trabajadorId data) in
    let finalVolumenRecogido :=
      default (Prisma.toNumber (sr_volumen_recogido_m3 old))
              (upd_volumen_recogido_m3 data) in
    servicios (db st) !! id = Some old
    /\ Number.leb finalVolumenRecogido Number.zero = false
    /\ vehiculos (db st) !! finalVehiculoId = Some vehiculo
    /\ Prisma.greaterThan (Prisma.of_number finalVolumenRecogido)
         (capacidad_max_m3 vehiculo) = false
    /\ clientes (db st) !! finalClienteId = Some cliente
    /\ trabajadores (db st) !! finalTrabajadorId = Some trabajador
    /\ r = {| sr_id := sr_id old;
              sr_clienteId := finalClienteId;
              sr_vehiculoId := finalVehiculoId;
              sr_trabajadorId := finalTrabajadorId;
              sr_fecha := default (sr_fecha old) (upd_fecha data);
              sr_volumen_recogido_m3 := Prisma.of_number finalVolumenRecogido;
              sr_costo_servicio :=
                costo (Prisma.of_number finalVolumenRecogido) (tarifa_por_m3 cliente) |}
    /\ db st' = prisma_servicioRecogida.with_servicios (db st)
                  (<[id := r]> (servicios (db st))) (secuencia (db st))
    /\ calls_since st st'
         [ServicioFindUnique id; VehiculoFindUnique finalVehiculoId;
          ClienteFindUnique finalClienteId; TrabajadorFindUnique finalTrabajadorId;
          ServicioUpdate id finalClienteId finalVehiculoId finalTrabajadorId
            (upd_fecha data) (sr_volumen_recogido_m3 r) (sr_costo_servicio r)].
Proof.
  intros H. unfold_service.
  repeat (first [step_call | step_branch]); simpl; try discriminate.
  do 4 eexists. repeat apply conj; try reflexivity; try eassumption.
  unfold calls_since, after_call. simpl. repeat rewrite <- List.app_assoc. reflexivity.
Qed.

(** ** The sequence of identifiers *)

Lemma sequence_ahead_crear (data : CreateServicioRecogidaData) st res st' :
  crearServicioRecogida data st = (res, st') ->
  sequence_ahead (db st) -> sequence_ahead (db st').
Proof.
  intros H Hseq. destruct res as [r|e].
  - destruct (crear_ok _ _ _ _ H)
      as (_ & _ & _ & _ & _ & _ & _ & _ & _ & _ & Hdb & _).
    rewrite Hdb. intros k Hk. simpl in *.
    rewrite lookup_insert_ne by lia. apply Hseq. lia.
  - destruct (crear_throw _ _ _ _ H) as (Hdb & _). rewrite Hdb. exact Hseq.
Qed.

Lemma sequence_ahead_actualizar (id : Z) (data : UpdateServicioRecogidaData) st res st' :
  actualizarServicioRecogida id data st = (res, st') ->
  sequence_ahead (db st) -> sequence_ahead (db st').
Proof.
  intros H Hseq. destruct res as [r|e].
  - destruct (actualizar_ok _ _ _ _ _ H)
      as (old & _ & _ & _ & Hold & _ & _ & _ & _ & _ & _ & Hdb & _).
    rewrite Hdb. intros k Hk. simpl in *.
    destruct (Z.eq_dec id k) as [->|Hne].
    + rewrite (Hseq k Hk) in Hold. discriminate Hold.
    + rewrite lookup_insert_ne by exact Hne. apply Hseq. exact Hk.
  - destruct (actualizar_throw _ _ _ _ _ H) as (Hdb & _). rewrite Hdb. exact Hseq.
Qed.

Lemma sequence_ahead_eliminar (id : Z) st res st' :
  eliminarServicioRecogida id st = (res, st') ->
  sequence_ahead (db st) -> sequence_ahead (db st').
Proof.
  intros H Hseq. unfold_service.
  repeat (first [step_call | step_branch]); simpl; try exact Hseq.
  intros k Hk. simpl in *.
  destruct (Z.eq_dec id k) as [->|Hne].
  - apply lookup_delete_eq.
  - rewrite lookup_delete_ne by exact Hne. apply Hseq. exact Hk.
Qed.

(** ** Runs on a store that fails no call *)

Ltac call_up :=
  rewrite prisma_up by (eauto 10 using store_up_next, store_up_after); simpl.

Ltac branch_goal :=
  match goal with
  | |- context [match ?x with _ => _ end] =>
      match type of x with
      | option _ => let E := fresh "E" in destruct x eqn:E
      | bool => let E := fresh "E" in destruct x eqn:E
      end; simpl
  end.

Lemma crear_excede (data : CreateServicioRecogidaData) st vehiculo :
  next_call_up st ->
  Number.leb (volumen_recogido_m3 data) Number.zero = false ->
  vehiculos (db st) !! vehiculoId data = Some vehiculo ->
  Prisma.greaterThan (Prisma.of_number (volumen_recogido_m3 data))
    (capacidad_max_m3 vehiculo) = true ->
  crearServicioRecogida data st
  = (Throw (ErrExcedeCapacidad (volumen_recogido_m3 data) (capacidad_max_m3 vehiculo)),
     after_call st (VehiculoFindUnique (vehiculoId data)) (db st)).
Proof.
  intros Hup Hpos Hveh Hgt. unfold_service. rewrite Hpos.
  rewrite prisma_up by assumption. simpl. rewrite Hveh, Hgt. reflexivity.
Qed.

Lemma actualizar_excede (id : Z) (data : UpdateServicioRecogidaData) st old vehiculo :
  store_up st ->
  servicios (db st) !! id = Some old ->
  Number.leb (volumen_recogido_m3 (merged old data)) Number.zero = false ->
  vehiculos (db st) !! vehiculoId (merged old data) = Some vehiculo ->
  Prisma.greaterThan (Prisma.of_number (volumen_recogido_m3 (merged old data)))
    (capacidad_max_m3 vehiculo) = true ->
  actualizarServicioRecogida id data st
  = (Throw (ErrExcedeCapacidad (volumen_recogido_m3 (merged old data))
              (capacidad_max_m3 vehiculo)),
     after_call (after_call st (ServicioFindUnique id) (db st))
       (VehiculoFindUnique (vehiculoId (merged old data))) (db st)).
Proof.
  intros Hup Hold Hpos Hveh Hgt. simpl in *. unfold_service.
  call_up. rewrite Hold, Hpos. call_up. rewrite Hveh, Hgt. reflexivity.
Qed.

(** The checks of crearServicioRecogida in the order they are made, each
    with the state it leaves: a check that fails ends the run, and the log
    shows that no later lookup was made. *)
Lemma crear_en_orden (data : CreateServicioRecogidaData) (st : Estado) :
  store_up st ->
  let volumen := volumen_recogido_m3 data in
  let tras_vehiculo := after_call st (VehiculoFindUnique (vehiculoId data)) (db st) in
  let tras_cliente :=
    after_call tras_vehiculo (ClienteFindUnique (clienteId data)) (db st) in
  let tras_trabajador :=
    after_call tras_cliente (TrabajadorFindUnique (trabajadorId data)) (db st) in
  (Number.leb volumen Number.zero = true ->
   crearServicioRecogida data st = (Throw ErrVolumenNoPositivo, st))
  /\
  (Number.leb volumen Number.zero = false ->
   (vehiculos (db st) !! vehiculoId data = None ->
    crearServicioRecogida data st
    = (Throw (ErrVehiculoNoEncontrado (vehiculoId data)), tras_vehiculo))
   /\
   (forall vehiculo,
       vehiculos (db st) !! vehiculoId data = Some vehiculo ->
       (Prisma.greaterThan (Prisma.of_number volumen) (capacidad_max_m3 vehiculo) = true ->
        crearServicioRecogida data st
        = (Throw (ErrExcedeCapacidad volumen (capacidad_max_m3 vehiculo)), tras_vehiculo))
       /\
       (Prisma.greaterThan (Prisma.of_number volumen) (capacidad_max_m3 vehiculo) = false ->
        (clientes (db st) !! clienteId data = None ->
         crearServicioRecogida data st
         = (Throw (ErrClienteNoEncontrado (clienteId data)), tras_cliente))
        /\
        (forall cliente,
            clientes (db st) !! clienteId data = Some cliente ->
            trabajadores (db st) !! trabajadorId data = None ->
            crearServicioRecogida data st
            = (Throw (ErrTrabajadorNoEncontrado (trabajadorId data)), tras_trabajador))))).
Proof.
  intros Hup volumen tras_vehiculo tras_cliente tras_trabajador.
  subst volumen tras_vehiculo tras_cliente tras_trabajador.
  split; [intros Hneg; unfold_service; rewrite Hneg; reflexivity|].
  intros Hpos. split.
  - intros Hveh. unfold_service. rewrite Hpos. call_up. rewrite Hveh. reflexivity.
  - intros vehiculo Hveh. split.
    + intros Hgt. apply crear_excede; auto using store_up_next.
    + intros Hle. split.
      * intros Hcli. unfold_service. rewrite Hpos. call_up. rewrite Hveh, Hle.
        call_up. rewrite Hcli. reflexivity.
      * intros cliente Hcli Htra. unfold_service. rewrite Hpos. call_up.
        rewrite Hveh, Hle. call_up. rewrite Hcli. call_up. rewrite Htra. reflexivity.
Qed.

(** ** Values of decimals *)

Section DecimalValues.
Import Prisma.
Local Open Scope Q_scope.

Lemma ten_neq_0 : ~ (10 # 1) == 0.
Proof. discriminate. Qed.

Lemma pow10_pos (e : Z) : 0 < (10 # 1) ^ e.
Proof. apply Qpower_0_lt. reflexivity. Qed.

Lemma pow10_neq_0 (e : Z) : ~ (10 # 1) ^ e == 0.
Proof. intros H. pose proof (pow10_pos e) as P. rewrite H in P. discriminate P. Qed.

Lemma inject_pow10 (k : Z) : (0 <= k)%Z -> inject_Z (10 ^ k) == (10 # 1) ^ k.
Proof. intros H. rewrite Zpower_Qpower by assumption. reflexivity. Qed.

Lemma to_Q_shift (c e k : Z) :
  (0 <= k)%Z -> to_Q (c * 10 ^ k) e == to_Q c (e + k).
Proof.
  intros H. unfold to_Q.
  rewrite inject_Z_mult, inject_pow10 by assumption.
  rewrite (Qpower_plus _ e k ten_neq_0). ring.
Qed.

Lemma to_Q_mult (c1 e1 c2 e2 : Z) :
  to_Q (c1 * c2) (e1 + e2) == to_Q c1 e1 * to_Q c2 e2.
Proof.
  unfold to_Q. rewrite inject_Z_mult, (Qpower_plus _ e1 e2 ten_neq_0). ring.
Qed.

Lemma to_Q_opp (c e : Z) : to_Q (- c) e == - to_Q c e.
Proof. unfold to_Q. rewrite inject_Z_opp. ring. Qed.

Lemma to_Q_nonneg (c e : Z) : (0 <= c)%Z -> 0 <= to_Q c e.
Proof.
  intros H. unfold to_Q. apply Qmult_le_0_compat.
  - change 0 with (inject_Z 0). rewrite <- Zle_Qle. exact H.
  - apply Qlt_le_weak, pow10_pos.
Qed.

Lemma to_Q_neg (c e : Z) : (c < 0)%Z -> to_Q c e < 0.
Proof.
  intros H. unfold to_Q.
  assert (E : inject_Z c * (10 # 1) ^ e == - (inject_Z (- c) * (10 # 1) ^ e))
    by (rewrite inject_Z_opp; ring).
  rewrite E.
  change 0 with (- 0). apply Qopp_lt_compat.
  apply Qmult_lt_0_compat; [|apply pow10_pos].
  change 0 with (inject_Z 0). rewrite <- Zlt_Qlt. lia.
Qed.

Lemma strip_value (fuel : nat) (c e : Z) :
  to_Q (fst (strip fuel c e)) (snd (strip fuel c e)) == to_Q c e.
Proof.
  revert c e. induction fuel as [|fuel IH]; intros c e; simpl; [reflexivity|].
  destruct (c mod 10 =? 0)%Z eqn:E; [|reflexivity].
  rewrite IH. apply Z.eqb_eq in E.
  rewrite <- (to_Q_shift (c / 10) e 1) by lia.
  replace (c / 10 * 10 ^ 1)%Z with c; [reflexivity|].
  rewrite (Z.div_mod c 10) at 1 by lia. rewrite E. change (10 ^ 1)%Z with 10%Z. lia.
Qed.

Lemma normalize_value (c e : Z) :
  exists c' e', normalize c e = DFin c' e' /\ to_Q c' e' == to_Q c e.
Proof.
  unfold normalize. destruct (c =? 0)%Z eqn:E.
  - apply Z.eqb_eq in E. subst c. exists 0%Z, 0%Z. split; [reflexivity|].
    unfold to_Q. ring.
  - pose proof (strip_value (Z.to_nat (Z.log2 (Z.abs c))) c e) as H.
    destruct (strip (Z.to_nat (Z.log2 (Z.abs c))) c e) as [c' e'].
    exists c', e'. split; [reflexivity|exact H].
Qed.

(** Adding one half and taking the integer part: the nearest integer to
    [a / 10 ^ k], a tie going up. *)
Lemma floor_half_up (a e dp : Z) :
  (0 <= a)%Z -> (e < - dp)%Z ->
  Qfloor (to_Q a e * (10 # 1) ^ dp + (1 # 2))
  = ((2 * a + 10 ^ (- dp - e)) / (2 * 10 ^ (- dp - e)))%Z.
Proof.
  intros Ha He. set (k := (- dp - e)%Z).
  assert (Hk : (0 <= k)%Z) by (unfold k; lia).
  rewrite Zdiv_Qdiv. apply Qfloor_comp.
  rewrite inject_Z_plus, !inject_Z_mult, inject_pow10 by assumption.
  unfold to_Q.
  replace e with (- k + - dp)%Z by (unfold k; lia).
  rewrite (Qpower_plus _ (- k) (- dp) ten_neq_0), !Qpower_opp.
  field. split; apply pow10_neq_0.
Qed.

Lemma floor_half_exact (a e dp : Z) :
  (- dp <= e)%Z ->
  Qfloor (to_Q a e * (10 # 1) ^ dp + (1 # 2)) = (a * 10 ^ (e + dp))%Z.
Proof.
  intros He.
  assert (E : to_Q a e * (10 # 1) ^ dp + (1 # 2)
              == inject_Z (2 * (a * 10 ^ (e + dp)) + 1) / inject_Z 2).
  { rewrite inject_Z_plus, !inject_Z_mult, inject_pow10 by lia.
    unfold to_Q. rewrite (Qpower_plus _ e dp ten_neq_0). field. }
  rewrite (Qfloor_comp _ _ E), <- Zdiv_Qdiv.
  rewrite Z.mul_comm, Z.div_add_l by lia. change (1 / 2)%Z with 0%Z. lia.
Qed.

Lemma Qle_bool_to_Q (c e : Z) : Qle_bool 0 (to_Q c e) = (0 <=? c)%Z.
Proof.
  destruct (0 <=? c)%Z eqn:E.
  - apply Qle_bool_iff, to_Q_nonneg. apply Z.leb_le. exact E.
  - apply Z.leb_gt in E. destruct (Qle_bool 0 (to_Q c e)) eqn:B; [|reflexivity].
    apply Qle_bool_iff in B. pose proof (to_Q_neg c e E) as N.
    exfalso. exact (Qlt_not_le _ _ N B).
Qed.

Lemma to_Q_over_pow10 (n dp : Z) : inject_Z n / (10 # 1) ^ dp == to_Q n (- dp).
Proof. unfold to_Q. rewrite Qpower_opp. reflexivity. Qed.

Lemma round_half_up_nonneg (a e dp : Z) :
  (0 <= a)%Z ->
  inject_Z (Qfloor (to_Q a e * (10 # 1) ^ dp + (1 # 2))) / (10 # 1) ^ dp
  == if (- dp <=? e)%Z then to_Q a e
     else to_Q ((2 * a + 10 ^ (- dp - e)) / (2 * 10 ^ (- dp - e))) (- dp).
Proof.
  intros Ha. destruct (- dp <=? e)%Z eqn:E.
  - apply Z.leb_le in E. rewrite floor_half_exact by assumption.
    rewrite to_Q_over_pow10, to_Q_shift by lia.
    replace (- dp + (e + dp))%Z with e by lia. reflexivity.
  - apply Z.leb_gt in E. rewrite floor_half_up by assumption.
    apply to_Q_over_pow10.
Qed.

(** [toDecimalPlaces(dp, ROUND_HALF_UP)] of a finite decimal is the
    [round_half_up] of the specification. *)
Lemma toDecimalPlaces_value (dp c e : Z) :
  exists c' e',
    toDecimalPlaces dp (DFin c e) = DFin c' e'
    /\ to_Q c' e' == round_half_up (to_Q c e) dp.
Proof.
  unfold toDecimalPlaces, round_half_up, round_half_up_div.
  rewrite Qle_bool_to_Q.
  set (k := (- dp - e)%Z).
  destruct (Z.leb_spec 0 c) as [Hc|Hc]; destruct (- dp <=? e)%Z eqn:E.
  - destruct (normalize_value c e) as (c' & e' & Hn & Hv).
    exists c', e'. split; [exact Hn|].
    rewrite round_half_up_nonneg, E by assumption. exact Hv.
  - destruct (normalize_value (Z.sgn c * ((2 * Z.abs c + 10 ^ k) / (2 * 10 ^ k)))
                (- dp)) as (c' & e' & Hn & Hv).
    exists c', e'. split; [exact Hn|].
    rewrite round_half_up_nonneg, E by assumption. fold k. rewrite Hv.
    rewrite Z.abs_eq by assumption.
    destruct (Z.eq_dec c 0%Z) as [->|Hnz].
    + simpl (Z.sgn 0%Z). rewrite Z.mul_0_l, Z.mul_0_r, Z.add_0_l.
      rewrite Z.div_small; [reflexivity|].
      apply Z.leb_gt in E.
      assert (0 < 10 ^ k)%Z by (apply Z.pow_pos_nonneg; unfold k; lia). lia.
    + rewrite Z.sgn_pos by lia. rewrite Z.mul_1_l. reflexivity.
  - destruct (normalize_value c e) as (c' & e' & Hn & Hv).
    exists c', e'. split; [exact Hn|].
    assert (Hopp : - to_Q c e * (10 # 1) ^ dp + (1 # 2)
                   == to_Q (- c) e * (10 # 1) ^ dp + (1 # 2))
      by (rewrite to_Q_opp; reflexivity).
    rewrite (Qfloor_comp _ _ Hopp).
    rewrite round_half_up_nonneg, E by lia.
    rewrite Hv, to_Q_opp. ring.
  - destruct (normalize_value (Z.sgn c * ((2 * Z.abs c + 10 ^ k) / (2 * 10 ^ k)))
                (- dp)) as (c' & e' & Hn & Hv).
    exists c', e'. split; [exact Hn|].
    assert (Hopp : - to_Q c e * (10 # 1) ^ dp + (1 # 2)
                   == to_Q (- c) e * (10 # 1) ^ dp + (1 # 2))
      by (rewrite to_Q_opp; reflexivity).
    rewrite (Qfloor_comp _ _ Hopp).
    rewrite round_half_up_nonneg, E by lia. fold k. rewrite Hv.
    rewrite Z.abs_neq by lia. rewrite Z.sgn_neg by assumption.
    rewrite <- to_Q_opp.
    replace (-1 * ((2 * - c + 10 ^ k) / (2 * 10 ^ k)))%Z
      with (- ((2 * - c + 10 ^ k) / (2 * 10 ^ k)))%Z by lia.
    reflexivity.
Qed.

Lemma digits_fuel_le (fuel : nat) (n c : Z) :
  (1 <= n)%Z -> (0 <= c < 10 ^ n)%Z -> (digits_fuel fuel c <= n)%Z.
Proof.
  revert n c. induction fuel as [|fuel IH]; intros n c Hn Hc; simpl; [lia|].
  destruct (Z.ltb_spec c 10) as [H|H]; [lia|].
  assert (Hn2 : (2 <= n)%Z).
  { destruct (Z.le_gt_cases 2 n) as [|G]; [assumption|].
    replace n with 1%Z in Hc by lia. change (10 ^ 1)%Z with 10%Z in Hc. lia. }
  specialize (IH (n - 1)%Z (c / 10)%Z).
  assert (0 <= c / 10 < 10 ^ (n - 1))%Z; [|lia].
  split; [apply Z.div_pos; lia|].
  apply Z.div_lt_upper_bound; [lia|].
  replace (10 * 10 ^ (n - 1))%Z with (10 ^ n)%Z; [lia|].
  replace n with (Z.succ (n - 1)) at 1 by lia. rewrite Z.pow_succ_r by lia. reflexivity.
Qed.

(** [times] is exact when the product of the coefficients has at most
    [precision] digits. *)
Lemma times_value (c1 e1 c2 e2 : Z) :
  (Z.abs (c1 * c2) < 10 ^ precision)%Z ->
  exists c' e',
    times (DFin c1 e1) (DFin c2 e2) = DFin c' e'
    /\ to_Q c' e' == to_Q c1 e1 * to_Q c2 e2.
Proof.
  intros H. unfold times, finalise, digits10.
  pose proof (digits_fuel_le (Z.to_nat (Z.log2 (Z.abs (c1 * c2)))) precision
                (Z.abs (c1 * c2))) as D.
  destruct (Z.leb_spec (digits_fuel (Z.to_nat (Z.log2 (Z.abs (c1 * c2))))
                          (Z.abs (c1 * c2))) precision) as [_|G].
  - destruct (normalize_value (c1 * c2) (e1 + e2)) as (c' & e' & Hn & Hv).
    exists c', e'. split; [exact Hn|]. rewrite Hv. apply to_Q_mult.
  - exfalso. unfold precision in *. lia.
Qed.

(** The cost the service computes is finite when the volume and the rate
    are, and it is the exact [round_half_up] of their product when the
    product of their coefficients has at most [precision] digits. *)
Lemma costo_value (cv ev ct et : Z) :
  (Z.abs (cv * ct) < 10 ^ precision)%Z ->
  exists q,
    value (costo (DFin cv ev) (DFin ct et)) = Some q
    /\ q == round_half_up (to_Q cv ev * to_Q ct et) 2.
Proof.
  intros H. unfold costo.
  destruct (times_value cv ev ct et H) as (c & e & Ht & Hv). rewrite Ht.
  destruct (toDecimalPlaces_value 2 c e) as (c' & e' & Hd & Hr). rewrite Hd.
  exists (to_Q c' e'). split; [reflexivity|].
  rewrite Hr. unfold round_half_up.
  assert (B : Qle_bool 0 (to_Q c e) = Qle_bool 0 (to_Q cv ev * to_Q ct et)).
  { destruct (Qle_bool 0 (to_Q c e)) eqn:B1,
             (Qle_bool 0 (to_Q cv ev * to_Q ct et)) eqn:B2; try reflexivity.
    - apply Qle_bool_iff in B1. rewrite Hv in B1. apply Qle_bool_iff in B1. congruence.
    - apply Qle_bool_iff in B2. rewrite <- Hv in B2. apply Qle_bool_iff in B2. congruence. }
  rewrite B.
  destruct (Qle_bool 0 (to_Q cv ev * to_Q ct et)).
  - assert (E : to_Q c e * (10 # 1) ^ 2 + (1 # 2)
                == to_Q cv ev * to_Q ct et * (10 # 1) ^ 2 + (1 # 2))
      by (rewrite Hv; reflexivity).
    rewrite (Qfloor_comp _ _ E). reflexivity.
  - assert (E : - to_Q c e * (10 # 1) ^ 2 + (1 # 2)
                == - (to_Q cv ev * to_Q ct et) * (10 # 1) ^ 2 + (1 # 2))
      by (rewrite Hv; reflexivity).
    rewrite (Qfloor_comp _ _ E). reflexivity.
Qed.
End DecimalValues.

(** ** Signs *)

Section Signs.
Import Prisma.

Lemma candidates_positive x num den n k s p :
  In (s, p) (Number.candidates x num den n k) -> 0 < s.
Proof.
  unfold Number.candidates. intros H. apply in_map_iff in H.
  destruct H as (s' & Heq & Hin). inversion Heq; subst.
  apply List.filter_In in Hin. destruct Hin as [_ Hc].
  apply andb_true_iff in Hc. destruct Hc as [Hc _]. apply Z.ltb_lt. exact Hc.
Qed.

Lemma shortest_positive x num den n ks s p :
  Number.shortest x num den n ks = Some (s, p) -> 0 < s.
Proof.
  induction ks as [|k ks IH]; simpl; [discriminate|].
  destruct (Number.candidates x num den n k) as [|c cs] eqn:E; [exact IH|].
  intros H. inversion H; subst. apply (candidates_positive x num den n k s p).
  rewrite E. left. reflexivity.
Qed.

Lemma fraction_positive m e num den :
  Number.fraction m e = (num, den) -> 0 < num /\ 0 < den.
Proof.
  unfold Number.fraction. destruct (Z.leb_spec 0 e) as [H|H]; intros E; inversion E; subst.
  - split; [|lia]. assert (0 < 2 ^ e) by (apply Z.pow_pos_nonneg; lia). lia.
  - split; [lia|]. apply Z.pow_pos_nonneg; lia.
Qed.

Lemma to_decimal_nonneg m e : 0 <= fst (Number.to_decimal m e).
Proof.
  unfold Number.to_decimal.
  destruct (Number.fraction m e) as [num den] eqn:F.
  destruct (fraction_positive _ _ _ _ F) as [Hn Hd].
  destruct (Number.shortest _ num den _ _) as [[s p]|] eqn:S.
  - apply shortest_positive in S. simpl. lia.
  - simpl. apply Z.div_pos.
    + destruct (0 <=? _); [lia|].
      apply Z.mul_nonneg_nonneg; [lia|]. apply Z.pow_nonneg. lia.
    + destruct (Z.leb_spec 0 (Number.magnitude num den - 17)) as [H|H]; [|lia].
      apply Z.mul_pos_pos; [lia|]. apply Z.pow_pos_nonneg; lia.
Qed.

Lemma strip_nonpositive fuel c e : c <= 0 -> fst (strip fuel c e) <= 0.
Proof.
  revert c e. induction fuel as [|fuel IH]; intros c e H; simpl; [exact H|].
  destruct (c mod 10 =? 0); [|exact H].
  apply IH. apply Z.div_le_upper_bound; lia.
Qed.

Lemma normalize_nonpositive c e :
  c <= 0 -> exists c' e', normalize c e = DFin c' e' /\ c' <= 0.
Proof.
  intros H. unfold normalize. destruct (c =? 0).
  - exists 0, 0. split; [reflexivity|lia].
  - pose proof (strip_nonpositive (Z.to_nat (Z.log2 (Z.abs c))) c e H) as S.
    destruct (strip _ c e) as [c' e']. exists c', e'. split; [reflexivity|exact S].
Qed.

(** A number that is [<= 0] becomes a decimal that is below every
    positive decimal. *)
Lemma of_number_nonpositive (v : number) (cap : Decimal) :
  Number.leb v Number.zero = true ->
  positive_decimal cap ->
  cmp (of_number v) cap = Some Lt.
Proof.
  intros Hv Hcap.
  assert (Hshape : of_number v = DInf true
                   \/ exists c e, of_number v = DFin c e /\ c <= 0).
  { destruct v as [s|s| |s m e]; simpl in *.
    - right. exists 0, 0. split; [reflexivity|lia].
    - destruct s; [left; reflexivity|discriminate Hv].
    - discriminate Hv.
    - destruct s; [|discriminate Hv]. right.
      pose proof (to_decimal_nonneg m e) as N.
      destruct (Number.to_decimal m e) as [c q]. simpl in N.
      apply normalize_nonpositive. lia. }
  unfold positive_decimal, greaterThan in Hcap.
  destruct cap as [|t|c2 e2]; simpl in Hcap; try discriminate Hcap.
  - destruct t; [discriminate Hcap|].
    destruct Hshape as [->|(c & e & -> & _)]; reflexivity.
  - assert (Hc2 : 0 < c2).
    { destruct (c2 * 10 ^ (e2 - Z.min e2 0) ?= 0 * 10 ^ (0 - Z.min e2 0)) eqn:C;
        try discriminate Hcap.
      apply Z.compare_gt_iff in C.
      assert (0 <= 10 ^ (e2 - Z.min e2 0)) by (apply Z.pow_nonneg; lia). nia. }
    destruct Hshape as [->|(c & e & -> & Hc)]; [reflexivity|].
    simpl. f_equal. apply Z.compare_lt_iff.
    assert (0 < 10 ^ (e2 - Z.min e e2)) by (apply Z.pow_pos_nonneg; lia).
    assert (0 <= 10 ^ (e - Z.min e e2)) by (apply Z.pow_nonneg; lia). nia.
Qed.

(** So a volume that exceeds, or equals, a positive capacity passed the
    check of the sign. *)
Lemma above_positive_capacity (v : number) (cap : Decimal) :
  positive_decimal cap ->
  cmp (of_number v) cap = Some Gt \/ cmp (of_number v) cap = Some Eq ->
  Number.leb v Number.zero = false.
Proof.
  intros Hcap Hcmp. destruct (Number.leb v Number.zero) eqn:E; [|reflexivity].
  rewrite (of_number_nonpositive v cap E Hcap) in Hcmp.
  destruct Hcmp; discriminate.
Qed.
End Signs.

(** For every number but NaN, the test [v <= 0] of the service is the test
    that [v] is not strictly positive. *)
Lemma leb_zero_not_positive (v : number) :
  v <> Number.NaN ->
  Number.leb v Number.zero = negb (Number.ltb Number.zero v).
Proof.
  intros H. destruct v as [s|[]| |[] m e]; try reflexivity.
  exfalso. apply H. reflexivity.
Qed.

(** The numbers and the decimals of some literals. *)
Example number_0_1 :
  literal 1 (-1) = S754_finite false 7205759403792794 (-56)
  /\ Prisma.of_number (literal 1 (-1)) = DFin 1 (-1).
Proof. vm_compute. split; reflexivity. Qed.

Example number_0_1_plus_0_2 :
  Prisma.of_number (SFadd Number.prec Number.emax (literal 1 (-1)) (literal 2 (-1)))
  = DFin 30000000000000004 (-17).
Proof. vm_compute. reflexivity. Qed.

Example number_2_53_plus_1 :
  Prisma.of_number (Prisma.toNumber (DFin 9007199254740993 0))
  = DFin 9007199254740992 0.
Proof. vm_compute. reflexivity. Qed.

Example number_1e23 :
  Prisma.of_number (literal 1 23) = DFin 1 23
  /\ literal 1 23 = S754_finite false 5960464477539062 24.
Proof. vm_compute. split; reflexivity. Qed.

(** ** The examples of the specification *)

Example costo_3756_por_10 :
  costo (Prisma.of_number (literal 10 0)) (DFin 3756 (-3)) = DFin 3756 (-2).
Proof. vm_compute. reflexivity. Qed.

Example costo_2005_por_5 :
  costo (Prisma.of_number (literal 5 0)) (DFin 2005 (-3)) = DFin 1003 (-2).
Proof. vm_compute. reflexivity. Qed.

Example escenario_15 :
  fst (crearServicioRecogida (crear_con 1 (literal 15 0)) estado_ejemplo)
  = Ok servicio_15.
Proof. vm_compute. reflexivity. Qed.

Example escenario_25 :
  fst (crearServicioRecogida (crear_con 1 (literal 25 0)) estado_ejemplo)
  = Throw (ErrExcedeCapacidad (literal 25 0) (DFin 2 1))
  /\ Prisma.of_number (literal 25 0) = DFin 25 0.
Proof. vm_compute. split; reflexivity. Qed.

(** ** C1 *)

(** C1, as it holds. Whenever crearServicioRecogida or
    actualizarServicioRecogida persists a record, its costo_servicio is
    [volumen.times(tarifa).toDecimalPlaces(2, ROUND_HALF_UP)] for the decimal
    of the effective volume and the tarifa_por_m3 of the referenced client as
    stored: it is computed in decimal arithmetic from those two values alone.
    The product is kept to 20 significant digits before it is rounded to two
    places, so the cost is the exact round_half_up of volume times rate
    whenever the product of the two coefficients has at most 20 digits. *)
Theorem costo_derivado_en_el_servidor :
  (forall data st r st',
      crearServicioRecogida data st = (Ok r, st') ->
      exists cliente,
        let volumen := Prisma.of_number (volumen_recogido_m3 data) in
        clientes (db st) !! clienteId data = Some cliente
        /\ servicios (db st') !! sr_id r = Some r
        /\ sr_costo_servicio r
           = Prisma.toDecimalPlaces 2 (Prisma.times volumen (tarifa_por_m3 cliente))
        /\ forall cv ev ct et,
             volumen = DFin cv ev -> tarifa_por_m3 cliente = DFin ct et ->
             Z.abs (cv * ct) < 10 ^ Prisma.precision ->
             exact_cost volumen (tarifa_por_m3 cliente) (sr_costo_servicio r))
  /\
  (forall id data st r st',
      actualizarServicioRecogida id data st = (Ok r, st') ->
      exists old cliente,
        let volumen :=
          Prisma.of_number (default (Prisma.toNumber (sr_volumen_recogido_m3 old))
                                    (upd_volumen_recogido_m3 data)) in
        servicios (db st) !! id = Some old
        /\ clientes (db st) !! default (sr_clienteId old) (upd_clienteId data)
           = Some cliente
        /\ servicios (db st') !! id = Some r
        /\ sr_costo_servicio r
           = Prisma.toDecimalPlaces 2 (Prisma.times volumen (tarifa_por_m3 cliente))
        /\ forall cv ev ct et,
             volumen = DFin cv ev -> tarifa_por_m3 cliente = DFin ct et ->
             Z.abs (cv * ct) < 10 ^ Prisma.precision ->
             exact_cost volumen (tarifa_por_m3 cliente) (sr_costo_servicio r)).
Proof.
  split.
  - intros data st r st' H.
    destruct (crear_ok _ _ _ _ H) as (v & c & t & _ & _ & _ & Hc & _ & Hr & _ & Hdb & _).
    exists c. cbv zeta. split; [exact Hc|].
    split; [rewrite Hdb; simpl; rewrite Hr at 1; simpl; apply lookup_insert_eq|].
    split; [rewrite Hr; reflexivity|].
    intros cv ev ct et Hv Ht Hd. rewrite Hr. simpl. rewrite Hv, Ht.
    destruct (costo_value cv ev ct et Hd) as (q & Hq & Hround).
    exists (Prisma.to_Q cv ev), (Prisma.to_Q ct et), q.
    repeat apply conj; try reflexivity; assumption.
  - intros id data st r st' H.
    destruct (actualizar_ok _ _ _ _ _ H)
      as (old & v & c & t & Hold & _ & _ & _ & Hc & _ & Hr & Hdb & _).
    exists old, c. cbv zeta. split; [exact Hold|]. split; [exact Hc|].
    split; [rewrite Hdb; simpl; apply lookup_insert_eq|].
    split; [rewrite Hr; reflexivity|].
    intros cv ev ct et Hv Ht Hd. rewrite Hr. simpl. rewrite Hv, Ht.
    destruct (costo_value cv ev ct et Hd) as (q & Hq & Hround).
    exists (Prisma.to_Q cv ev), (Prisma.to_Q ct et), q.
    repeat apply conj; try reflexivity; assumption.
Qed.

Lemma costo_derivado_en_el_servidor_witness :
  exists cliente,
    clientes (db estado_ejemplo) !! 1 = Some cliente
    /\ sr_costo_servicio servicio_15
       = Prisma.toDecimalPlaces 2
           (Prisma.times (Prisma.of_number (literal 15 0)) (tarifa_por_m3 cliente)).
Proof.
  destruct (proj1 costo_derivado_en_el_servidor (crear_con 1 (literal 15 0))
              estado_ejemplo servicio_15
              (snd (crearServicioRecogida (crear_con 1 (literal 15 0)) estado_ejemplo)))
    as (c & Hc & _ & Hcost & _).
  - vm_compute. reflexivity.
  - exists c. split; [exact Hc|exact Hcost].
Defined.

(** C1, as claimed, fails: a volume of 0.5842560567647035 for the client
    with rate 1234.57 has the exact product 721.304999999999999995, which
    rounds half-up to 721.30; the product kept to 20 digits is 721.305 and
    the persisted cost is 721.31. *)
Lemma costo_no_es_siempre_el_redondeo_exacto :
  ~ (forall data st r st' cliente,
        crearServicioRecogida data st = (Ok r, st') ->
        clientes (db st) !! clienteId data = Some cliente ->
        exact_cost (Prisma.of_number (volumen_recogido_m3 data))
                   (tarifa_por_m3 cliente) (sr_costo_servicio r)).
Proof.
  intros H.
  specialize (H (crear_con 2 (literal 5842560567647035 (-16))) estado_ejemplo
                {| sr_id := 1; sr_clienteId := 2; sr_vehiculoId := 1;
                   sr_trabajadorId := 1; sr_fecha := fecha_ejemplo;
                   sr_volumen_recogido_m3 := DFin 5842560567647035 (-16);
                   sr_costo_servicio := DFin 72131 (-2) |}
                (snd (crearServicioRecogida
                        (crear_con 2 (literal 5842560567647035 (-16))) estado_ejemplo))
                {| cliente_nombre := "Clinica Mar"; cliente_tipo := SALUD;
                   cliente_direccion := "Calle 2"; tarifa_por_m3 := DFin 123457 (-2) |}).
  destruct H as (qv & qt & qc & Hv & Ht & Hc & Hq).
  - vm_compute. reflexivity.
  - vm_compute. reflexivity.
  - vm_compute in Hv. simpl in Ht, Hc.
    inversion Hv; inversion Ht; inversion Hc; subst. clear -Hq.
    vm_compute in Hq. discriminate Hq.
Qed.

(** ** C2 *)

(** Whatever the tables are, a volume that is NaN is not stopped by the
    check of the sign. *)
Lemma crear_NaN_no_es_rechazado (data : CreateServicioRecogidaData) (st : Estado) :
  volumen_recogido_m3 data = Number.NaN ->
  fst (crearServicioRecogida data st) <> Throw ErrVolumenNoPositivo.
Proof.
  intros Hnan Hthrow.
  destruct (crearServicioRecogida data st) as [res st'] eqn:H. simpl in Hthrow. subst res.
  unfold_service. rewrite Hnan in H. simpl in H.
  repeat (first [step_call | step_branch]); simpl; try discriminate.
Qed.

(** C2, at the failing input. A volume that is NaN is not strictly positive,
    yet crearServicioRecogida throws no validation error for it: [NaN <= 0]
    is false, so are the comparisons with the capacity, and with the
    vehicle, client and worker in place the run reaches the write with a
    volume and a cost that are NaN. *)
Theorem crear_con_volumen_NaN :
  Number.ltb Number.zero Number.NaN = false
  /\ fst (crearServicioRecogida (crear_con 1 Number.NaN) estado_ejemplo)
     = Ok {| sr_id := 1; sr_clienteId := 1; sr_vehiculoId := 1; sr_trabajadorId := 1;
             sr_fecha := fecha_ejemplo;
             sr_volumen_recogido_m3 := DNaN; sr_costo_servicio := DNaN |}
  /\ llamadas (snd (crearServicioRecogida (crear_con 1 Number.NaN) estado_ejemplo))
     = [VehiculoFindUnique 1; ClienteFindUnique 1; TrabajadorFindUnique 1;
        ServicioCreate 1 1 1 fecha_ejemplo DNaN DNaN].
Proof. vm_compute. repeat split; reflexivity. Qed.

(** The same through the POST branch: a volume that is no number reads as
    NaN, no check stops it, and the write is issued with it. *)
Example post_con_volumen_no_numerico :
  Js.parseFloat (BString "abc") = Number.NaN
  /\ fst (handler_POST post_volumen_abc estado_ejemplo)
     = Status201 {| sr_id := 1; sr_clienteId := 1; sr_vehiculoId := 1;
                    sr_trabajadorId := 1;
                    sr_fecha := NewDate (BString "2024-05-01");
                    sr_volumen_recogido_m3 := DNaN; sr_costo_servicio := DNaN |}.
Proof. vm_compute. split; reflexivity. Qed.

(** ** C3 *)

Lemma crear_fallo_de_persistencia (data : CreateServicioRecogidaData) (st : Estado)
    vehiculo cliente trabajador :
  Number.leb (volumen_recogido_m3 data) Number.zero = false ->
  vehiculos (db st) !! vehiculoId data = Some vehiculo ->
  Prisma.greaterThan (Prisma.of_number (volumen_recogido_m3 data))
    (capacidad_max_m3 vehiculo) = false ->
  clientes (db st) !! clienteId data = Some cliente ->
  trabajadores (db st) !! trabajadorId data = Some trabajador ->
  fails_after 3 st
  \/ (store_up st /\ is_Some (servicios (db st) !! secuencia (db st))) ->
  fst (crearServicioRecogida data st) = Throw ErrNoSePudoCrear
  /\ db (snd (crearServicioRecogida data st)) = db st
  /\ calls_since st (snd (crearServicioRecogida data st))
       [VehiculoFindUnique (vehiculoId data); ClienteFindUnique (clienteId data);
        TrabajadorFindUnique (trabajadorId data);
        ServicioCreate (clienteId data) (vehiculoId data) (trabajadorId data)
          (fecha data) (Prisma.of_number (volumen_recogido_m3 data))
          (costo (Prisma.of_number (volumen_recogido_m3 data)) (tarifa_por_m3 cliente))].
Proof.
  intros Hpos Hveh Hgt Hcli Htra [[rest Hav]|[Hup [occ Hocc]]].
  - destruct st as [d av ll]. simpl in *. subst av.
    unfold_service. unfold prisma. simpl. rewrite Hpos. simpl.
    rewrite Hveh. simpl. rewrite Hgt. simpl. rewrite Hcli. simpl. rewrite Htra. simpl.
    repeat apply conj; try reflexivity.
    unfold calls_since. simpl. repeat rewrite <- List.app_assoc. reflexivity.
  - unfold_service. rewrite Hpos.
    call_up. rewrite Hveh, Hgt. call_up. rewrite Hcli. call_up. rewrite Htra.
    call_up. rewrite Hocc. simpl.
    repeat apply conj; try reflexivity.
    unfold calls_since. simpl. repeat rewrite <- List.app_assoc. reflexivity.
Qed.

Lemma actualizar_fallo_de_persistencia (id : Z) (data : UpdateServicioRecogidaData)
    (st : Estado) old vehiculo cliente trabajador :
  servicios (db st) !! id = Some old ->
  Number.leb (volumen_recogido_m3 (merged old data)) Number.zero = false ->
  vehiculos (db st) !! vehiculoId (merged old data) = Some vehiculo ->
  Prisma.greaterThan (Prisma.of_number (volumen_recogido_m3 (merged old data)))
    (capacidad_max_m3 vehiculo) = false ->
  clientes (db st) !! clienteId (merged old data) = Some cliente ->
  trabajadores (db st) !! trabajadorId (merged old data) = Some trabajador ->
  fails_after 4 st ->
  fst (actualizarServicioRecogida id data st) = Throw ErrNoSePudoActualizar
  /\ db (snd (actualizarServicioRecogida id data st)) = db st
  /\ calls_since st (snd (actualizarServicioRecogida id data st))
       [ServicioFindUnique id; VehiculoFindUnique (vehiculoId (merged old data));
        ClienteFindUnique (clienteId (merged old data));
        TrabajadorFindUnique (trabajadorId (merged old data));
        ServicioUpdate id (clienteId (merged old data)) (vehiculoId (merged old data))
          (trabajadorId (merged old data)) (upd_fecha data)
          (Prisma.of_number (volumen_recogido_m3 (merged old data)))
          (costo (Prisma.of_number (volumen_recogido_m3 (merged old data)))
             (tarifa_por_m3 cliente))].
Proof.
  intros Hold Hpos Hveh Hgt Hcli Htra [rest Hav].
  destruct st as [d av ll]. simpl in *. subst av.
  unfold_service. unfold prisma. simpl. rewrite Hold. simpl. rewrite Hpos. simpl.
  rewrite Hveh. simpl. rewrite Hgt. simpl. rewrite Hcli. simpl. rewrite Htra. simpl.
  repeat apply conj; try reflexivity.
  unfold calls_since. simpl. repeat rewrite <- List.app_assoc. reflexivity.
Qed.

(** C3. Whenever crearServicioRecogida or actualizarServicioRecogida throws,
    the tables are as they were before the call; when what it throws is one
    of its validation failures, no write was even issued to the store, and
    when a write was issued, what it throws is the wrapped persistence
    error. And a failure of the write is reported: when every check passes
    and the lookups reach the store, a write that the store fails (or, for
    a creation, refuses because the identifier is taken) makes the service
    throw its persistence error, after that one write call and with the
    tables as they were. *)
Theorem validacion_precede_a_la_persistencia :
  (forall data st e st',
      crearServicioRecogida data st = (Throw e, st') ->
      db st' = db st /\
      exists ls, calls_since st st' ls /\
        (is_validation_failure e = true -> Forall (fun l => is_write l = false) ls) /\
        (Exists (fun l => is_write l = true) ls ->
         e = ErrNoSePudoCrear /\ kind e = PersistenceError))
  /\
  (forall id data st e st',
      actualizarServicioRecogida id data st = (Throw e, st') ->
      db st' = db st /\
      exists ls, calls_since st st' ls /\
        (is_validation_failure e = true -> Forall (fun l => is_write l = false) ls) /\
        (Exists (fun l => is_write l = true) ls ->
         e = ErrNoSePudoActualizar /\ kind e = PersistenceError))
  /\
  (forall data st vehiculo cliente trabajador,
      Number.leb (volumen_recogido_m3 data) Number.zero = false ->
      vehiculos (db st) !! vehiculoId data = Some vehiculo ->
      Prisma.greaterThan (Prisma.of_number (volumen_recogido_m3 data))
        (capacidad_max_m3 vehiculo) = false ->
      clientes (db st) !! clienteId data = Some cliente ->
      trabajadores (db st) !! trabajadorId data = Some trabajador ->
      fails_after 3 st
      \/ (store_up st /\ is_Some (servicios (db st) !! secuencia (db st))) ->
      fst (crearServicioRecogida data st) = Throw ErrNoSePudoCrear
      /\ kind ErrNoSePudoCrear = PersistenceError
      /\ db (snd (crearServicioRecogida data st)) = db st
      /\ calls_since st (snd (crearServicioRecogida data st))
           [VehiculoFindUnique (vehiculoId data); ClienteFindUnique (clienteId data);
            TrabajadorFindUnique (trabajadorId data);
            ServicioCreate (clienteId data) (vehiculoId data) (trabajadorId data)
              (fecha data) (Prisma.of_number (volumen_recogido_m3 data))
              (costo (Prisma.of_number (volumen_recogido_m3 data))
                 (tarifa_por_m3 cliente))])
  /\
  (forall id data st old vehiculo cliente trabajador,
      servicios (db st) !! id = Some old ->
      Number.leb (volumen_recogido_m3 (merged old data)) Number.zero = false ->
      vehiculos (db st) !! vehiculoId (merged old data) = Some vehiculo ->
      Prisma.greaterThan (Prisma.of_number (volumen_recogido_m3 (merged old data)))
        (capacidad_max_m3 vehiculo) = false ->
      clientes (db st) !! clienteId (merged old data) = Some cliente ->
      trabajadores (db st) !! trabajadorId (merged old data) = Some trabajador ->
      fails_after 4 st ->
      fst (actualizarServicioRecogida id data st) = Throw ErrNoSePudoActualizar
      /\ kind ErrNoSePudoActualizar = PersistenceError
      /\ db (snd (actualizarServicioRecogida id data st)) = db st
      /\ calls_since st (snd (actualizarServicioRecogida id data st))
           [ServicioFindUnique id; VehiculoFindUnique (vehiculoId (merged old data));
            ClienteFindUnique (clienteId (merged old data));
            TrabajadorFindUnique (trabajadorId (merged old data));
            ServicioUpdate id (clienteId (merged old data))
              (vehiculoId (merged old data)) (trabajadorId (merged old data))
              (upd_fecha data)
              (Prisma.of_number (volumen_recogido_m3 (merged old data)))
              (costo (Prisma.of_number (volumen_recogido_m3 (merged old data)))
                 (tarifa_por_m3 cliente))]).
Proof.
  split; [|split; [|split]].
  - intros data st e st' H.
    destruct (crear_throw _ _ _ _ H) as (Hdb & ls & Hls & Hv & Hw).
    split; [exact Hdb|]. exists ls. split; [exact Hls|]. split; [exact Hv|].
    intros Hex. rewrite (Hw Hex). split; reflexivity.
  - intros id data st e st' H.
    destruct (actualizar_throw _ _ _ _ _ H) as (Hdb & ls & Hls & Hv & Hw).
    split; [exact Hdb|]. exists ls. split; [exact Hls|]. split; [exact Hv|].
    intros Hex. rewrite (Hw Hex). split; reflexivity.
  - intros data st vehiculo cliente trabajador Hpos Hveh Hgt Hcli Htra Hfail.
    destruct (crear_fallo_de_persistencia data st vehiculo cliente trabajador
                Hpos Hveh Hgt Hcli Htra Hfail) as (H1 & H2 & H3).
    repeat apply conj; try assumption. reflexivity.
  - intros id data st old vehiculo cliente trabajador Hold Hpos Hveh Hgt Hcli Htra Hfail.
    destruct (actualizar_fallo_de_persistencia id data st old vehiculo cliente
                trabajador Hold Hpos Hveh Hgt Hcli Htra Hfail) as (H1 & H2 & H3).
    repeat apply conj; try assumption. reflexivity.
Qed.

Lemma validacion_precede_a_la_persistencia_witness :
  db (snd (crearServicioRecogida (crear_con 1 (literal 25 0)) estado_ejemplo))
  = db estado_ejemplo
  /\ fst (crearServicioRecogida (crear_con 1 (literal 15 0))
            {| db := db_ejemplo; averias := [false; false; false; true]; llamadas := [] |})
     = Throw ErrNoSePudoCrear
  /\ fst (actualizarServicioRecogida 1 sin_cambios
            {| db := db (estado_con_servicio (DFin 15 0));
               averias := [false; false; false; false; true]; llamadas := [] |})
     = Throw ErrNoSePudoActualizar.
Proof.
  split; [|split].
  - apply (proj1 validacion_precede_a_la_persistencia
             (crear_con 1 (literal 25 0)) estado_ejemplo
             (ErrExcedeCapacidad (literal 25 0) (DFin 2 1))
             (snd (crearServicioRecogida (crear_con 1 (literal 25 0)) estado_ejemplo))).
    vm_compute. reflexivity.
  - apply (proj1 (proj2 (proj2 validacion_precede_a_la_persistencia))
             (crear_con 1 (literal 15 0))
             {| db := db_ejemplo; averias := [false; false; false; true]; llamadas := [] |}
             {| matricula := "ABC123"; capacidad_max_m3 := DFin 2 1;
                consumo_combustible_litros := DFin 8 0 |}
             {| cliente_nombre := "Hotel Sol"; cliente_tipo := HOTEL;
                cliente_direccion := "Calle 1"; tarifa_por_m3 := DFin 55 (-1) |}
             {| trabajador_nombre := "Ana"; rol := "conductor";
                salario_base := DFin 1 3 |});
      try (vm_compute; reflexivity).
    left. exists []. reflexivity.
  - apply (proj2 (proj2 (proj2 validacion_precede_a_la_persistencia))
             1 sin_cambios
             {| db := db (estado_con_servicio (DFin 15 0));
                averias := [false; false; false; false; true]; llamadas := [] |}
             {| sr_id := 1; sr_clienteId := 1; sr_vehiculoId := 1;
                sr_trabajadorId := 1; sr_fecha := fecha_ejemplo;
                sr_volumen_recogido_m3 := DFin 15 0;
                sr_costo_servicio := costo (DFin 15 0) (DFin 55 (-1)) |}
             {| matricula := "ABC123"; capacidad_max_m3 := DFin 2 1;
                consumo_combustible_litros := DFin 8 0 |}
             {| cliente_nombre := "Hotel Sol"; cliente_tipo := HOTEL;
                cliente_direccion := "Calle 1"; tarifa_por_m3 := DFin 55 (-1) |}
             {| trabajador_nombre := "Ana"; rol := "conductor";
                salario_base := DFin 1 3 |});
      try (vm_compute; reflexivity).
    exists []. reflexivity.
Defined.

(** The store failing the write itself: the three lookups succeed, the
    fourth call fails, and the service reports the wrapped error. *)
Example crear_con_fallo_de_persistencia :
  crearServicioRecogida (crear_con 1 (literal 15 0))
    {| db := db_ejemplo; averias := [false; false; false; true]; llamadas := [] |}
  = (Throw ErrNoSePudoCrear,
     {| db := db_ejemplo; averias := [];
        llamadas := [VehiculoFindUnique 1; ClienteFindUnique 1; TrabajadorFindUnique 1;
                     ServicioCreate 1 1 1 fecha_ejemplo (DFin 15 0) (DFin 825 (-1))] |}).
Proof. vm_compute. reflexivity. Qed.

(** ** The decimal of a positive number *)

Lemma digits2_size (m : positive) : digits2_pos m = Pos.size m.
Proof. induction m; simpl; congruence. Qed.

Lemma log2_size (m : positive) : Z.pos (Pos.size m) = Z.log2 (Z.pos m) + 1.
Proof. destruct m; simpl; lia. Qed.

Lemma binary64_bounds (s : bool) (m : positive) (e : Z) :
  binary64 (S754_finite s m e) = true ->
  0 <= Z.log2 (Z.pos m) <= 52 /\ -1074 <= e <= 971.
Proof.
  unfold binary64, valid_binary, bounded, canonical_mantissa, fexp, emin,
    Number.prec, Number.emax.
  rewrite digits2_size, log2_size. intros H.
  apply andb_true_iff in H. destruct H as [Hc He].
  apply Z.eqb_eq in Hc. apply Z.leb_le in He.
  pose proof (Z.log2_nonneg (Z.pos m)). lia.
Qed.

Lemma estimate_in_reach_all (l : Z) : -1074 <= l <= 1023 -> estimate_in_reach l = true.
Proof.
  intros H.
  assert (E : forallb (fun i => estimate_in_reach (Z.of_nat i - 1074)) (seq 0 2098) = true)
    by (vm_compute; reflexivity).
  rewrite forallb_forall in E.
  replace l with (Z.of_nat (Z.to_nat (l + 1074)) - 1074) by lia.
  apply E. apply in_seq. lia.
Qed.

Lemma pow10_le_down (t t' num den : Z) :
  0 < num -> 0 < den -> t' <= t ->
  Number.pow10_le t num den = true -> Number.pow10_le t' num den = true.
Proof.
  unfold Number.pow10_le. intros Hn Hd Ht.
  destruct (Z.leb_spec 0 t) as [T|T], (Z.leb_spec 0 t') as [T'|T']; intros H;
    apply Z.leb_le in H; apply Z.leb_le; try lia.
  - assert (10 ^ t' <= 10 ^ t) by (apply Z.pow_le_mono_r; lia).
    assert (0 < 10 ^ t') by (apply Z.pow_pos_nonneg; lia). nia.
  - assert (0 < 10 ^ t) by (apply Z.pow_pos_nonneg; lia).
    assert (0 < 10 ^ (- t')) by (apply Z.pow_pos_nonneg; lia). nia.
  - assert (10 ^ (- t) <= 10 ^ (- t')) by (apply Z.pow_le_mono_r; lia).
    assert (0 < 10 ^ (- t)) by (apply Z.pow_pos_nonneg; lia). nia.
Qed.

Lemma pow10_le_above (t num0 den0 num den : Z) :
  0 < num0 -> 0 < den0 -> 0 < num -> 0 < den ->
  num0 * den <= num * den0 ->
  Number.pow10_le t num0 den0 = true -> Number.pow10_le t num den = true.
Proof.
  unfold Number.pow10_le. intros Hn0 Hd0 Hn Hd Hle.
  destruct (Z.leb_spec 0 t) as [T|T]; intros H; apply Z.leb_le in H; apply Z.leb_le.
  - assert (0 < 10 ^ t) by (apply Z.pow_pos_nonneg; lia).
    apply (Z.mul_le_mono_pos_r _ _ den0); [lia|]. nia.
  - assert (0 < 10 ^ (- t)) by (apply Z.pow_pos_nonneg; lia).
    apply (Z.mul_le_mono_pos_r _ _ den0); [lia|]. nia.
Qed.

Lemma fraction_above_pow2 (m : positive) (e : Z) :
  let l := Z.log2 (Z.pos m) + e in
  let '(num, den) := Number.fraction m e in
  Z.log2 num - Z.log2 den = l
  /\ fst (pow2_fraction l) * den <= num * snd (pow2_fraction l).
Proof.
  pose proof (Z.log2_nonneg (Z.pos m)) as Hb.
  pose proof (Z.log2_spec (Z.pos m) ltac:(lia)) as [Hm _].
  unfold Number.fraction, pow2_fraction. cbv zeta.
  destruct (Z.leb_spec 0 e) as [He|He].
  - rewrite Z.log2_mul_pow2 by lia. change (Z.log2 1) with 0.
    set (b := Z.log2 (Z.pos m)) in *. set (x := Z.pos m) in *.
    clearbody b x.
    split; [lia|]. destruct (Z.leb_spec 0 (b + e)); [|lia].
    cbn [fst snd]. rewrite Z.pow_add_r by lia.
    assert (0 < 2 ^ e) by (apply Z.pow_pos_nonneg; lia). nia.
  - rewrite Z.log2_pow2 by lia.
    set (b := Z.log2 (Z.pos m)) in *. set (x := Z.pos m) in *.
    clearbody b x.
    split; [lia|].
    destruct (Z.leb_spec 0 (b + e)); cbn [fst snd].
    + rewrite <- Z.pow_add_r by lia. replace (b + e + - e) with b by lia. lia.
    + replace (- (b + e)) with (- e - b) by lia.
      assert (E : 2 ^ (- e) = 2 ^ (- e - b) * 2 ^ b).
      { rewrite <- Z.pow_add_r by lia. f_equal. lia. }
      rewrite E.
      assert (0 < 2 ^ (- e - b)) by (apply Z.pow_pos_nonneg; lia). nia.
Qed.

Lemma pow2_fraction_positive (l : Z) :
  0 < fst (pow2_fraction l) /\ 0 < snd (pow2_fraction l).
Proof.
  unfold pow2_fraction. destruct (Z.leb_spec 0 l); simpl; split; try lia;
    apply Z.pow_pos_nonneg; lia.
Qed.

(** The seventeen digits of a binary64 number do not vanish. *)
Lemma magnitude_in_reach (s : bool) (m : positive) (e num den : Z) :
  binary64 (S754_finite s m e) = true ->
  Number.fraction m e = (num, den) ->
  Number.pow10_le (Number.magnitude num den - 17) num den = true.
Proof.
  intros Hv F. destruct (binary64_bounds s m e Hv) as [Hb He].
  destruct (fraction_positive _ _ _ _ F) as [Hn Hd].
  pose proof (fraction_above_pow2 m e) as A. rewrite F in A. cbv zeta in A.
  destruct A as [HL Habove].
  pose proof (estimate_in_reach_all (Z.log2 (Z.pos m) + e) ltac:(lia)) as R.
  unfold estimate_in_reach in R.
  pose proof (pow2_fraction_positive (Z.log2 (Z.pos m) + e)) as [Hn0 Hd0].
  destruct (pow2_fraction (Z.log2 (Z.pos m) + e)) as [num0 den0]. cbn [fst snd] in *.
  apply (pow10_le_above _ num0 den0 num den Hn0 Hd0 Hn Hd Habove) in R.
  unfold Number.magnitude. rewrite HL.
  set (est := (Z.log2 (Z.pos m) + e) * 1233 / 4096) in *. clearbody est.
  clear Hv F HL Habove Hb He.
  repeat match goal with
         | |- context [if Number.pow10_le ?t num den then _ else _] =>
             let E := fresh "E" in
             destruct (Number.pow10_le t num den) eqn:E;
               [apply (pow10_le_down t); [exact Hn|exact Hd|lia|exact E]|]
         end.
  apply (pow10_le_down (est - 18)); [exact Hn|exact Hd|lia|exact R].
Qed.

Lemma to_decimal_positive (s : bool) (m : positive) (e : Z) :
  binary64 (S754_finite s m e) = true -> 0 < fst (Number.to_decimal m e).
Proof.
  intros Hv. unfold Number.to_decimal.
  destruct (Number.fraction m e) as [num den] eqn:F.
  destruct (fraction_positive _ _ _ _ F) as [Hn Hd].
  pose proof (magnitude_in_reach s m e num den Hv F) as R.
  destruct (Number.shortest _ num den _ _) as [[c p]|] eqn:S.
  - apply shortest_positive in S. exact S.
  - simpl. unfold Number.pow10_le in R.
    destruct (Z.leb_spec 0 (Number.magnitude num den - 17)) as [H|H];
      apply Z.leb_le in R.
    + assert (0 < 10 ^ (Number.magnitude num den - 17)) by (apply Z.pow_pos_nonneg; lia).
      apply Z.div_str_pos. nia.
    + apply Z.div_str_pos. lia.
Qed.

Lemma strip_positive (fuel : nat) (c e : Z) : 0 < c -> 0 < fst (Prisma.strip fuel c e).
Proof.
  revert c e. induction fuel as [|fuel IH]; intros c e H; simpl; [exact H|].
  destruct (Z.eqb_spec (c mod 10) 0) as [E|E]; [|exact H].
  apply IH. apply Z.div_str_pos. pose proof (Z.mod_divide c 10 ltac:(lia)) as [D _].
  destruct (D E) as [k ->]. lia.
Qed.

Lemma normalize_positive (c e : Z) :
  0 < c -> exists c' e', Prisma.normalize c e = DFin c' e' /\ 0 < c'.
Proof.
  intros H. unfold Prisma.normalize. destruct (Z.eqb_spec c 0) as [E|_]; [lia|].
  pose proof (strip_positive (Z.to_nat (Z.log2 (Z.abs c))) c e H) as S.
  destruct (Prisma.strip _ c e) as [c' e']. exists c', e'. split; [reflexivity|exact S].
Qed.

Lemma positive_coefficient (c e : Z) : 0 < c -> no_positivo (DFin c e) = false.
Proof.
  intros H. unfold no_positivo, Prisma.cmp.
  assert (P : 0 < 10 ^ (e - Z.min e 0)) by (apply Z.pow_pos_nonneg; lia).
  rewrite Z.mul_0_l.
  destruct (Z.compare_spec (c * 10 ^ (e - Z.min e 0)) 0) as [C|C|C];
    try reflexivity; nia.
Qed.

(** A binary64 number that passes the test [v <= 0] of a service is stored
    as a decimal that is not [<= 0]: a positive one, or NaN for NaN. *)
Lemma of_number_no_positivo (v : number) :
  binary64 v = true -> Number.leb v Number.zero = false ->
  no_positivo (Prisma.of_number v) = false.
Proof.
  intros Hv Hpos. destruct v as [s|[]| |[] m e]; try discriminate Hpos; try reflexivity.
  simpl. pose proof (to_decimal_positive false m e Hv) as P.
  destruct (Number.to_decimal m e) as [c q]. simpl in P.
  destruct (normalize_positive c q P) as (c' & e' & -> & Hc').
  apply positive_coefficient. exact Hc'.
Qed.

(** ** Rounding to a binary64 number *)

Section Rounding.
Local Open Scope Q_scope.

Lemma two_neq_0 : ~ (2 # 1) == 0.
Proof. discriminate. Qed.

Lemma pow2_pos (e : Z) : 0 < (2 # 1) ^ e.
Proof. apply Qpower_0_lt. reflexivity. Qed.

Lemma pow2_neq_0 (e : Z) : ~ (2 # 1) ^ e == 0.
Proof. intros H. pose proof (pow2_pos e) as P. rewrite H in P. discriminate P. Qed.

Lemma inject_pow2 (k : Z) : (0 <= k)%Z -> inject_Z (2 ^ k) == (2 # 1) ^ k.
Proof. intros H. rewrite Zpower_Qpower by assumption. reflexivity. Qed.

Lemma pow2_plus (a b : Z) : (2 # 1) ^ (a + b) == (2 # 1) ^ a * (2 # 1) ^ b.
Proof. apply Qpower_plus, two_neq_0. Qed.

Lemma Qfloor_unique (x : Q) (z : Z) :
  inject_Z z <= x -> x < inject_Z (z + 1) -> Qfloor x = z.
Proof.
  intros L U. apply Z.le_antisymm.
  - pose proof (Qfloor_le x) as F. pose proof (Qle_lt_trans _ _ _ F U) as T.
    rewrite <- Zlt_Qlt in T. lia.
  - rewrite <- (Qfloor_Z z). apply Qfloor_resp_le. exact L.
Qed.

Lemma Qfloor_bounds (x : Q) :
  inject_Z (Qfloor x) <= x /\ x < inject_Z (Qfloor x + 1).
Proof. split; [apply Qfloor_le|apply Qlt_floor]. Qed.

Lemma loc_frac_comp (f g : Q) : f == g -> loc_frac f = loc_frac g.
Proof.
  intros E. unfold loc_frac.
  assert (B : Qeq_bool f 0 = Qeq_bool g 0).
  { destruct (Qeq_bool f 0) eqn:F, (Qeq_bool g 0) eqn:G; try reflexivity.
    - apply Qeq_bool_iff in F. rewrite E in F. apply Qeq_bool_iff in F. congruence.
    - apply Qeq_bool_iff in G. rewrite <- E in G. apply Qeq_bool_iff in G. congruence. }
  rewrite B, (Qcompare_comp _ _ E (1 # 2) (1 # 2) (Qeq_refl _)). reflexivity.
Qed.

Lemma bracket_comp (r r' : Q) (e : Z) : r == r' -> bracket r e = bracket r' e.
Proof.
  intros E. unfold bracket.
  assert (U : r * (2 # 1) ^ (- e) == r' * (2 # 1) ^ (- e)) by (rewrite E; reflexivity).
  rewrite (Qfloor_comp _ _ U). f_equal. apply loc_frac_comp. rewrite U. reflexivity.
Qed.

Lemma half_of (m : Z) (f u : Q) :
  0 <= f -> f < 1 -> u == inject_Z m + f ->
  Qfloor (u * (1 # 2)) = (m / 2)%Z
  /\ u * (1 # 2) - inject_Z (m / 2) == (inject_Z (m mod 2) + f) * (1 # 2).
Proof.
  intros F0 F1 U.
  pose proof (Z.div_mod m 2 ltac:(lia)) as D.
  pose proof (Z.mod_pos_bound m 2 ltac:(lia)) as B.
  assert (Em : inject_Z m == 2 * inject_Z (m / 2) + inject_Z (m mod 2)).
  { rewrite D at 1. rewrite inject_Z_plus, inject_Z_mult. reflexivity. }
  assert (B0 : 0 <= inject_Z (m mod 2))
    by (change 0 with (inject_Z 0); rewrite <- Zle_Qle; lia).
  assert (B1 : inject_Z (m mod 2) <= 1)
    by (change 1 with (inject_Z 1); rewrite <- Zle_Qle; lia).
  split.
  - apply Qfloor_unique; [lra|]. rewrite inject_Z_plus. change (inject_Z 1) with 1. lra.
  - lra.
Qed.

Lemma loc_frac_exact (f : Q) : f == 0 -> loc_frac f = loc_Exact.
Proof. intros E. unfold loc_frac. apply Qeq_bool_iff in E. rewrite E. reflexivity. Qed.

Lemma loc_frac_inexact (f : Q) (c : comparison) :
  ~ f == 0 -> (f ?= 1 # 2) = c -> loc_frac f = loc_Inexact c.
Proof.
  intros N C. unfold loc_frac. destruct (Qeq_bool f 0) eqn:E.
  - apply Qeq_bool_iff in E. contradiction.
  - rewrite C. reflexivity.
Qed.

Lemma loc_frac_cases (f : Q) :
  (f == 0 /\ loc_frac f = loc_Exact)
  \/ (~ f == 0 /\ f < 1 # 2 /\ loc_frac f = loc_Inexact Lt)
  \/ (f == 1 # 2 /\ loc_frac f = loc_Inexact Eq)
  \/ (1 # 2 < f /\ loc_frac f = loc_Inexact Gt).
Proof.
  destruct (Qeq_dec f 0) as [E|N]; [left; split; [exact E|apply loc_frac_exact, E]|].
  right. destruct (Qcompare f (1 # 2)) eqn:C.
  - right; left. split; [apply Qeq_alt, C|apply loc_frac_inexact; assumption].
  - left. split; [exact N|]. split; [apply Qlt_alt, C|apply loc_frac_inexact; assumption].
  - right; right. split; [apply Qgt_alt, C|apply loc_frac_inexact; assumption].
Qed.

(** The integer part and the rest of [r * 2 ^ (- e)]. *)
Lemma floor_rest (u : Q) :
  0 <= u - inject_Z (Qfloor u) /\ u - inject_Z (Qfloor u) < 1.
Proof.
  destruct (Qfloor_bounds u) as [L U]. rewrite inject_Z_plus in U.
  change (inject_Z 1) with 1 in U. split; lra.
Qed.

Lemma shr_1_div (mrs : shr_record) :
  (0 <= shr_m mrs)%Z ->
  shr_1 mrs = {| shr_m := shr_m mrs / 2;
                 shr_r := (shr_m mrs mod 2 =? 1)%Z;
                 shr_s := shr_r mrs || shr_s mrs |}.
Proof.
  destruct mrs as [m r s]. cbn [shr_m shr_r shr_s]. intros H.
  destruct m as [|[p|p|]|p]; try lia; unfold shr_1.
  - reflexivity.
  - assert (E : Z.pos p~1 = (1 + Z.pos p * 2)%Z) by lia.
    rewrite E. rewrite Z.div_add, Z.mod_add by lia. reflexivity.
  - assert (E : Z.pos p~0 = (0 + Z.pos p * 2)%Z) by lia.
    rewrite E. rewrite Z.div_add, Z.mod_add by lia. reflexivity.
  - reflexivity.
Qed.

(** One step of [shr]: the same [r], in units twice as large. *)
Lemma shr_1_bracket (r : Q) (e : Z) (mrs : shr_record) :
  (0 <= shr_m mrs)%Z ->
  (shr_m mrs, loc_of_shr_record mrs) = bracket r e ->
  (0 <= shr_m (shr_1 mrs))%Z
  /\ (shr_m (shr_1 mrs), loc_of_shr_record (shr_1 mrs)) = bracket r (e + 1).
Proof.
  intros Hm H. rewrite (shr_1_div mrs Hm). cbn [shr_m].
  split; [apply Z.div_pos; lia|].
  unfold bracket in *. cbv zeta in *.
  set (u := r * (2 # 1) ^ (- e)) in *.
  assert (U' : r * (2 # 1) ^ (- (e + 1)) == u * (1 # 2)).
  { unfold u. replace (- (e + 1))%Z with (- e + - (1))%Z by lia.
    rewrite pow2_plus. change ((2 # 1) ^ (- (1))) with (1 # 2). ring. }
  rewrite (Qfloor_comp _ _ U').
  pose proof (f_equal fst H) as Hfloor. pose proof (f_equal snd H) as Hloc.
  cbn [fst snd] in Hfloor, Hloc. clear H.
  destruct (floor_rest u) as [F0 F1].
  set (f := u - inject_Z (Qfloor u)) in *.
  assert (Uf : u == inject_Z (shr_m mrs) + f) by (unfold f; rewrite Hfloor; lra).
  destruct (half_of (shr_m mrs) f u F0 F1 Uf) as [Hh Hrest].
  rewrite Hh. f_equal.
  assert (L : loc_frac (r * (2 # 1) ^ (- (e + 1)) - inject_Z (shr_m mrs / 2))
              = loc_frac ((inject_Z (shr_m mrs mod 2) + f) * (1 # 2))).
  { apply loc_frac_comp. rewrite U'. exact Hrest. }
  rewrite L. clear L Hrest Hh U'.
  pose proof (Z.mod_pos_bound (shr_m mrs) 2 ltac:(lia)) as B.
  destruct mrs as [m rb sb]. cbn [shr_m shr_r shr_s loc_of_shr_record] in *.
  assert (S : (rb || sb = false /\ f == 0) \/ (rb || sb = true /\ ~ f == 0)).
  { destruct (loc_frac_cases f) as [[E L]|[(N & _ & L)|[[E L]|[G L]]]];
      rewrite L in Hloc; destruct rb, sb; try discriminate Hloc; simpl;
      first [left; split; [reflexivity|lra] | right; split; [reflexivity|lra]]. }
  assert (M : (m mod 2 = 0 \/ m mod 2 = 1)%Z) by lia.
  clearbody f. clear Hloc Uf Hfloor. clearbody u.
  destruct M as [M|M]; rewrite M; simpl Z.eqb;
    destruct S as [[-> E]|[-> N]]; simpl.
  - symmetry. apply loc_frac_exact. change (inject_Z 0) with 0. lra.
  - symmetry. apply loc_frac_inexact; [change (inject_Z 0) with 0; lra|].
    apply (proj1 (Qlt_alt _ _)). change (inject_Z 0) with 0. lra.
  - symmetry. apply loc_frac_inexact; [change (inject_Z 1) with 1; lra|].
    apply (proj1 (Qeq_alt _ _)). change (inject_Z 1) with 1. lra.
  - symmetry. apply loc_frac_inexact; [change (inject_Z 1) with 1; lra|].
    apply (proj1 (Qgt_alt _ _)). change (inject_Z 1) with 1. lra.
Qed.

Lemma iter_shr_bracket (r : Q) (p : positive) :
  forall (mrs : shr_record) (e : Z),
    (0 <= shr_m mrs)%Z ->
    (shr_m mrs, loc_of_shr_record mrs) = bracket r e ->
    (0 <= shr_m (SpecFloat.iter_pos shr_1 p mrs))%Z
    /\ (shr_m (SpecFloat.iter_pos shr_1 p mrs), loc_of_shr_record (SpecFloat.iter_pos shr_1 p mrs))
       = bracket r (e + Z.pos p).
Proof.
  induction p as [p IH|p IH|]; intros mrs e Hm H; cbn [SpecFloat.iter_pos].
  - destruct (shr_1_bracket r e mrs Hm H) as [H1 B1].
    destruct (IH _ _ H1 B1) as [H2 B2]. destruct (IH _ _ H2 B2) as [H3 B3].
    split; [exact H3|]. rewrite B3. f_equal. lia.
  - destruct (IH _ _ Hm H) as [H2 B2]. destruct (IH _ _ H2 B2) as [H3 B3].
    split; [exact H3|]. rewrite B3. f_equal. lia.
  - apply shr_1_bracket; assumption.
Qed.

Lemma shr_bracket (r : Q) (mrs : shr_record) (e n : Z) :
  (0 <= shr_m mrs)%Z ->
  (shr_m mrs, loc_of_shr_record mrs) = bracket r e ->
  snd (shr mrs e n) = Z.max e (e + n)
  /\ (0 <= shr_m (fst (shr mrs e n)))%Z
  /\ (shr_m (fst (shr mrs e n)), loc_of_shr_record (fst (shr mrs e n)))
     = bracket r (Z.max e (e + n)).
Proof.
  intros Hm H. destruct n as [|p|p]; cbn [shr fst snd].
  - replace (Z.max e (e + 0)) with e by lia. auto.
  - replace (Z.max e (e + Z.pos p)) with (e + Z.pos p)%Z by lia.
    split; [reflexivity|]. apply iter_shr_bracket; assumption.
  - replace (Z.max e (e + Z.neg p)) with e by lia. auto.
Qed.

Lemma record_of_loc (m : Z) (l : location) :
  shr_m (shr_record_of_loc m l) = m
  /\ loc_of_shr_record (shr_record_of_loc m l) = l.
Proof. destruct l as [|[]]; split; reflexivity. Qed.

Lemma pow2_le (a b : Z) : (a <= b)%Z -> (2 # 1) ^ a <= (2 # 1) ^ b.
Proof.
  intros H. replace b with (a + (b - a))%Z by lia. rewrite pow2_plus.
  assert (P : 1 <= (2 # 1) ^ (b - a)).
  { rewrite <- inject_pow2 by lia. change 1 with (inject_Z 1). rewrite <- Zle_Qle.
    assert (0 < 2 ^ (b - a))%Z by (apply Z.pow_pos_nonneg; lia). lia. }
  pose proof (pow2_pos a) as A.
  rewrite <- (Qmult_1_r ((2 # 1) ^ a)) at 1. apply Qmult_le_l; assumption.
Qed.

Lemma Zdigits2_log2 (m : Z) : (0 < m)%Z -> Zdigits2 m = (Z.log2 m + 1)%Z.
Proof.
  destruct m as [|p|p]; try lia. intros _. unfold Zdigits2.
  rewrite digits2_size. apply log2_size.
Qed.

Lemma Zdigits2_bounds (m : Z) :
  (0 < m)%Z -> (2 ^ (Zdigits2 m - 1) <= m < 2 ^ Zdigits2 m)%Z.
Proof.
  intros H. rewrite (Zdigits2_log2 m H).
  pose proof (Z.log2_spec m H) as S.
  replace (Z.log2 m + 1 - 1)%Z with (Z.log2 m) by lia.
  replace (Z.log2 m + 1)%Z with (Z.succ (Z.log2 m)) by lia. exact S.
Qed.

Lemma Zdigits2_nonneg (m : Z) : (0 <= m)%Z -> (0 <= Zdigits2 m)%Z.
Proof. destruct m; simpl; lia. Qed.

Lemma Zdigits2_below (m k : Z) : (0 <= m < 2 ^ k)%Z -> (0 <= k)%Z -> (Zdigits2 m <= k)%Z.
Proof.
  intros [H0 H] Hk. destruct (Z.eq_dec m 0%Z) as [->|N]; [simpl; lia|].
  rewrite Zdigits2_log2 by lia.
  assert (Z.log2 m < k)%Z by (apply Z.log2_lt_pow2; lia). lia.
Qed.

Lemma Zdigits2_above (m k : Z) : (0 <= k)%Z -> (2 ^ k <= m)%Z -> (k + 1 <= Zdigits2 m)%Z.
Proof.
  intros Hk H. assert (0 < 2 ^ k)%Z by (apply Z.pow_pos_nonneg; lia).
  rewrite Zdigits2_log2 by lia.
  assert (k <= Z.log2 m)%Z by (apply Z.log2_le_pow2; lia). lia.
Qed.

Lemma fexp_eq (z : Z) : fexp Number.prec Number.emax z = Z.max (z - 53) (-1074).
Proof. reflexivity. Qed.

(** Units: [r] in units of [2 ^ e1] from [r] in units of [2 ^ e0]. *)
Lemma units_shift (r : Q) (e0 e1 : Z) :
  r * (2 # 1) ^ (- e1) == r * (2 # 1) ^ (- e0) * (2 # 1) ^ (e0 - e1).
Proof.
  replace (- e1)%Z with (- e0 + (e0 - e1))%Z by lia. rewrite pow2_plus. ring.
Qed.

Lemma floor_lt_pow2 (u : Q) (k : Z) :
  (0 <= k)%Z -> u < (2 # 1) ^ k -> (Qfloor u < 2 ^ k)%Z.
Proof.
  intros Hk H. rewrite <- inject_pow2 in H by exact Hk.
  pose proof (Qfloor_le u) as F. pose proof (Qle_lt_trans _ _ _ F H) as T.
  rewrite <- Zlt_Qlt in T. exact T.
Qed.

Lemma floor_ge_pow2 (u : Q) (k : Z) :
  (0 <= k)%Z -> (2 # 1) ^ k <= u -> (2 ^ k <= Qfloor u)%Z.
Proof.
  intros Hk H. rewrite <- inject_pow2 in H by exact Hk.
  rewrite <- (Qfloor_Z (2 ^ k)). apply Qfloor_resp_le. exact H.
Qed.

(** The first shift of [binary_round_aux] brings [r] to the exponent of
    the format. *)
Lemma shr_fexp_canonical (r : Q) (m0 e0 : Z) (l0 : location) :
  (0 <= m0)%Z -> (m0, l0) = bracket r e0 ->
  (e0 <= fexp Number.prec Number.emax (Zdigits2 m0 + e0))%Z ->
  (0 < m0 \/ e0 = -1074)%Z ->
  let e1 := snd (shr_fexp Number.prec Number.emax m0 e0 l0) in
  let mrs := fst (shr_fexp Number.prec Number.emax m0 e0 l0) in
  canonical_at r e1 /\ (shr_m mrs, loc_of_shr_record mrs) = bracket r e1.
Proof.
  intros Hm H He Hz. cbv zeta. unfold shr_fexp.
  destruct (record_of_loc m0 l0) as [Rm Rl].
  destruct (shr_bracket r (shr_record_of_loc m0 l0) e0
              (fexp Number.prec Number.emax (Zdigits2 m0 + e0) - e0))
    as (E1 & _ & B); [rewrite Rm; exact Hm|rewrite Rm, Rl; exact H|].
  rewrite E1.
  replace (Z.max e0 (e0 + (fexp Number.prec Number.emax (Zdigits2 m0 + e0) - e0)))
    with (fexp Number.prec Number.emax (Zdigits2 m0 + e0)) in * by lia.
  split; [|exact B]. clear B E1 Rm Rl.
  rewrite fexp_eq in *. set (d := Zdigits2 m0) in *.
  set (e1 := Z.max (d + e0 - 53) (-1074)) in *.
  pose proof (f_equal fst H) as Hf. cbn [fst] in Hf. unfold bracket in Hf. cbn [fst] in Hf.
  destruct (Qfloor_bounds (r * (2 # 1) ^ (- e0))) as [L U]. rewrite <- Hf in L, U.
  set (u0 := r * (2 # 1) ^ (- e0)) in *.
  pose proof (units_shift r e0 e1) as S. fold u0 in S.
  pose proof (pow2_pos (e0 - e1)) as P.
  unfold canonical_at. rewrite (Qfloor_comp _ _ S).
  split; [unfold e1; lia|].
  destruct (Z.eq_dec m0 0%Z) as [Z0|NZ].
  - assert (E0 : (e0 = -1074)%Z) by lia.
    assert (Ed : d = 0%Z) by (unfold d; rewrite Z0; reflexivity).
    assert (E : e1 = e0) by (unfold e1; lia).
    rewrite E, Z.sub_diag. change ((2 # 1) ^ 0) with 1.
    rewrite (Qfloor_comp _ _ (Qmult_1_r u0)). rewrite <- Hf, Z0.
    split; [reflexivity|right; lia].
  - assert (Pm : (0 < m0)%Z) by lia.
    destruct (Zdigits2_bounds m0 Pm) as [D1 D2]. fold d in D1, D2.
    assert (Hd : (1 <= d)%Z).
    { unfold d. rewrite Zdigits2_log2 by exact Pm. pose proof (Z.log2_nonneg m0). lia. }
    assert (U2 : u0 < (2 # 1) ^ d).
    { rewrite <- inject_pow2 by lia. apply Qlt_le_trans with (inject_Z (m0 + 1)); [exact U|].
      rewrite <- Zle_Qle. lia. }
    assert (L2 : (2 # 1) ^ (d - 1) <= u0).
    { rewrite <- inject_pow2 by lia. apply Qle_trans with (inject_Z m0); [|exact L].
      rewrite <- Zle_Qle. lia. }
    split.
    + apply floor_lt_pow2; [lia|].
      apply Qlt_le_trans with ((2 # 1) ^ d * (2 # 1) ^ (e0 - e1)).
      * apply Qmult_lt_compat_r; assumption.
      * rewrite <- pow2_plus. apply pow2_le. unfold e1. lia.
    + destruct (Z.le_gt_cases (-1074) (d + e0 - 53)) as [C|C].
      * left. apply floor_ge_pow2; [lia|].
        apply Qle_trans with ((2 # 1) ^ (d - 1) * (2 # 1) ^ (e0 - e1)).
        -- rewrite <- pow2_plus. apply pow2_le. unfold e1. lia.
        -- apply Qmult_le_compat_r; [exact L2|apply Qlt_le_weak, P].
      * right. unfold e1. lia.
Qed.

Lemma shr_fexp_at_rest (m e : Z) (l : location) :
  (0 <= m < 2 ^ 53)%Z -> (-1074 <= e)%Z ->
  shr_fexp Number.prec Number.emax m e l = (shr_record_of_loc m l, e).
Proof.
  intros Hm He. unfold shr_fexp. rewrite fexp_eq.
  pose proof (Zdigits2_below m 53 Hm ltac:(lia)) as D.
  pose proof (Zdigits2_nonneg m ltac:(lia)) as D0.
  destruct (Z.max (Zdigits2 m + e - 53) (-1074) - e)%Z as [|p|p] eqn:E;
    try reflexivity. lia.
Qed.

(** [binary_round_aux] is a function of what it rounds: of [r] at the
    exponent of the format. *)
Lemma round_aux_canonical (s : bool) (r : Q) (m0 e0 : Z) (l0 : location) :
  (0 <= m0)%Z -> (m0, l0) = bracket r e0 ->
  (e0 <= fexp Number.prec Number.emax (Zdigits2 m0 + e0))%Z ->
  (0 < m0 \/ e0 = -1074)%Z ->
  exists e1,
    canonical_at r e1
    /\ (0 <= fst (bracket r e1))%Z
    /\ binary_round_aux Number.prec Number.emax s m0 e0 l0
       = binary_round_aux Number.prec Number.emax s
           (fst (bracket r e1)) e1 (snd (bracket r e1)).
Proof.
  intros Hm H He Hz.
  pose proof (shr_fexp_canonical r m0 e0 l0 Hm H He Hz) as C. cbv zeta in C.
  destruct C as [C B].
  assert (N : (0 <= shr_m (fst (shr_fexp Number.prec Number.emax m0 e0 l0)))%Z).
  { unfold shr_fexp. destruct (record_of_loc m0 l0) as [Rm Rl].
    apply shr_bracket with (r := r); [rewrite Rm; exact Hm|rewrite Rm, Rl; exact H]. }
  destruct (shr_fexp Number.prec Number.emax m0 e0 l0) as [mrs e1] eqn:S.
  cbn [fst snd] in *. exists e1. split; [exact C|].
  rewrite <- B. cbn [fst snd]. split; [exact N|].
  unfold binary_round_aux. rewrite S.
  destruct C as (C1 & C2 & _).
  assert (M : shr_m mrs = Qfloor (r * (2 # 1) ^ (- e1))).
  { pose proof (f_equal fst B) as F. exact F. }
  rewrite (shr_fexp_at_rest (shr_m mrs) e1 (loc_of_shr_record mrs));
    [|rewrite M in *; split; assumption|exact C1].
  destruct (record_of_loc (shr_m mrs) (loc_of_shr_record mrs)) as [-> ->]. reflexivity.
Qed.

Lemma canonical_unique (r : Q) (e e' : Z) :
  canonical_at r e -> canonical_at r e' -> e = e'.
Proof.
  assert (W : forall a b, canonical_at r a -> canonical_at r b -> (a < b)%Z -> False).
  { intros a b (A1 & A2 & A3) (B1 & B2 & B3) Hlt.
    destruct B3 as [B3|B3]; [|lia].
    pose proof (units_shift r b a) as S.
    pose proof (Qfloor_le (r * (2 # 1) ^ (- b))) as Lb.
    assert (Lb' : (2 # 1) ^ 52 <= r * (2 # 1) ^ (- b)).
    { rewrite <- inject_pow2 by lia. apply Qle_trans with (inject_Z (Qfloor (r * (2 # 1) ^ (- b)))).
      - rewrite <- Zle_Qle. exact B3.
      - exact Lb. }
    assert (G : (2 # 1) ^ 53 <= r * (2 # 1) ^ (- a)).
    { rewrite S. apply Qle_trans with ((2 # 1) ^ 52 * (2 # 1) ^ (b - a)).
      - rewrite <- pow2_plus. apply pow2_le. lia.
      - apply Qmult_le_compat_r; [exact Lb'|apply Qlt_le_weak, pow2_pos]. }
    apply floor_ge_pow2 in G; lia. }
  intros H H'. destruct (Z.lt_total e e') as [L|[E|L]]; [|exact E|];
    exfalso; eauto.
Qed.

Lemma canonical_comp (r r' : Q) (e : Z) : r == r' -> canonical_at r e -> canonical_at r' e.
Proof.
  intros E. unfold canonical_at.
  assert (U : r * (2 # 1) ^ (- e) == r' * (2 # 1) ^ (- e)) by (rewrite E; reflexivity).
  rewrite (Qfloor_comp _ _ U). auto.
Qed.

Lemma bracket_integer (m e : Z) (r : Q) :
  r * (2 # 1) ^ (- e) == inject_Z m -> bracket r e = (m, loc_Exact).
Proof.
  intros H. unfold bracket. cbv zeta. rewrite (Qfloor_comp _ _ H), Qfloor_Z.
  f_equal. apply loc_frac_exact. rewrite H. ring.
Qed.

Lemma iter_xO (d mx : positive) : Z.pos (Pos.iter xO mx d) = (Z.pos mx * 2 ^ Z.pos d)%Z.
Proof.
  change (Pos.iter xO mx d) with (shift_pos d mx). rewrite shift_pos_correct.
  rewrite Zpower_pos_nat, Zpower_nat_Z, positive_nat_Z. lia.
Qed.

Lemma Zdigits2_shift (m k : Z) :
  (0 < m)%Z -> (0 <= k)%Z -> Zdigits2 (m * 2 ^ k) = (Zdigits2 m + k)%Z.
Proof.
  intros Hm Hk. assert (0 < 2 ^ k)%Z by (apply Z.pow_pos_nonneg; lia).
  rewrite !Zdigits2_log2 by nia. rewrite Z.log2_mul_pow2 by lia. lia.
Qed.

(** A decimal literal with a non-negative exponent: an integer, aligned
    to the exponent of the format. *)
Lemma of_decimal_integer (c q : Z) :
  (0 < c)%Z -> (0 <= q)%Z ->
  exists e1,
    canonical_at (Prisma.to_Q c q) e1
    /\ (0 <= fst (bracket (Prisma.to_Q c q) e1))%Z
    /\ Number.of_decimal false c q
       = binary_round_aux Number.prec Number.emax false
           (fst (bracket (Prisma.to_Q c q) e1)) e1 (snd (bracket (Prisma.to_Q c q) e1)).
Proof.
  intros Hc Hq. unfold Number.of_decimal.
  destruct (Z.leb_spec 0 q) as [_|]; [|lia].
  assert (P : (0 < c * 10 ^ q)%Z).
  { assert (0 < 10 ^ q)%Z by (apply Z.pow_pos_nonneg; lia). nia. }
  destruct (c * 10 ^ q)%Z as [|mx|mx] eqn:E; try lia.
  cbn [binary_normalize]. unfold binary_round.
  assert (R : Prisma.to_Q c q == inject_Z (Z.pos mx)).
  { rewrite <- E. unfold Prisma.to_Q. rewrite inject_Z_mult, inject_pow10 by lia.
    reflexivity. }
  set (d := Z.pos (digits2_pos mx)).
  assert (Hd : d = Zdigits2 (Z.pos mx)) by reflexivity.
  assert (Hd0 : (1 <= d)%Z) by (unfold d; lia).
  replace (d + 0)%Z with d by lia.
  set (t := fexp Number.prec Number.emax d).
  assert (Ht : t = Z.max (d - 53) (-1074)) by reflexivity.
  assert (A : exists mz ez,
             shl_align mx 0 t = (mz, ez) /\ (ez <= 0)%Z /\ (ez <= t)%Z
             /\ Z.pos mz = (Z.pos mx * 2 ^ (- ez))%Z).
  { unfold shl_align. destruct (t - 0)%Z as [|p|p] eqn:T.
    - exists mx, 0%Z. repeat apply conj; try reflexivity; lia.
    - exists mx, 0%Z. repeat apply conj; try reflexivity; lia.
    - exists (Pos.iter xO mx p), t. repeat apply conj; try reflexivity; try lia.
      rewrite iter_xO. f_equal. f_equal. lia. }
  destruct A as (mz & ez & -> & Ez0 & Ezt & Emz).
  assert (B : (Z.pos mz, loc_Exact) = bracket (Prisma.to_Q c q) ez).
  { symmetry. apply bracket_integer. rewrite R, Emz, inject_Z_mult, inject_pow2 by lia.
    reflexivity. }
  apply (round_aux_canonical false (Prisma.to_Q c q) (Z.pos mz) ez loc_Exact);
    [lia|exact B| |left; lia].
  rewrite Emz, Zdigits2_shift by lia. rewrite <- Hd.
  replace (d + - ez + ez)%Z with d by lia. fold t. exact Ezt.
Qed.

Lemma even_pow10 (k : Z) : (0 < k)%Z -> Z.even (10 ^ k) = true.
Proof.
  intros H. replace k with (Z.succ (k - 1)) by lia. rewrite Z.pow_succ_r by lia.
  rewrite Z.even_mul. reflexivity.
Qed.

(** The place of the rest of a division. *)
Lemma loc_frac_div (M T : Z) :
  (0 < T)%Z -> Z.even T = true ->
  loc_frac (inject_Z M / inject_Z T - inject_Z (M / T))
  = new_location T (M mod T).
Proof.
  intros HT Ev. unfold new_location, new_location_even. rewrite Ev.
  pose proof (Z.div_mod M T ltac:(lia)) as D.
  pose proof (Z.mod_pos_bound M T HT) as B.
  assert (PT : 0 < inject_Z T) by (change 0 with (inject_Z 0); rewrite <- Zlt_Qlt; exact HT).
  assert (E : inject_Z M / inject_Z T - inject_Z (M / T)
              == inject_Z (M mod T) / inject_Z T).
  { rewrite D at 1. rewrite inject_Z_plus, inject_Z_mult. field. lra. }
  rewrite (loc_frac_comp _ _ E).
  destruct (Z.eqb_spec (M mod T) 0) as [Z0|NZ].
  - apply loc_frac_exact. rewrite Z0. unfold Qdiv. ring.
  - apply loc_frac_inexact.
    + intros F. apply NZ.
      assert (G : inject_Z (M mod T) == 0).
      { rewrite <- (Qmult_0_l (inject_Z T)), <- F. field. lra. }
      change 0 with (inject_Z 0) in G. exact (proj1 (inject_Z_injective _ _) G).
    + assert (C : forall a b : Q, (a ?= b) = (a * inject_Z T ?= b * inject_Z T)).
      { intros a b. destruct (Qcompare_spec a b) as [Q1|Q1|Q1]; symmetry.
        - apply Qeq_alt. rewrite Q1. reflexivity.
        - apply Qlt_alt. apply Qmult_lt_compat_r; assumption.
        - apply Qgt_alt. apply Qmult_lt_compat_r; assumption. }
      rewrite C.
      assert (E1 : inject_Z (M mod T) / inject_Z T * inject_Z T == inject_Z (M mod T))
        by (field; lra).
      assert (E2 : (1 # 2) * inject_Z T == inject_Z T * (1 # 2)) by ring.
      rewrite (Qcompare_comp _ _ E1 _ _ E2).
      destruct (Z.compare_spec (2 * (M mod T)) T) as [Q1|Q1|Q1].
      * apply (proj1 (Qeq_alt _ _)).
        assert (Q2 : inject_Z T == 2 * inject_Z (M mod T))
          by (rewrite <- Q1 at 1; rewrite inject_Z_mult; reflexivity).
        lra.
      * apply (proj1 (Qlt_alt _ _)). rewrite Zlt_Qlt, inject_Z_mult in Q1.
        change (inject_Z 2) with 2 in Q1. lra.
      * apply (proj1 (Qgt_alt _ _)). rewrite Zlt_Qlt, inject_Z_mult in Q1.
        change (inject_Z 2) with 2 in Q1. lra.
Qed.

Lemma quotient_above (c T d1 d2 s j : Z) :
  (0 < c)%Z -> (0 < T)%Z -> (0 <= s)%Z ->
  d1 = Zdigits2 c -> d2 = Zdigits2 T ->
  j = (d1 - 1 + s - d2)%Z -> (0 <= j)%Z ->
  (2 ^ j <= c * 2 ^ s / T)%Z.
Proof.
  intros Hc HT Hs -> -> -> Hj.
  destruct (Zdigits2_bounds c Hc) as [C1 _].
  destruct (Zdigits2_bounds T HT) as [_ T2].
  set (d1 := Zdigits2 c) in *. set (d2 := Zdigits2 T) in *.
  assert (D1 : (1 <= d1)%Z).
  { unfold d1. rewrite Zdigits2_log2 by lia. pose proof (Z.log2_nonneg c). lia. }
  assert (D2 : (1 <= d2)%Z).
  { unfold d2. rewrite Zdigits2_log2 by lia. pose proof (Z.log2_nonneg T). lia. }
  apply Z.div_le_lower_bound; [exact HT|].
  assert (E : (2 ^ (d1 - 1) * 2 ^ s = 2 ^ d2 * 2 ^ (d1 - 1 + s - d2))%Z).
  { rewrite <- !Z.pow_add_r by lia. f_equal. lia. }
  assert (P1 : (0 < 2 ^ (d1 - 1 + s - d2))%Z) by (apply Z.pow_pos_nonneg; lia).
  assert (P2 : (0 < 2 ^ s)%Z) by (apply Z.pow_pos_nonneg; lia).
  nia.
Qed.

Lemma shifted (c s : Z) :
  (0 <= s)%Z ->
  match s with
  | 0%Z => c
  | Z.pos _ => Z.shiftl c s
  | Z.neg _ => 0%Z
  end = (c * 2 ^ s)%Z.
Proof.
  intros H. destruct s as [|p|p]; try lia.
  rewrite Z.shiftl_mul_pow2 by lia. reflexivity.
Qed.

(** A decimal literal with a negative exponent: a quotient. *)
Lemma of_decimal_quotient (c q : Z) :
  (0 < c)%Z -> (q < 0)%Z ->
  exists e1,
    canonical_at (Prisma.to_Q c q) e1
    /\ (0 <= fst (bracket (Prisma.to_Q c q) e1))%Z
    /\ Number.of_decimal false c q
       = binary_round_aux Number.prec Number.emax false
           (fst (bracket (Prisma.to_Q c q) e1)) e1 (snd (bracket (Prisma.to_Q c q) e1)).
Proof.
  intros Hc Hq. unfold Number.of_decimal.
  destruct (Z.leb_spec 0 q) as [|_]; [lia|].
  set (T := (10 ^ (- q))%Z).
  assert (HT : (0 < T)%Z) by (apply Z.pow_pos_nonneg; lia).
  unfold SFdiv_core_binary.
  set (d1 := Zdigits2 c). set (d2 := Zdigits2 T).
  replace (d1 + 0 - (d2 + 0))%Z with (d1 - d2)%Z by lia.
  replace (0 - 0)%Z with 0%Z by lia.
  set (e' := Z.min (fexp Number.prec Number.emax (d1 - d2)) 0).
  assert (He' : e' = Z.min (Z.max (d1 - d2 - 53) (-1074)) 0) by reflexivity.
  set (s := (0 - e')%Z).
  assert (Hs : (0 <= s)%Z) by (unfold s; lia).
  set (M := (c * 2 ^ s)%Z).
  assert (EM : match s with
               | 0%Z => c
               | Z.pos _ => Z.shiftl c s
               | Z.neg _ => 0%Z
               end = M).
  { apply shifted. exact Hs. }
  rewrite EM.
  assert (ED : Z.div_eucl M T = (M / T, M mod T)%Z).
  { unfold Z.div, Z.modulo. destruct (Z.div_eucl M T). reflexivity. }
  rewrite ED.
  assert (HM : (0 <= M)%Z).
  { unfold M. assert (0 < 2 ^ s)%Z by (apply Z.pow_pos_nonneg; lia). nia. }
  assert (U : Prisma.to_Q c q * (2 # 1) ^ (- e') == inject_Z M / inject_Z T).
  { unfold Prisma.to_Q, M, T. rewrite inject_Z_mult, !inject_pow10, inject_pow2 by lia.
    replace (- e')%Z with s by (unfold s; lia).
    replace q with (- - q)%Z at 1 by lia. rewrite (Qpower_opp _ (- q)).
    field. apply pow10_neq_0. }
  assert (B : (M / T, new_location T (M mod T))%Z = bracket (Prisma.to_Q c q) e').
  { unfold bracket. cbv zeta. rewrite (Qfloor_comp _ _ U), <- Zdiv_Qdiv. f_equal.
    rewrite <- loc_frac_div by (try exact HT; apply even_pow10; lia).
    apply loc_frac_comp. rewrite U. reflexivity. }
  assert (Q0 : (0 <= M / T)%Z) by (apply Z.div_pos; lia).
  assert (Above : (-1074 < e' -> 2 ^ 52 <= M / T)%Z).
  { intros G. apply Z.le_trans with (2 ^ (d1 - 1 + s - d2))%Z.
    - apply Z.pow_le_mono_r; unfold s; lia.
    - apply (quotient_above c T d1 d2 s _ Hc HT Hs eq_refl eq_refl eq_refl).
      unfold s. lia. }
  apply (round_aux_canonical false (Prisma.to_Q c q) (M / T)%Z e'
           (new_location T (M mod T)) Q0 B).
  - rewrite fexp_eq.
    destruct (Z.eq_dec (M / T)%Z 0%Z) as [Z0|NZ].
    + rewrite Z0. cbn [Zdigits2].
      destruct (Z.le_gt_cases e' (-1074)) as [L|G]; [lia|].
      pose proof (Above G). lia.
    + destruct (Z.le_gt_cases 0 (d1 - 1 + s - d2)) as [J|J].
      * pose proof (quotient_above c T d1 d2 s _ Hc HT Hs eq_refl eq_refl eq_refl J) as A.
        pose proof (Zdigits2_above (M / T)%Z _ J A). unfold s in *. lia.
      * assert (1 <= Zdigits2 (M / T))%Z.
        { rewrite Zdigits2_log2 by lia. pose proof (Z.log2_nonneg (M / T)%Z). lia. }
        unfold s in *. lia.
  - destruct (Z.le_gt_cases e' (-1074)) as [L|G]; [right; lia|].
    left. pose proof (Above G). lia.
Qed.

(** The number a decimal literal denotes is [binary_round_aux] of its
    value at the exponent of the format. *)
Lemma of_decimal_canonical (c q : Z) :
  (0 < c)%Z ->
  exists e1,
    canonical_at (Prisma.to_Q c q) e1
    /\ (0 <= fst (bracket (Prisma.to_Q c q) e1))%Z
    /\ Number.of_decimal false c q
       = binary_round_aux Number.prec Number.emax false
           (fst (bracket (Prisma.to_Q c q) e1)) e1 (snd (bracket (Prisma.to_Q c q) e1)).
Proof.
  intros Hc. destruct (Z.le_gt_cases 0 q) as [H|H].
  - apply of_decimal_integer; assumption.
  - apply of_decimal_quotient; [assumption|lia].
Qed.

(** Two literals of the same value denote the same number. *)
Lemma of_decimal_value (c q c' q' : Z) :
  (0 < c)%Z -> (0 < c')%Z -> Prisma.to_Q c q == Prisma.to_Q c' q' ->
  Number.of_decimal false c q = Number.of_decimal false c' q'.
Proof.
  intros Hc Hc' E.
  destruct (of_decimal_canonical c q Hc) as (e1 & C1 & _ & ->).
  destruct (of_decimal_canonical c' q' Hc') as (e2 & C2 & _ & ->).
  apply (canonical_comp _ _ _ E) in C1.
  rewrite (canonical_unique _ _ _ C1 C2), (bracket_comp _ _ e2 E). reflexivity.
Qed.

Lemma inject_Z_sub (a b : Z) : inject_Z (a - b) == inject_Z a - inject_Z b.
Proof. unfold Z.sub. rewrite inject_Z_plus, inject_Z_opp. reflexivity. Qed.

Lemma bracket_below_half (r : Q) (e M : Z) :
  inject_Z M <= r * (2 # 1) ^ (- e) -> r * (2 # 1) ^ (- e) < inject_Z M + (1 # 2) ->
  fst (bracket r e) = M
  /\ (snd (bracket r e) = loc_Exact \/ snd (bracket r e) = loc_Inexact Lt).
Proof.
  intros L U. unfold bracket. cbv zeta. cbn [fst snd].
  set (u := r * (2 # 1) ^ (- e)) in *. clearbody u.
  assert (F : Qfloor u = M).
  { apply Qfloor_unique; [exact L|]. rewrite inject_Z_plus. change (inject_Z 1) with 1. lra. }
  rewrite F. split; [reflexivity|].
  destruct (loc_frac_cases (u - inject_Z M)) as [[_ ->]|[(_ & _ & ->)|[[E _]|[G _]]]];
    auto; lra.
Qed.

Lemma bracket_above_half (r : Q) (e M : Z) :
  inject_Z M + (1 # 2) < r * (2 # 1) ^ (- e) -> r * (2 # 1) ^ (- e) < inject_Z M + 1 ->
  bracket r e = (M, loc_Inexact Gt).
Proof.
  intros L U. unfold bracket. cbv zeta.
  set (u := r * (2 # 1) ^ (- e)) in *. clearbody u.
  assert (F : Qfloor u = M).
  { apply Qfloor_unique; [lra|]. rewrite inject_Z_plus. change (inject_Z 1) with 1. lra. }
  rewrite F. f_equal.
  destruct (loc_frac_cases (u - inject_Z M)) as [[E _]|[(_ & E & _)|[[E _]|[_ ->]]]];
    try reflexivity; lra.
Qed.

Lemma binary64_finite (s : bool) (m : positive) (e : Z) :
  binary64 (S754_finite s m e) = true ->
  (-1074 <= e <= 971)%Z /\ (Z.pos m < 2 ^ 53)%Z
  /\ (2 ^ 52 <= Z.pos m \/ e = -1074)%Z.
Proof.
  unfold binary64, valid_binary, bounded, canonical_mantissa. rewrite fexp_eq.
  intros H. apply andb_true_iff in H. destruct H as [Hc He].
  apply Z.eqb_eq in Hc. apply Z.leb_le in He.
  change (Number.emax - Number.prec)%Z with 971%Z in He.
  change (Z.pos (digits2_pos m)) with (Zdigits2 (Z.pos m)) in Hc.
  destruct (Zdigits2_bounds (Z.pos m) ltac:(lia)) as [D1 D2].
  set (d := Zdigits2 (Z.pos m)) in *.
  assert (Hd : (1 <= d)%Z).
  { unfold d. rewrite Zdigits2_log2 by lia. pose proof (Z.log2_nonneg (Z.pos m)). lia. }
  assert (D53 : (d <= 53)%Z) by lia.
  split; [lia|]. split.
  - apply Z.lt_le_trans with (2 ^ d)%Z; [exact D2|]. apply Z.pow_le_mono_r; lia.
  - destruct (Z.eq_dec d 53%Z) as [E|N]; [|right; lia].
    left. rewrite E in D1. exact D1.
Qed.

Lemma round_aux_at_rest (m0 e0 : Z) (l0 : location) (m : positive) :
  (0 <= m0 < 2 ^ 53)%Z -> (-1074 <= e0 <= 971)%Z ->
  round_nearest_even m0 l0 = Z.pos m -> (Z.pos m < 2 ^ 53)%Z ->
  binary_round_aux Number.prec Number.emax false m0 e0 l0 = S754_finite false m e0.
Proof.
  intros Hm He Hr Hm'. unfold binary_round_aux.
  rewrite shr_fexp_at_rest by lia.
  destruct (record_of_loc m0 l0) as [-> ->]. rewrite Hr.
  rewrite shr_fexp_at_rest by lia. cbn [shr_record_of_loc shr_m].
  destruct (Z.leb_spec e0 (Number.emax - Number.prec)) as [_|G]; [reflexivity|].
  change (Number.emax - Number.prec)%Z with 971%Z in G. lia.
Qed.

(** What lies within half a unit of a binary64 number, and within a
    quarter below a power of two, rounds to it. *)
Lemma round_to (r : Q) (m : positive) (e : Z) :
  binary64 (S754_finite false m e) = true ->
  r * (2 # 1) ^ (- e) < inject_Z (Z.pos m) + (1 # 2) ->
  inject_Z (Z.pos m) - (1 # 2) < r * (2 # 1) ^ (- e) ->
  ((Z.pos m = 2 ^ 52)%Z -> (-1074 < e)%Z ->
   inject_Z (Z.pos m) - (1 # 4) < r * (2 # 1) ^ (- e)) ->
  exists e1,
    canonical_at r e1
    /\ binary_round_aux Number.prec Number.emax false
         (fst (bracket r e1)) e1 (snd (bracket r e1))
       = S754_finite false m e.
Proof.
  intros Hv U L Lq.
  destruct (binary64_finite false m e Hv) as (He & Hm & Hn).
  set (u := r * (2 # 1) ^ (- e)) in *.
  destruct (Qlt_le_dec u (inject_Z (Z.pos m))) as [Below|Above].
  - destruct (Z.eq_dec (Z.pos m) (2 ^ 52)%Z) as [P|NP];
      [destruct (Z.eq_dec e (-1074)%Z) as [E|NE]|].
    + (* the least normal number: its predecessor is subnormal *)
      exists e.
      assert (B : bracket r e = (Z.pos m - 1, loc_Inexact Gt)%Z).
      { apply bracket_above_half; fold u; rewrite inject_Z_sub;
          change (inject_Z 1) with 1; lra. }
      split.
      * unfold canonical_at. fold u.
        replace (Qfloor u) with (fst (bracket r e)) by reflexivity.
        rewrite B. cbn [fst]. split; [lia|]. split; [lia|right; exact E].
      * rewrite B. cbn [fst snd]. apply round_aux_at_rest; try lia.
        cbn [round_nearest_even]. lia.
    + (* a power of two: the numbers below are half as far apart *)
      exists (e - 1)%Z.
      assert (U1 : r * (2 # 1) ^ (- (e - 1)) == 2 * u).
      { unfold u. replace (- (e - 1))%Z with (- e + 1)%Z by lia. rewrite pow2_plus.
        change ((2 # 1) ^ 1) with 2. ring. }
      specialize (Lq P ltac:(lia)).
      assert (Pm : inject_Z (Z.pos m) == inject_Z (2 ^ 52)) by (rewrite P; reflexivity).
      assert (B : bracket r (e - 1) = (2 ^ 53 - 1, loc_Inexact Gt)%Z).
      { apply bracket_above_half; rewrite U1, inject_Z_sub;
          change (inject_Z (2 ^ 53)) with (2 * inject_Z (2 ^ 52));
          change (inject_Z 1) with 1; lra. }
      split.
      * unfold canonical_at.
        replace (Qfloor (r * (2 # 1) ^ (- (e - 1)))) with (fst (bracket r (e - 1)))
          by reflexivity.
        rewrite B. cbn [fst]. split; [lia|]. split; [lia|left; lia].
      * rewrite B. cbn [fst snd]. unfold binary_round_aux.
        rewrite shr_fexp_at_rest by lia.
        cbn [shr_record_of_loc shr_m loc_of_shr_record round_nearest_even].
        change (2 ^ 53 - 1 + 1)%Z with 9007199254740992%Z.
        unfold shr_fexp. rewrite fexp_eq.
        change (Zdigits2 9007199254740992) with 54%Z.
        replace (Z.max (54 + (e - 1) - 53) (-1074) - (e - 1))%Z with 1%Z by lia.
        cbn [shr shr_record_of_loc SpecFloat.iter_pos shr_1 shr_m].
        replace (e - 1 + 1)%Z with e by lia.
        destruct (Z.leb_spec e (Number.emax - Number.prec)) as [_|G].
        -- f_equal. change (2 ^ 52)%Z with 4503599627370496%Z in P. congruence.
        -- change (Number.emax - Number.prec)%Z with 971%Z in G. lia.
    + exists e.
      assert (B : bracket r e = (Z.pos m - 1, loc_Inexact Gt)%Z).
      { apply bracket_above_half; fold u; rewrite inject_Z_sub;
          change (inject_Z 1) with 1; lra. }
      split.
      * unfold canonical_at. fold u.
        replace (Qfloor u) with (fst (bracket r e)) by reflexivity.
        rewrite B. cbn [fst]. split; [lia|]. split; [lia|lia].
      * rewrite B. cbn [fst snd]. apply round_aux_at_rest; try lia.
        cbn [round_nearest_even]. lia.
  - exists e.
    destruct (bracket_below_half r e (Z.pos m) Above U) as [B1 B2].
    split.
    + unfold canonical_at. fold u.
      replace (Qfloor u) with (fst (bracket r e)) by reflexivity.
      rewrite B1. split; [lia|]. split; [lia|exact Hn].
    + rewrite B1. apply round_aux_at_rest; try lia.
      destruct B2 as [-> | ->]; reflexivity.
Qed.

(** A literal within that reach of a binary64 number denotes it. *)
Lemma of_decimal_reads (c q : Z) (m : positive) (e : Z) :
  (0 < c)%Z ->
  binary64 (S754_finite false m e) = true ->
  Prisma.to_Q c q * (2 # 1) ^ (- e) < inject_Z (Z.pos m) + (1 # 2) ->
  inject_Z (Z.pos m) - (1 # 2) < Prisma.to_Q c q * (2 # 1) ^ (- e) ->
  ((Z.pos m = 2 ^ 52)%Z -> (-1074 < e)%Z ->
   inject_Z (Z.pos m) - (1 # 4) < Prisma.to_Q c q * (2 # 1) ^ (- e)) ->
  Number.of_decimal false c q = S754_finite false m e.
Proof.
  intros Hc Hv U L Lq.
  destruct (of_decimal_canonical c q Hc) as (e1 & C1 & _ & ->).
  destruct (round_to _ m e Hv U L Lq) as (e2 & C2 & <-).
  rewrite (canonical_unique _ _ _ C1 C2). reflexivity.
Qed.
End Rounding.

(** ** The digits of a number read back as the number *)

Lemma estimate_below_all (l : Z) : -1074 <= l <= 1023 -> estimate_below l = true.
Proof.
  intros H.
  assert (E : forallb (fun i => estimate_below (Z.of_nat i - 1074)) (seq 0 2098) = true)
    by (vm_compute; reflexivity).
  rewrite forallb_forall in E.
  replace l with (Z.of_nat (Z.to_nat (l + 1074)) - 1074) by lia.
  apply E. apply in_seq. lia.
Qed.

(** The magnitude is not too high: [10 ^ (n - 1) <= num / den]. *)
Lemma magnitude_below (s : bool) (m : positive) (e num den : Z) :
  binary64 (S754_finite s m e) = true ->
  Number.fraction m e = (num, den) ->
  Number.pow10_le (Number.magnitude num den - 1) num den = true.
Proof.
  intros Hv F. destruct (binary64_bounds s m e Hv) as [Hb He].
  destruct (fraction_positive _ _ _ _ F) as [Hn Hd].
  pose proof (fraction_above_pow2 m e) as A. rewrite F in A. cbv zeta in A.
  destruct A as [HL Habove].
  pose proof (estimate_below_all (Z.log2 (Z.pos m) + e) ltac:(lia)) as R.
  unfold estimate_below in R.
  pose proof (pow2_fraction_positive (Z.log2 (Z.pos m) + e)) as [Hn0 Hd0].
  destruct (pow2_fraction (Z.log2 (Z.pos m) + e)) as [num0 den0]. cbn [fst snd] in *.
  apply (pow10_le_above _ num0 den0 num den Hn0 Hd0 Hn Hd Habove) in R.
  unfold Number.magnitude. rewrite HL.
  set (est := (Z.log2 (Z.pos m) + e) * 1233 / 4096) in *. clearbody est.
  clear Hv F HL Habove Hb He.
  repeat match goal with
         | |- context [if Number.pow10_le ?t num den then _ else _] =>
             let E := fresh "E" in
             destruct (Number.pow10_le t num den) eqn:E;
               [replace (t + 1 - 1) with t by lia; exact E|]
         end.
  replace (est - 2 + 1 - 1) with (est - 2) by lia. exact R.
Qed.

Section ReadBack.
Local Open Scope Q_scope.

Lemma inject_pos (z : Z) : (0 < z)%Z -> 0 < inject_Z z.
Proof. intros H. change 0 with (inject_Z 0). rewrite <- Zlt_Qlt. exact H. Qed.

Lemma fraction_value (m : positive) (e num den : Z) :
  Number.fraction m e = (num, den) ->
  inject_Z num == inject_Z (Z.pos m) * (2 # 1) ^ e * inject_Z den.
Proof.
  unfold Number.fraction. destruct (Z.leb_spec 0 e) as [H|H]; intros E;
    inversion E; subst.
  - rewrite inject_Z_mult, inject_pow2 by lia. change (inject_Z 1) with 1. ring.
  - rewrite inject_pow2 by lia.
    assert (P : (2 # 1) ^ e * (2 # 1) ^ (- e) == 1).
    { rewrite <- pow2_plus. replace (e + - e)%Z with 0%Z by lia. reflexivity. }
    rewrite <- Qmult_assoc, P. ring.
Qed.

Lemma pow10_plus (a b : Z) : (10 # 1) ^ (a + b) == (10 # 1) ^ a * (10 # 1) ^ b.
Proof. apply Qpower_plus, ten_neq_0. Qed.

Lemma pow10_le_Q (t num den : Z) :
  Number.pow10_le t num den = true ->
  (10 # 1) ^ t * inject_Z den <= inject_Z num.
Proof.
  unfold Number.pow10_le. destruct (Z.leb_spec 0 t) as [T|T]; intros H;
    apply Z.leb_le in H.
  - rewrite <- inject_pow10, <- inject_Z_mult by lia. rewrite <- Zle_Qle. exact H.
  - rewrite Zle_Qle, inject_Z_mult, inject_pow10 in H by lia.
    assert (P : (10 # 1) ^ t * (10 # 1) ^ (- t) == 1).
    { rewrite <- pow10_plus. replace (t + - t)%Z with 0%Z by lia. reflexivity. }
    pose proof (pow10_pos t) as Pt.
    apply (Qmult_le_l _ _ ((10 # 1) ^ t) Pt) in H.
    setoid_replace ((10 # 1) ^ t * (inject_Z num * (10 # 1) ^ (- t)))
      with (inject_Z num * ((10 # 1) ^ t * (10 # 1) ^ (- t))) using relation Qeq in H by ring.
    rewrite P, Qmult_1_r in H. exact H.
Qed.

(** The numerator and the denominator the candidates are cut from. *)
Lemma scaled_value (num den p : Z) :
  (0 < num)%Z -> (0 < den)%Z ->
  let N := (if 0 <=? p then num else num * 10 ^ (- p))%Z in
  let D := (if 0 <=? p then den * 10 ^ p else den)%Z in
  (0 < N)%Z /\ (0 < D)%Z
  /\ inject_Z N * (10 # 1) ^ p * inject_Z den == inject_Z num * inject_Z D.
Proof.
  intros Hn Hd. cbv zeta. destruct (Z.leb_spec 0 p) as [P|P].
  - assert (0 < 10 ^ p)%Z by (apply Z.pow_pos_nonneg; lia).
    split; [lia|]. split; [nia|].
    rewrite inject_Z_mult, inject_pow10 by lia. ring.
  - assert (0 < 10 ^ (- p))%Z by (apply Z.pow_pos_nonneg; lia).
    split; [nia|]. split; [lia|].
    rewrite inject_Z_mult, inject_pow10 by lia.
    assert (E : (10 # 1) ^ (- p) * (10 # 1) ^ p == 1).
    { rewrite <- pow10_plus. replace (- p + p)%Z with 0%Z by lia. reflexivity. }
    setoid_replace (inject_Z num * (10 # 1) ^ (- p) * (10 # 1) ^ p * inject_Z den)
      with (inject_Z num * ((10 # 1) ^ (- p) * (10 # 1) ^ p) * inject_Z den) using relation Qeq by ring.
    rewrite E. ring.
Qed.

(** A decimal of seventeen digits next to a binary64 number reads back as
    that number. *)
Lemma seventeen_digits_read_back (m : positive) (e num den s : Z) :
  binary64 (S754_finite false m e) = true ->
  Number.fraction m e = (num, den) ->
  let p := (Number.magnitude num den - 17)%Z in
  let N := (if 0 <=? p then num else num * 10 ^ (- p))%Z in
  let D := (if 0 <=? p then den * 10 ^ p else den)%Z in
  (s = N / D /\ 2 * (N mod D) <= D \/ s = N / D + 1 /\ D <= 2 * (N mod D))%Z ->
  (0 < s)%Z /\ Number.of_decimal false s p = S754_finite false m e.
Proof.
  intros Hv F p N D Hs.
  destruct (fraction_positive _ _ _ _ F) as [Hn Hd].
  destruct (binary64_finite false m e Hv) as (He & Hm & Hnorm).
  pose proof (magnitude_below false m e num den Hv F) as Mag.
  apply pow10_le_Q in Mag.
  pose proof (fraction_value m e num den F) as FV.
  destruct (scaled_value num den p Hn Hd) as (HN & HD & SV). fold N D in HN, HD, SV.
  pose proof (Z.div_mod N D ltac:(lia)) as DM.
  pose proof (Z.mod_pos_bound N D HD) as MB.
  set (lo := (N / D)%Z) in *. set (rr := (N mod D)%Z) in *.
  (* everything as rationals *)
  set (Mq := inject_Z (Z.pos m)) in *.
  set (w := (10 # 1) ^ p * (2 # 1) ^ (- e)).
  assert (Pw : 0 < w) by (apply Qmult_lt_0_compat; [apply pow10_pos|apply pow2_pos]).
  pose proof (inject_pos den Hd) as Pden. pose proof (inject_pos D HD) as PD.
  assert (E2 : (2 # 1) ^ e * (2 # 1) ^ (- e) == 1).
  { rewrite <- pow2_plus. replace (e + - e)%Z with 0%Z by lia. reflexivity. }
  (* ten to the sixteenth of the unit is within the number *)
  assert (B16 : 10000000000000000 * w <= Mq).
  { assert (E16 : (10 # 1) ^ (Number.magnitude num den - 1)
                  == 10000000000000000 * (10 # 1) ^ p).
    { replace (Number.magnitude num den - 1)%Z with (16 + p)%Z by (unfold p; lia).
      rewrite pow10_plus. reflexivity. }
    rewrite E16, FV in Mag.
    assert (G : 10000000000000000 * (10 # 1) ^ p <= Mq * (2 # 1) ^ e).
    { apply (Qmult_le_r _ _ (inject_Z den) Pden). exact Mag. }
    apply (Qmult_le_compat_r _ _ ((2 # 1) ^ (- e))) in G;
      [|apply Qlt_le_weak, pow2_pos].
    setoid_replace (Mq * (2 # 1) ^ e * (2 # 1) ^ (- e))
      with (Mq * ((2 # 1) ^ e * (2 # 1) ^ (- e))) using relation Qeq in G by ring.
    rewrite E2, Qmult_1_r in G. unfold w.
    setoid_replace (10000000000000000 * ((10 # 1) ^ p * (2 # 1) ^ (- e)))
      with (10000000000000000 * (10 # 1) ^ p * (2 # 1) ^ (- e)) using relation Qeq by ring.
    exact G. }
  (* the quotient the candidates are cut from, in units *)
  assert (V : inject_Z N * w == Mq * inject_Z D).
  { apply (Qmult_inj_r _ _ (inject_Z den)); [lra|].
    unfold w.
    setoid_replace (inject_Z N * ((10 # 1) ^ p * (2 # 1) ^ (- e)) * inject_Z den)
      with (inject_Z N * (10 # 1) ^ p * inject_Z den * (2 # 1) ^ (- e)) using relation Qeq by ring.
    rewrite SV, FV.
    setoid_replace (Mq * (2 # 1) ^ e * inject_Z den * inject_Z D * (2 # 1) ^ (- e))
      with (Mq * ((2 # 1) ^ e * (2 # 1) ^ (- e)) * inject_Z den * inject_Z D) using relation Qeq by ring.
    rewrite E2. ring. }
  assert (DMq : inject_Z N == inject_Z D * inject_Z lo + inject_Z rr).
  { rewrite DM at 1. rewrite inject_Z_plus, inject_Z_mult. reflexivity. }
  assert (R0 : 0 <= inject_Z rr)
    by (change 0 with (inject_Z 0); rewrite <- Zle_Qle; lia).
  assert (R1 : inject_Z rr < inject_Z D) by (rewrite <- Zlt_Qlt; lia).
  (* the candidate, in units, is within half a unit of the number *)
  assert (Near : - (w * (1 # 2)) * inject_Z D <= (inject_Z s * w - Mq) * inject_Z D
                 /\ (inject_Z s * w - Mq) * inject_Z D <= w * (1 # 2) * inject_Z D).
  { assert (K : (inject_Z s * w - Mq) * inject_Z D
                == (inject_Z s * inject_Z D - inject_Z N) * w).
    { setoid_replace ((inject_Z s * w - Mq) * inject_Z D)
        with (inject_Z s * inject_Z D * w - Mq * inject_Z D) using relation Qeq by ring.
      rewrite <- V. ring. }
    rewrite K.
    destruct Hs as [[-> Hr]|[-> Hr]].
    - rewrite Zle_Qle, inject_Z_mult in Hr. change (inject_Z 2) with 2 in Hr.
      fold lo. split.
      + setoid_replace (- (w * (1 # 2)) * inject_Z D)
          with ((- (inject_Z D * (1 # 2))) * w) using relation Qeq by ring.
        apply Qmult_le_compat_r; [lra|lra].
      + setoid_replace (w * (1 # 2) * inject_Z D)
          with (inject_Z D * (1 # 2) * w) using relation Qeq by ring.
        apply Qmult_le_compat_r; [lra|lra].
    - rewrite Zle_Qle, inject_Z_mult in Hr. change (inject_Z 2) with 2 in Hr.
      fold lo. rewrite inject_Z_plus. change (inject_Z 1) with 1. split.
      + setoid_replace (- (w * (1 # 2)) * inject_Z D)
          with ((- (inject_Z D * (1 # 2))) * w) using relation Qeq by ring.
        apply Qmult_le_compat_r; [lra|lra].
      + setoid_replace (w * (1 # 2) * inject_Z D)
          with (inject_Z D * (1 # 2) * w) using relation Qeq by ring.
        apply Qmult_le_compat_r; [lra|lra]. }
  destruct Near as [NearL NearU].
  apply Qmult_le_r in NearL; [|exact PD]. apply Qmult_le_r in NearU; [|exact PD].
  assert (M53 : Mq < 9007199254740992).
  { change 9007199254740992 with (inject_Z (2 ^ 53)). unfold Mq. rewrite <- Zlt_Qlt. exact Hm. }
  assert (M1 : 1 <= Mq).
  { change 1 with (inject_Z 1). unfold Mq. rewrite <- Zle_Qle. lia. }
  assert (U : Prisma.to_Q s p * (2 # 1) ^ (- e) == inject_Z s * w).
  { unfold Prisma.to_Q, w. ring. }
  split.
  - assert (G : 0 < inject_Z s * w) by lra.
    destruct (Z.lt_ge_cases 0 s) as [Ps|Ns]; [exact Ps|exfalso].
    assert (inject_Z s <= 0) by (change 0 with (inject_Z 0); rewrite <- Zle_Qle; lia).
    assert (inject_Z s * w <= 0 * w) by (apply Qmult_le_compat_r; lra).
    lra.
  - assert (Ps : (0 < s)%Z).
    { assert (G : 0 < inject_Z s * w) by lra.
      destruct (Z.lt_ge_cases 0 s) as [Ps|Ns]; [exact Ps|exfalso].
      assert (inject_Z s <= 0) by (change 0 with (inject_Z 0); rewrite <- Zle_Qle; lia).
      assert (inject_Z s * w <= 0 * w) by (apply Qmult_le_compat_r; lra).
      lra. }
    apply of_decimal_reads; [exact Ps|exact Hv| | |].
    + rewrite U. fold Mq. lra.
    + rewrite U. fold Mq. lra.
    + intros P52 _. rewrite U. fold Mq.
      assert (Mq == 4503599627370496).
      { unfold Mq. rewrite P52. reflexivity. }
      lra.
Qed.
End ReadBack.

Lemma number_eqb_eq (x y : number) : Number.eqb x y = true -> x = y.
Proof.
  destruct x as [s|s| |s m e], y as [t|t| |t n f]; simpl; try discriminate; intros H.
  - apply Bool.eqb_prop in H. congruence.
  - apply Bool.eqb_prop in H. congruence.
  - reflexivity.
  - apply andb_true_iff in H. destruct H as [H He].
    apply andb_true_iff in H. destruct H as [Hs Hm].
    apply Bool.eqb_prop in Hs. apply Pos.eqb_eq in Hm. apply Z.eqb_eq in He. congruence.
Qed.

Lemma number_eqb_refl (x : number) : Number.eqb x x = true.
Proof.
  destruct x as [s|s| |s m e]; simpl; try reflexivity; try apply Bool.eqb_reflx.
  rewrite Bool.eqb_reflx, Pos.eqb_refl, Z.eqb_refl. reflexivity.
Qed.

Lemma candidates_read x num den n k s p :
  In (s, p) (Number.candidates x num den n k) ->
  0 < s /\ Number.of_decimal false s p = x.
Proof.
  unfold Number.candidates. intros H. apply in_map_iff in H.
  destruct H as (s' & Heq & Hin). inversion Heq; subst.
  apply List.filter_In in Hin. destruct Hin as [_ Hc].
  apply andb_true_iff in Hc. destruct Hc as [Hc He]. split.
  - apply Z.ltb_lt. exact Hc.
  - apply number_eqb_eq. exact He.
Qed.

Lemma shortest_reads x num den n ks s p :
  Number.shortest x num den n ks = Some (s, p) ->
  0 < s /\ Number.of_decimal false s p = x.
Proof.
  induction ks as [|k ks IH]; simpl; [discriminate|].
  destruct (Number.candidates x num den n k) as [|c cs] eqn:E; [exact IH|].
  intros H. inversion H; subst. apply (candidates_read x num den n k s p).
  rewrite E. left. reflexivity.
Qed.

Lemma shortest_finds x num den n ks k :
  In k ks -> Number.candidates x num den n k <> [] ->
  Number.shortest x num den n ks <> None.
Proof.
  induction ks as [|k' ks IH]; simpl; [tauto|].
  intros [->|Hin] Hne.
  - destruct (Number.candidates x num den n k); [congruence|discriminate].
  - destruct (Number.candidates x num den n k'); [apply IH; assumption|discriminate].
Qed.

(** With seventeen digits there is a candidate. *)
Lemma candidates_17 (m : positive) (e num den : Z) :
  binary64 (S754_finite false m e) = true ->
  Number.fraction m e = (num, den) ->
  Number.candidates (S754_finite false m e) num den (Number.magnitude num den) 17 <> [].
Proof.
  intros Hv F. unfold Number.candidates. cbv zeta.
  set (p := Number.magnitude num den - 17).
  set (N := if 0 <=? p then num else num * 10 ^ (- p)).
  set (D := if 0 <=? p then den * 10 ^ p else den).
  pose proof (seventeen_digits_read_back m e num den) as R.
  specialize (fun s => R s Hv F). cbv zeta in R. fold p N D in R.
  assert (Ok : forall s,
             s = N / D /\ 2 * (N mod D) <= D \/ s = N / D + 1 /\ D <= 2 * (N mod D) ->
             (0 <? s) && Number.eqb (Number.of_decimal false s p) (S754_finite false m e)
             = true).
  { intros s Hs. destruct (R s Hs) as [Ps ->].
    rewrite number_eqb_refl, andb_true_r. apply Z.ltb_lt. exact Ps. }
  destruct (Z.ltb_spec (2 * (N mod D)) D) as [L|L];
    [|destruct (Z.ltb_spec D (2 * (N mod D))) as [G|G];
      [|destruct (Z.even (N / D))]]; cbn [List.filter].
  - rewrite (Ok (N / D)) by (left; split; [reflexivity|lia]). discriminate.
  - rewrite (Ok (N / D + 1)) by (right; split; [reflexivity|lia]). discriminate.
  - rewrite (Ok (N / D)) by (left; split; [reflexivity|lia]). discriminate.
  - rewrite (Ok (N / D + 1)) by (right; split; [reflexivity|lia]). discriminate.
Qed.

(** Number::toString gives digits that read back as the number. *)
Lemma to_decimal_reads (m : positive) (e : Z) :
  binary64 (S754_finite false m e) = true ->
  0 < fst (Number.to_decimal m e)
  /\ Number.of_decimal false (fst (Number.to_decimal m e)) (snd (Number.to_decimal m e))
     = S754_finite false m e.
Proof.
  intros Hv. unfold Number.to_decimal.
  destruct (Number.fraction m e) as [num den] eqn:F.
  pose proof (candidates_17 m e num den Hv F) as C.
  pose proof (shortest_finds (S754_finite false m e) num den (Number.magnitude num den)
                [1;2;3;4;5;6;7;8;9;10;11;12;13;14;15;16;17] 17) as S.
  destruct (Number.shortest _ num den _ _) as [[s p]|] eqn:E.
  - apply shortest_reads in E. exact E.
  - exfalso. apply S; [|exact C|reflexivity].
    repeat (first [left; reflexivity | right]).
Qed.

Lemma strip_same (fuel : nat) (c e : Z) :
  (Prisma.to_Q (fst (Prisma.strip fuel c e)) (snd (Prisma.strip fuel c e))
   == Prisma.to_Q c e)%Q.
Proof. apply strip_value. Qed.

(** [toNumber] undoes [new Prisma.Decimal] on every number the service lets
    through: a binary64 number that is not [<= 0]. *)
Lemma toNumber_of_number (n : number) :
  binary64 n = true -> Number.leb n Number.zero = false ->
  Prisma.toNumber (Prisma.of_number n) = n.
Proof.
  intros Hv Hpos. destruct n as [s|[]| |[] m e]; try discriminate Hpos; try reflexivity.
  destruct (to_decimal_reads m e Hv) as [Pc Hr].
  cbn [Prisma.of_number]. destruct (Number.to_decimal m e) as [c q]. cbn [fst snd] in *.
  unfold Prisma.normalize. destruct (Z.eqb_spec c 0) as [Z0|_]; [lia|].
  pose proof (strip_positive (Z.to_nat (Z.log2 (Z.abs c))) c q Pc) as Sp.
  pose proof (strip_same (Z.to_nat (Z.log2 (Z.abs c))) c q) as Sv.
  destruct (Prisma.strip _ c q) as [c' q']. cbn [fst snd] in *.
  cbn [Prisma.toNumber]. destruct (Z.eqb_spec c' 0) as [Z0|_]; [lia|].
  destruct (Z.ltb_spec c' 0) as [L|_]; [lia|].
  rewrite Z.abs_eq by lia. rewrite <- Hr. apply of_decimal_value; assumption.
Qed.

(** ** Runs that are accepted, and deletions *)

Lemma crear_acepta (data : CreateServicioRecogidaData) st vehiculo cliente trabajador :
  store_up st ->
  Number.leb (volumen_recogido_m3 data) Number.zero = false ->
  vehiculos (db st) !! vehiculoId data = Some vehiculo ->
  Prisma.greaterThan (Prisma.of_number (volumen_recogido_m3 data))
    (capacidad_max_m3 vehiculo) = false ->
  clientes (db st) !! clienteId data = Some cliente ->
  trabajadores (db st) !! trabajadorId data = Some trabajador ->
  sequence_ahead (db st) ->
  exists r,
    fst (crearServicioRecogida data st) = Ok r
    /\ sr_volumen_recogido_m3 r = Prisma.of_number (volumen_recogido_m3 data)
    /\ servicios (db (snd (crearServicioRecogida data st))) !! sr_id r = Some r.
Proof.
  intros Hup Hpos Hveh Hgt Hcli Htra Hseq.
  assert (Hfree : servicios (db st) !! secuencia (db st) = None)
    by (apply Hseq; lia).
  unfold_service. rewrite Hpos.
  call_up. rewrite Hveh, Hgt. call_up. rewrite Hcli. call_up. rewrite Htra.
  call_up. rewrite Hfree. simpl. eexists. split; [reflexivity|].
  split; [reflexivity|]. simpl. apply lookup_insert_eq.
Qed.

Lemma actualizar_acepta (id : Z) (data : UpdateServicioRecogidaData) st old
    vehiculo cliente trabajador :
  store_up st ->
  servicios (db st) !! id = Some old ->
  Number.leb (volumen_recogido_m3 (merged old data)) Number.zero = false ->
  vehiculos (db st) !! vehiculoId (merged old data) = Some vehiculo ->
  Prisma.greaterThan (Prisma.of_number (volumen_recogido_m3 (merged old data)))
    (capacidad_max_m3 vehiculo) = false ->
  clientes (db st) !! clienteId (merged old data) = Some cliente ->
  trabajadores (db st) !! trabajadorId (merged old data) = Some trabajador ->
  exists r,
    fst (actualizarServicioRecogida id data st) = Ok r
    /\ sr_volumen_recogido_m3 r
       = Prisma.of_number (volumen_recogido_m3 (merged old data))
    /\ servicios (db (snd (actualizarServicioRecogida id data st))) !! id = Some r.
Proof.
  intros Hup Hold Hpos Hveh Hgt Hcli Htra. simpl in *. unfold_service.
  call_up. rewrite Hold, Hpos. call_up. rewrite Hveh, Hgt. call_up. rewrite Hcli.
  call_up. rewrite Htra. call_up. rewrite Hold. simpl.
  eexists. split; [reflexivity|]. split; [reflexivity|]. apply lookup_insert_eq.
Qed.

Lemma greaterThan_cmp (x y : Decimal) :
  Prisma.greaterThan x y = true <-> Prisma.cmp x y = Some Gt.
Proof.
  unfold Prisma.greaterThan. destruct (Prisma.cmp x y) as [[]|]; split; congruence.
Qed.

Lemma eliminar_cases (id : Z) (st : Estado) (res : Resultado ServicioRecogida)
    (st' : Estado) :
  eliminarServicioRecogida id st = (res, st') ->
  (db st' = db st /\ res = Throw ErrNoSePudoEliminar)
  \/ (exists r, servicios (db st) !! id = Some r /\ res = Ok r
                /\ db st' = prisma_servicioRecogida.with_servicios (db st)
                              (base.delete id (servicios (db st))) (secuencia (db st))).
Proof.
  intros H. unfold_service.
  repeat (first [step_call | step_branch]); simpl; auto.
  right. eexists. repeat apply conj; reflexivity.
Qed.

(** ** C4 *)

(** A volume the service wrote survives [toNumber] and the way back, and
    the number [toNumber] gives passes the check of the sign again. *)
Lemma volumen_escrito_sobrevive (x : Decimal) :
  volumen_escrito x ->
  Prisma.of_number (Prisma.toNumber x) = x
  /\ Number.leb (Prisma.toNumber x) Number.zero = false
  /\ binary64 (Prisma.toNumber x) = true.
Proof.
  intros (n & Hv & Hpos & ->). rewrite (toNumber_of_number n Hv Hpos). auto.
Qed.

Lemma volumenes_escritos_crear (data : CreateServicioRecogidaData) (st : Estado) :
  binary64 (volumen_recogido_m3 data) = true ->
  volumenes_escritos (db st) ->
  volumenes_escritos (db (snd (crearServicioRecogida data st))).
Proof.
  intros Hv Hinv. destruct (crearServicioRecogida data st) as [[r|e] st'] eqn:H.
  - destruct (crear_ok _ _ _ _ H)
      as (v & c & t & Hpos & _ & _ & _ & _ & Hr & _ & Hdb & _).
    cbn [snd]. rewrite Hdb. intros k r' Hk. simpl in Hk.
    destruct (Z.eq_dec (secuencia (db st)) k) as [E|Hne].
    + rewrite <- E, lookup_insert_eq in Hk. inversion Hk; subst r'. rewrite Hr. simpl.
      exists (volumen_recogido_m3 data). auto.
    + rewrite lookup_insert_ne in Hk by exact Hne. exact (Hinv k r' Hk).
  - destruct (crear_throw _ _ _ _ H) as (Hdb & _). cbn [snd]. rewrite Hdb. exact Hinv.
Qed.

Lemma volumenes_escritos_actualizar (id : Z) (data : UpdateServicioRecogidaData)
    (st : Estado) :
  binary64_if_defined (upd_volumen_recogido_m3 data) = true ->
  volumenes_escritos (db st) ->
  volumenes_escritos (db (snd (actualizarServicioRecogida id data st))).
Proof.
  intros Hv Hinv. destruct (actualizarServicioRecogida id data st) as [[r|e] st'] eqn:H.
  - destruct (actualizar_ok _ _ _ _ _ H)
      as (old & v & c & t & Hold & Hpos & _ & _ & _ & _ & Hr & Hdb & _).
    cbn [snd]. rewrite Hdb. intros k r' Hk. simpl in Hk.
    destruct (Z.eq_dec id k) as [E|Hne].
    + rewrite <- E, lookup_insert_eq in Hk. inversion Hk; subst r'. rewrite Hr. simpl.
      destruct (upd_volumen_recogido_m3 data) as [n|]; simpl in *.
      * exists n. auto.
      * destruct (volumen_escrito_sobrevive _ (Hinv id old Hold)) as (_ & P & B).
        exists (Prisma.toNumber (sr_volumen_recogido_m3 old)). auto.
    + rewrite lookup_insert_ne in Hk by exact Hne. exact (Hinv k r' Hk).
  - destruct (actualizar_throw _ _ _ _ _ H) as (Hdb & _). cbn [snd]. rewrite Hdb.
    exact Hinv.
Qed.

Lemma volumenes_escritos_eliminar (id : Z) (st : Estado) :
  volumenes_escritos (db st) ->
  volumenes_escritos (db (snd (eliminarServicioRecogida id st))).
Proof.
  intros Hinv. destruct (eliminarServicioRecogida id st) as [res st'] eqn:H.
  destruct (eliminar_cases id st res st' H) as [[Hdb _]|(r & _ & _ & Hdb)];
    cbn [snd]; rewrite Hdb; [exact Hinv|].
  intros k r' Hk. simpl in Hk.
  destruct (Z.eq_dec id k) as [E|Hne].
  - rewrite <- E, lookup_delete_eq in Hk. discriminate Hk.
  - rewrite lookup_delete_ne in Hk by exact Hne. exact (Hinv k r' Hk).
Qed.

(** C4. When an update succeeds, every field of the persisted record that
    the request did not supply has the value of the record as it was
    stored. The stored volume goes through [toNumber], a binary64 number,
    and back to a decimal before it is re-validated against the capacity
    and used for the cost, and that round trip is exact: for every volume
    the service has written, the decimal that comes back is the stored one,
    so the persisted volume is the stored volume, and it is the one that
    was checked against the capacity and multiplied by the rate. Every
    volume in the store is such a volume: a store that holds only volumes
    the service wrote (as an empty store does) holds only such volumes
    after a creation, an update or a deletion, whatever the store does. (A
    decimal with more digits than a number has is written by no call of
    the service.) *)
Theorem actualizar_valores_efectivos :
  (forall id data st r st',
      actualizarServicioRecogida id data st = (Ok r, st') ->
      exists old vehiculo cliente,
        servicios (db st) !! id = Some old
        /\ sr_clienteId r = default (sr_clienteId old) (upd_clienteId data)
        /\ sr_vehiculoId r = default (sr_vehiculoId old) (upd_vehiculoId data)
        /\ sr_trabajadorId r = default (sr_trabajadorId old) (upd_trabajadorId data)
        /\ sr_fecha r = default (sr_fecha old) (upd_fecha data)
        /\ sr_volumen_recogido_m3 r
           = Prisma.of_number (default (Prisma.toNumber (sr_volumen_recogido_m3 old))
                                       (upd_volumen_recogido_m3 data))
        /\ vehiculos (db st) !! sr_vehiculoId r = Some vehiculo
        /\ Prisma.greaterThan (sr_volumen_recogido_m3 r) (capacidad_max_m3 vehiculo)
           = false
        /\ clientes (db st) !! sr_clienteId r = Some cliente
        /\ sr_costo_servicio r = costo (sr_volumen_recogido_m3 r) (tarifa_por_m3 cliente)
        /\ (volumen_escrito (sr_volumen_recogido_m3 old) ->
            sr_volumen_recogido_m3 r = volumen_efectivo old data))
  /\
  (forall x, volumen_escrito x -> Prisma.of_number (Prisma.toNumber x) = x)
  /\
  (forall st,
      volumenes_escritos (db st) ->
      (forall data,
          binary64 (volumen_recogido_m3 data) = true ->
          volumenes_escritos (db (snd (crearServicioRecogida data st))))
      /\ (forall id data,
             binary64_if_defined (upd_volumen_recogido_m3 data) = true ->
             volumenes_escritos (db (snd (actualizarServicioRecogida id data st))))
      /\ (forall id, volumenes_escritos (db (snd (eliminarServicioRecogida id st))))).
Proof.
  split; [|split].
  - intros id data st r st' H.
    destruct (actualizar_ok _ _ _ _ _ H)
      as (old & v & c & t & Hold & _ & Hv & Hcap & Hc & _ & Hr & _ & _).
    exists old, v, c. rewrite Hr. simpl.
    repeat apply conj; try reflexivity; try assumption.
    intros Hesc. unfold volumen_efectivo.
    destruct (upd_volumen_recogido_m3 data) as [n|]; simpl; [reflexivity|].
    apply volumen_escrito_sobrevive. exact Hesc.
  - intros x Hx. apply volumen_escrito_sobrevive. exact Hx.
  - intros st Hinv. split; [|split].
    + intros data Hv. apply volumenes_escritos_crear; assumption.
    + intros id data Hv. apply volumenes_escritos_actualizar; assumption.
    + intros id. apply volumenes_escritos_eliminar; assumption.
Qed.

Lemma actualizar_valores_efectivos_witness :
  exists old,
    servicios (db (estado_con_servicio (DFin 125 (-1)))) !! 1 = Some old
    /\ sr_volumen_recogido_m3 old = DFin 125 (-1)
    /\ volumen_escrito (sr_volumen_recogido_m3 old)
    /\ sr_volumen_recogido_m3
         {| sr_id := 1; sr_clienteId := 1; sr_vehiculoId := 1;
            sr_trabajadorId := 1; sr_fecha := fecha_ejemplo;
            sr_volumen_recogido_m3 := DFin 125 (-1);
            sr_costo_servicio := DFin 6875 (-2) |}
       = sr_volumen_recogido_m3 old.
Proof.
  set (st := estado_con_servicio (DFin 125 (-1))).
  destruct (proj1 actualizar_valores_efectivos 1 sin_cambios st
              {| sr_id := 1; sr_clienteId := 1; sr_vehiculoId := 1;
                 sr_trabajadorId := 1; sr_fecha := fecha_ejemplo;
                 sr_volumen_recogido_m3 := DFin 125 (-1);
                 sr_costo_servicio := DFin 6875 (-2) |}
              (snd (actualizarServicioRecogida 1 sin_cambios st)))
    as (old & _ & _ & Hold & _ & _ & _ & _ & _ & _ & _ & _ & _ & Hexact).
  - vm_compute. reflexivity.
  - assert (Hvol : sr_volumen_recogido_m3 old = DFin 125 (-1)).
    { vm_compute in Hold. inversion Hold. reflexivity. }
    assert (Hesc : volumen_escrito (sr_volumen_recogido_m3 old)).
    { rewrite Hvol. exists (literal 125 (-1)).
      split; [vm_compute; reflexivity|]. split; vm_compute; reflexivity. }
    exists old. split; [exact Hold|]. split; [exact Hvol|]. split; [exact Hesc|].
    exact (Hexact Hesc).
Defined.

(** ** C5 *)

(** The decimal the update validates is the effective volume: the decimal
    of the supplied number, else the stored decimal itself. *)
Lemma decimal_del_volumen_efectivo (old : ServicioRecogida)
    (data : UpdateServicioRecogidaData) :
  volumen_escrito (sr_volumen_recogido_m3 old) ->
  Prisma.of_number (volumen_recogido_m3 (merged old data)) = volumen_efectivo old data.
Proof.
  intros H. unfold volumen_efectivo. simpl.
  destruct (upd_volumen_recogido_m3 data) as [n|]; simpl; [reflexivity|].
  apply volumen_escrito_sobrevive. exact H.
Qed.

(** C5. On a store that fails no call, an update of an existing record,
    whose stored volume the service wrote, runs the checks of the creation
    again on the effective values (each supplied value, else the stored
    one): it throws a validation failure exactly when the creation of a
    record with those values throws it, and the decimal it checks is the
    decimal of the supplied volume or, when none is supplied, the stored
    decimal itself. So when no volume is supplied, the stored volume is
    checked against the capacity of the effective vehicle, the new one or
    the stored one: above it the update throws the capacity error, and not
    above it the update goes on (and succeeds when the client and the
    worker exist); and when only a volume is supplied, it is checked
    against the capacity of the stored vehicle. *)
Theorem actualizar_revalida_los_valores_efectivos (id : Z)
    (data : UpdateServicioRecogidaData) (st : Estado) (old : ServicioRecogida) :
  store_up st ->
  servicios (db st) !! id = Some old ->
  volumen_escrito (sr_volumen_recogido_m3 old) ->
  (forall e,
      is_validation_failure e = true ->
      fst (actualizarServicioRecogida id data st) = Throw e
      <-> fst (crearServicioRecogida (merged old data) st) = Throw e)
  /\
  Prisma.of_number (volumen_recogido_m3 (merged old data)) = volumen_efectivo old data
  /\
  (forall vehiculo,
      upd_volumen_recogido_m3 data = None ->
      vehiculos (db st) !! default (sr_vehiculoId old) (upd_vehiculoId data)
      = Some vehiculo ->
      (Prisma.greaterThan (sr_volumen_recogido_m3 old) (capacidad_max_m3 vehiculo) = true ->
       fst (actualizarServicioRecogida id data st)
       = Throw (ErrExcedeCapacidad (Prisma.toNumber (sr_volumen_recogido_m3 old))
                  (capacidad_max_m3 vehiculo)))
      /\
      (Prisma.greaterThan (sr_volumen_recogido_m3 old) (capacidad_max_m3 vehiculo) = false ->
       forall cliente trabajador,
         clientes (db st) !! default (sr_clienteId old) (upd_clienteId data)
         = Some cliente ->
         trabajadores (db st) !! default (sr_trabajadorId old) (upd_trabajadorId data)
         = Some trabajador ->
         exists r,
           fst (actualizarServicioRecogida id data st) = Ok r
           /\ sr_volumen_recogido_m3 r = sr_volumen_recogido_m3 old))
  /\
  (forall volumen vehiculo,
      upd_volumen_recogido_m3 data = Some volumen ->
      upd_vehiculoId data = None ->
      Number.leb volumen Number.zero = false ->
      vehiculos (db st) !! sr_vehiculoId old = Some vehiculo ->
      Prisma.greaterThan (Prisma.of_number volumen) (capacidad_max_m3 vehiculo) = true ->
      fst (actualizarServicioRecogida id data st)
      = Throw (ErrExcedeCapacidad volumen (capacidad_max_m3 vehiculo))).
Proof.
  intros Hup Hold Hesc.
  destruct (volumen_escrito_sobrevive _ Hesc) as (Hback & Hpos0 & _).
  split; [|split; [|split]].
  - clear Hback Hpos0 Hesc. intros e Hval. unfold_service. simpl.
    call_up. rewrite Hold.
    destruct (Number.leb _ Number.zero) eqn:E1; simpl; [reflexivity|].
    repeat (first [call_up | branch_goal]); try reflexivity.
    all: split; intros Heq; inversion Heq; subst; discriminate Hval.
  - apply decimal_del_volumen_efectivo. exact Hesc.
  - intros vehiculo Hvol Hveh. split.
    + intros Hgt.
      rewrite (actualizar_excede id data st old vehiculo); simpl; rewrite ?Hvol; simpl; auto.
      rewrite Hback. exact Hgt.
    + intros Hle cliente trabajador Hcli Htra.
      destruct (actualizar_acepta id data st old vehiculo cliente trabajador)
        as (r & Hr & Hv & _); simpl; rewrite ?Hvol; simpl; auto.
      * rewrite Hback. exact Hle.
      * exists r. split; [exact Hr|]. rewrite Hv. simpl. rewrite Hvol. simpl. exact Hback.
  - intros volumen vehiculo Hvol Hvid Hpos Hveh Hgt.
    rewrite (actualizar_excede id data st old vehiculo); simpl; rewrite ?Hvol, ?Hvid; auto.
Qed.

Lemma actualizar_revalida_los_valores_efectivos_witness :
  fst (actualizarServicioRecogida 1 sin_cambios (estado_con_servicio (DFin 25 0)))
  = Throw (ErrExcedeCapacidad (Prisma.toNumber (DFin 25 0)) (DFin 2 1)).
Proof.
  set (old := {| sr_id := 1; sr_clienteId := 1; sr_vehiculoId := 1;
                 sr_trabajadorId := 1; sr_fecha := fecha_ejemplo;
                 sr_volumen_recogido_m3 := DFin 25 0;
                 sr_costo_servicio := costo (DFin 25 0) (DFin 55 (-1)) |}).
  assert (Hesc : volumen_escrito (sr_volumen_recogido_m3 old)).
  { exists (literal 25 0). split; [vm_compute; reflexivity|].
    split; vm_compute; reflexivity. }
  apply (proj1 (proj1 (proj2 (proj2 (actualizar_revalida_los_valores_efectivos
                                       1 sin_cambios (estado_con_servicio (DFin 25 0)) old
                                       (store_up_nil _ _) eq_refl Hesc)))
                  {| matricula := "ABC123"; capacidad_max_m3 := DFin 2 1;
                     consumo_combustible_litros := DFin 8 0 |}
                  eq_refl eq_refl)).
  vm_compute. reflexivity.
Defined.

(** ** C6 *)

(** C6. On a store that fails no call and whose vehicle has a positive
    capacity: a creation, or an update of an existing record whose stored
    volume the service wrote, whose effective volume (for an update: the
    decimal of the supplied number, else the stored decimal itself) is
    strictly above that capacity throws the capacity error, which carries
    the number that was attempted, whose decimal is that volume, and the
    capacity, and leaves the tables alone; with a volume equal to the
    capacity, and the client and the worker in place, the record is
    persisted with that volume (a new record takes the next identifier of
    the sequence, which is ahead of the stored ones). *)
Theorem volumen_contra_capacidad (st : Estado) :
  store_up st ->
  (forall data vehiculo,
      vehiculos (db st) !! vehiculoId data = Some vehiculo ->
      positive_decimal (capacidad_max_m3 vehiculo) ->
      let volumen := volumen_recogido_m3 data in
      let capacidad := capacidad_max_m3 vehiculo in
      (Prisma.cmp (Prisma.of_number volumen) capacidad = Some Gt ->
       fst (crearServicioRecogida data st) = Throw (ErrExcedeCapacidad volumen capacidad)
       /\ kind (ErrExcedeCapacidad volumen capacidad)
          = CapacityExceededError volumen capacidad
       /\ db (snd (crearServicioRecogida data st)) = db st)
      /\
      (Prisma.cmp (Prisma.of_number volumen) capacidad = Some Eq ->
       forall cliente trabajador,
         clientes (db st) !! clienteId data = Some cliente ->
         trabajadores (db st) !! trabajadorId data = Some trabajador ->
         sequence_ahead (db st) ->
         exists r,
           fst (crearServicioRecogida data st) = Ok r
           /\ sr_volumen_recogido_m3 r = Prisma.of_number volumen
           /\ servicios (db (snd (crearServicioRecogida data st))) !! sr_id r = Some r))
  /\
  (forall id data old vehiculo,
      servicios (db st) !! id = Some old ->
      volumen_escrito (sr_volumen_recogido_m3 old) ->
      vehiculos (db st) !! default (sr_vehiculoId old) (upd_vehiculoId data)
      = Some vehiculo ->
      positive_decimal (capacidad_max_m3 vehiculo) ->
      let volumen := volumen_efectivo old data in
      let intentado :=
        default (Prisma.toNumber (sr_volumen_recogido_m3 old))
                (upd_volumen_recogido_m3 data) in
      let capacidad := capacidad_max_m3 vehiculo in
      Prisma.of_number intentado = volumen
      /\
      (Prisma.cmp volumen capacidad = Some Gt ->
       fst (actualizarServicioRecogida id data st)
       = Throw (ErrExcedeCapacidad intentado capacidad)
       /\ kind (ErrExcedeCapacidad intentado capacidad)
          = CapacityExceededError intentado capacidad
       /\ db (snd (actualizarServicioRecogida id data st)) = db st)
      /\
      (Prisma.cmp volumen capacidad = Some Eq ->
       forall cliente trabajador,
         clientes (db st) !! default (sr_clienteId old) (upd_clienteId data)
         = Some cliente ->
         trabajadores (db st) !! default (sr_trabajadorId old) (upd_trabajadorId data)
         = Some trabajador ->
         exists r,
           fst (actualizarServicioRecogida id data st) = Ok r
           /\ sr_volumen_recogido_m3 r = volumen
           /\ servicios (db (snd (actualizarServicioRecogida id data st))) !! id
              = Some r)).
Proof.
  intros Hup. split.
  - intros data vehiculo Hveh Hcap volumen capacidad. split.
    + intros Hgt.
      assert (Hpos : Number.leb volumen Number.zero = false)
        by (apply (above_positive_capacity volumen capacidad Hcap); auto).
      rewrite (crear_excede data st vehiculo (store_up_next _ Hup) Hpos Hveh
                 (proj2 (greaterThan_cmp _ _) Hgt)).
      repeat split.
    + intros Heq cliente trabajador Hcli Htra Hfree.
      assert (Hpos : Number.leb volumen Number.zero = false)
        by (apply (above_positive_capacity volumen capacidad Hcap); auto).
      apply (crear_acepta data st vehiculo cliente trabajador); auto.
      unfold Prisma.greaterThan. fold volumen capacidad. rewrite Heq. reflexivity.
  - intros id data old vehiculo Hold Hesc Hveh Hcap volumen intentado capacidad.
    assert (Hdec : Prisma.of_number intentado = volumen)
      by (apply (decimal_del_volumen_efectivo old data Hesc)).
    split; [exact Hdec|].
    assert (Hpos : Prisma.cmp volumen capacidad = Some Gt
                   \/ Prisma.cmp volumen capacidad = Some Eq ->
                   Number.leb intentado Number.zero = false).
    { intros Hc. apply (above_positive_capacity intentado capacidad Hcap).
      rewrite Hdec. exact Hc. }
    split.
    + intros Hgt.
      rewrite (actualizar_excede id data st old vehiculo Hup Hold (Hpos (or_introl Hgt)) Hveh).
      * repeat split.
      * assert (G : Prisma.greaterThan (Prisma.of_number intentado) capacidad = true)
          by (apply greaterThan_cmp; rewrite Hdec; exact Hgt).
        exact G.
    + intros Heq cliente trabajador Hcli Htra.
      destruct (actualizar_acepta id data st old vehiculo cliente trabajador Hup Hold
                  (Hpos (or_intror Heq)) Hveh) as (r & Hr & Hv & Hst); auto.
      * assert (G : Prisma.greaterThan (Prisma.of_number intentado) capacidad = false)
          by (unfold Prisma.greaterThan; rewrite Hdec, Heq; reflexivity).
        exact G.
      * exists r. split; [exact Hr|]. split; [|exact Hst].
        rewrite Hv. exact Hdec.
Qed.

Lemma volumen_contra_capacidad_witness :
  fst (crearServicioRecogida (crear_con 1 (literal 25 0)) estado_ejemplo)
  = Throw (ErrExcedeCapacidad (literal 25 0) (DFin 2 1))
  /\ (exists r,
         fst (crearServicioRecogida (crear_con 1 (literal 20 0)) estado_ejemplo) = Ok r
         /\ sr_volumen_recogido_m3 r = Prisma.of_number (literal 20 0))
  /\ fst (actualizarServicioRecogida 1 sin_cambios (estado_con_servicio (DFin 25 0)))
     = Throw (ErrExcedeCapacidad (Prisma.toNumber (DFin 25 0)) (DFin 2 1))
  /\ (exists r,
         fst (actualizarServicioRecogida 1 sin_cambios (estado_con_servicio (DFin 2 1)))
         = Ok r
         /\ sr_volumen_recogido_m3 r = DFin 2 1).
Proof.
  pose (vehiculo := {| matricula := "ABC123"; capacidad_max_m3 := DFin 2 1;
                       consumo_combustible_litros := DFin 8 0 |}).
  pose (cliente := {| cliente_nombre := "Hotel Sol"; cliente_tipo := HOTEL;
                      cliente_direccion := "Calle 1"; tarifa_por_m3 := DFin 55 (-1) |}).
  pose (trabajador := {| trabajador_nombre := "Ana"; rol := "conductor";
                         salario_base := DFin 1 3 |}).
  pose (old := fun v => {| sr_id := 1; sr_clienteId := 1; sr_vehiculoId := 1;
                           sr_trabajadorId := 1; sr_fecha := fecha_ejemplo;
                           sr_volumen_recogido_m3 := v;
                           sr_costo_servicio := costo v (DFin 55 (-1)) |}).
  assert (Hup : store_up estado_ejemplo) by apply store_up_nil.
  assert (Hcap : positive_decimal (capacidad_max_m3 vehiculo)) by reflexivity.
  assert (H25 : volumen_escrito (DFin 25 0)).
  { exists (literal 25 0). split; [vm_compute; reflexivity|].
    split; vm_compute; reflexivity. }
  assert (H20 : volumen_escrito (DFin 2 1)).
  { exists (literal 20 0). split; [vm_compute; reflexivity|].
    split; vm_compute; reflexivity. }
  split; [|split; [|split]].
  - apply (proj1 (proj1 (volumen_contra_capacidad estado_ejemplo Hup)
                    (crear_con 1 (literal 25 0)) vehiculo eq_refl Hcap)).
    vm_compute. reflexivity.
  - destruct (proj2 (proj1 (volumen_contra_capacidad estado_ejemplo Hup)
                       (crear_con 1 (literal 20 0)) vehiculo eq_refl Hcap))
      with (cliente := cliente) (trabajador := trabajador)
      as (r & Hr & Hvol & _).
    + vm_compute. reflexivity.
    + reflexivity.
    + reflexivity.
    + intros k _. apply lookup_empty.
    + exists r. split; [exact Hr|exact Hvol].
  - apply (proj1 (proj2 (proj2 (volumen_contra_capacidad
                                  (estado_con_servicio (DFin 25 0)) (store_up_nil _ _))
                           1 sin_cambios (old (DFin 25 0)) vehiculo
                           eq_refl H25 eq_refl Hcap))).
    vm_compute. reflexivity.
  - destruct (proj2 (proj2 (proj2 (volumen_contra_capacidad
                                     (estado_con_servicio (DFin 2 1)) (store_up_nil _ _))
                              1 sin_cambios (old (DFin 2 1)) vehiculo
                              eq_refl H20 eq_refl Hcap)))
      with (cliente := cliente) (trabajador := trabajador)
      as (r & Hr & Hvol & _).
    + vm_compute. reflexivity.
    + reflexivity.
    + reflexivity.
    + exists r. split; [exact Hr|exact Hvol].
Defined.

(** ** C7 *)

(** C7. When the identifier resolves to no ServicioRecogida,
    actualizarServicioRecogida throws the not-found error of the record
    after the one lookup of that record: the tables are as before, no other
    entity was looked up, nothing was written, and the data of the request
    plays no part. *)
Theorem actualizar_servicio_inexistente (id : Z) (data : UpdateServicioRecogidaData)
    (st : Estado) :
  next_call_up st ->
  servicios (db st) !! id = None ->
  actualizarServicioRecogida id data st
    = (Throw (ErrServicioNoEncontrado id), after_call st (ServicioFindUnique id) (db st))
  /\ kind (ErrServicioNoEncontrado id) = NotFoundError EServicio id
  /\ llamadas (snd (actualizarServicioRecogida id data st))
     = llamadas st ++ [ServicioFindUnique id].
Proof.
  intros Hup Hnone.
  assert (E : actualizarServicioRecogida id data st
    = (Throw (ErrServicioNoEncontrado id), after_call st (ServicioFindUnique id) (db st))).
  { unfold actualizarServicioRecogida, mbind, M_bind, prisma_servicioRecogida.findUnique.
    rewrite prisma_up by assumption. simpl. rewrite Hnone. reflexivity. }
  rewrite E. auto.
Qed.

Lemma actualizar_servicio_inexistente_witness :
  actualizarServicioRecogida 9 sin_cambios estado_ejemplo
  = (Throw (ErrServicioNoEncontrado 9),
     after_call estado_ejemplo (ServicioFindUnique 9) (db estado_ejemplo)).
Proof.
  apply (proj1 (actualizar_servicio_inexistente 9 sin_cambios estado_ejemplo
                  (store_up_next _ (store_up_nil _ _)) eq_refl)).
Defined.

(** ** C8 *)

Lemma eliminar_inexistente (id : Z) (st : Estado) :
  servicios (db st) !! id = None ->
  eliminarServicioRecogida id st
  = (Throw ErrNoSePudoEliminar, after_call st (ServicioDelete id) (db st)).
Proof.
  intros Hnone. unfold_service.
  destruct (prisma_cases (ServicioDelete id)
    (fun d => match servicios d !! id with
              | Some r => (Ok r, prisma_servicioRecogida.with_servicios d
                                   (base.delete id (servicios d)) (secuencia d))
              | None => (Throw (ErrPrisma P2025), d)
              end) st) as [E|E]; rewrite E; simpl; [reflexivity|].
  rewrite Hnone. reflexivity.
Qed.

Lemma eliminar_veces_db (n : nat) (id : Z) (st : Estado) :
  servicios (db st) !! id = None -> db (eliminar_veces n id st) = db st.
Proof.
  intros Hnone. induction n as [|n IH]; simpl; [reflexivity|].
  rewrite eliminar_inexistente by (rewrite IH; exact Hnone). simpl. exact IH.
Qed.

(** C8, as it holds. On an identifier that resolves to no ServicioRecogida,
    eliminarServicioRecogida never succeeds silently: it throws the wrapped
    error of the store ("No se pudo eliminar el servicio de recogida."), a
    persistence error, on the first call and on every repetition of it, and
    leaves the tables alone. On an identifier that resolves to a record it
    removes that record and returns it, when the store does not fail the
    call. *)
Theorem eliminar_servicio (id : Z) (st : Estado) :
  (servicios (db st) !! id = None ->
   forall n,
     eliminarServicioRecogida id (eliminar_veces n id st)
     = (Throw ErrNoSePudoEliminar,
        after_call (eliminar_veces n id st) (ServicioDelete id) (db st))
     /\ kind ErrNoSePudoEliminar = PersistenceError)
  /\
  (forall r,
     servicios (db st) !! id = Some r ->
     next_call_up st ->
     exists st',
       eliminarServicioRecogida id st = (Ok r, st')
       /\ servicios (db st') = base.delete id (servicios (db st))
       /\ servicios (db st') !! id = None
       /\ calls_since st st' [ServicioDelete id]).
Proof.
  split.
  - intros Hnone n. split; [|reflexivity].
    rewrite eliminar_inexistente by (rewrite eliminar_veces_db; assumption).
    rewrite eliminar_veces_db by assumption. reflexivity.
  - intros r Hsome Hup. unfold_service. rewrite prisma_up by assumption.
    simpl. rewrite Hsome. simpl. eexists. split; [reflexivity|]. simpl.
    repeat split. apply lookup_delete_eq.
Qed.

(** C8, as claimed, fails: the error thrown for an absent identifier is not
    a not-found error. *)
Lemma eliminar_inexistente_no_es_NotFoundError :
  ~ (forall (id : Z) (st : Estado),
        servicios (db st) !! id = None ->
        exists e st',
          eliminarServicioRecogida id st = (Throw e, st')
          /\ kind e = NotFoundError EServicio id).
Proof.
  intros H. destruct (H 7 estado_vacio) as (e & st' & Hrun & Hkind).
  - reflexivity.
  - rewrite eliminar_inexistente in Hrun by reflexivity.
    inversion Hrun; subst. discriminate Hkind.
Qed.

Lemma eliminar_servicio_witness :
  servicios (db estado_vacio) !! 7 = None
  /\ eliminarServicioRecogida 7 (eliminar_veces 2 7 estado_vacio)
     = (Throw ErrNoSePudoEliminar,
        after_call (eliminar_veces 2 7 estado_vacio) (ServicioDelete 7) (db estado_vacio)).
Proof.
  split; [reflexivity|].
  apply (proj1 (eliminar_servicio 7 estado_vacio)). reflexivity.
Defined.

(** ** C9 *)

Lemma BigInt_toString_inj (a b : Z) : BigInt_toString a = BigInt_toString b -> a = b.
Proof.
  unfold BigInt_toString. intros H.
  assert (E : Some (Z.to_int a) = Some (Z.to_int b))
    by (rewrite <- !NilEmpty.isi; rewrite H; reflexivity).
  inversion E as [E']. rewrite <- (DecimalZ.of_to a), <- (DecimalZ.of_to b), E'.
  reflexivity.
Qed.

Lemma serialize_array (f : string -> JsValue -> JsResult (option Json))
    (items : list JsValue) (index : Z) :
  List.Forall (fun x => forall key, f key x = Value (Some (json_of x))) items ->
  JSON.SerializeJSONArray f index items = Value (map json_of items).
Proof.
  intros H. revert index. induction H as [|x r Hx _ IH]; intros index; simpl.
  - reflexivity.
  - rewrite Hx, IH. reflexivity.
Qed.

Lemma serialize_object (f : string -> JsValue -> JsResult (option Json))
    (props : list (string * JsValue)) :
  List.Forall (fun p => forall key, f key (snd p) = Value (Some (json_of (snd p)))) props ->
  JSON.SerializeJSONObject f props
  = Value (map (fun p => (fst p, json_of (snd p))) props).
Proof.
  intros H. induction H as [|[k x] r Hx _ IH]; simpl.
  - reflexivity.
  - simpl in Hx. rewrite Hx, IH. reflexivity.
Qed.

Lemma fold_max_le {A : Type} (g : A -> nat) (l : list A) (x : A) :
  In x l -> (g x <= fold_right (fun y d => Nat.max (g y) d) O l)%nat.
Proof.
  induction l as [|y r IH]; simpl; [tauto|].
  intros [->|H]; [lia|]. specialize (IH H). lia.
Qed.

(** With fuel above its depth, a serializable value is written as
    [json_of]: no bigint reaches the serializer. *)
Lemma serialize_property (v : JsValue) :
  json_serializable v = true ->
  forall fuel key,
    (JSON.depth v < fuel)%nat ->
    JSON.SerializeJSONProperty fuel replacer key v = Value (Some (json_of v)).
Proof.
  induction v as [| |b|n|z|s|items IH|props IH|json] using JsValue_nested_ind;
    intros Hser fuel key Hfuel;
    (destruct fuel as [|fuel]; [inversion Hfuel|]); simpl in *; try reflexivity;
    try discriminate Hser.
  - destruct n as [[]| | |]; try discriminate Hser; reflexivity.
  - rewrite (serialize_array _ items 0); [reflexivity|].
    rewrite List.Forall_forall in IH. apply List.Forall_forall. intros x Hx key'.
    apply IH; [exact Hx| |].
    + rewrite forallb_forall in Hser. apply Hser. exact Hx.
    + pose proof (fold_max_le JSON.depth items x Hx). lia.
  - apply andb_true_iff in Hser. destruct Hser as [_ Hser].
    rewrite (serialize_object _ props); [reflexivity|].
    rewrite List.Forall_forall in IH. apply List.Forall_forall. intros p Hp key'.
    apply IH; [exact Hp| |].
    + rewrite forallb_forall in Hser. apply Hser. exact Hp.
    + pose proof (fold_max_le (fun p => JSON.depth (snd p)) props p Hp). simpl in *. lia.
Qed.

Lemma distinct_NoDup (keys : list string) : distinct keys = true -> List.NoDup keys.
Proof.
  induction keys as [|k r IH]; simpl; intros H; [constructor|].
  apply andb_true_iff in H. destruct H as [Hk Hr]. constructor; [|auto].
  intros Hin. apply negb_true_iff in Hk.
  assert (E : existsb (String.eqb k) r = true).
  { apply existsb_exists. exists k. split; [exact Hin|apply String.eqb_refl]. }
  congruence.
Qed.

Lemma put_fresh (k : string) (v : JsValue) (props : list (string * JsValue)) :
  ~ In k (map fst props) -> JSON.put k v props = props ++ [(k, v)].
Proof.
  induction props as [|[k' v'] r IH]; simpl; intros H; [reflexivity|].
  destruct (String.eqb_spec k k') as [->|Hne]; [tauto|].
  rewrite IH by tauto. reflexivity.
Qed.

Lemma fold_put (g : Json -> JsValue) (members : list (string * Json))
    (acc : list (string * JsValue)) :
  List.NoDup (map fst acc ++ map fst members) ->
  fold_left (fun props m => JSON.put (fst m) (g (snd m)) props) members acc
  = acc ++ map (fun m => (fst m, g (snd m))) members.
Proof.
  revert acc. induction members as [|[k j] r IH]; intros acc H; simpl.
  - rewrite List.app_nil_r. reflexivity.
  - simpl in H. pose proof (List.NoDup_remove_2 _ _ _ H) as Hk.
    rewrite put_fresh by (intros Hin; apply Hk; apply in_or_app; left; exact Hin).
    rewrite IH.
    + rewrite <- List.app_assoc. reflexivity.
    + rewrite List.map_app, <- List.app_assoc. exact H.
Qed.

(** Reading the text back gives the value with its bigints as strings. *)
Lemma revive_json_of (v : JsValue) :
  json_serializable v = true -> JSON.revive (json_of v) = bigints_as_strings v.
Proof.
  induction v as [| |b|n|z|s|items IH|props IH|json] using JsValue_nested_ind;
    intros Hser; simpl in *; try reflexivity; try discriminate Hser.
  - f_equal. rewrite List.map_map. apply List.map_ext_in. intros x Hx.
    rewrite List.Forall_forall in IH. apply IH; [exact Hx|].
    rewrite forallb_forall in Hser. apply Hser. exact Hx.
  - apply andb_true_iff in Hser. destruct Hser as [Hkeys Hser]. f_equal.
    rewrite fold_put.
    + simpl. rewrite List.map_map. apply List.map_ext_in. intros p Hp. simpl.
      f_equal. rewrite List.Forall_forall in IH. apply IH; [exact Hp|].
      rewrite forallb_forall in Hser. apply Hser. exact Hp.
    + simpl. rewrite List.map_map. simpl. apply distinct_NoDup. exact Hkeys.
Qed.

(** C9. For every value of the JSON data model in which bigints may occur
    at any depth, serializeBigInt returns the same value with each bigint
    replaced by its base-10 string and everything else as it was; and the
    string determines the bigint, however large. *)
Theorem serializeBigInt_bigints_as_strings (obj : JsValue) :
  json_serializable obj = true ->
  serializeBigInt obj = Value (bigints_as_strings obj)
  /\ forall a b : Z, BigInt_toString a = BigInt_toString b -> a = b.
Proof.
  intros Hser. split; [|exact BigInt_toString_inj].
  unfold serializeBigInt, JSON.stringify.
  rewrite (serialize_property obj Hser) by lia. simpl.
  rewrite (revive_json_of obj Hser). reflexivity.
Qed.

Lemma serializeBigInt_bigints_as_strings_witness :
  serializeBigInt registro_ejemplo
  = Value (VObject [("id"%string, VString "9007199254740993");
                    ("clienteId"%string, VString "1");
                    ("etiquetas"%string, VArray [VString "a"; VString "-5"; VNull]);
                    ("activo"%string, VBool true)]).
Proof.
  apply (proj1 (serializeBigInt_bigints_as_strings registro_ejemplo eq_refl)).
Defined.

(** Outside the JSON data model: the date and the decimals of a record are
    objects with a [toJSON] method, and come out as the strings it returns. *)
Example serializeBigInt_de_un_servicio :
  serializeBigInt servicio_devuelto
  = Value (VObject [("id"%string, VString "1");
                    ("fecha"%string, VString "2024-05-01T00:00:00.000Z");
                    ("volumen_recogido_m3"%string, VString "15");
                    ("costo_servicio"%string, VString "82.5")]).
Proof. reflexivity. Qed.

(** ** C10 *)

Lemma optional_BigInt_falsy (v : BodyValue) (o : option Z) :
  optional_BigInt v = inr o -> Js.truthy v = false -> o = None.
Proof.
  unfold optional_BigInt. intros H Hf. rewrite Hf in H. congruence.
Qed.

Lemma put_arguments_inr (body : PutBody) (id : Z) (data : UpdateServicioRecogidaData) :
  put_arguments body = inr (id, data) ->
  Js.BigInt (body_id body) = Some id
  /\ optional_BigInt (body_clienteId body) = inr (upd_clienteId data)
  /\ optional_BigInt (body_vehiculoId body) = inr (upd_vehiculoId data)
  /\ optional_BigInt (body_trabajadorId body) = inr (upd_trabajadorId data)
  /\ upd_fecha data
     = (if Js.truthy (body_fecha body) then Some (NewDate (body_fecha body)) else None)
  /\ upd_volumen_recogido_m3 data
     = match body_volumen_recogido_m3 body with
       | BUndefined => None
       | v => Some (Js.parseFloat v)
       end.
Proof.
  unfold put_arguments. intros H.
  destruct (Js.BigInt (body_id body)); [|discriminate H].
  destruct (optional_BigInt (body_clienteId body)); [discriminate H|].
  destruct (optional_BigInt (body_vehiculoId body)); [discriminate H|].
  destruct (optional_BigInt (body_trabajadorId body)); [discriminate H|].
  inversion H; subst. simpl. repeat apply conj; reflexivity.
Qed.

(** C10. In the PUT branch, clienteId, vehiculoId, trabajadorId and fecha
    are passed to the workflow as [undefined] whenever they are falsy, and
    volumen_recogido_m3 is passed, through [parseFloat], whenever it is not
    [undefined]. So a body whose volume reads as a number [<= 0], such as 0,
    reaches the workflow and, for an existing record, is answered with the
    error of the positive-volume check; and whenever the branch answers
    200, each falsy reference (and a falsy date) has left the stored value
    in place. *)
Theorem put_campos_no_suministrados (body : PutBody) :
  (forall id data,
      put_arguments body = inr (id, data) ->
      (Js.truthy (body_clienteId body) = false -> upd_clienteId data = None)
      /\ (Js.truthy (body_vehiculoId body) = false -> upd_vehiculoId data = None)
      /\ (Js.truthy (body_trabajadorId body) = false -> upd_trabajadorId data = None)
      /\ (Js.truthy (body_fecha body) = false -> upd_fecha data = None)
      /\ (body_volumen_recogido_m3 body <> BUndefined ->
          upd_volumen_recogido_m3 data
          = Some (Js.parseFloat (body_volumen_recogido_m3 body)))
      /\ (body_volumen_recogido_m3 body = BUndefined ->
          upd_volumen_recogido_m3 data = None))
  /\
  (forall st id data old,
      Js.truthy (body_id body) = true ->
      put_arguments body = inr (id, data) ->
      next_call_up st ->
      servicios (db st) !! id = Some old ->
      body_volumen_recogido_m3 body <> BUndefined ->
      Number.leb (Js.parseFloat (body_volumen_recogido_m3 body)) Number.zero = true ->
      handler_PUT body st
      = (Status500 (ServiceError ErrVolumenNoPositivo),
         after_call st (ServicioFindUnique id) (db st)))
  /\
  (forall st r st',
      handler_PUT body st = (Status200 r, st') ->
      exists id old,
        servicios (db st) !! id = Some old
        /\ (Js.truthy (body_clienteId body) = false -> sr_clienteId r = sr_clienteId old)
        /\ (Js.truthy (body_vehiculoId body) = false -> sr_vehiculoId r = sr_vehiculoId old)
        /\ (Js.truthy (body_trabajadorId body) = false ->
            sr_trabajadorId r = sr_trabajadorId old)
        /\ (Js.truthy (body_fecha body) = false -> sr_fecha r = sr_fecha old)).
Proof.
  assert (Hfields : forall id data,
      put_arguments body = inr (id, data) ->
      (Js.truthy (body_clienteId body) = false -> upd_clienteId data = None)
      /\ (Js.truthy (body_vehiculoId body) = false -> upd_vehiculoId data = None)
      /\ (Js.truthy (body_trabajadorId body) = false -> upd_trabajadorId data = None)
      /\ (Js.truthy (body_fecha body) = false -> upd_fecha data = None)
      /\ (body_volumen_recogido_m3 body <> BUndefined ->
          upd_volumen_recogido_m3 data
          = Some (Js.parseFloat (body_volumen_recogido_m3 body)))
      /\ (body_volumen_recogido_m3 body = BUndefined ->
          upd_volumen_recogido_m3 data = None)).
  { intros id data H.
    destruct (put_arguments_inr body id data H) as (_ & Hc & Hv & Ht & Hf & Hvol).
    repeat apply conj.
    - apply optional_BigInt_falsy. exact Hc.
    - apply optional_BigInt_falsy. exact Hv.
    - apply optional_BigInt_falsy. exact Ht.
    - intros E. rewrite Hf, E. reflexivity.
    - intros Hne. rewrite Hvol.
      destruct (body_volumen_recogido_m3 body); try reflexivity. congruence.
    - intros E. rewrite Hvol, E. reflexivity. }
  split; [exact Hfields|]. split.
  - intros st id data old Hid Hargs Hup Hold Hne Hneg.
    destruct (Hfields id data Hargs) as (_ & _ & _ & _ & Hvol & _).
    specialize (Hvol Hne).
    unfold handler_PUT. rewrite Hid, Hargs. simpl.
    unfold_service. rewrite prisma_up by assumption. simpl.
    rewrite Hold, Hvol. simpl. rewrite Hneg. reflexivity.
  - intros st r st' H. unfold handler_PUT in H.
    destruct (negb (Js.truthy (body_id body))); [discriminate H|].
    destruct (put_arguments body) as [e|[id data]] eqn:Hargs; [discriminate H|].
    destruct (actualizarServicioRecogida id data st) as [[r0|e] st0] eqn:Hrun;
      inversion H; subst.
    destruct (actualizar_ok _ _ _ _ _ Hrun)
      as (old & v & c & t & Hold & _ & _ & _ & _ & _ & Hr & _ & _).
    destruct (Hfields id data eq_refl) as (Hc & Hv & Ht & Hf & _ & _).
    exists id, old. split; [exact Hold|]. rewrite Hr. simpl.
    repeat apply conj; intros E.
    + rewrite (Hc E). reflexivity.
    + rewrite (Hv E). reflexivity.
    + rewrite (Ht E). reflexivity.
    + rewrite (Hf E). reflexivity.
Qed.

Lemma put_campos_no_suministrados_witness :
  handler_PUT body_volumen_cero (estado_con_servicio (DFin 15 0))
  = (Status500 (ServiceError ErrVolumenNoPositivo),
     after_call (estado_con_servicio (DFin 15 0)) (ServicioFindUnique 1)
       (db (estado_con_servicio (DFin 15 0)))).
Proof.
  apply (proj1 (proj2 (put_campos_no_suministrados body_volumen_cero))
           (estado_con_servicio (DFin 15 0)) 1
           {| upd_clienteId := None; upd_vehiculoId := None; upd_trabajadorId := None;
              upd_fecha := None; upd_volumen_recogido_m3 := Some Number.zero |}
           {| sr_id := 1; sr_clienteId := 1; sr_vehiculoId := 1; sr_trabajadorId := 1;
              sr_fecha := fecha_ejemplo; sr_volumen_recogido_m3 := DFin 15 0;
              sr_costo_servicio := costo (DFin 15 0) (DFin 55 (-1)) |}).
  - reflexivity.
  - vm_compute. reflexivity.
  - unfold next_call_up. simpl. discriminate.
  - reflexivity.
  - discriminate.
  - reflexivity.
Defined.

Example put_cliente_cero_conserva_el_cliente :
  fst (handler_PUT body_cliente_cero (estado_con_servicio (DFin 15 0)))
  = Status200 {| sr_id := 1; sr_clienteId := 1; sr_vehiculoId := 1;
                 sr_trabajadorId := 1; sr_fecha := fecha_ejemplo;
                 sr_volumen_recogido_m3 := DFin 15 0;
                 sr_costo_servicio := DFin 825 (-1) |}.
Proof. vm_compute. reflexivity. Qed.

(** * Further properties

    Properties of the code around the claims: the identifiers and what
    serializeBigInt returns, invariants of the workflow, the reads and the
    handler, and the services of the catalogues. *)

(** ** The example states *)

Lemma estado_ejemplo_sin_servicios (P : Z -> ServicioRecogida -> Prop) :
  forall id r, servicios (db estado_ejemplo) !! id = Some r -> P id r.
Proof. intros id r H. simpl in H. rewrite lookup_empty in H. discriminate H. Qed.

Lemma estado_con_servicio_15 (P : Z -> ServicioRecogida -> Prop) :
  P 1 servicio_15 ->
  forall id r, servicios (db (estado_con_servicio (DFin 15 0))) !! id = Some r -> P id r.
Proof.
  intros H id r L. simpl in L. apply lookup_singleton_Some in L.
  destruct L as [<- <-]. exact H.
Qed.

Lemma sistema_vacio_sin_registros :
  vehiculos_positivos (tablas sistema_vacio)
  /\ tarifas_positivas (tablas sistema_vacio)
  /\ salarios_positivos (tablas sistema_vacio).
Proof.
  repeat apply conj; intros id x H; simpl in H; rewrite lookup_empty in H;
    discriminate H.
Qed.

(** ** Identifiers as strings *)

Lemma uint_value_acc (d : Decimal.uint) (acc : positive) :
  uint_value (Z.pos acc) d = Z.pos (Pos.of_uint_acc d acc).
Proof.
  revert acc. induction d; intros acc; cbn [uint_value Pos.of_uint_acc];
    try reflexivity; rewrite <- IHd; f_equal; lia.
Qed.

Lemma uint_value_of_uint (d : Decimal.uint) : uint_value 0 d = Z.of_uint d.
Proof.
  unfold Z.of_uint. induction d; cbn [uint_value Pos.of_uint Z.of_N];
    try reflexivity; try exact IHd;
    match goal with
    | |- uint_value ?a _ = Z.pos (Pos.of_uint_acc _ ?p) =>
        change a with (Z.pos p); apply uint_value_acc
    end.
Qed.

Lemma digits_uint (d : Decimal.uint) (acc count : Z) :
  Js.digits 10 Js.hex_digit acc count (uint_chars d)
  = (uint_value acc d, count + Z.of_nat (Decimal.nb_digits d), []).
Proof.
  unfold uint_chars. revert acc count.
  induction d; intros acc count; cbn [NilEmpty.string_of_uint list_ascii_of_string
                                       Js.digits uint_value Decimal.nb_digits];
    [f_equal; f_equal; lia|..];
    match goal with
    | |- context [Js.hex_digit ?c] =>
        let v := eval vm_compute in (Js.hex_digit c) in
        change (Js.hex_digit c) with v
    end; cbv iota;
    match goal with
    | |- context [?a <? 10] => change (a <? 10) with true
    end; cbv iota; rewrite IHd; f_equal; f_equal; lia.
Qed.

Lemma uint_chars_no_space (d : Decimal.uint) :
  List.Forall (fun c => Js.is_space c = false) (uint_chars d).
Proof. unfold uint_chars. induction d; simpl; constructor; auto. Qed.

Lemma skip_spaces_none (cs : list ascii) :
  List.Forall (fun c => Js.is_space c = false) cs -> Js.skip_spaces cs = cs.
Proof. intros H. destruct H as [|c r Hc _]; simpl; [reflexivity|]. rewrite Hc. reflexivity. Qed.

Lemma trim_none (cs : list ascii) :
  List.Forall (fun c => Js.is_space c = false) cs -> Js.trim cs = cs.
Proof.
  intros H. unfold Js.trim. rewrite (skip_spaces_none cs H).
  rewrite skip_spaces_none by (apply List.Forall_rev; exact H).
  apply List.rev_involutive.
Qed.

Lemma all_digits_uint (d : Decimal.uint) :
  d <> Decimal.Nil -> Js.all_digits 10 (uint_chars d) = Some (Z.of_uint d).
Proof.
  intros H. unfold Js.all_digits. rewrite digits_uint, uint_value_of_uint.
  destruct d; try congruence; simpl Decimal.nb_digits;
    destruct (Z.ltb_spec 0 (0 + Z.of_nat (S (Decimal.nb_digits d)))); try reflexivity; lia.
Qed.

Lemma to_uint_not_Nil (p : positive) : Pos.to_uint p <> Decimal.Nil.
Proof.
  intros E. pose proof (DecimalPos.Unsigned.of_to p) as H. rewrite E in H. discriminate H.
Qed.

Lemma StringToBigInt_uint (d : Decimal.uint) :
  d <> Decimal.Nil ->
  Js.StringToBigInt (NilEmpty.string_of_uint d) = Some (Z.of_uint d).
Proof.
  intros H. unfold Js.StringToBigInt.
  fold (uint_chars d). rewrite (trim_none _ (uint_chars_no_space d)).
  rewrite <- (all_digits_uint d H).
  destruct d as [|d|d|d|d|d|d|d|d|d|d]; try congruence; try reflexivity.
  destruct d; reflexivity.
Qed.

Lemma StringToBigInt_toString (z : Z) :
  Js.StringToBigInt (BigInt_toString z) = Some z.
Proof.
  unfold BigInt_toString. rewrite <- (DecimalZ.of_to z) at 2.
  destruct z as [|p|p]; cbn [Z.to_int NilEmpty.string_of_int Z.of_int].
  - reflexivity.
  - apply StringToBigInt_uint, to_uint_not_Nil.
  - unfold Js.StringToBigInt.
    change (list_ascii_of_string (String "-" (NilEmpty.string_of_uint (Pos.to_uint p))))
      with ("-"%char :: uint_chars (Pos.to_uint p)).
    rewrite trim_none
      by (constructor; [reflexivity|apply uint_chars_no_space]).
    rewrite (all_digits_uint _ (to_uint_not_Nil p)). reflexivity.
Qed.

(** X1. The identifier a response carries, the base-10 string serializeBigInt
    writes for a bigint, is read back by [BigInt(id as string)] of the
    handler as the same bigint, whatever its size and sign. *)
Theorem id_string_round_trip (z : Z) :
  replacer "id" (VBigInt z) = VString (BigInt_toString z)
  /\ Js.BigInt (BString (BigInt_toString z)) = Some z
  /\ Js.truthy (BString (BigInt_toString z)) = true.
Proof.
  split; [reflexivity|]. split; [apply StringToBigInt_toString|].
  unfold BigInt_toString. destruct z as [|p|p]; try reflexivity; simpl.
  - pose proof (to_uint_not_Nil p) as H. destruct (Pos.to_uint p); try reflexivity. congruence.
Qed.

(** ** What serializeBigInt returns *)

(** What SerializeJSONProperty gives for a value, with fuel above its
    depth: nothing for [undefined], and a text otherwise. *)
Definition serialized (v : JsValue) (r : JsResult (option Json)) : Prop :=
  match r with
  | Value None => v = VUndefined
  | Value (Some j) => v <> VUndefined /\ written j = true
  | _ => False
  end.

Lemma serialize_array_written (f : string -> JsValue -> JsResult (option Json))
    (items : list JsValue) (index : Z) :
  List.Forall (fun x => forall key, serialized x (f key x)) items ->
  exists js, JSON.SerializeJSONArray f index items = Value js
             /\ forallb written js = true.
Proof.
  intros H. revert index. induction H as [|x r Hx _ IH]; intros index; simpl.
  - exists []. split; reflexivity.
  - specialize (Hx (BigInt_toString index)). destruct (IH (index + 1)) as (js & -> & Hjs).
    destruct (f (BigInt_toString index) x) as [[j|]| | |]; simpl in Hx; try contradiction.
    + exists (j :: js). split; [reflexivity|]. simpl. rewrite Hjs.
      destruct Hx as [_ ->]. reflexivity.
    + exists (JNull :: js). split; [reflexivity|]. exact Hjs.
Qed.

Lemma serialize_object_written (f : string -> JsValue -> JsResult (option Json))
    (props : list (string * JsValue)) :
  List.Forall (fun p => forall key, serialized (snd p) (f key (snd p))) props ->
  exists js, JSON.SerializeJSONObject f props = Value js
             /\ forallb (fun m => written (snd m)) js = true.
Proof.
  intros H. induction H as [|[k x] r Hx _ IH]; simpl.
  - exists []. split; reflexivity.
  - specialize (Hx k). simpl in Hx. destruct IH as (js & -> & Hjs).
    destruct (f k x) as [[j|]| | |]; simpl in Hx; try contradiction.
    + exists ((k, j) :: js). split; [reflexivity|]. simpl. rewrite Hjs.
      destruct Hx as [_ ->]. reflexivity.
    + exists js. split; [reflexivity|]. exact Hjs.
Qed.

Lemma serialize_property_written (v : JsValue) :
  forall fuel key,
    (JSON.depth v < fuel)%nat ->
    serialized v (JSON.SerializeJSONProperty fuel replacer key v).
Proof.
  induction v as [| |b|n|z|s|items IH|props IH|json] using JsValue_nested_ind;
    intros fuel key Hfuel;
    (destruct fuel as [|fuel]; [inversion Hfuel|]); simpl in *;
    try reflexivity; try (split; [discriminate|reflexivity]).
  - destruct n as [[]|[]| |[] m e]; split; try discriminate; reflexivity.
  - destruct (serialize_array_written
                (JSON.SerializeJSONProperty fuel replacer) items 0) as (js & -> & Hjs).
    + rewrite List.Forall_forall in IH. apply List.Forall_forall. intros x Hx key'.
      apply IH; [exact Hx|].
      pose proof (fold_max_le JSON.depth items x Hx). lia.
    + split; [discriminate|exact Hjs].
  - destruct (serialize_object_written
                (JSON.SerializeJSONProperty fuel replacer) props) as (js & -> & Hjs).
    + rewrite List.Forall_forall in IH. apply List.Forall_forall. intros p Hp key'.
      apply IH; [exact Hp|].
      pose proof (fold_max_le (fun p => JSON.depth (snd p)) props p Hp). simpl in *. lia.
    + split; [discriminate|exact Hjs].
  - destruct json; split; try discriminate; reflexivity.
Qed.

Lemma put_keys (k : string) (v : JsValue) (props : list (string * JsValue)) :
  map fst (JSON.put k v props)
  = if existsb (String.eqb k) (map fst props)
    then map fst props else map fst props ++ [k].
Proof.
  induction props as [|[k' v'] r IH]; simpl; [reflexivity|].
  destruct (String.eqb_spec k k') as [->|Hne]; simpl; [reflexivity|].
  rewrite IH. destruct (existsb _ _); reflexivity.
Qed.

Lemma existsb_eqb_app (k : string) (l1 l2 : list string) :
  existsb (String.eqb k) (l1 ++ l2)
  = existsb (String.eqb k) l1 || existsb (String.eqb k) l2.
Proof. apply existsb_app. Qed.

Lemma distinct_snoc (keys : list string) (k : string) :
  distinct keys = true -> existsb (String.eqb k) keys = false ->
  distinct (keys ++ [k]) = true.
Proof.
  induction keys as [|k' r IH]; simpl; intros Hd Hk; [reflexivity|].
  apply andb_true_iff in Hd. destruct Hd as [Hk' Hr].
  apply orb_false_iff in Hk. destruct Hk as [Hkk' Hkr].
  rewrite existsb_app, (IH Hr Hkr). simpl.
  rewrite String.eqb_sym, Hkk'. apply negb_true_iff in Hk'. rewrite Hk'. reflexivity.
Qed.

Lemma put_distinct (k : string) (v : JsValue) (props : list (string * JsValue)) :
  distinct (map fst props) = true -> distinct (map fst (JSON.put k v props)) = true.
Proof.
  intros H. rewrite put_keys. destruct (existsb _ _) eqn:E; [exact H|].
  apply distinct_snoc; assumption.
Qed.

Lemma put_plain (k : string) (v : JsValue) (props : list (string * JsValue)) :
  plain_json v = true ->
  forallb (fun p => plain_json (snd p)) props = true ->
  forallb (fun p => plain_json (snd p)) (JSON.put k v props) = true.
Proof.
  intros Hv. induction props as [|[k' v'] r IH]; simpl; intros H.
  - rewrite Hv. reflexivity.
  - apply andb_true_iff in H. destruct H as [Hv' Hr].
    destruct (String.eqb k k'); simpl.
    + rewrite Hv, Hr. reflexivity.
    + rewrite Hv', (IH Hr). reflexivity.
Qed.

Lemma fold_put_plain (members : list (string * Json)) (acc : list (string * JsValue)) :
  List.Forall (fun m => plain_json (JSON.revive (snd m)) = true) members ->
  distinct (map fst acc) = true ->
  forallb (fun p => plain_json (snd p)) acc = true ->
  let props := fold_left (fun props m => JSON.put (fst m) (JSON.revive (snd m)) props)
                         members acc in
  distinct (map fst props) = true
  /\ forallb (fun p => plain_json (snd p)) props = true.
Proof.
  intros H. revert acc. induction H as [|m r Hm _ IH]; intros acc Hd Hp; simpl.
  - split; assumption.
  - apply IH; [apply put_distinct; exact Hd|apply put_plain; assumption].
Qed.

(** Reading back a text that [JSON.stringify] wrote gives a plain value. *)
Lemma revive_plain (j : Json) : written j = true -> plain_json (JSON.revive j) = true.
Proof.
  induction j as [|b|n|s|items IH|members IH] using Json_nested_ind;
    intros H; simpl in *; try reflexivity.
  - exact H.
  - rewrite forallb_forall. intros v Hv. apply in_map_iff in Hv.
    destruct Hv as (x & <- & Hx). rewrite List.Forall_forall in IH.
    apply IH; [exact Hx|]. rewrite forallb_forall in H. apply H. exact Hx.
  - apply andb_true_iff. apply fold_put_plain; try reflexivity.
    rewrite List.Forall_forall in IH. apply List.Forall_forall. intros m Hm.
    apply IH; [exact Hm|]. rewrite forallb_forall in H. apply H. exact Hm.
Qed.

Lemma plain_serializable (v : JsValue) :
  plain_json v = true -> json_serializable v = true /\ bigints_as_strings v = v.
Proof.
  induction v as [| |b|n|z|s|items IH|props IH|json] using JsValue_nested_ind;
    intros H; simpl in *; try discriminate H; try (split; reflexivity).
  - split; [exact H|reflexivity].
  - rewrite List.Forall_forall in IH. rewrite forallb_forall in H. split.
    + rewrite forallb_forall. intros x Hx. apply IH; auto.
    + f_equal. rewrite <- (List.map_id items) at 2. apply List.map_ext_in.
      intros x Hx. apply IH; auto.
  - apply andb_true_iff in H. destruct H as [Hk H].
    rewrite List.Forall_forall in IH. rewrite forallb_forall in H. split.
    + rewrite Hk. simpl. rewrite forallb_forall. intros p Hp. apply IH; auto.
    + f_equal. rewrite <- (List.map_id props) at 2. apply List.map_ext_in.
      intros [k x] Hp. simpl. f_equal. apply (IH (k, x)); auto.
Qed.

Lemma serializeBigInt_cases (obj : JsValue) :
  (obj = VUndefined /\ serializeBigInt obj = SyntaxError)
  \/ (obj <> VUndefined
      /\ exists v, serializeBigInt obj = Value v /\ plain_json v = true).
Proof.
  unfold serializeBigInt, JSON.stringify.
  pose proof (serialize_property_written obj (S (JSON.depth obj)) EmptyString
                (Nat.lt_succ_diag_r _)) as H.
  destruct (JSON.SerializeJSONProperty _ _ _ obj) as [[j|]| | |];
    simpl in H; try contradiction.
  - right. destruct H as [Hne Hw]. split; [exact Hne|].
    exists (JSON.revive j). split; [reflexivity|apply revive_plain; exact Hw].
  - left. split; [exact H|reflexivity].
Qed.

Lemma serializeBigInt_of_plain (v : JsValue) :
  plain_json v = true -> serializeBigInt v = Value v.
Proof.
  intros H. destruct (plain_serializable v H) as [Hser Hsame].
  unfold serializeBigInt, JSON.stringify.
  rewrite (serialize_property v Hser) by lia. simpl.
  rewrite (revive_json_of v Hser), Hsame. reflexivity.
Qed.

(** X2. serializeBigInt returns a value for everything but [undefined]: no
    bigint, at whatever depth and next to whatever else, makes
    [JSON.stringify] throw. For [undefined] itself [JSON.parse] throws a
    SyntaxError. *)
Theorem serializeBigInt_returns (obj : JsValue) :
  match obj with
  | VUndefined => serializeBigInt obj = SyntaxError
  | _ => exists v, serializeBigInt obj = Value v
  end.
Proof.
  destruct (serializeBigInt_cases obj) as [[-> E]|[Hne (v & E & _)]].
  - exact E.
  - destruct obj; try (exists v; exact E). congruence.
Qed.

(** X3. What serializeBigInt returns is plain JSON data: it holds no bigint, no
    [undefined], no object with a [toJSON] method and no number that JSON
    cannot write, so that [res.json] can send it. *)
Theorem serializeBigInt_plain (obj v : JsValue) :
  serializeBigInt obj = Value v -> plain_json v = true.
Proof.
  intros H. destruct (serializeBigInt_cases obj) as [[_ E]|[_ (v' & E & Hp)]];
    rewrite E in H; inversion H; subst. exact Hp.
Qed.

Lemma serializeBigInt_plain_witness :
  plain_json (VObject [("id"%string, VString "1");
                       ("fecha"%string, VString "2024-05-01T00:00:00.000Z");
                       ("volumen_recogido_m3"%string, VString "15");
                       ("costo_servicio"%string, VString "82.5")]) = true.
Proof. apply (serializeBigInt_plain servicio_devuelto). reflexivity. Defined.

(** X4. serializeBigInt is idempotent: applied to what it returned, it returns
    the same value. *)
Theorem serializeBigInt_idempotent (obj v : JsValue) :
  serializeBigInt obj = Value v -> serializeBigInt v = Value v.
Proof.
  intros H. apply serializeBigInt_of_plain.
  destruct (serializeBigInt_cases obj) as [[_ E]|[_ (v' & E & Hp)]];
    rewrite E in H; inversion H; subst. exact Hp.
Qed.

Lemma serializeBigInt_idempotent_witness :
  serializeBigInt (VObject [("id"%string, VString "9007199254740993");
                            ("clienteId"%string, VString "1");
                            ("etiquetas"%string, VArray [VString "a"; VString "-5"; VNull]);
                            ("activo"%string, VBool true)])
  = Value (VObject [("id"%string, VString "9007199254740993");
                    ("clienteId"%string, VString "1");
                    ("etiquetas"%string, VArray [VString "a"; VString "-5"; VNull]);
                    ("activo"%string, VBool true)]).
Proof. apply (serializeBigInt_idempotent registro_ejemplo). reflexivity. Defined.

(** ** The cost as a decimal *)

Lemma strip_exponent (fuel : nat) (c e : Z) : e <= snd (Prisma.strip fuel c e).
Proof.
  revert c e. induction fuel as [|fuel IH]; intros c e; simpl; [lia|].
  destruct (c mod 10 =? 0); simpl; [|lia].
  specialize (IH (c / 10) (e + 1)). lia.
Qed.

Lemma normalize_exponent (dp c e : Z) :
  - dp <= e -> 0 <= dp -> decimal_places_le dp (Prisma.normalize c e).
Proof.
  intros He Hdp. unfold Prisma.normalize. destruct (c =? 0); simpl; [lia|].
  pose proof (strip_exponent (Z.to_nat (Z.log2 (Z.abs c))) c e) as S.
  destruct (Prisma.strip _ c e) as [c' e']. simpl in *. lia.
Qed.

Lemma times_finite (c1 e1 c2 e2 : Z) :
  exists c e, Prisma.times (DFin c1 e1) (DFin c2 e2) = DFin c e.
Proof.
  unfold Prisma.times, Prisma.finalise, Prisma.normalize.
  repeat match goal with
         | |- context [if ?b then _ else _] => destruct b
         | |- context [let '(_, _) := ?p in _] => destruct p
         end; eauto.
Qed.

(** X5. The cost of a finite volume at a finite rate is a finite decimal with
    at most two digits after the decimal point. *)
Theorem costo_two_decimal_places (cv ev ct et : Z) :
  decimal_places_le 2 (costo (DFin cv ev) (DFin ct et)).
Proof.
  unfold costo. destruct (times_finite cv ev ct et) as (c & e & ->).
  unfold Prisma.toDecimalPlaces.
  destruct (- (2) <=? e) eqn:E; apply normalize_exponent; lia.
Qed.

(** ** Invariants of the tables *)

Lemma registro_valido_catalogo (d d' : DB) (id : Z) (r : ServicioRecogida) :
  mismo_catalogo d d' -> registro_valido d id r -> registro_valido d' id r.
Proof.
  intros (Hc & Hv & Ht) (Hid & c & v & t & H). split; [exact Hid|].
  exists c, v, t. rewrite Hc, Hv, Ht. exact H.
Qed.

(** X6. Whatever the store does, the three operations keep the tables
    consistent: every stored record still carries its identifier,
    references an existing client, vehicle and worker, has a volume that
    does not exceed the capacity of its vehicle, and has the cost derived
    from its volume and the rate of its client. *)
Theorem operaciones_conservan_consistencia (st : Estado) :
  consistente (db st) ->
  (forall data res st',
      crearServicioRecogida data st = (res, st') -> consistente (db st'))
  /\ (forall id data res st',
         actualizarServicioRecogida id data st = (res, st') -> consistente (db st'))
  /\ (forall id res st',
         eliminarServicioRecogida id st = (res, st') -> consistente (db st')).
Proof.
  intros Hcon. repeat apply conj.
  - intros data [r|e] st' H.
    + destruct (crear_ok _ _ _ _ H)
        as (v & c & t & _ & Hv & Hgt & Hc & Ht & Hr & Hfree & Hdb & _).
      rewrite Hdb. intros k s Hk. simpl in Hk.
      apply (registro_valido_catalogo (db st)); [repeat split|].
      destruct (Z.eq_dec (secuencia (db st)) k) as [<-|Hne].
      * rewrite lookup_insert_eq in Hk. inversion Hk; subst s. rewrite Hr. simpl.
        split; [reflexivity|]. exists c, v, t. repeat apply conj; auto.
      * rewrite lookup_insert_ne in Hk by exact Hne. apply Hcon. exact Hk.
    + destruct (crear_throw _ _ _ _ H) as (Hdb & _). rewrite Hdb. exact Hcon.
  - intros id data [r|e] st' H.
    + destruct (actualizar_ok _ _ _ _ _ H)
        as (old & v & c & t & Hold & _ & Hv & Hgt & Hc & Ht & Hr & Hdb & _).
      rewrite Hdb. intros k s Hk. simpl in Hk.
      apply (registro_valido_catalogo (db st)); [repeat split|].
      destruct (Z.eq_dec id k) as [<-|Hne].
      * rewrite lookup_insert_eq in Hk. inversion Hk; subst s. rewrite Hr. simpl.
        split; [apply (Hcon id old Hold)|]. exists c, v, t. repeat apply conj; auto.
      * rewrite lookup_insert_ne in Hk by exact Hne. apply Hcon. exact Hk.
    + destruct (actualizar_throw _ _ _ _ _ H) as (Hdb & _). rewrite Hdb. exact Hcon.
  - intros id res st' H.
    destruct (eliminar_cases _ _ _ _ H) as [[Hdb _]|(r & _ & _ & Hdb)];
      rewrite Hdb; [exact Hcon|].
    intros k s Hk. simpl in Hk.
    apply (registro_valido_catalogo (db st)); [repeat split|].
    destruct (Z.eq_dec id k) as [<-|Hne].
    + rewrite lookup_delete_eq in Hk. discriminate Hk.
    + rewrite lookup_delete_ne in Hk by exact Hne. apply Hcon. exact Hk.
Qed.

Lemma operaciones_conservan_consistencia_witness :
  consistente (db (snd (crearServicioRecogida (crear_con 1 (literal 15 0)) estado_ejemplo))).
Proof.
  apply (proj1 (operaciones_conservan_consistencia estado_ejemplo
                  (estado_ejemplo_sin_servicios _))
           (crear_con 1 (literal 15 0)) _ _ (surjective_pairing _)).
Defined.

(** ** One record at a time *)

(** X7. Whatever the store does, an operation touches one record at most: a
    creation the record of the next identifier, an update and a deletion
    the record they name. Every other record, and every client, vehicle and
    worker, is left as it was. *)
Theorem operaciones_tocan_un_registro (st : Estado) :
  (forall data res st',
      crearServicioRecogida data st = (res, st') ->
      mismo_catalogo (db st) (db st')
      /\ forall k, k <> secuencia (db st) ->
                   servicios (db st') !! k = servicios (db st) !! k)
  /\ (forall id data res st',
         actualizarServicioRecogida id data st = (res, st') ->
         mismo_catalogo (db st) (db st')
         /\ forall k, k <> id -> servicios (db st') !! k = servicios (db st) !! k)
  /\ (forall id res st',
         eliminarServicioRecogida id st = (res, st') ->
         mismo_catalogo (db st) (db st')
         /\ forall k, k <> id -> servicios (db st') !! k = servicios (db st) !! k).
Proof.
  repeat apply conj.
  - intros data [r|e] st' H.
    + destruct (crear_ok _ _ _ _ H)
        as (_ & _ & _ & _ & _ & _ & _ & _ & _ & _ & Hdb & _).
      rewrite Hdb. split; [repeat split|]. intros k Hk. simpl.
      apply lookup_insert_ne. congruence.
    + destruct (crear_throw _ _ _ _ H) as (Hdb & _). rewrite Hdb.
      split; [repeat split|reflexivity].
  - intros id data [r|e] st' H.
    + destruct (actualizar_ok _ _ _ _ _ H)
        as (_ & _ & _ & _ & _ & _ & _ & _ & _ & _ & _ & Hdb & _).
      rewrite Hdb. split; [repeat split|]. intros k Hk. simpl.
      apply lookup_insert_ne. congruence.
    + destruct (actualizar_throw _ _ _ _ _ H) as (Hdb & _). rewrite Hdb.
      split; [repeat split|reflexivity].
  - intros id res st' H.
    destruct (eliminar_cases _ _ _ _ H) as [[Hdb _]|(r & _ & _ & Hdb)]; rewrite Hdb.
    + split; [repeat split|reflexivity].
    + split; [repeat split|]. intros k Hk. simpl. apply lookup_delete_ne. congruence.
Qed.

Lemma operaciones_tocan_un_registro_witness :
  servicios (db (snd (eliminarServicioRecogida 2 (estado_con_servicio (DFin 15 0))))) !! 1
  = servicios (db (estado_con_servicio (DFin 15 0))) !! 1.
Proof.
  apply (proj2 (proj2 (operaciones_tocan_un_registro (estado_con_servicio (DFin 15 0))))
           2 _ _ (surjective_pairing _)).
  lia.
Defined.

(** ** Repeating an update *)

Lemma default_default {A : Type} (x : A) (o : option A) :
  default (default x o) o = default x o.
Proof. destruct o; reflexivity. Qed.

(** The run of an update that passes every check on a store that fails no
    call. *)
Lemma actualizar_run (id : Z) (data : UpdateServicioRecogidaData) st old
    vehiculo cliente trabajador :
  store_up st ->
  servicios (db st) !! id = Some old ->
  Number.leb (volumen_recogido_m3 (merged old data)) Number.zero = false ->
  vehiculos (db st) !! vehiculoId (merged old data) = Some vehiculo ->
  Prisma.greaterThan (Prisma.of_number (volumen_recogido_m3 (merged old data)))
    (capacidad_max_m3 vehiculo) = false ->
  clientes (db st) !! clienteId (merged old data) = Some cliente ->
  trabajadores (db st) !! trabajadorId (merged old data) = Some trabajador ->
  let r := {| sr_id := sr_id old;
              sr_clienteId := clienteId (merged old data);
              sr_vehiculoId := vehiculoId (merged old data);
              sr_trabajadorId := trabajadorId (merged old data);
              sr_fecha := fecha (merged old data);
              sr_volumen_recogido_m3 :=
                Prisma.of_number (volumen_recogido_m3 (merged old data));
              sr_costo_servicio :=
                costo (Prisma.of_number (volumen_recogido_m3 (merged old data)))
                      (tarifa_por_m3 cliente) |} in
  fst (actualizarServicioRecogida id data st) = Ok r
  /\ db (snd (actualizarServicioRecogida id data st))
     = prisma_servicioRecogida.with_servicios (db st)
         (<[id := r]> (servicios (db st))) (secuencia (db st)).
Proof.
  intros Hup Hold Hpos Hveh Hgt Hcli Htra. simpl in *. unfold_service.
  call_up. rewrite Hold, Hpos. call_up. rewrite Hveh, Hgt. call_up. rewrite Hcli.
  call_up. rewrite Htra. call_up. rewrite Hold. simpl. split; reflexivity.
Qed.

Lemma with_servicios_insert_same (d : DB) (id : Z) (r : ServicioRecogida) :
  servicios d !! id = Some r ->
  prisma_servicioRecogida.with_servicios d (<[id := r]> (servicios d)) (secuencia d) = d.
Proof.
  intros H. unfold prisma_servicioRecogida.with_servicios.
  rewrite (insert_id _ _ _ H). destruct d; reflexivity.
Qed.

(** X8. An update is idempotent: once it has succeeded, the same update on a
    store that fails no call succeeds again, returns the same record and
    leaves the tables as they are. When the update supplies no volume this
    needs the stored volume to be the decimal form of a number, as a
    volume that the service wrote is. *)
Theorem actualizar_idempotente (id : Z) (data : UpdateServicioRecogidaData)
    (st : Estado) (old r : ServicioRecogida) (st1 : Estado) :
  servicios (db st) !! id = Some old ->
  (upd_volumen_recogido_m3 data = None ->
   decimal_of_a_number (sr_volumen_recogido_m3 old)) ->
  actualizarServicioRecogida id data st = (Ok r, st1) ->
  store_up st1 ->
  fst (actualizarServicioRecogida id data st1) = Ok r
  /\ db (snd (actualizarServicioRecogida id data st1)) = db st1.
Proof.
  intros Hold Hvol H Hup.
  destruct (actualizar_ok _ _ _ _ _ H)
    as (old' & v & c & t & Hold' & Hpos & Hv & Hgt & Hc & Ht & Hr & Hdb & _).
  rewrite Hold in Hold'. inversion Hold'; subst old'. clear Hold'.
  assert (Hnow : servicios (db st1) !! id = Some r)
    by (rewrite Hdb; simpl; apply lookup_insert_eq).
  assert (Hsame : merged r data = merged old data).
  { rewrite Hr. unfold merged. simpl. rewrite !default_default. f_equal.
    destruct (upd_volumen_recogido_m3 data) as [n|] eqn:E; simpl; [reflexivity|].
    rewrite (Hvol eq_refl). reflexivity. }
  assert (Hcat : mismo_catalogo (db st) (db st1)) by (rewrite Hdb; repeat split).
  destruct Hcat as (Ecli & Eveh & Etra).
  destruct (actualizar_run id data st1 r v c t Hup Hnow) as [Hres Hdb'].
  - rewrite Hsame. exact Hpos.
  - rewrite Hsame, Eveh. exact Hv.
  - rewrite Hsame. exact Hgt.
  - rewrite Hsame, Ecli. exact Hc.
  - rewrite Hsame, Etra. exact Ht.
  - rewrite Hres, Hdb', Hsame.
    assert (E : {| sr_id := sr_id r;
                   sr_clienteId := clienteId (merged old data);
                   sr_vehiculoId := vehiculoId (merged old data);
                   sr_trabajadorId := trabajadorId (merged old data);
                   sr_fecha := fecha (merged old data);
                   sr_volumen_recogido_m3 :=
                     Prisma.of_number (volumen_recogido_m3 (merged old data));
                   sr_costo_servicio :=
                     costo (Prisma.of_number (volumen_recogido_m3 (merged old data)))
                           (tarifa_por_m3 c) |} = r)
      by (rewrite Hr; reflexivity).
    rewrite E. split; [reflexivity|].
    apply with_servicios_insert_same. exact Hnow.
Qed.

Lemma actualizar_idempotente_witness :
  let st1 := snd (actualizarServicioRecogida 1 sin_cambios
                    (estado_con_servicio (DFin 15 0))) in
  fst (actualizarServicioRecogida 1 sin_cambios st1) = Ok servicio_15
  /\ db (snd (actualizarServicioRecogida 1 sin_cambios st1)) = db st1.
Proof.
  apply (actualizar_idempotente 1 sin_cambios (estado_con_servicio (DFin 15 0))
           servicio_15 servicio_15).
  - reflexivity.
  - intros _. vm_compute. reflexivity.
  - vm_compute. reflexivity.
  - unfold store_up. vm_compute. constructor.
Defined.

(** ** What is accepted *)

(** X9. On a store that fails no call and whose sequence of identifiers is
    ahead of the stored records, crearServicioRecogida persists a record
    exactly when the volume is not [<= 0], the vehicle exists, the decimal
    of the volume is not greater than its capacity, and the client and the
    worker exist; an update of an existing record is persisted exactly when
    the same holds of its effective values. *)
Theorem aceptado_exactamente (st : Estado) :
  store_up st ->
  sequence_ahead (db st) ->
  (forall data,
      (exists r, fst (crearServicioRecogida data st) = Ok r)
      <-> Number.leb (volumen_recogido_m3 data) Number.zero = false
          /\ (exists vehiculo,
                 vehiculos (db st) !! vehiculoId data = Some vehiculo
                 /\ Prisma.greaterThan (Prisma.of_number (volumen_recogido_m3 data))
                      (capacidad_max_m3 vehiculo) = false)
          /\ (exists cliente, clientes (db st) !! clienteId data = Some cliente)
          /\ (exists trabajador,
                 trabajadores (db st) !! trabajadorId data = Some trabajador))
  /\
  (forall id data old,
      servicios (db st) !! id = Some old ->
      (exists r, fst (actualizarServicioRecogida id data st) = Ok r)
      <-> Number.leb (volumen_recogido_m3 (merged old data)) Number.zero = false
          /\ (exists vehiculo,
                 vehiculos (db st) !! vehiculoId (merged old data) = Some vehiculo
                 /\ Prisma.greaterThan
                      (Prisma.of_number (volumen_recogido_m3 (merged old data)))
                      (capacidad_max_m3 vehiculo) = false)
          /\ (exists cliente,
                 clientes (db st) !! clienteId (merged old data) = Some cliente)
          /\ (exists trabajador,
                 trabajadores (db st) !! trabajadorId (merged old data)
                 = Some trabajador)).
Proof.
  intros Hup Hseq. split.
  - intros data. split.
    + intros [r H].
      destruct (crearServicioRecogida data st) as [res st'] eqn:E. simpl in H. subst res.
      destruct (crear_ok _ _ _ _ E) as (v & c & t & Hpos & Hv & Hgt & Hc & Ht & _).
      eauto 10.
    + intros (Hpos & (v & Hv & Hgt) & (c & Hc) & (t & Ht)).
      destruct (crear_acepta data st v c t Hup Hpos Hv Hgt Hc Ht Hseq) as (r & H & _).
      exists r. exact H.
  - intros id data old Hold. split.
    + intros [r H].
      destruct (actualizarServicioRecogida id data st) as [res st'] eqn:E.
      simpl in H. subst res.
      destruct (actualizar_ok _ _ _ _ _ E)
        as (old' & v & c & t & Hold' & Hpos & Hv & Hgt & Hc & Ht & _).
      rewrite Hold in Hold'. inversion Hold'; subst old'. simpl. eauto 10.
    + intros (Hpos & (v & Hv & Hgt) & (c & Hc) & (t & Ht)).
      destruct (actualizar_acepta id data st old v c t Hup Hold Hpos Hv Hgt Hc Ht)
        as (r & H & _).
      exists r. exact H.
Qed.

Lemma aceptado_exactamente_witness :
  exists r, fst (crearServicioRecogida (crear_con 1 (literal 15 0)) estado_ejemplo) = Ok r.
Proof.
  apply (proj1 (aceptado_exactamente estado_ejemplo (store_up_nil _ _)
                  (fun k _ => lookup_empty k)) (crear_con 1 (literal 15 0))).
  split; [reflexivity|]. repeat split; eexists; try split; reflexivity.
Defined.

(** ** Calls of the other functions *)

Lemma consulta_up {A : Type} (q : Consulta)
    (op : Sistema -> (ClientError + A) * Sistema) (w : Sistema) :
  next_call_up (estado w) ->
  PrismaClient.consulta q op w
  = (fst (op w), PrismaClient.anotada q (snd (op w))).
Proof.
  unfold next_call_up, PrismaClient.consulta.
  destruct (averias (estado w)) as [|[] bs]; simpl; intros H;
    try congruence; destruct (op w); reflexivity.
Qed.

Lemma consulta_cases {A : Type} (q : Consulta)
    (op : Sistema -> (ClientError + A) * Sistema) (w : Sistema) :
  PrismaClient.consulta q op w = (inl ClientUnavailable, PrismaClient.anotada q w)
  \/ PrismaClient.consulta q op w
     = (fst (op w), PrismaClient.anotada q (snd (op w))).
Proof.
  unfold PrismaClient.consulta.
  destruct (averias (estado w)) as [|[] bs]; simpl; auto;
    right; destruct (op w); reflexivity.
Qed.

Lemma mismo_almacen_refl (w : Sistema) : mismo_almacen w w.
Proof. repeat split. Qed.

Lemma mismo_almacen_anotada (q : Consulta) (w : Sistema) :
  mismo_almacen w (PrismaClient.anotada q w).
Proof. repeat split. Qed.

(** ** Reading a record back *)

Lemma obtener_por_id_up (id : Z) (w : Sistema) :
  next_call_up (estado w) ->
  obtenerServicioRecogidaPorId id w
  = (Returns (PrismaClient.servicioRecogida.incluir (tablas w)
                <$> servicios (tablas w) !! id),
     PrismaClient.anotada (servicioRecogida_findUnique id) w).
Proof.
  intros H. unfold obtenerServicioRecogidaPorId, try_await,
    PrismaClient.servicioRecogida.findUnique.
  rewrite consulta_up by exact H. reflexivity.
Qed.

Lemma leer_lo_creado (data : CreateServicioRecogidaData) (w : Sistema)
    (r : ServicioRecogida) (st' : Estado) :
  crearServicioRecogida data (estado w) = (Ok r, st') ->
  exists c v t,
    PrismaClient.servicioRecogida.incluir (db st')
      <$> servicios (db st') !! sr_id r
    = Some {| PrismaClient.servicioRecogida.servicio := r;
              PrismaClient.servicioRecogida.cliente := Some c;
              PrismaClient.servicioRecogida.vehiculo := Some v;
              PrismaClient.servicioRecogida.trabajador := Some t |}
    /\ sr_costo_servicio r = costo (sr_volumen_recogido_m3 r) (tarifa_por_m3 c)
    /\ Prisma.greaterThan (sr_volumen_recogido_m3 r) (capacidad_max_m3 v) = false.
Proof.
  intros H.
  destruct (crear_ok _ _ _ _ H)
    as (v & c & t & _ & Hv & Hgt & Hc & Ht & Hr & _ & Hdb & _).
  exists c, v, t. rewrite Hdb. simpl.
  assert (Eid : sr_id r = secuencia (db (estado w))) by (rewrite Hr; reflexivity).
  rewrite Eid, lookup_insert_eq. simpl.
  unfold PrismaClient.servicioRecogida.incluir. simpl.
  rewrite Hr. simpl. rewrite Hc, Hv, Ht. repeat split; auto.
Qed.

Lemma leer_lo_actualizado (id : Z) (data : UpdateServicioRecogidaData) (w : Sistema)
    (r : ServicioRecogida) (st' : Estado) :
  bajo_su_id (tablas w) ->
  actualizarServicioRecogida id data (estado w) = (Ok r, st') ->
  exists c v t,
    PrismaClient.servicioRecogida.incluir (db st')
      <$> servicios (db st') !! sr_id r
    = Some {| PrismaClient.servicioRecogida.servicio := r;
              PrismaClient.servicioRecogida.cliente := Some c;
              PrismaClient.servicioRecogida.vehiculo := Some v;
              PrismaClient.servicioRecogida.trabajador := Some t |}
    /\ sr_costo_servicio r = costo (sr_volumen_recogido_m3 r) (tarifa_por_m3 c)
    /\ Prisma.greaterThan (sr_volumen_recogido_m3 r) (capacidad_max_m3 v) = false.
Proof.
  intros Hid H.
  destruct (actualizar_ok _ _ _ _ _ H)
    as (old & v & c & t & Hold & _ & Hv & Hgt & Hc & Ht & Hr & Hdb & _).
  exists c, v, t. rewrite Hdb. simpl.
  assert (Eid : sr_id r = id) by (rewrite Hr; simpl; apply Hid; exact Hold).
  rewrite Eid, lookup_insert_eq. simpl.
  unfold PrismaClient.servicioRecogida.incluir. simpl.
  rewrite Hr. simpl. rewrite Hc, Hv, Ht. repeat split; auto.
Qed.

(** X10. What the workflow has just written reads back: after a creation or an
    update that succeeded, obtenerServicioRecogidaPorId finds the record
    under its identifier, with the client, the vehicle and the worker the
    validation had found attached to it; the cost of the record is the one
    derived from the rate of that client, and its volume does not exceed
    the capacity of that vehicle. *)
Theorem escrito_y_leido (w : Sistema) (r : ServicioRecogida) (st' : Estado) :
  bajo_su_id (tablas w) ->
  (exists data, crearServicioRecogida data (estado w) = (Ok r, st'))
  \/ (exists id data, actualizarServicioRecogida id data (estado w) = (Ok r, st')) ->
  next_call_up st' ->
  exists c v t,
    fst (obtenerServicioRecogidaPorId (sr_id r) (con_estado w st'))
    = Returns (Some {| PrismaClient.servicioRecogida.servicio := r;
                       PrismaClient.servicioRecogida.cliente := Some c;
                       PrismaClient.servicioRecogida.vehiculo := Some v;
                       PrismaClient.servicioRecogida.trabajador := Some t |})
    /\ sr_costo_servicio r = costo (sr_volumen_recogido_m3 r) (tarifa_por_m3 c)
    /\ Prisma.greaterThan (sr_volumen_recogido_m3 r) (capacidad_max_m3 v) = false.
Proof.
  intros Hid H Hup.
  assert (L : exists c v t,
             PrismaClient.servicioRecogida.incluir (db st')
               <$> servicios (db st') !! sr_id r
             = Some {| PrismaClient.servicioRecogida.servicio := r;
                       PrismaClient.servicioRecogida.cliente := Some c;
                       PrismaClient.servicioRecogida.vehiculo := Some v;
                       PrismaClient.servicioRecogida.trabajador := Some t |}
             /\ sr_costo_servicio r = costo (sr_volumen_recogido_m3 r) (tarifa_por_m3 c)
             /\ Prisma.greaterThan (sr_volumen_recogido_m3 r) (capacidad_max_m3 v) = false).
  { destruct H as [(data & H)|(id & data & H)].
    - exact (leer_lo_creado _ _ _ _ H).
    - exact (leer_lo_actualizado _ _ _ _ _ Hid H). }
  destruct L as (c & v & t & L & Hcost & Hcap). exists c, v, t.
  rewrite obtener_por_id_up by exact Hup. simpl.
  unfold tablas. simpl. rewrite L. repeat split; auto.
Qed.

Lemma escrito_y_leido_witness :
  exists c v t,
    fst (obtenerServicioRecogidaPorId (sr_id servicio_15)
           (con_estado sistema_ejemplo
              (snd (crearServicioRecogida (crear_con 1 (literal 15 0)) estado_ejemplo))))
    = Returns (Some {| PrismaClient.servicioRecogida.servicio := servicio_15;
                       PrismaClient.servicioRecogida.cliente := Some c;
                       PrismaClient.servicioRecogida.vehiculo := Some v;
                       PrismaClient.servicioRecogida.trabajador := Some t |})
    /\ sr_costo_servicio servicio_15
       = costo (sr_volumen_recogido_m3 servicio_15) (tarifa_por_m3 c)
    /\ Prisma.greaterThan (sr_volumen_recogido_m3 servicio_15) (capacidad_max_m3 v)
       = false.
Proof.
  apply (escrito_y_leido sistema_ejemplo).
  - exact (estado_ejemplo_sin_servicios (fun id r => sr_id r = id)).
  - left. exists (crear_con 1 (literal 15 0)). vm_compute. reflexivity.
  - unfold next_call_up. vm_compute. discriminate.
Defined.

Lemma eliminar_ok (id : Z) (st : Estado) (r : ServicioRecogida) (st' : Estado) :
  eliminarServicioRecogida id st = (Ok r, st') ->
  servicios (db st) !! id = Some r /\ servicios (db st') !! id = None.
Proof.
  intros H. destruct (eliminar_cases _ _ _ _ H) as [[_ E]|(r' & Hr & E & Hdb)].
  - discriminate E.
  - inversion E; subst r'. split; [exact Hr|]. rewrite Hdb. simpl.
    apply lookup_delete_eq.
Qed.

(** X11. After a deletion that succeeded, obtenerServicioRecogidaPorId returns
    [null] for the identifier: the record is gone, and that is no error. *)
Theorem eliminado_y_leido (id : Z) (w : Sistema) (r : ServicioRecogida) (st' : Estado) :
  eliminarServicioRecogida id (estado w) = (Ok r, st') ->
  next_call_up st' ->
  fst (obtenerServicioRecogidaPorId id (con_estado w st')) = Returns None.
Proof.
  intros H Hup. destruct (eliminar_ok _ _ _ _ H) as [_ Hgone].
  rewrite obtener_por_id_up by exact Hup. simpl. unfold tablas. simpl.
  rewrite Hgone. reflexivity.
Qed.

Lemma eliminado_y_leido_witness :
  fst (obtenerServicioRecogidaPorId 1
         (con_estado sistema_con_servicio
            (snd (eliminarServicioRecogida 1 (estado_con_servicio (DFin 15 0))))))
  = Returns None.
Proof.
  apply (eliminado_y_leido 1 sistema_con_servicio servicio_15).
  - vm_compute. reflexivity.
  - unfold next_call_up. vm_compute. discriminate.
Defined.

(** ** The list and the single read *)

Lemma obtener_servicios_up (w : Sistema) :
  next_call_up (estado w) ->
  obtenerServiciosRecogida w
  = (Returns (map (fun p => PrismaClient.servicioRecogida.incluir (tablas w) (snd p))
                  (map_to_list (servicios (tablas w)))),
     PrismaClient.anotada servicioRecogida_findMany w).
Proof.
  intros H. unfold obtenerServiciosRecogida, try_await,
    PrismaClient.servicioRecogida.findMany.
  rewrite consulta_up by exact H. reflexivity.
Qed.

(** X12. The two reads agree: on a store whose next call does not fail,
    obtenerServiciosRecogida returns a list, and a record with its
    relations is in that list exactly when obtenerServicioRecogidaPorId
    returns it for its identifier. *)
Theorem lista_y_busqueda (w : Sistema) :
  next_call_up (estado w) ->
  bajo_su_id (tablas w) ->
  exists l,
    fst (obtenerServiciosRecogida w) = Returns l
    /\ forall x,
         In x l
         <-> fst (obtenerServicioRecogidaPorId
                    (sr_id (PrismaClient.servicioRecogida.servicio x)) w)
             = Returns (Some x).
Proof.
  intros Hup Hid. rewrite obtener_servicios_up by exact Hup. eexists.
  split; [reflexivity|]. intros x. rewrite obtener_por_id_up by exact Hup. simpl.
  rewrite in_map_iff. split.
  - intros ([k r] & <- & Hin). simpl.
    apply list_elem_of_In, elem_of_map_to_list in Hin.
    rewrite (Hid k r Hin), Hin. reflexivity.
  - intros H.
    destruct (servicios (tablas w) !! sr_id (PrismaClient.servicioRecogida.servicio x))
      as [r|] eqn:E; simpl in H; [|discriminate H].
    exists (sr_id (PrismaClient.servicioRecogida.servicio x), r). simpl.
    split; [congruence|]. apply list_elem_of_In, elem_of_map_to_list. exact E.
Qed.

Lemma lista_y_busqueda_witness :
  exists l,
    fst (obtenerServiciosRecogida sistema_con_servicio) = Returns l
    /\ forall x,
         In x l
         <-> fst (obtenerServicioRecogidaPorId
                    (sr_id (PrismaClient.servicioRecogida.servicio x))
                    sistema_con_servicio)
             = Returns (Some x).
Proof.
  apply (lista_y_busqueda sistema_con_servicio).
  - unfold next_call_up. vm_compute. discriminate.
  - exact (estado_con_servicio_15 (fun id r => sr_id r = id) eq_refl).
Defined.

(** ** The handler *)

Lemma handler_POST_db (b : PostBody) (st : Estado) (r : Response) (st' : Estado) :
  handler_POST b st = (r, st') ->
  (exists nuevo data, r = Status201 nuevo
                      /\ crearServicioRecogida data st = (Ok nuevo, st'))
  \/ (db st' = db st /\ forall nuevo, r <> Status201 nuevo).
Proof.
  unfold handler_POST. intros H.
  destruct (_ || _) in H.
  - inversion H; subst. right. split; [reflexivity|discriminate].
  - destruct (post_arguments b) as [e|data].
    + inversion H; subst. right. split; [reflexivity|discriminate].
    + destruct (crearServicioRecogida data st) as [[nuevo|e] st1] eqn:E;
        inversion H; subst.
      * left. exists nuevo, data. split; [reflexivity|exact E].
      * right. split; [|discriminate].
        destruct (crear_throw _ _ _ _ E) as [Hdb _]. exact Hdb.
Qed.

Lemma handler_PUT_db (b : PutBody) (st : Estado) (r : Response) (st' : Estado) :
  handler_PUT b st = (r, st') ->
  (exists updated id data, r = Status200 updated
                           /\ actualizarServicioRecogida id data st = (Ok updated, st'))
  \/ (db st' = db st /\ forall updated, r <> Status200 updated).
Proof.
  unfold handler_PUT. intros H.
  destruct (negb _) in H.
  - inversion H; subst. right. split; [reflexivity|discriminate].
  - destruct (put_arguments b) as [e|[id data]].
    + inversion H; subst. right. split; [reflexivity|discriminate].
    + destruct (actualizarServicioRecogida id data st) as [[updated|e] st1] eqn:E;
        inversion H; subst.
      * left. exists updated, id, data. split; [reflexivity|exact E].
      * right. split; [|discriminate].
        destruct (actualizar_throw _ _ _ _ _ E) as [Hdb _]. exact Hdb.
Qed.

Lemma obtener_por_id_almacen (id : Z) (w : Sistema) :
  mismo_almacen w (snd (obtenerServicioRecogidaPorId id w)).
Proof.
  unfold obtenerServicioRecogidaPorId, try_await, PrismaClient.servicioRecogida.findUnique.
  match goal with
  | |- context [PrismaClient.consulta ?q ?op w] =>
      destruct (consulta_cases q op w) as [E|E]; rewrite E; simpl
  end; apply mismo_almacen_anotada.
Qed.

Lemma obtener_servicios_almacen (w : Sistema) :
  mismo_almacen w (snd (obtenerServiciosRecogida w)).
Proof.
  unfold obtenerServiciosRecogida, try_await, PrismaClient.servicioRecogida.findMany.
  match goal with
  | |- context [PrismaClient.consulta ?q ?op w] =>
      destruct (consulta_cases q op w) as [E|E]; rewrite E; simpl
  end; apply mismo_almacen_anotada.
Qed.

Lemma handler_GET_almacen (req : Request) (w : Sistema) :
  mismo_almacen w (snd (handler_GET req w)).
Proof.
  unfold handler_GET. destruct (Js.truthy (query_id req)).
  - destruct (Js.BigInt (query_id req)) as [n|]; [|apply mismo_almacen_refl].
    pose proof (obtener_por_id_almacen n w) as L.
    destruct (obtenerServicioRecogidaPorId n w) as [[[x|]|m] w']; exact L.
  - pose proof (obtener_servicios_almacen w) as L.
    destruct (obtenerServiciosRecogida w) as [[l|m] w']; exact L.
Qed.

Lemma handler_DELETE_db (req : Request) (w : Sistema) (r : Sent) (w' : Sistema) :
  handler_DELETE req w = (r, w') ->
  (exists n deleted st',
      Js.truthy (query_id req) = true /\ Js.BigInt (query_id req) = Some n
      /\ eliminarServicioRecogida n (estado w) = (Ok deleted, st')
      /\ r = Json_registro 200 deleted /\ w' = con_estado w st')
  \/ (tablas w' = tablas w /\ status r <> 200).
Proof.
  unfold handler_DELETE. intros H.
  destruct (Js.truthy (query_id req)) eqn:T; simpl in H.
  - destruct (Js.BigInt (query_id req)) as [n|] eqn:B.
    + destruct (eliminarServicioRecogida n (estado w)) as [[deleted|e] st'] eqn:E;
        inversion H; subst.
      * left. exists n, deleted, st'. repeat split; auto.
      * right. split; [|simpl; lia].
        destruct (eliminar_cases _ _ _ _ E) as [[Hdb _]|(x & _ & F & _)];
          [exact Hdb|discriminate F].
    + inversion H; subst. right. split; [reflexivity|simpl; lia].
  - inversion H; subst. right. split; [reflexivity|simpl; lia].
Qed.

(** X13. Whatever the request and whatever the store does, the handler changes
    the tables only when it answers a POST with 201, a PUT with 200 or a
    DELETE with 200: a GET, a request with any other method and every
    request that is answered with an error leave every record as it was. *)
Theorem handler_solo_escribe_con_exito (req : Request) (w : Sistema) :
  let '(r, w') := handler req w in
  tablas w' = tablas w
  \/ (method req = "POST"%string /\ status r = 201)
  \/ (method req = "PUT"%string /\ status r = 200)
  \/ (method req = "DELETE"%string /\ status r = 200).
Proof.
  unfold handler.
  destruct (String.eqb_spec (method req) "GET") as [G|G].
  { pose proof (handler_GET_almacen req w) as [L _].
    destruct (handler_GET req w) as [r w']. left. exact L. }
  destruct (String.eqb_spec (method req) "POST") as [P|P].
  { destruct (handler_POST (post_body (body req)) (estado w)) as [r st'] eqn:E.
    destruct (handler_POST_db _ _ _ _ E) as [(nuevo & data & -> & _)|[Hdb _]].
    - right. left. split; [exact P|reflexivity].
    - left. exact Hdb. }
  destruct (String.eqb_spec (method req) "PUT") as [U|U].
  { destruct (handler_PUT (body req) (estado w)) as [r st'] eqn:E.
    destruct (handler_PUT_db _ _ _ _ E) as [(updated & id & data & -> & _)|[Hdb _]].
    - right. right. left. split; [exact U|reflexivity].
    - left. exact Hdb. }
  destruct (String.eqb_spec (method req) "DELETE") as [D|D].
  { destruct (handler_DELETE req w) as [r w'] eqn:E.
    destruct (handler_DELETE_db _ _ _ _ E)
      as [(n & deleted & st' & _ & _ & _ & -> & _)|[Hdb _]].
    - right. right. right. split; [exact D|reflexivity].
    - left. exact Hdb. }
  left. reflexivity.
Qed.

Lemma handler_solo_escribe_con_exito_witness :
  let '(r, w') := handler (request_DELETE (BString "7")) sistema_con_servicio in
  tablas w' = tablas sistema_con_servicio
  \/ (method (request_DELETE (BString "7")) = "POST"%string /\ status r = 201)
  \/ (method (request_DELETE (BString "7")) = "PUT"%string /\ status r = 200)
  \/ (method (request_DELETE (BString "7")) = "DELETE"%string /\ status r = 200).
Proof.
  exact (handler_solo_escribe_con_exito (request_DELETE (BString "7"))
           sistema_con_servicio).
Defined.

(** X14. The identifier of a response leads back to the record: when a POST is
    answered with 201, a GET whose [id] is the string that serializeBigInt
    writes for the identifier of the new record is answered with 200 and
    that record, its client, vehicle and worker attached, provided the
    store does not fail the call. *)
Theorem post_y_get (req : Request) (w : Sistema) (r : ServicioRecogida) (w1 : Sistema) :
  method req = "POST"%string ->
  handler req w = (Json_registro 201 r, w1) ->
  next_call_up (estado w1) ->
  exists c v t,
    fst (handler (request_GET (BString (BigInt_toString (sr_id r)))) w1)
    = Json_servicio 200
        {| PrismaClient.servicioRecogida.servicio := r;
           PrismaClient.servicioRecogida.cliente := Some c;
           PrismaClient.servicioRecogida.vehiculo := Some v;
           PrismaClient.servicioRecogida.trabajador := Some t |}.
Proof.
  intros P H Hup. unfold handler in H. rewrite P in H. simpl in H.
  destruct (handler_POST (post_body (body req)) (estado w)) as [resp st'] eqn:E.
  inversion H as [[Hs Hw]]. clear H.
  destruct (handler_POST_db _ _ _ _ E) as [(nuevo & data & -> & C)|[_ N]].
  - simpl in Hs. inversion Hs; subst nuevo. clear Hs.
    destruct (leer_lo_creado _ _ _ _ C) as (c & v & t & L & _).
    exists c, v, t. subst w1. simpl in Hup.
    unfold handler, request_GET. simpl. unfold handler_GET. simpl.
    assert (T : Js.truthy (BString (BigInt_toString (sr_id r))) = true).
    { unfold BigInt_toString. destruct (sr_id r) as [|p|p]; try reflexivity; simpl.
      pose proof (to_uint_not_Nil p) as Hn.
      destruct (Pos.to_uint p); try reflexivity. congruence. }
    simpl in T. rewrite T. rewrite StringToBigInt_toString.
    rewrite obtener_por_id_up by exact Hup. simpl. unfold tablas. simpl.
    rewrite L. reflexivity.
  - destruct resp; simpl in Hs; try discriminate Hs.
    inversion Hs; subst. exfalso. apply (N r). reflexivity.
Qed.

Lemma post_y_get_witness :
  exists c v t,
    fst (handler (request_GET (BString (BigInt_toString (sr_id servicio_15))))
           (snd (handler (request_POST post_15) sistema_ejemplo)))
    = Json_servicio 200
        {| PrismaClient.servicioRecogida.servicio := servicio_15;
           PrismaClient.servicioRecogida.cliente := Some c;
           PrismaClient.servicioRecogida.vehiculo := Some v;
           PrismaClient.servicioRecogida.trabajador := Some t |}.
Proof.
  apply (post_y_get (request_POST post_15) sistema_ejemplo).
  - reflexivity.
  - vm_compute. reflexivity.
  - unfold next_call_up. vm_compute. discriminate.
Defined.

(** X15. When a DELETE is answered with 200, a GET of the same [id] is answered
    with 404 and the message that the record was not found, provided the
    store does not fail the call. *)
Theorem delete_y_get (id : BodyValue) (w : Sistema) (r : ServicioRecogida)
    (w1 : Sistema) :
  handler (request_DELETE id) w = (Json_registro 200 r, w1) ->
  next_call_up (estado w1) ->
  fst (handler (request_GET id) w1)
  = Json_message 404 "Servicio de recogida no encontrado.".
Proof.
  intros H Hup. unfold handler, request_DELETE in H. simpl in H.
  destruct (handler_DELETE_db _ _ _ _ H)
    as [(n & deleted & st' & T & B & E & _ & ->)|[_ N]]; [|simpl in N; lia].
  simpl in T, B. destruct (eliminar_ok _ _ _ _ E) as [_ Hgone].
  unfold handler, request_GET. simpl. unfold handler_GET. simpl. rewrite T, B.
  rewrite obtener_por_id_up by exact Hup. simpl. unfold tablas. simpl.
  rewrite Hgone. reflexivity.
Qed.

Lemma delete_y_get_witness :
  fst (handler (request_GET (BString "1"))
         (snd (handler (request_DELETE (BString "1")) sistema_con_servicio)))
  = Json_message 404 "Servicio de recogida no encontrado.".
Proof.
  apply (delete_y_get (BString "1") sistema_con_servicio servicio_15).
  - vm_compute. reflexivity.
  - unfold next_call_up. vm_compute. discriminate.
Defined.

(** ** The services of the catalogues *)

Ltac unfold_catalogo :=
  unfold crearVehiculo, actualizarVehiculo, eliminarVehiculo,
    crearCliente, actualizarCliente, eliminarCliente,
    crearTrabajador, actualizarTrabajador, eliminarTrabajador,
    obtenerVehiculoPorId, obtenerClientePorId, obtenerTrabajadorPorId,
    obtenerVehiculos, obtenerClientes, obtenerTrabajadores,
    throw_new_Error, try_await,
    PrismaClient.vehiculo.create, PrismaClient.vehiculo.update,
    PrismaClient.vehiculo.delete, PrismaClient.vehiculo.findUnique,
    PrismaClient.vehiculo.findMany,
    PrismaClient.cliente.create, PrismaClient.cliente.update,
    PrismaClient.cliente.delete, PrismaClient.cliente.findUnique,
    PrismaClient.cliente.findMany,
    PrismaClient.trabajador.create, PrismaClient.trabajador.update,
    PrismaClient.trabajador.delete, PrismaClient.trabajador.findUnique,
    PrismaClient.trabajador.findMany in *.

(** Split on whether the store fails the call in the hypothesis. *)
Ltac split_consulta H :=
  match type of H with
  | context [PrismaClient.consulta ?q ?op ?w] =>
      let E := fresh "E" in
      destruct (consulta_cases q op w) as [E|E]; rewrite E in H; clear E;
      cbn beta iota delta [fst snd] in H
  end.

Lemma delete_referido_cases {A : Type} (campo : ServicioRecogida -> Z) (id : Z)
    (registro : option A) (borrar : DB -> DB) (w : Sistema)
    (res : ClientError + A) (w' : Sistema) :
  PrismaClient.delete_referido campo id registro borrar w = (res, w') ->
  (w' = w /\ exists e, res = inl e)
  \/ (exists r s, registro = Some r /\ res = inr r
                  /\ tablas w' = borrar (PrismaClient.con_servicios (tablas w) s)).
Proof.
  unfold PrismaClient.delete_referido. intros H.
  destruct registro as [r|]; [|inversion H; subst; left; eauto].
  destruct (PrismaClient.referido campo id (tablas w)).
  - destruct (onDelete w); inversion H; subst; [left; eauto|].
    right. exists r, (PrismaClient.sin_referencias campo id (tablas w)).
    repeat split.
  - inversion H; subst. right. exists r, (servicios (tablas w)).
    repeat split. unfold tablas. simpl. f_equal. destruct (db (estado w)); reflexivity.
Qed.

(** *** Vehicles *)

Lemma crearVehiculo_cases (m : string) (cap cons : number) (w : Sistema)
    (res : Outcome (Z * Vehiculo)) (w' : Sistema) :
  crearVehiculo m cap cons w = (res, w') ->
  (tablas w' = tablas w /\ exists msg, res = Throws msg)
  \/ (Number.leb cap Number.zero = false
      /\ Number.leb cons Number.zero = false
      /\ PrismaClient.vehiculo.matricula_en_uso m None (tablas w) = false
      /\ vehiculos (tablas w) !! vehiculo_autoincrement w = None
      /\ res = Returns (vehiculo_autoincrement w,
                        {| matricula := m;
                           capacidad_max_m3 := Prisma.of_number cap;
                           consumo_combustible_litros := Prisma.of_number cons |})
      /\ tablas w'
         = PrismaClient.vehiculo.con_vehiculos
             (<[vehiculo_autoincrement w :=
                  {| matricula := m;
                     capacidad_max_m3 := Prisma.of_number cap;
                     consumo_combustible_litros := Prisma.of_number cons |}]>
                (vehiculos (tablas w))) (tablas w)).
Proof.
  intros H. unfold_catalogo.
  destruct (Number.leb cap Number.zero) eqn:C;
    [inversion H; subst; left; eauto|].
  destruct (Number.leb cons Number.zero) eqn:K;
    [inversion H; subst; left; eauto|].
  split_consulta H; [inversion H; subst; left; eauto|].
  destruct (PrismaClient.vehiculo.matricula_en_uso m None (tablas w)) eqn:U;
    simpl in H; [inversion H; subst; left; eauto|].
  destruct (vehiculos (tablas w) !! vehiculo_autoincrement w) eqn:F;
    simpl in H; inversion H; subst; [left; eauto|].
  right. repeat split; reflexivity.
Qed.

Lemma actualizarVehiculo_cases (id : Z) (data : ActualizarVehiculoData) (w : Sistema)
    (res : Outcome Vehiculo) (w' : Sistema) :
  actualizarVehiculo id data w = (res, w') ->
  (tablas w' = tablas w /\ exists msg, res = Throws msg)
  \/ (exists old,
         vehiculos (tablas w) !! id = Some old
         /\ defined_and_not_positive (veh_capacidad_max_m3 data) = false
         /\ defined_and_not_positive (veh_consumo_combustible_litros data) = false
         /\ res = Returns
                    {| matricula := default (matricula old) (veh_matricula data);
                       capacidad_max_m3 :=
                         default (capacidad_max_m3 old)
                                 (Prisma.of_number <$> veh_capacidad_max_m3 data);
                       consumo_combustible_litros :=
                         default (consumo_combustible_litros old)
                                 (Prisma.of_number
                                    <$> veh_consumo_combustible_litros data) |}
         /\ tablas w'
            = PrismaClient.vehiculo.con_vehiculos
                (<[id :=
                     {| matricula := default (matricula old) (veh_matricula data);
                        capacidad_max_m3 :=
                          default (capacidad_max_m3 old)
                                  (Prisma.of_number <$> veh_capacidad_max_m3 data);
                        consumo_combustible_litros :=
                          default (consumo_combustible_litros old)
                                  (Prisma.of_number
                                     <$> veh_consumo_combustible_litros data) |}]>
                   (vehiculos (tablas w))) (tablas w)).
Proof.
  intros H. unfold_catalogo.
  destruct (defined_and_not_positive (veh_capacidad_max_m3 data)) eqn:C;
    [inversion H; subst; left; eauto|].
  destruct (defined_and_not_positive (veh_consumo_combustible_litros data)) eqn:K;
    [inversion H; subst; left; eauto|].
  split_consulta H; [inversion H; subst; left; eauto|].
  destruct (vehiculos (tablas w) !! id) as [old|] eqn:F;
    simpl in H; [|inversion H; subst; left; eauto].
  destruct (match veh_matricula data with Some _ => _ | None => _ end) eqn:U;
    simpl in H; inversion H; subst; [left; eauto|].
  right. exists old. repeat split; reflexivity.
Qed.

Lemma eliminarVehiculo_cases (id : Z) (w : Sistema) (res : Outcome Vehiculo)
    (w' : Sistema) :
  eliminarVehiculo id w = (res, w') ->
  (tablas w' = tablas w /\ exists msg, res = Throws msg)
  \/ (exists v s,
         vehiculos (tablas w) !! id = Some v /\ res = Returns v
         /\ tablas w'
            = PrismaClient.vehiculo.con_vehiculos
                (base.delete id (vehiculos (tablas w)))
                (PrismaClient.con_servicios (tablas w) s)).
Proof.
  intros H. unfold_catalogo.
  split_consulta H; [inversion H; subst; left; eauto|].
  destruct (PrismaClient.delete_referido _ _ _ _ w) as [r w1] eqn:D.
  destruct (delete_referido_cases _ _ _ _ _ _ _ D) as [[-> [e ->]]|(v & s & Hv & -> & Hw)];
    simpl in H; inversion H; subst.
  - left. eauto.
  - right. exists v, s. repeat split; auto.
Qed.

Lemma snoc_neq {A : Type} (l : list A) (x : A) : l ++ [x] <> l.
Proof.
  intros E. apply (f_equal (@List.length A)) in E.
  rewrite List.length_app in E. simpl in E. lia.
Qed.

(** A call on the client leaves one more entry in the log, whatever the
    store does, provided the operation itself does not touch the log. *)
Lemma consulta_consultas {A : Type} (q : Consulta)
    (op : Sistema -> (ClientError + A) * Sistema) (w : Sistema) :
  consultas (snd (op w)) = consultas w ->
  consultas (snd (PrismaClient.consulta q op w)) = consultas w ++ [q].
Proof.
  intros H. destruct (consulta_cases q op w) as [E|E]; rewrite E; simpl;
    [reflexivity|]. rewrite H. reflexivity.
Qed.

Lemma vehiculo_create_consultas (m : string) (cap cons : number) (w : Sistema) :
  consultas (snd (PrismaClient.vehiculo.create m cap cons w))
  = consultas w ++ [vehiculo_create m cap cons].
Proof.
  unfold PrismaClient.vehiculo.create. apply consulta_consultas.
  destruct (PrismaClient.vehiculo.matricula_en_uso _ _ _); [reflexivity|].
  destruct (vehiculos (tablas w) !! _); reflexivity.
Qed.

Lemma vehiculo_update_consultas (id : Z) (data : ActualizarVehiculoData) (w : Sistema) :
  consultas (snd (PrismaClient.vehiculo.update id data w))
  = consultas w ++ [vehiculo_update id data].
Proof.
  unfold PrismaClient.vehiculo.update. apply consulta_consultas.
  destruct (vehiculos (tablas w) !! _); [|reflexivity].
  destruct (match veh_matricula data with Some _ => _ | None => _ end); reflexivity.
Qed.

Lemma try_await_snd {A : Type} (call : PrismaClient.Client A)
    (h : ClientError -> string) (w : Sistema) :
  snd (try_await call h w) = snd (call w).
Proof. unfold try_await. destruct (call w) as [[e|a] w']; reflexivity. Qed.

Lemma try_await_message {A : Type} (call : PrismaClient.Client A)
    (h : ClientError -> string) (w : Sistema) (msg : string) :
  fst (try_await call h w) = Throws msg -> exists e, msg = h e.
Proof.
  unfold try_await. destruct (call w) as [[e|a] w']; simpl; intros H;
    inversion H; eauto.
Qed.

Lemma matricula_duplicada_cases (otherwise : string) (e : ClientError) :
  matricula_duplicada otherwise e = otherwise
  \/ matricula_duplicada otherwise e = "Ya existe un vehículo con esta matrícula."%string.
Proof.
  unfold matricula_duplicada. destruct e as [code target|]; auto.
  destruct (_ && _); auto.
Qed.

(** X16. crearVehiculo and actualizarVehiculo check the capacity first and the
    consumption second, and call the store only when both pass: the message
    of the capacity is thrown exactly when the capacity is [<= 0], the
    message of the consumption exactly when the capacity passed and the
    consumption is [<= 0], and the log of calls grows exactly when neither
    is. For an update a field counts only when it is supplied. *)
Theorem vehiculo_valida_en_orden (w : Sistema) :
  (forall m cap cons,
      let '(res, w') := crearVehiculo m cap cons w in
      (res = Throws "La capacidad máxima del vehículo debe ser un valor positivo."
       <-> Number.leb cap Number.zero = true)
      /\ (res = Throws "El consumo de combustible debe ser un valor positivo."
          <-> Number.leb cap Number.zero = false
              /\ Number.leb cons Number.zero = true)
      /\ (consultas w' = consultas w
          <-> Number.leb cap Number.zero || Number.leb cons Number.zero = true)
      /\ (consultas w' = consultas w -> w' = w))
  /\
  (forall id data,
      let '(res, w') := actualizarVehiculo id data w in
      (res = Throws "La capacidad máxima del vehículo debe ser un valor positivo."
       <-> defined_and_not_positive (veh_capacidad_max_m3 data) = true)
      /\ (res = Throws "El consumo de combustible debe ser un valor positivo."
          <-> defined_and_not_positive (veh_capacidad_max_m3 data) = false
              /\ defined_and_not_positive (veh_consumo_combustible_litros data) = true)
      /\ (consultas w' = consultas w
          <-> defined_and_not_positive (veh_capacidad_max_m3 data)
              || defined_and_not_positive (veh_consumo_combustible_litros data) = true)
      /\ (consultas w' = consultas w -> w' = w)).
Proof.
  split.
  - intros m cap cons. unfold crearVehiculo, throw_new_Error.
    destruct (Number.leb cap Number.zero) eqn:C.
    { split; [|split; [|split]].
      - split; reflexivity.
      - split; intros H; [discriminate H|destruct H as [H _]; discriminate H].
      - split; reflexivity.
      - reflexivity. }
    destruct (Number.leb cons Number.zero) eqn:K.
    { split; [|split; [|split]].
      - split; intros H; discriminate H.
      - split; [intros _; split; reflexivity|reflexivity].
      - split; reflexivity.
      - reflexivity. }
    pose proof (try_await_snd (PrismaClient.vehiculo.create m cap cons)
                  (matricula_duplicada "No se pudo crear el vehículo.") w) as S.
    pose proof (try_await_message (PrismaClient.vehiculo.create m cap cons)
                  (matricula_duplicada "No se pudo crear el vehículo.") w) as M.
    destruct (try_await _ _ w) as [res w'] eqn:T. simpl in S, M. subst w'.
    assert (N : consultas (snd (PrismaClient.vehiculo.create m cap cons w))
                <> consultas w)
      by (rewrite vehiculo_create_consultas; apply snoc_neq).
    assert (X : forall msg,
               res = Throws msg ->
               msg = "No se pudo crear el vehículo."%string
               \/ msg = "Ya existe un vehículo con esta matrícula."%string).
    { intros msg E. destruct (M msg E) as [e ->]. apply matricula_duplicada_cases. }
    split; [|split; [|split]].
    + split; intros H; [destruct (X _ H) as [D|D]; discriminate D|discriminate H].
    + split; intros H; [destruct (X _ H) as [D|D]; discriminate D|].
      destruct H as [_ H]; discriminate H.
    + split; intros H; [contradiction|discriminate H].
    + intros H. contradiction.
  - intros id data. unfold actualizarVehiculo, throw_new_Error.
    destruct (defined_and_not_positive (veh_capacidad_max_m3 data)) eqn:C.
    { split; [|split; [|split]].
      - split; reflexivity.
      - split; intros H; [discriminate H|destruct H as [H _]; discriminate H].
      - split; reflexivity.
      - reflexivity. }
    destruct (defined_and_not_positive (veh_consumo_combustible_litros data)) eqn:K.
    { split; [|split; [|split]].
      - split; intros H; discriminate H.
      - split; [intros _; split; reflexivity|reflexivity].
      - split; reflexivity.
      - reflexivity. }
    pose proof (try_await_snd (PrismaClient.vehiculo.update id data)
                  (matricula_duplicada "No se pudo actualizar el vehículo.") w) as S.
    pose proof (try_await_message (PrismaClient.vehiculo.update id data)
                  (matricula_duplicada "No se pudo actualizar el vehículo.") w) as M.
    destruct (try_await _ _ w) as [res w'] eqn:T. simpl in S, M. subst w'.
    assert (N : consultas (snd (PrismaClient.vehiculo.update id data w))
                <> consultas w)
      by (rewrite vehiculo_update_consultas; apply snoc_neq).
    assert (X : forall msg,
               res = Throws msg ->
               msg = "No se pudo actualizar el vehículo."%string
               \/ msg = "Ya existe un vehículo con esta matrícula."%string).
    { intros msg E. destruct (M msg E) as [e ->]. apply matricula_duplicada_cases. }
    split; [|split; [|split]].
    + split; intros H; [destruct (X _ H) as [D|D]; discriminate D|discriminate H].
    + split; intros H; [destruct (X _ H) as [D|D]; discriminate D|].
      destruct H as [_ H]; discriminate H.
    + split; intros H; [contradiction|discriminate H].
    + intros H. contradiction.
Qed.

Lemma vehiculo_valida_en_orden_witness :
  let '(res, w') := crearVehiculo "XYZ789" Number.zero Number.zero sistema_ejemplo in
  (res = Throws "La capacidad máxima del vehículo debe ser un valor positivo."
   <-> Number.leb Number.zero Number.zero = true)
  /\ (res = Throws "El consumo de combustible debe ser un valor positivo."
      <-> Number.leb Number.zero Number.zero = false
          /\ Number.leb Number.zero Number.zero = true)
  /\ (consultas w' = consultas sistema_ejemplo
      <-> Number.leb Number.zero Number.zero || Number.leb Number.zero Number.zero = true)
  /\ (consultas w' = consultas sistema_ejemplo -> w' = sistema_ejemplo).
Proof.
  exact (proj1 (vehiculo_valida_en_orden sistema_ejemplo)
           "XYZ789"%string Number.zero Number.zero).
Defined.

Lemma matricula_en_uso_iff (m : string) (salvo : option Z) (d : DB) :
  PrismaClient.vehiculo.matricula_en_uso m salvo d = true
  <-> exists id v, vehiculos d !! id = Some v /\ matricula v = m /\ salvo <> Some id.
Proof.
  unfold PrismaClient.vehiculo.matricula_en_uso. rewrite existsb_exists. split.
  - intros ([id v] & Hin & H). apply list_elem_of_In, elem_of_map_to_list in Hin.
    apply andb_true_iff in H. destruct H as [Hm Hs]. simpl in *.
    apply String.eqb_eq in Hm. apply negb_true_iff, bool_decide_eq_false in Hs.
    exists id, v. auto.
  - intros (id & v & Hv & Hm & Hs). exists (id, v). split.
    + apply list_elem_of_In, elem_of_map_to_list. exact Hv.
    + simpl. apply andb_true_iff. split; [apply String.eqb_eq; exact Hm|].
      apply negb_true_iff, bool_decide_eq_false. exact Hs.
Qed.

(** X17. The plate is unique. When the numbers pass and the store does not fail
    the call, crearVehiculo throws the message of the duplicate plate
    exactly when a stored vehicle has the plate, and actualizarVehiculo of
    an existing vehicle exactly when the update supplies a plate that
    another vehicle has; the tables are then as they were. *)
Theorem vehiculo_matricula_duplicada (w : Sistema) :
  next_call_up (estado w) ->
  (forall m cap cons,
      Number.leb cap Number.zero = false -> Number.leb cons Number.zero = false ->
      (fst (crearVehiculo m cap cons w)
       = Throws "Ya existe un vehículo con esta matrícula."
       <-> exists id v, vehiculos (tablas w) !! id = Some v /\ matricula v = m)
      /\ (fst (crearVehiculo m cap cons w)
          = Throws "Ya existe un vehículo con esta matrícula."
          -> tablas (snd (crearVehiculo m cap cons w)) = tablas w))
  /\
  (forall id data old,
      vehiculos (tablas w) !! id = Some old ->
      defined_and_not_positive (veh_capacidad_max_m3 data) = false ->
      defined_and_not_positive (veh_consumo_combustible_litros data) = false ->
      (fst (actualizarVehiculo id data w)
       = Throws "Ya existe un vehículo con esta matrícula."
       <-> exists m id' v, veh_matricula data = Some m /\ id' <> id
                           /\ vehiculos (tablas w) !! id' = Some v /\ matricula v = m)
      /\ (fst (actualizarVehiculo id data w)
          = Throws "Ya existe un vehículo con esta matrícula."
          -> tablas (snd (actualizarVehiculo id data w)) = tablas w)).
Proof.
  intros Hup. split.
  - intros m cap cons C K. unfold_catalogo. rewrite C, K.
    rewrite consulta_up by exact Hup. cbn beta iota delta [fst snd].
    destruct (PrismaClient.vehiculo.matricula_en_uso m None (tablas w)) eqn:U.
    + simpl. split; [|reflexivity]. split; [intros _|reflexivity].
      apply matricula_en_uso_iff in U. destruct U as (id & v & Hv & Hm & _). eauto.
    + assert (N : ~ exists id v, vehiculos (tablas w) !! id = Some v /\ matricula v = m).
      { intros (id & v & Hv & Hm).
        assert (T : PrismaClient.vehiculo.matricula_en_uso m None (tablas w) = true)
          by (apply matricula_en_uso_iff; exists id, v; repeat split; auto; discriminate).
        congruence. }
      destruct (vehiculos (tablas w) !! vehiculo_autoincrement w); simpl;
        (split; [split; [discriminate|contradiction]|discriminate]).
  - intros id data old Hold C K. unfold_catalogo. rewrite C, K.
    rewrite consulta_up by exact Hup. cbn beta iota delta [fst snd]. rewrite Hold.
    destruct (veh_matricula data) as [m|] eqn:M.
    + destruct (PrismaClient.vehiculo.matricula_en_uso m (Some id) (tablas w)) eqn:U.
      * simpl. split; [|reflexivity]. split; [intros _|reflexivity].
        apply matricula_en_uso_iff in U. destruct U as (id' & v & Hv & Hm & Hs).
        exists m, id', v. repeat split; auto. congruence.
      * simpl. split; [split; [discriminate|]|discriminate].
        intros (m' & id' & v & E & Hne & Hv & Hm). inversion E; subst m'.
        assert (T : PrismaClient.vehiculo.matricula_en_uso m (Some id) (tablas w) = true)
          by (apply matricula_en_uso_iff; exists id', v; repeat split; auto; congruence).
        congruence.
    + simpl. split; [split; [discriminate|]|discriminate].
      intros (m' & id' & v & E & _). discriminate E.
Qed.

Lemma vehiculo_matricula_duplicada_witness :
  fst (crearVehiculo "ABC123" (literal 10 0) (literal 8 0) sistema_ejemplo)
  = Throws "Ya existe un vehículo con esta matrícula.".
Proof.
  assert (Hup : next_call_up (estado sistema_ejemplo))
    by (unfold next_call_up; vm_compute; discriminate).
  apply (proj2 (proj1 (proj1 (vehiculo_matricula_duplicada sistema_ejemplo Hup)
                         "ABC123"%string (literal 10 0) (literal 8 0)
                         eq_refl eq_refl))).
  exists 1, {| matricula := "ABC123"; capacidad_max_m3 := DFin 2 1;
               consumo_combustible_litros := DFin 8 0 |}.
  split; reflexivity.
Defined.

Lemma of_number_if_defined (old : Decimal) (v : option number) :
  no_positivo old = false ->
  binary64_if_defined v = true ->
  defined_and_not_positive v = false ->
  no_positivo (default old (Prisma.of_number <$> v)) = false.
Proof.
  intros Hold Hv Hpos. destruct v as [n|]; simpl in *; [|exact Hold].
  apply of_number_no_positivo; assumption.
Qed.

(** X18. No vehicle with a capacity or a consumption [<= 0] is ever stored:
    whatever the store does, crearVehiculo, actualizarVehiculo and
    eliminarVehiculo leave no such vehicle in a table that had none, when
    the numbers they are given are binary64 values. (A NaN, which the
    test [<= 0] lets through, is stored as the decimal NaN.) *)
Theorem vehiculos_siempre_positivos (w : Sistema) :
  vehiculos_positivos (tablas w) ->
  (forall m cap cons,
      binary64 cap = true -> binary64 cons = true ->
      vehiculos_positivos (tablas (snd (crearVehiculo m cap cons w))))
  /\ (forall id data,
         binary64_if_defined (veh_capacidad_max_m3 data) = true ->
         binary64_if_defined (veh_consumo_combustible_litros data) = true ->
         vehiculos_positivos (tablas (snd (actualizarVehiculo id data w))))
  /\ (forall id, vehiculos_positivos (tablas (snd (eliminarVehiculo id w)))).
Proof.
  intros Hinv. repeat apply conj.
  - intros m cap cons Bc Bk.
    destruct (crearVehiculo m cap cons w) as [res w'] eqn:E.
    destruct (crearVehiculo_cases _ _ _ _ _ _ E)
      as [[Ht _]|(C & K & _ & _ & _ & Ht)]; simpl; rewrite Ht; [exact Hinv|].
    intros id v. simpl.
    destruct (Z.eq_dec (vehiculo_autoincrement w) id) as [<-|Hne].
    + rewrite lookup_insert_eq. intros V. inversion V; subst v. simpl.
      split; apply of_number_no_positivo; assumption.
    + rewrite lookup_insert_ne by exact Hne. apply Hinv.
  - intros id data Bc Bk.
    destruct (actualizarVehiculo id data w) as [res w'] eqn:E.
    destruct (actualizarVehiculo_cases _ _ _ _ _ E)
      as [[Ht _]|(old & Hold & C & K & _ & Ht)]; simpl; rewrite Ht; [exact Hinv|].
    destruct (Hinv id old Hold) as [Hc Hk].
    intros id' v. simpl.
    destruct (Z.eq_dec id id') as [<-|Hne].
    + rewrite lookup_insert_eq. intros V. inversion V; subst v. simpl.
      split; apply of_number_if_defined; assumption.
    + rewrite lookup_insert_ne by exact Hne. apply Hinv.
  - intros id.
    destruct (eliminarVehiculo id w) as [res w'] eqn:E.
    destruct (eliminarVehiculo_cases _ _ _ _ E)
      as [[Ht _]|(v & s & _ & _ & Ht)]; simpl; rewrite Ht; [exact Hinv|].
    intros id' v'. simpl.
    destruct (Z.eq_dec id id') as [<-|Hne].
    + rewrite lookup_delete_eq. discriminate.
    + rewrite lookup_delete_ne by exact Hne. apply Hinv.
Qed.

Lemma vehiculos_siempre_positivos_witness :
  vehiculos_positivos
    (tablas (snd (crearVehiculo "XYZ789" (literal 125 (-1)) (literal 8 0) sistema_vacio))).
Proof.
  apply (proj1 (vehiculos_siempre_positivos sistema_vacio
                  (proj1 sistema_vacio_sin_registros))); reflexivity.
Defined.

(** *** Clients *)

Lemma crearCliente_cases (nombre : string) (tipo : ClienteTipo) (direccion : string)
    (tarifa : number) (w : Sistema) (res : Outcome (Z * Cliente)) (w' : Sistema) :
  crearCliente nombre tipo direccion tarifa w = (res, w') ->
  (tablas w' = tablas w /\ exists msg, res = Throws msg)
  \/ (Number.leb tarifa Number.zero = false
      /\ clientes (tablas w) !! cliente_autoincrement w = None
      /\ res = Returns (cliente_autoincrement w,
                        {| cliente_nombre := nombre; cliente_tipo := tipo;
                           cliente_direccion := direccion;
                           tarifa_por_m3 := Prisma.of_number tarifa |})
      /\ tablas w'
         = PrismaClient.cliente.con_clientes
             (<[cliente_autoincrement w :=
                  {| cliente_nombre := nombre; cliente_tipo := tipo;
                     cliente_direccion := direccion;
                     tarifa_por_m3 := Prisma.of_number tarifa |}]>
                (clientes (tablas w))) (tablas w)).
Proof.
  intros H. unfold_catalogo.
  destruct (Number.leb tarifa Number.zero) eqn:C;
    [inversion H; subst; left; eauto|].
  split_consulta H; [inversion H; subst; left; eauto|].
  destruct (clientes (tablas w) !! cliente_autoincrement w) eqn:F;
    simpl in H; inversion H; subst; [left; eauto|].
  right. repeat split; reflexivity.
Qed.

Lemma actualizarCliente_cases (id : Z) (data : ActualizarClienteData) (w : Sistema)
    (res : Outcome Cliente) (w' : Sistema) :
  actualizarCliente id data w = (res, w') ->
  (tablas w' = tablas w /\ exists msg, res = Throws msg)
  \/ (exists old,
         clientes (tablas w) !! id = Some old
         /\ defined_and_not_positive (cli_tarifa_por_m3 data) = false
         /\ res = Returns
                    {| cliente_nombre := default (cliente_nombre old) (cli_nombre data);
                       cliente_tipo := default (cliente_tipo old) (cli_tipo data);
                       cliente_direccion :=
                         default (cliente_direccion old) (cli_direccion data);
                       tarifa_por_m3 :=
                         default (tarifa_por_m3 old)
                                 (Prisma.of_number <$> cli_tarifa_por_m3 data) |}
         /\ tablas w'
            = PrismaClient.cliente.con_clientes
                (<[id :=
                     {| cliente_nombre :=
                          default (cliente_nombre old) (cli_nombre data);
                        cliente_tipo := default (cliente_tipo old) (cli_tipo data);
                        cliente_direccion :=
                          default (cliente_direccion old) (cli_direccion data);
                        tarifa_por_m3 :=
                          default (tarifa_por_m3 old)
                                  (Prisma.of_number <$> cli_tarifa_por_m3 data) |}]>
                   (clientes (tablas w))) (tablas w)).
Proof.
  intros H. unfold_catalogo.
  destruct (defined_and_not_positive (cli_tarifa_por_m3 data)) eqn:C;
    [inversion H; subst; left; eauto|].
  split_consulta H; [inversion H; subst; left; eauto|].
  destruct (clientes (tablas w) !! id) as [old|] eqn:F;
    simpl in H; inversion H; subst; [|left; eauto].
  right. exists old. repeat split; reflexivity.
Qed.

Lemma eliminarCliente_cases (id : Z) (w : Sistema) (res : Outcome Cliente)
    (w' : Sistema) :
  eliminarCliente id w = (res, w') ->
  (tablas w' = tablas w /\ exists msg, res = Throws msg)
  \/ (exists c s,
         clientes (tablas w) !! id = Some c /\ res = Returns c
         /\ tablas w'
            = PrismaClient.cliente.con_clientes
                (base.delete id (clientes (tablas w)))
                (PrismaClient.con_servicios (tablas w) s)).
Proof.
  intros H. unfold_catalogo.
  split_consulta H; [inversion H; subst; left; eauto|].
  destruct (PrismaClient.delete_referido _ _ _ _ w) as [r w1] eqn:D.
  destruct (delete_referido_cases _ _ _ _ _ _ _ D) as [[-> [e ->]]|(v & s & Hv & -> & Hw)];
    simpl in H; inversion H; subst.
  - left. eauto.
  - right. exists v, s. repeat split; auto.
Qed.

(** X19. No client with a rate [<= 0] is ever stored: whatever the store does,
    crearCliente, actualizarCliente and eliminarCliente leave no such
    client in a table that had none, when the rate they are given is a
    binary64 value. *)
Theorem tarifas_siempre_positivas (w : Sistema) :
  tarifas_positivas (tablas w) ->
  (forall nombre tipo direccion tarifa,
      binary64 tarifa = true ->
      tarifas_positivas (tablas (snd (crearCliente nombre tipo direccion tarifa w))))
  /\ (forall id data,
         binary64_if_defined (cli_tarifa_por_m3 data) = true ->
         tarifas_positivas (tablas (snd (actualizarCliente id data w))))
  /\ (forall id, tarifas_positivas (tablas (snd (eliminarCliente id w)))).
Proof.
  intros Hinv. repeat apply conj.
  - intros nombre tipo direccion tarifa B.
    destruct (crearCliente nombre tipo direccion tarifa w) as [res w'] eqn:E.
    destruct (crearCliente_cases _ _ _ _ _ _ _ E)
      as [[Ht _]|(C & _ & _ & Ht)]; simpl; rewrite Ht; [exact Hinv|].
    intros id c. simpl.
    destruct (Z.eq_dec (cliente_autoincrement w) id) as [<-|Hne].
    + rewrite lookup_insert_eq. intros V. inversion V; subst c. simpl.
      apply of_number_no_positivo; assumption.
    + rewrite lookup_insert_ne by exact Hne. apply Hinv.
  - intros id data B.
    destruct (actualizarCliente id data w) as [res w'] eqn:E.
    destruct (actualizarCliente_cases _ _ _ _ _ E)
      as [[Ht _]|(old & Hold & C & _ & Ht)]; simpl; rewrite Ht; [exact Hinv|].
    pose proof (Hinv id old Hold) as Hc.
    intros id' c. simpl.
    destruct (Z.eq_dec id id') as [<-|Hne].
    + rewrite lookup_insert_eq. intros V. inversion V; subst c. simpl.
      apply of_number_if_defined; assumption.
    + rewrite lookup_insert_ne by exact Hne. apply Hinv.
  - intros id.
    destruct (eliminarCliente id w) as [res w'] eqn:E.
    destruct (eliminarCliente_cases _ _ _ _ E)
      as [[Ht _]|(v & s & _ & _ & Ht)]; simpl; rewrite Ht; [exact Hinv|].
    intros id' c'. simpl.
    destruct (Z.eq_dec id id') as [<-|Hne].
    + rewrite lookup_delete_eq. discriminate.
    + rewrite lookup_delete_ne by exact Hne. apply Hinv.
Qed.

Lemma tarifas_siempre_positivas_witness :
  tarifas_positivas
    (tablas (snd (crearCliente "Casa Luz" CASA "Calle 3" (literal 425 (-2)) sistema_vacio))).
Proof.
  apply (proj1 (tarifas_siempre_positivas sistema_vacio
                  (proj1 (proj2 sistema_vacio_sin_registros)))); reflexivity.
Defined.

(** X20. The cost follows the rate: after actualizarCliente has returned a
    client, every creation or update of a ServicioRecogida of that client
    that succeeds persists the cost derived from the rate of the client as
    it was returned, which is the decimal of the number the update
    supplied, or the stored rate when it supplied none. *)
Theorem costo_con_la_tarifa_actualizada (id : Z) (data : ActualizarClienteData)
    (w : Sistema) (c : Cliente) (w1 : Sistema) (r : ServicioRecogida) (st2 : Estado) :
  actualizarCliente id data w = (Returns c, w1) ->
  (exists nuevo, crearServicioRecogida nuevo (estado w1) = (Ok r, st2))
  \/ (exists sid cambios,
         actualizarServicioRecogida sid cambios (estado w1) = (Ok r, st2)) ->
  sr_clienteId r = id ->
  sr_costo_servicio r = costo (sr_volumen_recogido_m3 r) (tarifa_por_m3 c)
  /\ exists old,
       clientes (tablas w) !! id = Some old
       /\ tarifa_por_m3 c
          = default (tarifa_por_m3 old) (Prisma.of_number <$> cli_tarifa_por_m3 data).
Proof.
  intros H S Hid.
  destruct (actualizarCliente_cases _ _ _ _ _ H)
    as [[_ [msg E]]|(old & Hold & _ & E & Ht)]; [discriminate E|].
  injection E as Ec.
  assert (L : clientes (db (estado w1)) !! id = Some c).
  { change (db (estado w1)) with (tablas w1). rewrite Ht, Ec. simpl.
    apply lookup_insert_eq. }
  split; [|exists old; split; [exact Hold|rewrite Ec; reflexivity]].
  destruct S as [(nuevo & S)|(sid & cambios & S)].
  - destruct (crear_ok _ _ _ _ S)
      as (v & c' & t & _ & _ & _ & Hc' & _ & Hr & _).
    rewrite Hr in Hid. simpl in Hid. rewrite Hid, L in Hc'. inversion Hc'; subst c'.
    rewrite Hr. reflexivity.
  - destruct (actualizar_ok _ _ _ _ _ S)
      as (o & v & c' & t & _ & _ & _ & _ & Hc' & _ & Hr & _).
    rewrite Hr in Hid. simpl in Hid. rewrite Hid, L in Hc'. inversion Hc'; subst c'.
    rewrite Hr. reflexivity.
Qed.

Lemma costo_con_la_tarifa_actualizada_witness :
  sr_costo_servicio
    {| sr_id := 1; sr_clienteId := 1; sr_vehiculoId := 1; sr_trabajadorId := 1;
       sr_fecha := fecha_ejemplo; sr_volumen_recogido_m3 := DFin 15 0;
       sr_costo_servicio := DFin 9 1 |}
  = costo (DFin 15 0) (DFin 6 0)
  /\ exists old,
       clientes (tablas sistema_ejemplo) !! 1 = Some old
       /\ DFin 6 0
          = default (tarifa_por_m3 old)
                    (Prisma.of_number <$> cli_tarifa_por_m3 (solo_tarifa (literal 6 0))).
Proof.
  apply (costo_con_la_tarifa_actualizada 1 (solo_tarifa (literal 6 0)) sistema_ejemplo
           {| cliente_nombre := "Hotel Sol"; cliente_tipo := HOTEL;
              cliente_direccion := "Calle 1"; tarifa_por_m3 := DFin 6 0 |}
           (snd (actualizarCliente 1 (solo_tarifa (literal 6 0)) sistema_ejemplo))
           {| sr_id := 1; sr_clienteId := 1; sr_vehiculoId := 1; sr_trabajadorId := 1;
              sr_fecha := fecha_ejemplo; sr_volumen_recogido_m3 := DFin 15 0;
              sr_costo_servicio := DFin 9 1 |}
           (snd (crearServicioRecogida (crear_con 1 (literal 15 0))
                   (estado (snd (actualizarCliente 1 (solo_tarifa (literal 6 0))
                                   sistema_ejemplo)))))).
  - vm_compute. reflexivity.
  - left. exists (crear_con 1 (literal 15 0)). vm_compute. reflexivity.
  - reflexivity.
Defined.

(** *** Workers *)

Lemma crearTrabajador_cases (nombre rol' : string) (salario : number) (w : Sistema)
    (res : Outcome (Z * Trabajador)) (w' : Sistema) :
  crearTrabajador nombre rol' salario w = (res, w') ->
  (tablas w' = tablas w /\ exists msg, res = Throws msg)
  \/ (Number.leb salario Number.zero = false
      /\ trabajadores (tablas w) !! trabajador_autoincrement w = None
      /\ res = Returns (trabajador_autoincrement w,
                        {| trabajador_nombre := nombre; rol := rol';
                           salario_base := Prisma.of_number salario |})
      /\ tablas w'
         = PrismaClient.trabajador.con_trabajadores
             (<[trabajador_autoincrement w :=
                  {| trabajador_nombre := nombre; rol := rol';
                     salario_base := Prisma.of_number salario |}]>
                (trabajadores (tablas w))) (tablas w)).
Proof.
  intros H. unfold_catalogo.
  destruct (Number.leb salario Number.zero) eqn:C;
    [inversion H; subst; left; eauto|].
  split_consulta H; [inversion H; subst; left; eauto|].
  destruct (trabajadores (tablas w) !! trabajador_autoincrement w) eqn:F;
    simpl in H; inversion H; subst; [left; eauto|].
  right. repeat split; reflexivity.
Qed.

Lemma actualizarTrabajador_cases (id : Z) (data : ActualizarTrabajadorData)
    (w : Sistema) (res : Outcome Trabajador) (w' : Sistema) :
  actualizarTrabajador id data w = (res, w') ->
  (tablas w' = tablas w /\ exists msg, res = Throws msg)
  \/ (exists old,
         trabajadores (tablas w) !! id = Some old
         /\ defined_and_not_positive (trab_salario_base data) = false
         /\ res = Returns
                    {| trabajador_nombre :=
                         default (trabajador_nombre old) (trab_nombre data);
                       rol := default (rol old) (trab_rol data);
                       salario_base :=
                         default (salario_base old)
                                 (Prisma.of_number <$> trab_salario_base data) |}
         /\ tablas w'
            = PrismaClient.trabajador.con_trabajadores
                (<[id :=
                     {| trabajador_nombre :=
                          default (trabajador_nombre old) (trab_nombre data);
                        rol := default (rol old) (trab_rol data);
                        salario_base :=
                          default (salario_base old)
                                  (Prisma.of_number <$> trab_salario_base data) |}]>
                   (trabajadores (tablas w))) (tablas w)).
Proof.
  intros H. unfold_catalogo.
  destruct (defined_and_not_positive (trab_salario_base data)) eqn:C;
    [inversion H; subst; left; eauto|].
  split_consulta H; [inversion H; subst; left; eauto|].
  destruct (trabajadores (tablas w) !! id) as [old|] eqn:F;
    simpl in H; inversion H; subst; [|left; eauto].
  right. exists old. repeat split; reflexivity.
Qed.

Lemma eliminarTrabajador_cases (id : Z) (w : Sistema) (res : Outcome Trabajador)
    (w' : Sistema) :
  eliminarTrabajador id w = (res, w') ->
  (tablas w' = tablas w /\ exists msg, res = Throws msg)
  \/ (exists t s,
         trabajadores (tablas w) !! id = Some t /\ res = Returns t
         /\ tablas w'
            = PrismaClient.trabajador.con_trabajadores
                (base.delete id (trabajadores (tablas w)))
                (PrismaClient.con_servicios (tablas w) s)).
Proof.
  intros H. unfold_catalogo.
  split_consulta H; [inversion H; subst; left; eauto|].
  destruct (PrismaClient.delete_referido _ _ _ _ w) as [r w1] eqn:D.
  destruct (delete_referido_cases _ _ _ _ _ _ _ D) as [[-> [e ->]]|(v & s & Hv & -> & Hw)];
    simpl in H; inversion H; subst.
  - left. eauto.
  - right. exists v, s. repeat split; auto.
Qed.

(** X21. No worker with a salary [<= 0] is ever stored: whatever the store
    does, crearTrabajador, actualizarTrabajador and eliminarTrabajador
    leave no such worker in a table that had none, when the salary they
    are given is a binary64 value. *)
Theorem salarios_siempre_positivos (w : Sistema) :
  salarios_positivos (tablas w) ->
  (forall nombre rol salario,
      binary64 salario = true ->
      salarios_positivos (tablas (snd (crearTrabajador nombre rol salario w))))
  /\ (forall id data,
         binary64_if_defined (trab_salario_base data) = true ->
         salarios_positivos (tablas (snd (actualizarTrabajador id data w))))
  /\ (forall id, salarios_positivos (tablas (snd (eliminarTrabajador id w)))).
Proof.
  intros Hinv. repeat apply conj.
  - intros nombre rol' salario B.
    destruct (crearTrabajador nombre rol' salario w) as [res w'] eqn:E.
    destruct (crearTrabajador_cases _ _ _ _ _ _ E)
      as [[Ht _]|(C & _ & _ & Ht)]; simpl; rewrite Ht; [exact Hinv|].
    intros id t. simpl.
    destruct (Z.eq_dec (trabajador_autoincrement w) id) as [<-|Hne].
    + rewrite lookup_insert_eq. intros V. inversion V; subst t. simpl.
      apply of_number_no_positivo; assumption.
    + rewrite lookup_insert_ne by exact Hne. apply Hinv.
  - intros id data B.
    destruct (actualizarTrabajador id data w) as [res w'] eqn:E.
    destruct (actualizarTrabajador_cases _ _ _ _ _ E)
      as [[Ht _]|(old & Hold & C & _ & Ht)]; simpl; rewrite Ht; [exact Hinv|].
    pose proof (Hinv id old Hold) as Hc.
    intros id' t. simpl.
    destruct (Z.eq_dec id id') as [<-|Hne].
    + rewrite lookup_insert_eq. intros V. inversion V; subst t. simpl.
      apply of_number_if_defined; assumption.
    + rewrite lookup_insert_ne by exact Hne. apply Hinv.
  - intros id.
    destruct (eliminarTrabajador id w) as [res w'] eqn:E.
    destruct (eliminarTrabajador_cases _ _ _ _ E)
      as [[Ht _]|(v & s & _ & _ & Ht)]; simpl; rewrite Ht; [exact Hinv|].
    intros id' t'. simpl.
    destruct (Z.eq_dec id id') as [<-|Hne].
    + rewrite lookup_delete_eq. discriminate.
    + rewrite lookup_delete_ne by exact Hne. apply Hinv.
Qed.

Lemma salarios_siempre_positivos_witness :
  salarios_positivos
    (tablas (snd (crearTrabajador "Luis" "operario" (literal 1200 0) sistema_vacio))).
Proof.
  apply (proj1 (salarios_siempre_positivos sistema_vacio
                  (proj2 (proj2 sistema_vacio_sin_registros)))); reflexivity.
Defined.

Lemma obtener_trabajador_up (id : Z) (w : Sistema) :
  next_call_up (estado w) ->
  fst (obtenerTrabajadorPorId id w) = Returns (trabajadores (tablas w) !! id).
Proof.
  intros H. unfold_catalogo. rewrite consulta_up by exact H. reflexivity.
Qed.

Lemma obtener_trabajadores_up (w : Sistema) :
  next_call_up (estado w) ->
  fst (obtenerTrabajadores w) = Returns (map_to_list (trabajadores (tablas w))).
Proof.
  intros H. unfold_catalogo. rewrite consulta_up by exact H. reflexivity.
Qed.

(** X22. What the service of the workers has written reads back. A worker that
    crearTrabajador returned has the name and the role it was given and the
    salary as the decimal of the number; one that actualizarTrabajador
    returned has each field the update supplied replaced and every other
    field as it was stored. Either way, while the store does not fail the
    call, obtenerTrabajadorPorId returns that worker for its identifier and
    obtenerTrabajadores lists it under that identifier. *)
Theorem trabajador_escrito_y_leido (w : Sistema) :
  (forall nombre rol salario id t w1,
      crearTrabajador nombre rol salario w = (Returns (id, t), w1) ->
      t = {| trabajador_nombre := nombre; rol := rol;
             salario_base := Prisma.of_number salario |}
      /\ (next_call_up (estado w1) ->
          fst (obtenerTrabajadorPorId id w1) = Returns (Some t)
          /\ exists l, fst (obtenerTrabajadores w1) = Returns l /\ In (id, t) l))
  /\
  (forall id data t w1,
      actualizarTrabajador id data w = (Returns t, w1) ->
      (exists old,
          trabajadores (tablas w) !! id = Some old
          /\ t = {| trabajador_nombre :=
                      default (trabajador_nombre old) (trab_nombre data);
                    rol := default (rol old) (trab_rol data);
                    salario_base :=
                      default (salario_base old)
                              (Prisma.of_number <$> trab_salario_base data) |})
      /\ (next_call_up (estado w1) ->
          fst (obtenerTrabajadorPorId id w1) = Returns (Some t)
          /\ exists l, fst (obtenerTrabajadores w1) = Returns l /\ In (id, t) l)).
Proof.
  assert (R : forall id t w1,
             trabajadores (tablas w1) !! id = Some t ->
             next_call_up (estado w1) ->
             fst (obtenerTrabajadorPorId id w1) = Returns (Some t)
             /\ exists l, fst (obtenerTrabajadores w1) = Returns l /\ In (id, t) l).
  { intros id t w1 L Hup.
    rewrite obtener_trabajador_up, obtener_trabajadores_up by exact Hup.
    rewrite L. split; [reflexivity|]. eexists. split; [reflexivity|].
    apply list_elem_of_In, elem_of_map_to_list. exact L. }
  split.
  - intros nombre rol' salario id t w1 H.
    destruct (crearTrabajador_cases _ _ _ _ _ _ H)
      as [[_ [msg E]]|(_ & _ & E & Ht)]; [discriminate E|].
    injection E as Eid Et. split; [exact Et|].
    apply R. rewrite Ht, Eid, Et. simpl. apply lookup_insert_eq.
  - intros id data t w1 H.
    destruct (actualizarTrabajador_cases _ _ _ _ _ H)
      as [[_ [msg E]]|(old & Hold & _ & E & Ht)]; [discriminate E|].
    injection E as Et. split; [exists old; split; [exact Hold|exact Et]|].
    apply R. rewrite Ht, Et. simpl. apply lookup_insert_eq.
Qed.

Lemma trabajador_escrito_y_leido_witness :
  fst (obtenerTrabajadorPorId 1
         (snd (actualizarTrabajador 1 (solo_rol "supervisor") sistema_ejemplo)))
  = Returns (Some {| trabajador_nombre := "Ana"; rol := "supervisor";
                     salario_base := DFin 1 3 |})
  /\ exists l,
       fst (obtenerTrabajadores
              (snd (actualizarTrabajador 1 (solo_rol "supervisor") sistema_ejemplo)))
       = Returns l
       /\ In (1, {| trabajador_nombre := "Ana"; rol := "supervisor";
                    salario_base := DFin 1 3 |}) l.
Proof.
  apply (proj2 (proj2 (trabajador_escrito_y_leido sistema_ejemplo)
                  1 (solo_rol "supervisor")
                  {| trabajador_nombre := "Ana"; rol := "supervisor";
                     salario_base := DFin 1 3 |}
                  (snd (actualizarTrabajador 1 (solo_rol "supervisor") sistema_ejemplo))
                  ltac:(vm_compute; reflexivity))).
  unfold next_call_up. vm_compute. discriminate.
Defined.

Lemma obtener_cliente_up (id : Z) (w : Sistema) :
  next_call_up (estado w) ->
  fst (obtenerClientePorId id w) = Returns (clientes (tablas w) !! id).
Proof.
  intros H. unfold_catalogo. rewrite consulta_up by exact H. reflexivity.
Qed.

Lemma obtener_clientes_up (w : Sistema) :
  next_call_up (estado w) ->
  fst (obtenerClientes w) = Returns (map_to_list (clientes (tablas w))).
Proof.
  intros H. unfold_catalogo. rewrite consulta_up by exact H. reflexivity.
Qed.

(** X23. What the service of the clients has written reads back: the client
    that crearCliente returned has the fields it was given, with the rate
    as the decimal of the number, and the one that actualizarCliente
    returned has each field the update supplied replaced and every other
    field as it was stored; while the store does not fail the call,
    obtenerClientePorId returns that client for its identifier and
    obtenerClientes lists it under that identifier. *)
Theorem cliente_escrito_y_leido (w : Sistema) :
  (forall nombre tipo direccion tarifa id c w1,
      crearCliente nombre tipo direccion tarifa w = (Returns (id, c), w1) ->
      c = {| cliente_nombre := nombre; cliente_tipo := tipo;
             cliente_direccion := direccion;
             tarifa_por_m3 := Prisma.of_number tarifa |}
      /\ (next_call_up (estado w1) ->
          fst (obtenerClientePorId id w1) = Returns (Some c)
          /\ exists l, fst (obtenerClientes w1) = Returns l /\ In (id, c) l))
  /\
  (forall id data c w1,
      actualizarCliente id data w = (Returns c, w1) ->
      (exists old,
          clientes (tablas w) !! id = Some old
          /\ c = {| cliente_nombre := default (cliente_nombre old) (cli_nombre data);
                    cliente_tipo := default (cliente_tipo old) (cli_tipo data);
                    cliente_direccion :=
                      default (cliente_direccion old) (cli_direccion data);
                    tarifa_por_m3 :=
                      default (tarifa_por_m3 old)
                              (Prisma.of_number <$> cli_tarifa_por_m3 data) |})
      /\ (next_call_up (estado w1) ->
          fst (obtenerClientePorId id w1) = Returns (Some c)
          /\ exists l, fst (obtenerClientes w1) = Returns l /\ In (id, c) l)).
Proof.
  assert (R : forall id c w1,
             clientes (tablas w1) !! id = Some c ->
             next_call_up (estado w1) ->
             fst (obtenerClientePorId id w1) = Returns (Some c)
             /\ exists l, fst (obtenerClientes w1) = Returns l /\ In (id, c) l).
  { intros id c w1 L Hup.
    rewrite obtener_cliente_up, obtener_clientes_up by exact Hup.
    rewrite L. split; [reflexivity|]. eexists. split; [reflexivity|].
    apply list_elem_of_In, elem_of_map_to_list. exact L. }
  split.
  - intros nombre tipo direccion tarifa id c w1 H.
    destruct (crearCliente_cases _ _ _ _ _ _ _ H)
      as [[_ [msg E]]|(_ & _ & E & Ht)]; [discriminate E|].
    injection E as Eid Ec. split; [exact Ec|].
    apply R. rewrite Ht, Eid, Ec. simpl. apply lookup_insert_eq.
  - intros id data c w1 H.
    destruct (actualizarCliente_cases _ _ _ _ _ H)
      as [[_ [msg E]]|(old & Hold & _ & E & Ht)]; [discriminate E|].
    injection E as Ec. split; [exists old; split; [exact Hold|exact Ec]|].
    apply R. rewrite Ht, Ec. simpl. apply lookup_insert_eq.
Qed.

Lemma cliente_escrito_y_leido_witness :
  fst (obtenerClientePorId 1
         (snd (crearCliente "Casa Luz" CASA "Calle 3" (literal 425 (-2)) sistema_vacio)))
  = Returns (Some {| cliente_nombre := "Casa Luz"; cliente_tipo := CASA;
                     cliente_direccion := "Calle 3"; tarifa_por_m3 := DFin 425 (-2) |})
  /\ exists l,
       fst (obtenerClientes
              (snd (crearCliente "Casa Luz" CASA "Calle 3" (literal 425 (-2))
                      sistema_vacio)))
       = Returns l
       /\ In (1, {| cliente_nombre := "Casa Luz"; cliente_tipo := CASA;
                    cliente_direccion := "Calle 3"; tarifa_por_m3 := DFin 425 (-2) |}) l.
Proof.
  apply (proj2 (proj1 (cliente_escrito_y_leido sistema_vacio)
                  "Casa Luz"%string CASA "Calle 3"%string (literal 425 (-2)) 1
                  {| cliente_nombre := "Casa Luz"; cliente_tipo := CASA;
                     cliente_direccion := "Calle 3"; tarifa_por_m3 := DFin 425 (-2) |}
                  (snd (crearCliente "Casa Luz" CASA "Calle 3" (literal 425 (-2))
                          sistema_vacio))
                  ltac:(vm_compute; reflexivity))).
  unfold next_call_up. vm_compute. discriminate.
Defined.

Lemma obtener_vehiculo_up (id : Z) (w : Sistema) :
  next_call_up (estado w) ->
  fst (obtenerVehiculoPorId id w) = Returns (vehiculos (tablas w) !! id).
Proof.
  intros H. unfold_catalogo. rewrite consulta_up by exact H. reflexivity.
Qed.

Lemma obtener_vehiculos_up (w : Sistema) :
  next_call_up (estado w) ->
  fst (obtenerVehiculos w) = Returns (map_to_list (vehiculos (tablas w))).
Proof.
  intros H. unfold_catalogo. rewrite consulta_up by exact H. reflexivity.
Qed.

(** X24. What the service of the vehicles has written reads back: the vehicle
    that crearVehiculo returned has the plate it was given, with the
    capacity and the consumption as the decimals of the numbers, and the
    one that actualizarVehiculo returned has each field the update supplied
    replaced and every other field as it was stored; while the store does
    not fail the call, obtenerVehiculoPorId returns that vehicle for its
    identifier and obtenerVehiculos lists it under that identifier. *)
Theorem vehiculo_escrito_y_leido (w : Sistema) :
  (forall m cap cons id v w1,
      crearVehiculo m cap cons w = (Returns (id, v), w1) ->
      v = {| matricula := m; capacidad_max_m3 := Prisma.of_number cap;
             consumo_combustible_litros := Prisma.of_number cons |}
      /\ (next_call_up (estado w1) ->
          fst (obtenerVehiculoPorId id w1) = Returns (Some v)
          /\ exists l, fst (obtenerVehiculos w1) = Returns l /\ In (id, v) l))
  /\
  (forall id data v w1,
      actualizarVehiculo id data w = (Returns v, w1) ->
      (exists old,
          vehiculos (tablas w) !! id = Some old
          /\ v = {| matricula := default (matricula old) (veh_matricula data);
                    capacidad_max_m3 :=
                      default (capacidad_max_m3 old)
                              (Prisma.of_number <$> veh_capacidad_max_m3 data);
                    consumo_combustible_litros :=
                      default (consumo_combustible_litros old)
                              (Prisma.of_number
                                 <$> veh_consumo_combustible_litros data) |})
      /\ (next_call_up (estado w1) ->
          fst (obtenerVehiculoPorId id w1) = Returns (Some v)
          /\ exists l, fst (obtenerVehiculos w1) = Returns l /\ In (id, v) l)).
Proof.
  assert (R : forall id v w1,
             vehiculos (tablas w1) !! id = Some v ->
             next_call_up (estado w1) ->
             fst (obtenerVehiculoPorId id w1) = Returns (Some v)
             /\ exists l, fst (obtenerVehiculos w1) = Returns l /\ In (id, v) l).
  { intros id v w1 L Hup.
    rewrite obtener_vehiculo_up, obtener_vehiculos_up by exact Hup.
    rewrite L. split; [reflexivity|]. eexists. split; [reflexivity|].
    apply list_elem_of_In, elem_of_map_to_list. exact L. }
  split.
  - intros m cap cons id v w1 H.
    destruct (crearVehiculo_cases _ _ _ _ _ _ H)
      as [[_ [msg E]]|(_ & _ & _ & _ & E & Ht)]; [discriminate E|].
    injection E as Eid Ev. split; [exact Ev|].
    apply R. rewrite Ht, Eid, Ev. simpl. apply lookup_insert_eq.
  - intros id data v w1 H.
    destruct (actualizarVehiculo_cases _ _ _ _ _ H)
      as [[_ [msg E]]|(old & Hold & _ & _ & E & Ht)]; [discriminate E|].
    injection E as Ev. split; [exists old; split; [exact Hold|exact Ev]|].
    apply R. rewrite Ht, Ev. simpl. apply lookup_insert_eq.
Qed.

Lemma vehiculo_escrito_y_leido_witness :
  fst (obtenerVehiculoPorId 1
         (snd (crearVehiculo "XYZ789" (literal 125 (-1)) (literal 8 0) sistema_vacio)))
  = Returns (Some {| matricula := "XYZ789"; capacidad_max_m3 := DFin 125 (-1);
                     consumo_combustible_litros := DFin 8 0 |})
  /\ exists l,
       fst (obtenerVehiculos
              (snd (crearVehiculo "XYZ789" (literal 125 (-1)) (literal 8 0)
                      sistema_vacio)))
       = Returns l
       /\ In (1, {| matricula := "XYZ789"; capacidad_max_m3 := DFin 125 (-1);
                    consumo_combustible_litros := DFin 8 0 |}) l.
Proof.
  apply (proj2 (proj1 (vehiculo_escrito_y_leido sistema_vacio)
                  "XYZ789"%string (literal 125 (-1)) (literal 8 0) 1
                  {| matricula := "XYZ789"; capacidad_max_m3 := DFin 125 (-1);
                     consumo_combustible_litros := DFin 8 0 |}
                  (snd (crearVehiculo "XYZ789" (literal 125 (-1)) (literal 8 0)
                          sistema_vacio))
                  ltac:(vm_compute; reflexivity))).
  unfold next_call_up. vm_compute. discriminate.
Defined.

(** X25. The capacity that is checked is the current one: after
    actualizarVehiculo has returned a vehicle, every creation or update of a
    ServicioRecogida of that vehicle that succeeds persists a volume that
    does not exceed the capacity of the vehicle as it was returned, which
    is the decimal of the number the update supplied, or the stored
    capacity when it supplied none. *)
Theorem volumen_con_la_capacidad_actualizada (id : Z) (data : ActualizarVehiculoData)
    (w : Sistema) (v : Vehiculo) (w1 : Sistema) (r : ServicioRecogida) (st2 : Estado) :
  actualizarVehiculo id data w = (Returns v, w1) ->
  (exists nuevo, crearServicioRecogida nuevo (estado w1) = (Ok r, st2))
  \/ (exists sid cambios,
         actualizarServicioRecogida sid cambios (estado w1) = (Ok r, st2)) ->
  sr_vehiculoId r = id ->
  Prisma.greaterThan (sr_volumen_recogido_m3 r) (capacidad_max_m3 v) = false
  /\ exists old,
       vehiculos (tablas w) !! id = Some old
       /\ capacidad_max_m3 v
          = default (capacidad_max_m3 old)
                    (Prisma.of_number <$> veh_capacidad_max_m3 data).
Proof.
  intros H S Hid.
  destruct (actualizarVehiculo_cases _ _ _ _ _ H)
    as [[_ [msg E]]|(old & Hold & _ & _ & E & Ht)]; [discriminate E|].
  injection E as Ev.
  assert (L : vehiculos (db (estado w1)) !! id = Some v).
  { change (db (estado w1)) with (tablas w1). rewrite Ht, Ev. simpl.
    apply lookup_insert_eq. }
  split; [|exists old; split; [exact Hold|rewrite Ev; reflexivity]].
  destruct S as [(nuevo & S)|(sid & cambios & S)].
  - destruct (crear_ok _ _ _ _ S)
      as (v' & c & t & _ & Hv' & Hgt & _ & _ & Hr & _).
    rewrite Hr in Hid. simpl in Hid. rewrite Hid, L in Hv'. inversion Hv'; subst v'.
    rewrite Hr. exact Hgt.
  - destruct (actualizar_ok _ _ _ _ _ S)
      as (o & v' & c & t & _ & _ & Hv' & Hgt & _ & _ & Hr & _).
    rewrite Hr in Hid. simpl in Hid. rewrite Hid, L in Hv'. inversion Hv'; subst v'.
    rewrite Hr. exact Hgt.
Qed.

Lemma volumen_con_la_capacidad_actualizada_witness :
  Prisma.greaterThan (DFin 15 0) (DFin 16 0) = false
  /\ exists old,
       vehiculos (tablas sistema_ejemplo) !! 1 = Some old
       /\ DFin 16 0
          = default (capacidad_max_m3 old)
                    (Prisma.of_number
                       <$> veh_capacidad_max_m3 (solo_capacidad (literal 16 0))).
Proof.
  apply (volumen_con_la_capacidad_actualizada 1 (solo_capacidad (literal 16 0))
           sistema_ejemplo
           {| matricula := "ABC123"; capacidad_max_m3 := DFin 16 0;
              consumo_combustible_litros := DFin 8 0 |}
           (snd (actualizarVehiculo 1 (solo_capacidad (literal 16 0)) sistema_ejemplo))
           servicio_15
           (snd (crearServicioRecogida (crear_con 1 (literal 15 0))
                   (estado (snd (actualizarVehiculo 1 (solo_capacidad (literal 16 0))
                                   sistema_ejemplo)))))).
  - vm_compute. reflexivity.
  - left. exists (crear_con 1 (literal 15 0)). vm_compute. reflexivity.
  - reflexivity.
Defined.

(** ** The order of the costs *)

Lemma digits_fuel_exact (fuel : nat) (c : Z) :
  0 < c -> c < 2 ^ (Z.of_nat fuel + 1) ->
  10 ^ (Prisma.digits_fuel fuel c - 1) <= c < 10 ^ Prisma.digits_fuel fuel c.
Proof.
  revert c. induction fuel as [|fuel IH]; intros c Hc Hf.
  - simpl in *. change (2 ^ 1) with 2 in Hf. change (10 ^ (1 - 1)) with 1.
    change (10 ^ 1) with 10. lia.
  - cbn [Prisma.digits_fuel]. destruct (Z.ltb_spec c 10) as [L|L].
    + change (10 ^ (1 - 1)) with 1. change (10 ^ 1) with 10. lia.
    + assert (P : 0 < c / 10) by (apply Z.div_str_pos; lia).
      assert (F : c / 10 < 2 ^ (Z.of_nat fuel + 1)).
      { apply Z.div_lt_upper_bound; [lia|].
        replace (Z.of_nat (S fuel) + 1) with (Z.succ (Z.of_nat fuel + 1)) in Hf by lia.
        rewrite Z.pow_succ_r in Hf by lia.
        assert (0 < 2 ^ (Z.of_nat fuel + 1)) by (apply Z.pow_pos_nonneg; lia). lia. }
      specialize (IH (c / 10) P F).
      set (d := Prisma.digits_fuel fuel (c / 10)) in *. clearbody d.
      assert (Hd : 1 <= d).
      { destruct (Z.le_gt_cases 1 d) as [|G]; [assumption|].
        rewrite (Z.pow_neg_r 10 (d - 1)) in IH by lia.
        destruct (Z.eq_dec d 0) as [->|N].
        - change (10 ^ 0) with 1 in IH. lia.
        - rewrite (Z.pow_neg_r 10 d) in IH by lia. lia. }
      assert (E1 : 10 ^ d = 10 * 10 ^ (d - 1)).
      { replace d with (Z.succ (d - 1)) at 1 by lia. apply Z.pow_succ_r. lia. }
      assert (E2 : 10 ^ (1 + d) = 10 * 10 ^ d).
      { replace (1 + d) with (Z.succ d) by lia. apply Z.pow_succ_r. lia. }
      replace (1 + d - 1) with d by lia. rewrite E2.
      rewrite E1 in IH. rewrite E1.
      pose proof (Z.div_mod c 10 ltac:(lia)) as E.
      pose proof (Z.mod_pos_bound c 10 ltac:(lia)) as B.
      set (p := 10 ^ (d - 1)) in *. clearbody p.
      set (q := c / 10) in *. clearbody q. lia.
Qed.

Lemma digits10_exact (c : Z) :
  0 < c -> 10 ^ (Prisma.digits10 c - 1) <= c < 10 ^ Prisma.digits10 c.
Proof.
  intros H. unfold Prisma.digits10. apply digits_fuel_exact; [exact H|].
  rewrite Z2Nat.id by apply Z.log2_nonneg.
  pose proof (Z.log2_spec c H) as S.
  replace (Z.log2 c + 1) with (Z.succ (Z.log2 c)) by lia. lia.
Qed.

Section CostOrder.
Import Prisma.
Local Open Scope Q_scope.

Lemma pow10_le (a b : Z) : (a <= b)%Z -> (10 # 1) ^ a <= (10 # 1) ^ b.
Proof.
  intros H. replace b with (a + (b - a))%Z by lia.
  rewrite (Qpower_plus _ a (b - a) ten_neq_0).
  rewrite <- (Qmult_1_r ((10 # 1) ^ a)) at 1.
  apply Qmult_le_l; [apply pow10_pos|].
  rewrite <- inject_pow10 by lia. change 1 with (inject_Z 1).
  rewrite <- Zle_Qle.
  assert (0 < 10 ^ (b - a))%Z by (apply Z.pow_pos_nonneg; lia). lia.
Qed.

Lemma pow10_lt_inv (a b : Z) : (10 # 1) ^ a < (10 # 1) ^ b -> (a < b)%Z.
Proof.
  intros H. destruct (Z.lt_ge_cases a b) as [L|G]; [exact L|].
  exfalso. exact (Qlt_not_le _ _ H (pow10_le b a G)).
Qed.

Lemma to_Q_pos (c e : Z) : (0 < c)%Z -> 0 < to_Q c e.
Proof.
  intros H. unfold to_Q. apply Qmult_lt_0_compat; [|apply pow10_pos].
  change 0 with (inject_Z 0). rewrite <- Zlt_Qlt. exact H.
Qed.

Lemma to_Q_bracket (a e : Z) :
  (0 < a)%Z ->
  (10 # 1) ^ (e + digits10 a - 1) <= to_Q a e
  /\ to_Q a e < (10 # 1) ^ (e + digits10 a).
Proof.
  intros H. destruct (digits10_exact a H) as [L U].
  assert (D : (1 <= digits10 a)%Z).
  { destruct (Z.le_gt_cases 1 (digits10 a)) as [|G]; [assumption|].
    destruct (Z.eq_dec (digits10 a) 0%Z) as [E|N].
    - rewrite E in U. change (10 ^ 0)%Z with 1%Z in U. lia.
    - rewrite (Z.pow_neg_r 10 (digits10 a)) in U by lia. lia. }
  unfold to_Q. split.
  - replace (e + digits10 a - 1)%Z with (digits10 a - 1 + e)%Z by lia.
    rewrite (Qpower_plus _ _ e ten_neq_0).
    apply Qmult_le_compat_r; [|apply Qlt_le_weak, pow10_pos].
    rewrite <- inject_pow10 by lia. rewrite <- Zle_Qle. exact L.
  - replace (e + digits10 a)%Z with (digits10 a + e)%Z by lia.
    rewrite (Qpower_plus _ _ e ten_neq_0).
    apply Qmult_lt_compat_r; [apply pow10_pos|].
    rewrite <- inject_pow10 by lia. rewrite <- Zlt_Qlt. exact U.
Qed.

Lemma nearest_le (x y : Q) (g : Z) : x <= y -> nearest x g <= nearest y g.
Proof.
  intros H. unfold nearest. apply Qmult_le_compat_r.
  - rewrite <- Zle_Qle. apply Qfloor_resp_le.
    apply Qplus_le_l. apply Qmult_le_compat_r; [exact H|].
    apply Qlt_le_weak, pow10_pos.
  - apply Qlt_le_weak, Qinv_lt_0_compat, pow10_pos.
Qed.

Lemma nearest_nonneg (x : Q) (g : Z) : 0 <= x -> 0 <= nearest x g.
Proof.
  intros H. unfold nearest. apply Qmult_le_0_compat.
  - change 0 with (inject_Z 0). rewrite <- Zle_Qle.
    change 0%Z with (Qfloor 0). apply Qfloor_resp_le.
    apply Qle_trans with (0 + 0); [discriminate|].
    apply Qplus_le_compat; [|discriminate].
    apply Qmult_le_0_compat; [exact H|apply Qlt_le_weak, pow10_pos].
  - apply Qlt_le_weak, Qinv_lt_0_compat, pow10_pos.
Qed.

(** On the grid of [precision] digits below [10 ^ m], rounding does not
    pass [10 ^ m] nor fall under [10 ^ (m - 1)]. *)
Lemma nearest_upper (x : Q) (m : Z) :
  x < (10 # 1) ^ m -> nearest x (m - precision) <= (10 # 1) ^ m.
Proof.
  intros H. unfold nearest.
  set (s := (10 # 1) ^ (- (m - precision))).
  assert (Hs : 0 < s) by apply pow10_pos.
  assert (E : (10 # 1) ^ m == inject_Z (10 ^ precision) / s).
  { unfold s. rewrite inject_pow10 by (unfold precision; lia).
    rewrite Qpower_opp.
    replace m with (m - precision + precision)%Z at 1 by lia.
    rewrite (Qpower_plus _ _ precision ten_neq_0).
    field. apply pow10_neq_0. }
  rewrite E. apply Qmult_le_compat_r; [|apply Qlt_le_weak, Qinv_lt_0_compat, Hs].
  rewrite <- Zle_Qle.
  assert (L : x * s + (1 # 2) < inject_Z (10 ^ precision + 1)).
  { rewrite inject_Z_plus. apply Qplus_lt_le_compat; [|discriminate].
    rewrite inject_pow10 by (unfold precision; lia).
    assert (M : (10 # 1) ^ precision == (10 # 1) ^ m * s).
    { unfold s. rewrite <- (Qpower_plus _ _ _ ten_neq_0).
      replace (m + - (m - precision))%Z with precision by lia. reflexivity. }
    rewrite M. apply Qmult_lt_compat_r; assumption. }
  pose proof (Qfloor_le (x * s + (1 # 2))) as F.
  pose proof (Qle_lt_trans _ _ _ F L) as T. rewrite <- Zlt_Qlt in T. lia.
Qed.

Lemma nearest_lower (x : Q) (m : Z) :
  (10 # 1) ^ (m - 1) <= x -> (10 # 1) ^ (m - 1) <= nearest x (m - precision).
Proof.
  intros H. unfold nearest.
  set (s := (10 # 1) ^ (- (m - precision))).
  assert (Hs : 0 < s) by apply pow10_pos.
  assert (E : (10 # 1) ^ (m - 1) == inject_Z (10 ^ (precision - 1)) / s).
  { unfold s. rewrite inject_pow10 by (unfold precision; lia).
    rewrite Qpower_opp.
    replace (m - 1)%Z with (m - precision + (precision - 1))%Z at 1 by lia.
    rewrite (Qpower_plus _ _ (precision - 1) ten_neq_0).
    field. apply pow10_neq_0. }
  rewrite E at 1. apply Qmult_le_compat_r; [|apply Qlt_le_weak, Qinv_lt_0_compat, Hs].
  rewrite <- Zle_Qle.
  rewrite <- (Qfloor_Z (10 ^ (precision - 1))). apply Qfloor_resp_le.
  apply Qle_trans with (x * s + 0); [|apply Qplus_le_r; discriminate].
  rewrite Qplus_0_r.
  rewrite inject_pow10 by (unfold precision; lia).
  assert (M : (10 # 1) ^ (precision - 1) == (10 # 1) ^ (m - 1) * s).
  { unfold s. rewrite <- (Qpower_plus _ _ _ ten_neq_0).
    replace (m - 1 + - (m - precision))%Z with (precision - 1)%Z by lia. reflexivity. }
  rewrite M. apply Qmult_le_compat_r; [exact H|apply Qlt_le_weak, Hs].
Qed.

(** [finalise] of a positive coefficient is the nearest multiple of the
    unit of its [precision]-th digit. *)
Lemma finalise_value (a e : Z) :
  (0 < a)%Z ->
  exists c' e',
    finalise precision a e = DFin c' e'
    /\ to_Q c' e' == nearest (to_Q a e) (e + digits10 a - precision).
Proof.
  intros H. unfold finalise. rewrite (Z.abs_eq a) by lia.
  set (d := digits10 a).
  assert (R : nearest (to_Q a e) (e + d - precision)
              == if (e + d - precision <=? e)%Z then to_Q a e
                 else to_Q ((2 * a + 10 ^ (d - precision)) / (2 * 10 ^ (d - precision)))
                        (e + (d - precision))).
  { unfold nearest. rewrite round_half_up_nonneg by lia.
    rewrite Z.opp_involutive.
    replace (e + d - precision - e)%Z with (d - precision)%Z by lia.
    replace (e + d - precision)%Z with (e + (d - precision))%Z by lia.
    reflexivity. }
  destruct (Z.leb_spec d precision) as [L|L].
  - destruct (normalize_value a e) as (c' & e' & Hn & Hv).
    exists c', e'. split; [exact Hn|]. rewrite Hv, R.
    destruct (Z.leb_spec (e + d - precision) e) as [_|G]; [reflexivity|lia].
  - unfold round_half_up_div. rewrite (Z.sgn_pos a), (Z.abs_eq a), Z.mul_1_l by lia.
    destruct (normalize_value ((2 * a + 10 ^ (d - precision)) / (2 * 10 ^ (d - precision)))
                (e + (d - precision))) as (c' & e' & Hn & Hv).
    exists c', e'. split; [exact Hn|]. rewrite Hv, R.
    destruct (Z.leb_spec (e + d - precision) e) as [G|_]; [lia|reflexivity].
Qed.

Lemma finalise_zero (e : Z) : finalise precision 0 e = DFin 0 0.
Proof. reflexivity. Qed.

(** [finalise] keeps the order of what it rounds. *)
Lemma finalise_le (a e b f : Z) :
  (0 <= a)%Z -> (0 <= b)%Z -> to_Q a e <= to_Q b f ->
  exists c1 e1 c2 e2,
    finalise precision a e = DFin c1 e1
    /\ finalise precision b f = DFin c2 e2
    /\ 0 <= to_Q c1 e1 /\ to_Q c1 e1 <= to_Q c2 e2.
Proof.
  intros Ha Hb H.
  assert (Z0 : to_Q 0 0 == 0) by (unfold to_Q; ring).
  destruct (Z.eq_dec a 0%Z) as [->|Na]; [destruct (Z.eq_dec b 0%Z) as [->|Nb]|].
  - exists 0%Z, 0%Z, 0%Z, 0%Z. rewrite !finalise_zero, Z0.
    repeat apply conj; try reflexivity; apply Qle_refl.
  - destruct (finalise_value b f ltac:(lia)) as (c2 & e2 & F2 & V2).
    exists 0%Z, 0%Z, c2, e2. rewrite finalise_zero, Z0.
    repeat apply conj; try reflexivity; try apply Qle_refl; try exact F2.
    rewrite V2. apply nearest_nonneg, to_Q_nonneg. exact Hb.
  - assert (Pa : (0 < a)%Z) by lia.
    assert (Pb : (0 < b)%Z).
    { destruct (Z.eq_dec b 0%Z) as [->|Nb]; [|lia]. exfalso.
      pose proof (to_Q_pos a e Pa) as P.
      assert (E : to_Q 0 f == 0) by (unfold to_Q; ring).
      rewrite E in H. exact (Qlt_not_le _ _ P H). }
    destruct (finalise_value a e Pa) as (c1 & e1 & F1 & V1).
    destruct (finalise_value b f Pb) as (c2 & e2 & F2 & V2).
    exists c1, e1, c2, e2. split; [exact F1|]. split; [exact F2|].
    rewrite V1, V2. split; [apply nearest_nonneg, to_Q_nonneg; exact Ha|].
    destruct (to_Q_bracket a e Pa) as [La Ua].
    destruct (to_Q_bracket b f Pb) as [Lb Ub].
    set (ma := (e + digits10 a)%Z) in *. set (mb := (f + digits10 b)%Z) in *.
    assert (M : (ma - 1 < mb)%Z).
    { apply pow10_lt_inv. apply Qle_lt_trans with (to_Q a e); [exact La|].
      apply Qle_lt_trans with (to_Q b f); assumption. }
    destruct (Z.eq_dec ma mb) as [E|N].
    + rewrite E. apply nearest_le. exact H.
    + apply Qle_trans with ((10 # 1) ^ ma); [apply nearest_upper; exact Ua|].
      apply Qle_trans with ((10 # 1) ^ (mb - 1)); [apply pow10_le; lia|].
      apply nearest_lower. exact Lb.
Qed.

Lemma round_half_up_le (x y : Q) (dp : Z) :
  0 <= x -> x <= y ->
  0 <= round_half_up x dp /\ round_half_up x dp <= round_half_up y dp.
Proof.
  intros Hx H. unfold round_half_up.
  assert (Hy : 0 <= y) by (apply Qle_trans with x; assumption).
  apply Qle_bool_iff in Hx as Bx. apply Qle_bool_iff in Hy as By_.
  rewrite Bx, By_.
  pose proof (nearest_nonneg x (- dp) Hx) as N.
  pose proof (nearest_le x y (- dp) H) as L.
  unfold nearest in N, L. rewrite Z.opp_involutive in N, L. split; assumption.
Qed.

Lemma lessThanOrEqualTo_to_Q (c e c' e' : Z) :
  lessThanOrEqualTo (DFin c e) (DFin c' e') = true <-> to_Q c e <= to_Q c' e'.
Proof.
  unfold lessThanOrEqualTo, cmp.
  set (m := Z.min e e').
  assert (E1 : to_Q c e == to_Q (c * 10 ^ (e - m)) m).
  { rewrite to_Q_shift by (unfold m; lia). replace (m + (e - m))%Z with e by lia.
    reflexivity. }
  assert (E2 : to_Q c' e' == to_Q (c' * 10 ^ (e' - m)) m).
  { rewrite to_Q_shift by (unfold m; lia). replace (m + (e' - m))%Z with e' by lia.
    reflexivity. }
  rewrite E1, E2. unfold to_Q.
  set (A := (c * 10 ^ (e - m))%Z). set (B := (c' * 10 ^ (e' - m))%Z).
  split.
  - intros H. apply Qmult_le_compat_r; [|apply Qlt_le_weak, pow10_pos].
    rewrite <- Zle_Qle. destruct (Z.compare_spec A B); try discriminate H; lia.
  - intros H. apply Qmult_le_r in H; [|apply pow10_pos].
    rewrite <- Zle_Qle in H.
    destruct (Z.compare_spec A B); try reflexivity; lia.
Qed.

Lemma to_Q_nonneg_inv (c e : Z) : 0 <= to_Q c e -> (0 <= c)%Z.
Proof.
  intros H. apply Qle_bool_iff in H. rewrite Qle_bool_to_Q in H.
  apply Z.leb_le. exact H.
Qed.

Lemma costo_le (cv1 ev1 ct1 et1 cv2 ev2 ct2 et2 : Z) :
  (0 <= cv1)%Z -> (0 <= ct1)%Z ->
  to_Q cv1 ev1 <= to_Q cv2 ev2 -> to_Q ct1 et1 <= to_Q ct2 et2 ->
  exists c1 e1 c2 e2,
    costo (DFin cv1 ev1) (DFin ct1 et1) = DFin c1 e1
    /\ costo (DFin cv2 ev2) (DFin ct2 et2) = DFin c2 e2
    /\ 0 <= to_Q c1 e1 /\ to_Q c1 e1 <= to_Q c2 e2.
Proof.
  intros Hv Ht Lv Lt.
  pose proof (to_Q_nonneg cv1 ev1 Hv) as Qv. pose proof (to_Q_nonneg ct1 et1 Ht) as Qt.
  assert (Hv2 : (0 <= cv2)%Z)
    by (apply (to_Q_nonneg_inv cv2 ev2), Qle_trans with (to_Q cv1 ev1); assumption).
  assert (Ht2 : (0 <= ct2)%Z)
    by (apply (to_Q_nonneg_inv ct2 et2), Qle_trans with (to_Q ct1 et1); assumption).
  assert (P : to_Q (cv1 * ct1) (ev1 + et1) <= to_Q (cv2 * ct2) (ev2 + et2)).
  { rewrite !to_Q_mult. apply Qmult_le_compat_nonneg; split; assumption. }
  unfold costo, times.
  destruct (finalise_le (cv1 * ct1) (ev1 + et1) (cv2 * ct2) (ev2 + et2)
              ltac:(nia) ltac:(nia) P) as (a & e & b & f & -> & -> & N & L).
  destruct (toDecimalPlaces_value 2 a e) as (c1 & e1 & D1 & R1).
  destruct (toDecimalPlaces_value 2 b f) as (c2 & e2 & D2 & R2).
  exists c1, e1, c2, e2. split; [exact D1|]. split; [exact D2|].
  rewrite R1, R2. exact (round_half_up_le _ _ 2 N L).
Qed.
End CostOrder.

(** X26. More volume, or a higher rate, never costs less: for a volume and a
    rate that are not negative, the cost of a volume and a rate that are
    at least as large is at least as large. *)
Theorem costo_monotono (cv1 ev1 ct1 et1 cv2 ev2 ct2 et2 : Z) :
  0 <= cv1 -> 0 <= ct1 ->
  lessThanOrEqualTo (DFin cv1 ev1) (DFin cv2 ev2) = true ->
  lessThanOrEqualTo (DFin ct1 et1) (DFin ct2 et2) = true ->
  lessThanOrEqualTo (costo (DFin cv1 ev1) (DFin ct1 et1))
                    (costo (DFin cv2 ev2) (DFin ct2 et2)) = true.
Proof.
  intros Hv Ht Lv Lt.
  apply lessThanOrEqualTo_to_Q in Lv. apply lessThanOrEqualTo_to_Q in Lt.
  destruct (costo_le cv1 ev1 ct1 et1 cv2 ev2 ct2 et2 Hv Ht Lv Lt)
    as (c1 & e1 & c2 & e2 & -> & -> & _ & L).
  apply lessThanOrEqualTo_to_Q. exact L.
Qed.

Lemma costo_monotono_witness :
  lessThanOrEqualTo (costo (DFin 15 0) (DFin 425 (-2)))
                    (costo (DFin 155 (-1)) (DFin 4251 (-3))) = true.
Proof. apply costo_monotono; [lia|lia|reflexivity|reflexivity]. Defined.

(** X27. The cost of a volume at a rate, neither of them negative, is not
    negative. *)
Theorem costo_no_negativo (cv ev ct et : Z) :
  0 <= cv -> 0 <= ct ->
  lessThanOrEqualTo (DFin 0 0) (costo (DFin cv ev) (DFin ct et)) = true.
Proof.
  intros Hv Ht.
  destruct (costo_le cv ev ct et cv ev ct et Hv Ht (Qle_refl _) (Qle_refl _))
    as (c1 & e1 & c2 & e2 & E & _ & N & _).
  rewrite E. apply lessThanOrEqualTo_to_Q.
  assert (Z0 : (Prisma.to_Q 0 0 == 0)%Q) by (unfold Prisma.to_Q; ring).
  rewrite Z0. exact N.
Qed.

Lemma costo_no_negativo_witness :
  lessThanOrEqualTo (DFin 0 0) (costo (DFin 1 (-3)) (DFin 425 (-2))) = true.
Proof. apply costo_no_negativo; lia. Defined.
